(** * Elasticsearch output plugin: formatting core and response validation

    A shallow embedding of [plugins/out_es/es.c] (the sanitizer, the
    formatter, the response validator and the flush callback) and of
    [plugins/out_es/es_conf.c] (the creation and the destruction of the
    context), with the properties of its specification, and further
    properties of the code, stated and proved over it.

    Conventions of the embedding:
    - byte buffers are [list ascii]; a C string is the part of a buffer
      before its first NUL ([c_str]);
    - a [msgpack_object] is a tree; a [msgpack_sbuffer] is the sequence of
      items the packer wrote into it, in order;
    - functions and constants of other compilation units (libc's
      [strftime] and [gmtime_r], [flb_pack_json], [flb_ra_translate], the
      murmur hash, the allocator, the constants of es_bulk.h) are
      parameters: a section variable for the JSON packer and the allocator
      of the sanitizer, the fields of the record [platform] for the
      formatter;
    - [int] results keep their values (0, -1); [FLB_TRUE] and [FLB_FALSE]
      are the booleans;
    - the flush callback and the functions of [es_conf.c] return, with
      their result, the calls they made on the connection, the HTTP
      client and the heap; what the functions they call give back are
      the fields of the records [transport] and [conf_env];
    - where C leaves the behaviour undefined (a read past a buffer, an
      automatic variable read before it is assigned) or libc leaves a
      result unspecified, the embedding returns an explicit undefined
      outcome and makes no statement about the run.

    The file has two parts: the definitions (the embedding, then reference
    collaborators to evaluate it), and the properties. *)

From Stdlib Require Import String Ascii ZArith NArith Lia Bool Arith List.
Import ListNotations.
Open Scope list_scope.

Set Implicit Arguments.

(* ------------------------------------------------------------------ *)
(** ** Bytes and C strings *)
(* ------------------------------------------------------------------ *)

Definition bytes := list ascii.

Definition B (s : string) : bytes := list_ascii_of_string s.

Definition NUL : ascii := Ascii.zero.
Definition dquote : ascii := ascii_of_nat 34.
Definition newline : ascii := ascii_of_nat 10.

Abbreviation FLB_TRUE := true (only parsing).
Abbreviation FLB_FALSE := false (only parsing).

Module CStr.

(** The C string stored at the start of [mem]: the bytes before the first
    NUL (all of [mem] when it holds none). *)
Fixpoint c_str (mem : bytes) : bytes :=
  match mem with
  | [] => []
  | c :: rest => if Ascii.eqb c NUL then [] else c :: c_str rest
  end.

Definition strlen (mem : bytes) : nat := length (c_str mem).

Fixpoint starts_with (needle hay : bytes) : bool :=
  match needle, hay with
  | [], _ => true
  | _ :: _, [] => false
  | a :: needle', b :: hay' => Ascii.eqb a b && starts_with needle' hay'
  end.

Fixpoint find_sub (needle hay : bytes) : option nat :=
  if starts_with needle hay then Some 0
  else match hay with
       | [] => None
       | _ :: hay' => option_map S (find_sub needle hay')
       end.

(** [strstr]: offset of the first occurrence of the C string [needle] in
    the C string [hay], [None] for the null pointer. *)
Definition strstr (hay needle : bytes) : option nat :=
  find_sub (c_str needle) (c_str hay).

(** What "the C string [s] contains [needle]" means. *)
Definition contains (s needle : bytes) : Prop :=
  exists pre post, s = pre ++ needle ++ post.

Definition tolower (c : ascii) : ascii :=
  let n := nat_of_ascii c in
  if (65 <=? n) && (n <=? 90) then ascii_of_nat (n + 32) else c.

(** [strncasecmp s1 s2 n = 0], as a boolean: the first [n] characters agree
    up to case, the comparison stopping early at a NUL common to both. A
    buffer that ends is read as NUL. *)
Fixpoint strncasecmp_eq (s1 s2 : bytes) (n : nat) : bool :=
  match n with
  | O => true
  | S n' =>
      let c1 := hd NUL s1 in
      let c2 := hd NUL s2 in
      if Ascii.eqb (tolower c1) (tolower c2)
      then if Ascii.eqb c1 NUL then true
           else strncasecmp_eq (tl s1) (tl s2) n'
      else false
  end.

(** [strncmp s1 s2 n = 0], with the same reading of buffers. *)
Fixpoint strncmp_eq (s1 s2 : bytes) (n : nat) : bool :=
  match n with
  | O => true
  | S n' =>
      let c1 := hd NUL s1 in
      let c2 := hd NUL s2 in
      if Ascii.eqb c1 c2
      then if Ascii.eqb c1 NUL then true
           else strncmp_eq (tl s1) (tl s2) n'
      else false
  end.

(** [memcpy (buf + off, src, length src)]: overwrite [buf] from offset
    [off]; the buffer is a fixed array, so nothing is appended nor
    removed. The caller checks the bounds. *)
Definition memcpy_at (buf : bytes) (off : nat) (src : bytes) : bytes :=
  firstn off buf ++ src ++ skipn (off + length src) buf.

End CStr.
Import CStr.

(* ------------------------------------------------------------------ *)
(** ** MessagePack objects and the packer *)
(* ------------------------------------------------------------------ *)

#[warnings="-register-all"]
Inductive msgpack_object : Type :=
| MSGPACK_OBJECT_NIL
| MSGPACK_OBJECT_BOOLEAN (b : bool)
| MSGPACK_OBJECT_POSITIVE_INTEGER (u64 : N)
| MSGPACK_OBJECT_NEGATIVE_INTEGER (i64 : Z)
| MSGPACK_OBJECT_FLOAT (ieee_bits : N)
| MSGPACK_OBJECT_STR (s : bytes)
| MSGPACK_OBJECT_ARRAY (elts : list msgpack_object)
| MSGPACK_OBJECT_MAP (kvs : list (msgpack_object * msgpack_object))
| MSGPACK_OBJECT_BIN (s : bytes)
| MSGPACK_OBJECT_EXT (ext_type : Z) (s : bytes).

Definition msgpack_object_kv : Type := (msgpack_object * msgpack_object)%type.

(** The [type] tag of an object. *)
Inductive msgpack_object_type : Type :=
| T_NIL | T_BOOLEAN | T_POSITIVE_INTEGER | T_NEGATIVE_INTEGER | T_FLOAT
| T_STR | T_ARRAY | T_MAP | T_BIN | T_EXT.

Definition type_of (o : msgpack_object) : msgpack_object_type :=
  match o with
  | MSGPACK_OBJECT_NIL => T_NIL
  | MSGPACK_OBJECT_BOOLEAN _ => T_BOOLEAN
  | MSGPACK_OBJECT_POSITIVE_INTEGER _ => T_POSITIVE_INTEGER
  | MSGPACK_OBJECT_NEGATIVE_INTEGER _ => T_NEGATIVE_INTEGER
  | MSGPACK_OBJECT_FLOAT _ => T_FLOAT
  | MSGPACK_OBJECT_STR _ => T_STR
  | MSGPACK_OBJECT_ARRAY _ => T_ARRAY
  | MSGPACK_OBJECT_MAP _ => T_MAP
  | MSGPACK_OBJECT_BIN _ => T_BIN
  | MSGPACK_OBJECT_EXT _ _ => T_EXT
  end.

Definition is_type (t : msgpack_object_type) (o : msgpack_object) : bool :=
  match t, type_of o with
  | T_NIL, T_NIL | T_BOOLEAN, T_BOOLEAN
  | T_POSITIVE_INTEGER, T_POSITIVE_INTEGER
  | T_NEGATIVE_INTEGER, T_NEGATIVE_INTEGER | T_FLOAT, T_FLOAT
  | T_STR, T_STR | T_ARRAY, T_ARRAY | T_MAP, T_MAP | T_BIN, T_BIN
  | T_EXT, T_EXT => true
  | _, _ => false
  end.

(** Induction over objects, with the hypotheses for the children of an
    array and of a map. *)
Section ObjectInduction.
Variable P : msgpack_object -> Prop.
Hypothesis P_nil : P MSGPACK_OBJECT_NIL.
Hypothesis P_boolean : forall b, P (MSGPACK_OBJECT_BOOLEAN b).
Hypothesis P_positive : forall u, P (MSGPACK_OBJECT_POSITIVE_INTEGER u).
Hypothesis P_negative : forall i, P (MSGPACK_OBJECT_NEGATIVE_INTEGER i).
Hypothesis P_float : forall f, P (MSGPACK_OBJECT_FLOAT f).
Hypothesis P_str : forall s, P (MSGPACK_OBJECT_STR s).
Hypothesis P_array :
  forall elts, (forall e, In e elts -> P e) -> P (MSGPACK_OBJECT_ARRAY elts).
Hypothesis P_map :
  forall kvs, (forall k v, In (k, v) kvs -> P k /\ P v) ->
              P (MSGPACK_OBJECT_MAP kvs).
Hypothesis P_bin : forall s, P (MSGPACK_OBJECT_BIN s).
Hypothesis P_ext : forall t s, P (MSGPACK_OBJECT_EXT t s).

Fixpoint object_induction (o : msgpack_object) {struct o} : P o.
Proof.
  destruct o as [| b | u | i | f | s | elts | kvs | s | t s].
  - exact P_nil.
  - apply P_boolean.
  - apply P_positive.
  - apply P_negative.
  - apply P_float.
  - apply P_str.
  - apply P_array.
    induction elts as [| e elts IH]; intros x Hx; [destruct Hx |].
    destruct Hx as [<- | Hx]; [apply object_induction | exact (IH x Hx)].
  - apply P_map.
    induction kvs as [| [k0 v0] kvs IH]; intros k v Hkv; [destruct Hkv |].
    destruct Hkv as [Heq | Hkv]; [| exact (IH k v Hkv)].
    injection Heq as <- <-. split; apply object_induction.
  - apply P_bin.
  - apply P_ext.
Qed.
End ObjectInduction.

(** Nesting depth: a scalar has depth 0, a container one more than its
    deepest child. *)
Fixpoint depth (o : msgpack_object) : nat :=
  match o with
  | MSGPACK_OBJECT_ARRAY elts =>
      S ((fix go (l : list msgpack_object) : nat :=
            match l with [] => 0 | e :: l' => Nat.max (depth e) (go l') end) elts)
  | MSGPACK_OBJECT_MAP kvs =>
      S ((fix go (l : list (msgpack_object * msgpack_object)) : nat :=
            match l with
            | [] => 0
            | (k, v) :: l' => Nat.max (Nat.max (depth k) (depth v)) (go l')
            end) kvs)
  | _ => 0
  end.

(** A map nested [n] levels deep under the key [k]: the empty map, inside
    a map, inside a map, ... *)
Fixpoint nested_map (n : nat) : msgpack_object :=
  match n with
  | O => MSGPACK_OBJECT_MAP []
  | S n' => MSGPACK_OBJECT_MAP [(MSGPACK_OBJECT_STR (B "k"), nested_map n')]
  end.

(** One item written by the packer. A string, binary or extension item is
    written by two calls, header then body. *)
Inductive item : Type :=
| I_nil
| I_bool (b : bool)
| I_uint (u64 : N)
| I_int (i64 : Z)
| I_float (ieee_bits : N)
| I_str (size : nat)
| I_bin (size : nat)
| I_ext (size : nat) (ext_type : Z)
| I_body (b : bytes)
| I_array (size : nat)
| I_map (size : nat).

(** [msgpack_sbuffer]: what has been written, oldest first. *)
Definition msgpack_sbuffer : Type := list item.

(** [msgpack_packer] over an sbuffer (the packer only holds the pointer
    to its buffer and appends to it). *)
Definition msgpack_packer : Type := msgpack_sbuffer.

Definition msgpack_sbuffer_init : msgpack_sbuffer := [].

Definition msgpack_pack_map (pk : msgpack_packer) (n : nat) : msgpack_packer :=
  pk ++ [I_map n].
Definition msgpack_pack_array (pk : msgpack_packer) (n : nat) : msgpack_packer :=
  pk ++ [I_array n].
Definition msgpack_pack_str (pk : msgpack_packer) (l : nat) : msgpack_packer :=
  pk ++ [I_str l].
Definition msgpack_pack_str_body (pk : msgpack_packer) (b : bytes) (l : nat)
  : msgpack_packer :=
  pk ++ [I_body (firstn l b)].

(** The items of one object, in the order [msgpack_pack_object] writes
    them. *)
Fixpoint object_items (o : msgpack_object) : list item :=
  match o with
  | MSGPACK_OBJECT_NIL => [I_nil]
  | MSGPACK_OBJECT_BOOLEAN b => [I_bool b]
  | MSGPACK_OBJECT_POSITIVE_INTEGER u => [I_uint u]
  | MSGPACK_OBJECT_NEGATIVE_INTEGER i => [I_int i]
  | MSGPACK_OBJECT_FLOAT f => [I_float f]
  | MSGPACK_OBJECT_STR s => [I_str (length s); I_body s]
  | MSGPACK_OBJECT_BIN s => [I_bin (length s); I_body s]
  | MSGPACK_OBJECT_EXT t s => [I_ext (length s) t; I_body s]
  | MSGPACK_OBJECT_ARRAY elts =>
      I_array (length elts) ::
      (fix go (l : list msgpack_object) : list item :=
         match l with [] => [] | e :: l' => object_items e ++ go l' end) elts
  | MSGPACK_OBJECT_MAP kvs =>
      I_map (length kvs) ::
      (fix go (l : list (msgpack_object * msgpack_object)) : list item :=
         match l with
         | [] => []
         | (k, v) :: l' => object_items k ++ object_items v ++ go l'
         end) kvs
  end.

Definition entry_items (kv : msgpack_object * msgpack_object) : list item :=
  object_items (fst kv) ++ object_items (snd kv).

Definition msgpack_pack_object (pk : msgpack_packer) (o : msgpack_object)
  : msgpack_packer :=
  pk ++ object_items o.

(** [msgpack_unpack_next] on an sbuffer: read one object from the front of
    the items. [None] when the items stop before the object is complete
    (MSGPACK_UNPACK_CONTINUE) or do not start an object (parse error). *)
Fixpoint unpack_object (fuel : nat) (its : list item)
  : option (msgpack_object * list item) :=
  match fuel with
  | O => None
  | S fuel' =>
      match its with
      | [] => None
      | I_nil :: r => Some (MSGPACK_OBJECT_NIL, r)
      | I_bool b :: r => Some (MSGPACK_OBJECT_BOOLEAN b, r)
      | I_uint u :: r => Some (MSGPACK_OBJECT_POSITIVE_INTEGER u, r)
      | I_int i :: r => Some (MSGPACK_OBJECT_NEGATIVE_INTEGER i, r)
      | I_float f :: r => Some (MSGPACK_OBJECT_FLOAT f, r)
      | I_str n :: I_body b :: r =>
          if Nat.eqb (length b) n then Some (MSGPACK_OBJECT_STR b, r) else None
      | I_bin n :: I_body b :: r =>
          if Nat.eqb (length b) n then Some (MSGPACK_OBJECT_BIN b, r) else None
      | I_ext n t :: I_body b :: r =>
          if Nat.eqb (length b) n then Some (MSGPACK_OBJECT_EXT t b, r) else None
      | I_array n :: r =>
          match unpack_objects fuel' n r with
          | Some (elts, r') => Some (MSGPACK_OBJECT_ARRAY elts, r')
          | None => None
          end
      | I_map n :: r =>
          match unpack_pairs fuel' n r with
          | Some (kvs, r') => Some (MSGPACK_OBJECT_MAP kvs, r')
          | None => None
          end
      | _ => None
      end
  end
with unpack_objects (fuel : nat) (n : nat) (its : list item)
  : option (list msgpack_object * list item) :=
  match fuel with
  | O => None
  | S fuel' =>
      match n with
      | O => Some ([], its)
      | S n' =>
          match unpack_object fuel' its with
          | Some (e, r) =>
              match unpack_objects fuel' n' r with
              | Some (elts, r') => Some (e :: elts, r')
              | None => None
              end
          | None => None
          end
      end
  end
with unpack_pairs (fuel : nat) (n : nat) (its : list item)
  : option (list (msgpack_object * msgpack_object) * list item) :=
  match fuel with
  | O => None
  | S fuel' =>
      match n with
      | O => Some ([], its)
      | S n' =>
          match unpack_object fuel' its with
          | Some (k, r) =>
              match unpack_object fuel' r with
              | Some (v, r') =>
                  match unpack_pairs fuel' n' r' with
                  | Some (kvs, r'') => Some ((k, v) :: kvs, r'')
                  | None => None
                  end
              | None => None
              end
          | None => None
          end
      end
  end.

(** Fuel that lets [unpack_object] read back the items of an object. *)
Fixpoint fuel_for (o : msgpack_object) : nat :=
  match o with
  | MSGPACK_OBJECT_ARRAY elts =>
      S ((fix go (l : list msgpack_object) : nat :=
            match l with
            | [] => 1
            | e :: l' => S (Nat.max (fuel_for e) (go l'))
            end) elts)
  | MSGPACK_OBJECT_MAP kvs =>
      S ((fix go (l : list (msgpack_object * msgpack_object)) : nat :=
            match l with
            | [] => 1
            | (k, v) :: l' =>
                S (Nat.max (Nat.max (fuel_for k) (fuel_for v)) (go l'))
            end) kvs)
  | _ => 1
  end.

Definition fuel_for_list (l : list msgpack_object) : nat :=
  fold_right (fun e acc => S (Nat.max (fuel_for e) acc)) 1 l.

Definition fuel_for_pairs (l : list (msgpack_object * msgpack_object)) : nat :=
  fold_right (fun kv acc =>
                S (Nat.max (Nat.max (fuel_for (fst kv)) (fuel_for (snd kv))) acc))
             1 l.

Definition msgpack_unpack_next (buf : msgpack_sbuffer) : option msgpack_object :=
  match unpack_object (2 * length buf) buf with
  | Some (o, _) => Some o
  | None => None
  end.

(* ------------------------------------------------------------------ *)
(** ** Plugin context ([struct flb_elasticsearch], the fields the
       formatter and the validator read) *)
(* ------------------------------------------------------------------ *)

Record flb_elasticsearch : Type := {
  index : bytes;
  type : bytes;
  suppress_type_name : bool;
  logstash_format : bool;
  logstash_prefix : bytes;
  logstash_prefix_key : option bytes;
  ra_prefix_key : bytes;
  logstash_dateformat : bytes;
  time_key : bytes;
  time_key_format : bytes;
  time_key_nanos : bool;
  include_tag_key : bool;
  tag_key : bytes;
  generate_id : bool;
  replace_dots : bool;
  id_format : option bytes;
  current_time_index : bool;
  trace_output : bool;
  trace_error : bool
}.

(** [flb_es_conf_create], the pattern handed to [flb_ra_create] for
    [logstash_prefix_key]: the key itself when it starts with a dollar
    sign, the key with a dollar sign put in front otherwise. *)
Definition conf_ra_pattern (prefix_key : bytes) : bytes :=
  match prefix_key with
  | c :: _ => if Ascii.eqb c "$"%char then prefix_key else "$"%char :: prefix_key
  | [] => "$"%char :: prefix_key
  end.

(* ------------------------------------------------------------------ *)
(** ** Key/value sanitizer: [es_pack_map_content], [es_pack_array_content] *)
(* ------------------------------------------------------------------ *)

(** What a call on a call stack of limited room leads to: it returns, or
    the stack runs out and the program ends there. *)
Inductive on_stack (A : Type) : Type :=
| Returned (a : A)
| Stack_exhausted.
Arguments Returned {A} a.
Arguments Stack_exhausted {A}.

Section Sanitizer.

(** [flb_malloc size]: whether the allocator grants the request. *)
Variable flb_malloc : nat -> bool.
Variable ctx : flb_elasticsearch.

Definition sizeof_buf_key : nat := 256.

(** [key_ptr]/[key_size] as the loop sets them: the bytes of a BIN or STR
    key, the null pointer with size 0 for a key of any other type. *)
Definition key_ptr (k : msgpack_object) : bytes :=
  match k with
  | MSGPACK_OBJECT_BIN s => s
  | MSGPACK_OBJECT_STR s => s
  | _ => []
  end.

(** The loop over [ptr_key .. ptr_key + key_size] that turns dots into
    underscores. *)
Definition replace_dots_in (name : bytes) : bytes :=
  map (fun c => if Ascii.eqb c "."%char then "_"%char else c) name.

Definition sanitize_key_name (name : bytes) : bytes :=
  if replace_dots ctx then replace_dots_in name else name.

(** Lines 91-144 of [es_pack_map_content]: copy the key into [buf_key]
    (or into a heap block when it does not fit), sanitize it and append
    it to the packer. [None] is the [return -1] of a failed allocation. *)
Definition es_pack_map_key (tmp_pck : msgpack_packer) (k : msgpack_object)
  : option msgpack_packer :=
  let key_size := length (key_ptr k) in
  if (key_size <? sizeof_buf_key - 1) || flb_malloc (key_size + 1) then
    let ptr_key := sanitize_key_name (key_ptr k) in
    Some (msgpack_pack_str_body (msgpack_pack_str tmp_pck key_size)
                                ptr_key key_size)
  else None.

(** The two functions return the [int] of the C code together with the
    packer. The result of a nested call is dropped, as in the source. *)
Fixpoint es_pack_map_content (tmp_pck : msgpack_packer) (map : msgpack_object)
         {struct map} : Z * msgpack_packer :=
  match map with
  | MSGPACK_OBJECT_MAP entries =>
      (fix loop (pk : msgpack_packer)
                (l : list (msgpack_object * msgpack_object)) {struct l}
         : Z * msgpack_packer :=
         match l with
         | [] => (0%Z, pk)
         | (k, v) :: l' =>
             match es_pack_map_key pk k with
             | None => ((-1)%Z, pk)
             | Some pk1 =>
                 let pk2 :=
                   match v with
                   | MSGPACK_OBJECT_MAP m =>
                       snd (es_pack_map_content
                              (msgpack_pack_map pk1 (length m)) v)
                   | MSGPACK_OBJECT_ARRAY a =>
                       snd (es_pack_array_content
                              (msgpack_pack_array pk1 (length a)) v)
                   | _ => msgpack_pack_object pk1 v
                   end in
                 loop pk2 l'
             end
         end) tmp_pck entries
  | _ => (0%Z, tmp_pck)
  end
with es_pack_array_content (tmp_pck : msgpack_packer) (array : msgpack_object)
         {struct array} : Z * msgpack_packer :=
  match array with
  | MSGPACK_OBJECT_ARRAY elts =>
      (fix loop (pk : msgpack_packer) (l : list msgpack_object) {struct l}
         : Z * msgpack_packer :=
         match l with
         | [] => (0%Z, pk)
         | e :: l' =>
             let pk1 :=
               match e with
               | MSGPACK_OBJECT_MAP m =>
                   snd (es_pack_map_content
                          (msgpack_pack_map pk (length m)) e)
               | MSGPACK_OBJECT_ARRAY a =>
                   snd (es_pack_array_content
                          (msgpack_pack_array pk (length a)) e)
               | _ => msgpack_pack_object pk e
               end in
             loop pk1 l'
         end) tmp_pck elts
  | _ => (0%Z, tmp_pck)
  end.

(** The two loops as functions of their own (they are the loops above,
    see [es_pack_map_content_loop] and [es_pack_array_content_loop]):
    what is done with one value or element, and the iteration. *)
Definition pack_sanitized_value (pk : msgpack_packer) (v : msgpack_object)
  : msgpack_packer :=
  match v with
  | MSGPACK_OBJECT_MAP m =>
      snd (es_pack_map_content (msgpack_pack_map pk (length m)) v)
  | MSGPACK_OBJECT_ARRAY a =>
      snd (es_pack_array_content (msgpack_pack_array pk (length a)) v)
  | _ => msgpack_pack_object pk v
  end.

Fixpoint map_loop (pk : msgpack_packer)
         (l : list (msgpack_object * msgpack_object)) : Z * msgpack_packer :=
  match l with
  | [] => (0%Z, pk)
  | (k, v) :: l' =>
      match es_pack_map_key pk k with
      | None => ((-1)%Z, pk)
      | Some pk1 => map_loop (pack_sanitized_value pk1 v) l'
      end
  end.

Fixpoint array_loop (pk : msgpack_packer) (l : list msgpack_object)
  : Z * msgpack_packer :=
  match l with
  | [] => (0%Z, pk)
  | e :: l' => array_loop (pack_sanitized_value pk e) l'
  end.

(** *** The sanitizer on a call stack

    The two functions call each other once for every level of nesting of
    the value, and nothing in them counts or limits the levels. Above,
    they run on a stack that never runs out. Here the stack has room for
    [room] more activations of them (a simplification: the frames of the
    two functions are taken to be of one size), and a call for which no
    room is left ends the run of the program. The result of a nested call
    that returns is dropped, as above. *)
Fixpoint es_pack_map_content_on (room : nat) (tmp_pck : msgpack_packer)
         (map : msgpack_object) {struct map} : on_stack (Z * msgpack_packer) :=
  if room =? 0 then Stack_exhausted
  else
    match map with
    | MSGPACK_OBJECT_MAP entries =>
        (fix loop (pk : msgpack_packer)
                  (l : list (msgpack_object * msgpack_object)) {struct l}
           : on_stack (Z * msgpack_packer) :=
           match l with
           | [] => Returned (0%Z, pk)
           | (k, v) :: l' =>
               match es_pack_map_key pk k with
               | None => Returned ((-1)%Z, pk)
               | Some pk1 =>
                   match
                     match v with
                     | MSGPACK_OBJECT_MAP m =>
                         es_pack_map_content_on
                           (room - 1) (msgpack_pack_map pk1 (length m)) v
                     | MSGPACK_OBJECT_ARRAY a =>
                         es_pack_array_content_on
                           (room - 1) (msgpack_pack_array pk1 (length a)) v
                     | _ => Returned (0%Z, msgpack_pack_object pk1 v)
                     end
                   with
                   | Returned r => loop (snd r) l'
                   | Stack_exhausted => Stack_exhausted
                   end
               end
           end) tmp_pck entries
    | _ => Returned (0%Z, tmp_pck)
    end
with es_pack_array_content_on (room : nat) (tmp_pck : msgpack_packer)
         (array : msgpack_object) {struct array}
     : on_stack (Z * msgpack_packer) :=
  if room =? 0 then Stack_exhausted
  else
    match array with
    | MSGPACK_OBJECT_ARRAY elts =>
        (fix loop (pk : msgpack_packer) (l : list msgpack_object) {struct l}
           : on_stack (Z * msgpack_packer) :=
           match l with
           | [] => Returned (0%Z, pk)
           | e :: l' =>
               match
                 match e with
                 | MSGPACK_OBJECT_MAP m =>
                     es_pack_map_content_on
                       (room - 1) (msgpack_pack_map pk (length m)) e
                 | MSGPACK_OBJECT_ARRAY a =>
                     es_pack_array_content_on
                       (room - 1) (msgpack_pack_array pk (length a)) e
                 | _ => Returned (0%Z, msgpack_pack_object pk e)
                 end
               with
               | Returned r => loop (snd r) l'
               | Stack_exhausted => Stack_exhausted
               end
           end) tmp_pck elts
    | _ => Returned (0%Z, tmp_pck)
    end.

(** The two loops on a stack as functions of their own: [room] is the
    room left for the calls made from the loop. *)
Definition pack_sanitized_value_on (room : nat) (pk : msgpack_packer)
           (v : msgpack_object) : on_stack (Z * msgpack_packer) :=
  match v with
  | MSGPACK_OBJECT_MAP m =>
      es_pack_map_content_on room (msgpack_pack_map pk (length m)) v
  | MSGPACK_OBJECT_ARRAY a =>
      es_pack_array_content_on room (msgpack_pack_array pk (length a)) v
  | _ => Returned (0%Z, msgpack_pack_object pk v)
  end.

Fixpoint map_loop_on (room : nat) (pk : msgpack_packer)
         (l : list (msgpack_object * msgpack_object))
  : on_stack (Z * msgpack_packer) :=
  match l with
  | [] => Returned (0%Z, pk)
  | (k, v) :: l' =>
      match es_pack_map_key pk k with
      | None => Returned ((-1)%Z, pk)
      | Some pk1 =>
          match pack_sanitized_value_on room pk1 v with
          | Returned r => map_loop_on room (snd r) l'
          | Stack_exhausted => Stack_exhausted
          end
      end
  end.

Fixpoint array_loop_on (room : nat) (pk : msgpack_packer)
         (l : list msgpack_object) : on_stack (Z * msgpack_packer) :=
  match l with
  | [] => Returned (0%Z, pk)
  | e :: l' =>
      match pack_sanitized_value_on room pk e with
      | Returned r => array_loop_on room (snd r) l'
      | Stack_exhausted => Stack_exhausted
      end
  end.

(** The mapping the sanitizer is meant to write, as a tree: every key
    becomes a string key holding the sanitized bytes of [key_ptr], values
    that are maps or arrays are rewritten in place, other values are kept. *)
Fixpoint sanitized (o : msgpack_object) : msgpack_object :=
  match o with
  | MSGPACK_OBJECT_MAP entries =>
      MSGPACK_OBJECT_MAP
        ((fix go (l : list (msgpack_object * msgpack_object)) :=
            match l with
            | [] => []
            | (k, v) :: l' =>
                (MSGPACK_OBJECT_STR (sanitize_key_name (key_ptr k)),
                 sanitized v) :: go l'
            end) entries)
  | MSGPACK_OBJECT_ARRAY elts =>
      MSGPACK_OBJECT_ARRAY
        ((fix go (l : list msgpack_object) :=
            match l with [] => [] | e :: l' => sanitized e :: go l' end) elts)
  | _ => o
  end.

(** One entry of the sanitized mapping. *)
Definition sanitized_entry (kv : msgpack_object * msgpack_object)
  : msgpack_object * msgpack_object :=
  (MSGPACK_OBJECT_STR (sanitize_key_name (key_ptr (fst kv))),
   sanitized (snd kv)).

(** The key is short enough for [buf_key], or gets its heap block. *)
Definition key_fits (k : msgpack_object) : bool :=
  (length (key_ptr k) <? sizeof_buf_key - 1) || flb_malloc (length (key_ptr k) + 1).

(** Every key of the tree, at any depth under a map, that needs a heap
    block gets it. *)
Fixpoint keys_allocated (o : msgpack_object) : bool :=
  match o with
  | MSGPACK_OBJECT_MAP entries =>
      (fix go (l : list (msgpack_object * msgpack_object)) : bool :=
         match l with
         | [] => true
         | (k, v) :: l' =>
             ((length (key_ptr k) <? sizeof_buf_key - 1)
              || flb_malloc (length (key_ptr k) + 1))
             && keys_allocated v && go l'
         end) entries
  | MSGPACK_OBJECT_ARRAY elts =>
      (fix go (l : list msgpack_object) : bool :=
         match l with [] => true | e :: l' => keys_allocated e && go l' end) elts
  | _ => true
  end.

End Sanitizer.


(* ------------------------------------------------------------------ *)
(** ** Response validator: [elasticsearch_error_check] *)
(* ------------------------------------------------------------------ *)

(** The response part of [struct flb_http_client]. [payload_size] is the
    number of payload bytes received. *)
Record flb_http_client : Type := {
  resp_status : Z;
  resp_payload : bytes
}.

Definition resp_payload_size (c : flb_http_client) : Z :=
  Z.of_nat (length (resp_payload c)).

(** The literal searched for in a payload that does not parse:
    a double quote, [errors], a double quote, [:false,], a double quote,
    [items], a double quote, [:[]. *)
Definition errors_false_items : bytes :=
  dquote :: B "errors" ++ dquote :: B ":false," ++ dquote :: B "items"
         ++ dquote :: B ":[".

Section ResponseValidator.

(** [flb_pack_json]: the msgpack buffer for a JSON text, [None] for its
    [-1]. *)
Variable flb_pack_json : bytes -> option msgpack_sbuffer.

(** The [for] loop over the entries of the root map, with the value of
    [check] at the label [done]. *)
Fixpoint error_check_entries (entries : list (msgpack_object * msgpack_object))
  : bool :=
  match entries with
  | [] => FLB_TRUE
  | (key, val) :: rest =>
      match key with
      | MSGPACK_OBJECT_STR s =>
          if negb (length s =? 6) then error_check_entries rest
          else if strncmp_eq s (B "errors") 6 then
            match val with
            | MSGPACK_OBJECT_BOOLEAN b => if b then FLB_TRUE else FLB_FALSE
            | _ => FLB_TRUE
            end
          else error_check_entries rest
      | _ => FLB_TRUE
      end
  end.

Definition elasticsearch_error_check (ctx : flb_elasticsearch)
           (c : flb_http_client) : bool :=
  match flb_pack_json (resp_payload c) with
  | None =>
      if (resp_payload_size c <=? 0)%Z then FLB_TRUE
      else match strstr (resp_payload c) errors_false_items with
           | Some _ => FLB_FALSE
           | None => FLB_TRUE
           end
  | Some out_buf =>
      match msgpack_unpack_next out_buf with
      | None => FLB_TRUE
      | Some root =>
          match root with
          | MSGPACK_OBJECT_MAP entries => error_check_entries entries
          | _ => FLB_TRUE
          end
      end
  end.

End ResponseValidator.

(* ------------------------------------------------------------------ *)
(** ** Formatter: [elasticsearch_format] *)
(* ------------------------------------------------------------------ *)

(** *** [printf] conversions of unsigned numbers *)

Definition digit_char (d : N) : ascii :=
  nth (N.to_nat d) (B "0123456789abcdef") "?"%char.

Fixpoint utoa_loop (fuel : nat) (base n : N) (acc : bytes) : bytes :=
  match fuel with
  | O => acc
  | S fuel' =>
      let acc' := digit_char (n mod base) :: acc in
      if (n / base =? 0)%N then acc' else utoa_loop fuel' base (n / base) acc'
  end.

(** The digits of [n] in [base], most significant first. A number has no
    more digits than bits, so the loop always reaches the leading digit. *)
Definition utoa (base n : N) : bytes :=
  utoa_loop (S (N.size_nat n)) base n [].

(** The conversion with a zero flag and a width, as in [%09llu], [%04x]:
    zeros on the left up to [width] characters, never a cut. *)
Definition printf_0 (width : nat) (base n : N) : bytes :=
  let s := utoa base n in repeat "0"%char (width - length s) ++ s.

Definition is_hex (c : ascii) : Prop := In c (B "0123456789abcdef").

(** [snprintf (buf, size, ...)] for a conversion whose complete output is
    [full]: what is left in [buf] (without the NUL) and the value
    returned. *)
Definition snprintf (size : nat) (full : bytes) : bytes * nat :=
  (firstn (size - 1) full, length full).

(** *** Outcomes *)

(** What running part of the function can lead to: go on with a value;
    leave the function with [-1] (after [*out_size = 0] or not); or a run
    about which the embedding says nothing, because C leaves its
    behaviour undefined (a read or a write past an array, a read of
    memory never written) or because libc leaves the contents of an
    array unspecified ([strftime] into an array too small for the
    result). *)
Inductive step (A : Type) : Type :=
| Next (a : A)
| Return_error (out_size_zeroed : bool)
| Undefined.
Arguments Next {A} a.
Arguments Return_error {A} out_size_zeroed.
Arguments Undefined {A}.

Definition bind {A C : Type} (m : step A) (k : A -> step C) : step C :=
  match m with
  | Next a => k a
  | Return_error z => Return_error z
  | Undefined => Undefined
  end.

Notation "x <- m ;; k" := (bind m (fun x => k))
  (at level 61, m at next level, right associativity).

(** The result of [elasticsearch_format]: [return -1], with [*out_data]
    never assigned; [return 0] with [*out_data] and [*out_size]; or
    undefined. *)
Inductive format_result : Type :=
| Format_error (out_size_zeroed : bool)
| Format_ok (out_data : bytes) (out_size : nat)
| Format_undefined.

(** *** Time *)

Record flb_time : Type := { tv_sec : Z; tv_nsec : N }.

(** *** The bulk buffer ([es_bulk.h], [es_bulk.c]) *)

(** Modelled from the spec: [struct es_bulk] and its functions live in
    es_bulk.c, which is not among the sources. The spec describes the bulk
    buffer as an append-only byte buffer that starts empty, grows as
    needed, receives for each record the action line followed by the
    document line, each ended by a newline, and whose growth can fail for
    lack of memory. [ptr] holds the [len] bytes appended so far. *)
Record es_bulk : Type := { bulk_ptr : bytes }.

Definition bulk_len (b : es_bulk) : nat := length (bulk_ptr b).

Definition quoted (b : bytes) : bytes := dquote :: b ++ [dquote].

(** The conversion [%s]: the argument up to its NUL. *)
Definition percent_s (arg : bytes) : bytes := c_str arg.

(** An object with the one key [index] holding the given fields, and the
    newline that ends the line. *)
Definition bulk_line (fields : bytes) : bytes :=
  B "{" ++ quoted (B "index") ++ B ":{" ++ fields ++ B "}}" ++ [newline].

(** Modelled from the spec: the format [ES_BULK_INDEX_FMT] of es_bulk.h,
    which is not among the sources, after the wire format the spec gives
    for an action line with a type and without an id: the keys [_index]
    and [_type]. *)
Definition ES_BULK_INDEX_FMT (es_index type_name : bytes) : bytes :=
  bulk_line (quoted (B "_index") ++ B ":" ++ quoted (percent_s es_index)
             ++ B "," ++ quoted (B "_type") ++ B ":"
             ++ quoted (percent_s type_name)).

(** Modelled from the spec: [ES_BULK_INDEX_FMT_WITHOUT_TYPE] of es_bulk.h,
    the action line with neither type nor id: the key [_index]. *)
Definition ES_BULK_INDEX_FMT_WITHOUT_TYPE (es_index : bytes) : bytes :=
  bulk_line (quoted (B "_index") ++ B ":" ++ quoted (percent_s es_index)).

(** Modelled from the spec: [ES_BULK_INDEX_FMT_ID] of es_bulk.h, the
    action line with a type and an id: the keys [_index], [_type] and
    [_id]. *)
Definition ES_BULK_INDEX_FMT_ID (es_index type_name id : bytes) : bytes :=
  bulk_line (quoted (B "_index") ++ B ":" ++ quoted (percent_s es_index)
             ++ B "," ++ quoted (B "_type") ++ B ":"
             ++ quoted (percent_s type_name)
             ++ B "," ++ quoted (B "_id") ++ B ":" ++ quoted (percent_s id)).

(** Modelled from the spec: [ES_BULK_INDEX_FMT_ID_WITHOUT_TYPE] of
    es_bulk.h, the action line with an id and no type: the keys [_index]
    and [_id]. *)
Definition ES_BULK_INDEX_FMT_ID_WITHOUT_TYPE (es_index id : bytes) : bytes :=
  bulk_line (quoted (B "_index") ++ B ":" ++ quoted (percent_s es_index)
             ++ B "," ++ quoted (B "_id") ++ B ":" ++ quoted (percent_s id)).

(** *** Automatic variables read before they are assigned *)

(** What three automatic variables of [elasticsearch_format] hold when the
    function is entered. The function can read them before assigning them:
    [tms] when the time of the first record cannot be decoded, the entries
    behind [map.via.map.ptr] when an id format is expanded, and
    [logstash_index] beyond what has been copied into it. *)
Record entry_values : Type := {
  tms_on_entry : flb_time;
  map_ptr_on_entry : list (msgpack_object * msgpack_object);
  logstash_index_on_entry : bytes
}.

(** *** Expansion of [id_format] (lines 309-366) *)

Definition sizeof_p_id_format : nat := 300.
Definition sizeof_key : nat := 30.

(** [strcat]/[strncat] into the block of 300 bytes at [p_id_format]. *)
Definition id_cat (p_id_format s : bytes) : step bytes :=
  if length (p_id_format ++ s) <? sizeof_p_id_format
  then Next (p_id_format ++ s) else Undefined.

(** The inner loop, [while (pKv++->key.type != MSGPACK_OBJECT_NIL)]: the
    type of the key of the entry under [pKv] decides whether the loop goes
    on, and the body then looks at the entry after it. [mem] is the memory
    from [pKv] on; running off it is a read out of bounds. The result is
    what the body appends to [p_id_format]. *)
Fixpoint id_format_fields (mem : list (msgpack_object * msgpack_object))
         (key : bytes) : step bytes :=
  match mem with
  | [] => Undefined
  | (k0, _) :: rest =>
      if is_type T_NIL k0 then Next []
      else
        match rest with
        | [] => Undefined
        | (k1, v1) :: _ =>
            let found :=
              match k1, v1 with
              | MSGPACK_OBJECT_STR ks, MSGPACK_OBJECT_STR vs =>
                  if strncasecmp_eq ks key (length ks) then c_str vs else []
              | _, _ => []
              end in
            more <- id_format_fields rest key ;;
            Next (found ++ more)
        end
  end.

(** The outer loop over the template. [p] is the rest of the template,
    [p_id_format] what has been built. Each round moves [p] past a closing
    bracket, so the length of the template bounds the rounds. *)
Fixpoint id_format_loop (rounds : nat)
         (mem : list (msgpack_object * msgpack_object))
         (p p_id_format : bytes) : step bytes :=
  match rounds with
  | O => Undefined
  | S rounds' =>
      match strstr p (B "$[") with
      | None => id_cat p_id_format p
      | Some i =>
          acc <- id_cat p_id_format (firstn i p) ;;
          let p1 := skipn i p in
          match strstr p1 (B "]") with
          | None => Next acc
          | Some j =>
              if sizeof_key <=? j - 2 then Undefined
              else
                let key := firstn (j - 2) (skipn 2 p1) in
                vals <- id_format_fields mem key ;;
                acc' <- id_cat acc vals ;;
                id_format_loop rounds' mem (skipn (S j) p1) acc'
          end
      end
  end.

Definition expand_id_format (id_fmt : bytes)
           (mem : list (msgpack_object * msgpack_object)) : step bytes :=
  let p := c_str id_fmt in
  id_format_loop (S (length p)) mem p [].

(** *** Functions and constants of other compilation units *)

(** What [elasticsearch_format] calls or reads and es.c does not define. *)
Record platform : Type := {
  (** libc: [struct tm], [gmtime_r], and [strftime] as the complete
      expansion of a format (the size limit is applied by the caller
      below). *)
  tm : Type;
  gmtime_r : Z -> tm;
  strftime : bytes -> tm -> bytes;
  (** What [strftime (s, max, format, tm)] leaves in [s] when the
      expansion does not fit [max] bytes: it then returns 0 and C leaves
      the contents of the array unspecified. Of this list the first [max]
      bytes count. *)
  strftime_leaves : nat -> bytes -> tm -> bytes;
  (** [flb_time_get]: the n-th reading of the wall clock during the call. *)
  flb_time_get : nat -> flb_time;
  (** [flb_time_pop_from_msgpack] on a record [[time, map]]: the time, or
      [None] when it returns -1 and leaves [tms] as it was. *)
  flb_time_pop_from_msgpack : msgpack_object -> option flb_time;
  (** [flb_ra_translate pattern tag map]: the translated string, [None]
      for the null pointer. *)
  flb_ra_translate : bytes -> bytes -> msgpack_object -> option bytes;
  (** [flb_msgpack_raw_to_json_sds]: [None] for the null pointer. *)
  flb_msgpack_raw_to_json_sds : msgpack_sbuffer -> option bytes;
  (** [MurmurHash3_x64_128 data seed]: the eight 16-bit words it leaves
      in [hash]. *)
  MurmurHash3_x64_128 : msgpack_sbuffer -> N -> list N;
  (** [flb_malloc size]: whether the request is granted. *)
  flb_malloc : nat -> bool;
  (** Whether the bulk buffer can be given room for this many bytes (the
      allocations of es_bulk.c). *)
  es_bulk_room : nat -> bool;
  (** The constants of es_bulk.h: the size of the array [j_index] and the
      size by which the bulk buffer grows. *)
  ES_BULK_HEADER : nat;
  ES_BULK_CHUNK : nat
}.

Section Formatter.

Variable E : platform.
Variable ctx : flb_elasticsearch.
(** [tag], with [tag_len] its length. *)
Variable tag : bytes.

(** Modelled from the spec: [es_bulk_create] gives an empty buffer, or the
    null pointer when memory is lacking. *)
Definition es_bulk_create : option es_bulk :=
  if es_bulk_room E 0 then Some {| bulk_ptr := [] |} else None.

(** Modelled from the spec: [es_bulk_append bulk index i_len json j_len]
    appends the [i_len] bytes of the action line and the [j_len] bytes of
    the document followed by a newline, or returns -1 ([None]) when the
    buffer cannot grow. *)
Definition es_bulk_append (bulk : es_bulk) (action : bytes) (json : bytes)
  : option es_bulk :=
  if es_bulk_room E (bulk_len bulk + length action + length json + 1)
  then Some {| bulk_ptr := bulk_ptr bulk ++ action ++ json ++ [newline] |}
  else None.

(** [strftime (s, max, format, tm)]: the string left in [s] when it fits
    with its NUL, [None] when it does not (the function then returns 0 and
    the contents of [s] are undefined). *)
Definition strftime_max (max : nat) (format : bytes) (t : tm E) : option bytes :=
  let s := strftime E format t in
  if length s <? max then Some s else None.

Definition sizeof_logstash_index : nat := 256.
Definition sizeof_time_formatted : nat := 256.
Definition sizeof_index_formatted : nat := 256.
Definition sizeof_es_uuid : nat := 37.

(** [snprintf (j_index, size, ...)] into [char j_index[ES_BULK_HEADER]]:
    the array and [index_len]. A [size] larger than the array lets a long
    output run past its end. *)
Definition set_j_index (size : nat) (full : bytes) : step (bytes * nat) :=
  if (ES_BULK_HEADER E <? size) && (ES_BULK_HEADER E <=? length full)
  then Undefined
  else Next (snprintf size full).

(** The action line without an id (lines 297-308 and 467-478). *)
Definition index_line (es_index : bytes) : step (bytes * nat) :=
  if suppress_type_name ctx
  then set_j_index (ES_BULK_HEADER E) (ES_BULK_INDEX_FMT_WITHOUT_TYPE es_index)
  else set_j_index (ES_BULK_HEADER E) (ES_BULK_INDEX_FMT es_index (type ctx)).

(** The action line with an id. [size_without_type] is the size given to
    [snprintf] in the branch that suppresses the type: [ES_BULK_CHUNK] at
    line 354, [ES_BULK_HEADER] at line 519. *)
Definition index_line_id (size_without_type : nat) (es_index id : bytes)
  : step (bytes * nat) :=
  if suppress_type_name ctx
  then set_j_index size_without_type
                   (ES_BULK_INDEX_FMT_ID_WITHOUT_TYPE es_index id)
  else set_j_index (ES_BULK_HEADER E)
                   (ES_BULK_INDEX_FMT_ID es_index (type ctx) id).

(** The bytes [es_bulk_append] copies from [j_index] when told to copy
    [index_len] of them: the line when it fitted, the cut line and its NUL
    when it was one byte too long; beyond that a read past the array, or
    past the NUL into bytes of the array that were never written. *)
Definition j_index_bytes (j_index : bytes) (index_len : nat) : step bytes :=
  if (index_len <=? ES_BULK_HEADER E) && (index_len <=? length j_index + 1)
  then Next (firstn index_len (j_index ++ [NUL]))
  else Undefined.

(** Lines 511-516: the id made of the eight words of the hash. *)
Definition hash_word (hash : list N) (i : nat) : N :=
  (nth i hash 0 mod 65536)%N.

Definition uuid_format (hash : list N) : bytes :=
  let x := fun i => printf_0 4 16 (hash_word hash i) in
  x 0 ++ x 1 ++ B "-" ++ x 2 ++ B "-" ++ x 3 ++ B "-" ++ x 4 ++ B "-"
    ++ x 5 ++ x 6 ++ x 7.

Definition es_uuid_of (tmp_sbuf : msgpack_sbuffer) : bytes :=
  fst (snprintf sizeof_es_uuid
                (uuid_format (MurmurHash3_x64_128 E tmp_sbuf 42))).

(** Lines 290-367: the action line made once for the whole payload when
    neither the logstash format nor id generation is on. Gives [tms],
    [j_index] and [index_len]. The block for [p_id_format] is used
    unchecked, so a refused allocation is a write through the null
    pointer. *)
Definition pregenerate (entry : entry_values) : step (flb_time * bytes * nat) :=
  let tms := flb_time_get E 0 in
  match strftime_max (sizeof_index_formatted - 1) (index ctx)
                     (gmtime_r E (tv_sec tms)) with
  | None => Undefined
  | Some es_index =>
      match id_format ctx with
      | None =>
          j <- index_line es_index ;;
          Next (tms, fst j, snd j)
      | Some id_fmt =>
          if flb_malloc E sizeof_p_id_format then
            p_id_format <- expand_id_format id_fmt (map_ptr_on_entry entry) ;;
            j <- index_line_id (ES_BULK_CHUNK E) es_index p_id_format ;;
            Next (tms, fst j, snd j)
          else Undefined
      end
  end.

(** The variables that live across the iterations of the record loop. *)
Record loop_state : Type := {
  tms : flb_time;
  logstash_index : bytes;
  j_index : bytes;
  index_len : nat;
  bulk : es_bulk
}.

(** Lines 400-416: the prefix looked up in the record, copied over the
    start of [logstash_index]. Gives the array and [es_index_custom_len]. *)
Definition lookup_prefix (logstash_idx : bytes) (map : msgpack_object)
  : bytes * nat :=
  match logstash_prefix_key ctx with
  | None => (logstash_idx, 0)
  | Some _ =>
      match flb_ra_translate E (ra_prefix_key ctx) tag map with
      | None => (logstash_idx, 0)
      | Some v =>
          let len := if 128 <? length v then 128 else length v in
          (memcpy_at logstash_idx 0 (firstn len v), len)
      end
  end.

(** Lines 433-448: the value of the time key. [snprintf] is given the
    room behind the formatted time and returns the length of the whole
    fraction; [s] grows by that length, and [s] bytes of the array are
    packed: the time and the fraction when the fraction fitted, the time,
    the cut fraction and its NUL when it was one byte too long; beyond
    that, bytes that were never written, or bytes past the array. A
    [strftime] that returns 0 lets the fraction start the array. *)
Definition time_value (t : flb_time) : step bytes :=
  let s :=
    match strftime_max (sizeof_time_formatted - 1) (time_key_format ctx)
                       (gmtime_r E (tv_sec t)) with
    | Some formatted => formatted
    | None => []
    end in
  let fraction :=
    if time_key_nanos ctx
    then B "." ++ printf_0 9 10 (tv_nsec t) ++ B "Z"
    else B "." ++ printf_0 3 10 (tv_nsec t / 1000000)%N ++ B "Z" in
  let '(written, len) :=
    snprintf (sizeof_time_formatted - 1 - length s) fraction in
  if len <=? length written + 1
  then Next (firstn (length s + len) (s ++ written ++ [NUL]))
  else Undefined.

(** Lines 452-465: the logstash index name, written into [logstash_index]
    behind the prefix. Gives the array and the string it now starts with.
    When the date does not fit what is left of the array, [strftime]
    returns 0 and [p] stays where it is, so the NUL that the code writes
    itself ends the name right behind the dash. *)
Definition logstash_name (logstash_idx : bytes) (es_index_custom_len : nat)
           (t : tm E) : step (bytes * bytes) :=
  let p :=
    if 0 <? es_index_custom_len then es_index_custom_len
    else length (logstash_prefix ctx) in
  let len := p + 1 in
  if sizeof_logstash_index - 1 <? len then Undefined
  else
    let dashed := memcpy_at logstash_idx p (B "-") in
    let max := sizeof_logstash_index - len - 1 in
    let written :=
      match strftime_max max (logstash_dateformat ctx) t with
      | Some date => memcpy_at dashed len (date ++ [NUL])
      | None =>
          let left :=
            firstn max (strftime_leaves E max (logstash_dateformat ctx) t) in
          memcpy_at (memcpy_at dashed len left) len [NUL]
      end in
    Next (written, c_str written).

(** What the first half of an iteration hands to the second: the time,
    the [logstash_index] array, [es_index], the action line in [j_index]
    with [index_len], and the packer holding the map header, the time
    field and the tag field. *)
Record prologue : Type := {
  p_tms : flb_time;
  p_logstash_index : bytes;
  p_es_index : bytes;
  p_j_index : bytes;
  p_index_len : nat;
  p_pck : msgpack_packer
}.

(** Lines 391-400: the time of the record, unless the wall clock is used. *)
Definition record_time (st : loop_state) (root : msgpack_object) : flb_time :=
  if current_time_index ctx then tms st
  else match flb_time_pop_from_msgpack E root with
       | Some t => t
       | None => tms st
       end.

(** Lines 391-494 of an iteration, for a record [root] whose second entry
    [map] is a map. *)
Definition record_prologue (st : loop_state) (root map : msgpack_object)
  : step prologue :=
  let tms1 := record_time st root in
  let map_size :=
    match map with MSGPACK_OBJECT_MAP entries => length entries | _ => 0 end in
  let '(idx1, es_index_custom_len) := lookup_prefix (logstash_index st) map in
  let map_size := if include_tag_key ctx then map_size + 1 else map_size in
  let pk := msgpack_pack_map msgpack_sbuffer_init (map_size + 1) in
  let pk := msgpack_pack_str pk (length (time_key ctx)) in
  let pk := msgpack_pack_str_body pk (time_key ctx) (length (time_key ctx)) in
  let t := gmtime_r E (tv_sec tms1) in
  time_formatted <- time_value tms1 ;;
  let pk := msgpack_pack_str pk (length time_formatted) in
  let pk := msgpack_pack_str_body pk time_formatted (length time_formatted) in
  names <-
    (if logstash_format ctx then
       r <- logstash_name idx1 es_index_custom_len t ;;
       if generate_id ctx then Next (fst r, snd r, (j_index st, index_len st))
       else j <- index_line (snd r) ;; Next (fst r, snd r, j)
     else if current_time_index ctx then
       match strftime_max (sizeof_index_formatted - 1) (index ctx) t with
       | Some index_formatted =>
           Next (idx1, index_formatted, (j_index st, index_len st))
       | None => Undefined
       end
     else Next (idx1, index ctx, (j_index st, index_len st))) ;;
  let '(idx2, es_index, j) := names in
  let pk :=
    if include_tag_key ctx then
      let pk := msgpack_pack_str pk (length (tag_key ctx)) in
      let pk := msgpack_pack_str_body pk (tag_key ctx) (length (tag_key ctx)) in
      let pk := msgpack_pack_str pk (length tag) in
      msgpack_pack_str_body pk tag (length tag)
    else pk in
  Next {| p_tms := tms1; p_logstash_index := idx2; p_es_index := es_index;
          p_j_index := fst j; p_index_len := snd j; p_pck := pk |}.

(** Lines 511-529: with id generation, the action line is made anew from
    the hash of the document. *)
Definition record_action (pro : prologue) (tmp_sbuf : msgpack_sbuffer)
  : step (bytes * nat) :=
  if generate_id ctx
  then index_line_id (ES_BULK_HEADER E) (p_es_index pro) (es_uuid_of tmp_sbuf)
  else Next (p_j_index pro, p_index_len pro).

(** Lines 503-549 of an iteration. *)
Definition record_epilogue (st : loop_state) (pro : prologue)
           (map : msgpack_object) : step loop_state :=
  let '(ret, tmp_sbuf) := es_pack_map_content (flb_malloc E) ctx (p_pck pro) map in
  if (ret =? -1)%Z then Return_error false
  else
    j <- record_action pro tmp_sbuf ;;
    match flb_msgpack_raw_to_json_sds E tmp_sbuf with
    | None => Return_error false
    | Some out_buf =>
        action <- j_index_bytes (fst j) (snd j) ;;
        match es_bulk_append (bulk st) action out_buf with
        | None => Return_error true
        | Some bulk' =>
            Next {| tms := p_tms pro; logstash_index := p_logstash_index pro;
                    j_index := fst j; index_len := snd j; bulk := bulk' |}
        end
    end.

(** A record the loop does not skip: an array of exactly two entries. *)
Definition two_entries (root : msgpack_object) : bool :=
  match root with
  | MSGPACK_OBJECT_ARRAY [_; _] => true
  | _ => false
  end.

(** One iteration of the record loop (lines 381-549). Reading
    [via.map] of a second entry that is not a map is undefined. *)
Definition format_record (st : loop_state) (root : msgpack_object)
  : step loop_state :=
  match root with
  | MSGPACK_OBJECT_ARRAY [_; map] =>
      if is_type T_MAP map then
        pro <- record_prologue st root map ;;
        record_epilogue st pro map
      else Undefined
  | _ => Next st
  end.

(** The record loop over the objects [msgpack_unpack_next] yields. *)
Fixpoint format_records (st : loop_state) (data : list msgpack_object)
  : step loop_state :=
  match data with
  | [] => Next st
  | root :: rest =>
      st' <- format_record st root ;;
      format_records st' rest
  end.

(** Lines 266-377: what is done once, before the loop. *)
Definition preamble (entry : entry_values) (bulk0 : es_bulk) : step loop_state :=
  idx0 <-
    (if logstash_format ctx then
       if length (logstash_prefix ctx) <? sizeof_logstash_index
       then Next (memcpy_at (logstash_index_on_entry entry) 0
                            (logstash_prefix ctx ++ [NUL]))
       else Undefined
     else Next (logstash_index_on_entry entry)) ;;
  pre <-
    (if negb (logstash_format ctx) && negb (generate_id ctx)
     then r <- pregenerate entry ;; Next (r, 1)
     else Next (tms_on_entry entry, [], 0, 0)) ;;
  let '(tms0, j0, len0, reads) := pre in
  let tms0 := if current_time_index ctx then flb_time_get E reads else tms0 in
  Next {| tms := tms0; logstash_index := idx0;
          j_index := j0; index_len := len0; bulk := bulk0 |}.

(** [elasticsearch_format]. [data] is the sequence of objects that
    successive calls of [msgpack_unpack_next] find in the input buffer. *)
Definition elasticsearch_format (entry : entry_values)
           (data : list msgpack_object) : format_result :=
  match data with
  | [] => Format_error false
  | MSGPACK_OBJECT_ARRAY elts :: _ =>
      if length elts =? 0 then Format_error false
      else
        match es_bulk_create with
        | None => Format_error false
        | Some bulk0 =>
            match (st0 <- preamble entry bulk0 ;; format_records st0 data) with
            | Next st => Format_ok (bulk_ptr (bulk st)) (bulk_len (bulk st))
            | Return_error z => Format_error z
            | Undefined => Format_undefined
            end
        end
  | _ => Format_error false
  end.

(** The action line an id and an index name make, and the bytes of it
    that reach the bulk buffer through [j_index]. *)
Definition action_line (es_index : bytes) (id : option bytes) : bytes :=
  match id with
  | None =>
      if suppress_type_name ctx then ES_BULK_INDEX_FMT_WITHOUT_TYPE es_index
      else ES_BULK_INDEX_FMT es_index (type ctx)
  | Some i =>
      if suppress_type_name ctx then ES_BULK_INDEX_FMT_ID_WITHOUT_TYPE es_index i
      else ES_BULK_INDEX_FMT_ID es_index (type ctx) i
  end.

Definition action_bytes (size : nat) (line : bytes) : step bytes :=
  j <- set_j_index size line ;; j_index_bytes (fst j) (snd j).

(** What a record contributes to the bulk buffer: its action line, its
    document line and the newline that ends the latter. *)
Definition line_pair (p : bytes * bytes) : bytes :=
  fst p ++ snd p ++ [newline].

(** [record_pair st root action json]: in the state [st] of the loop, the
    record [root] has its prologue run, its map sanitized into a document
    buffer, and yields the action line [action] (the bytes of [j_index]
    handed to [es_bulk_append]) and the document [json] (the JSON form of
    the document buffer). *)
Definition record_pair (st : loop_state) (root : msgpack_object)
           (action json : bytes) : Prop :=
  exists t map pro ret tmp_sbuf j,
    root = MSGPACK_OBJECT_ARRAY [t; map]
    /\ is_type T_MAP map = true
    /\ record_prologue st root map = Next pro
    /\ es_pack_map_content (flb_malloc E) ctx (p_pck pro) map = (ret, tmp_sbuf)
    /\ ret <> (-1)%Z
    /\ record_action pro tmp_sbuf = Next j
    /\ flb_msgpack_raw_to_json_sds E tmp_sbuf = Some json
    /\ j_index_bytes (fst j) (snd j) = Next action.

(** The state an iteration leaves when [pro] is what its prologue gave,
    [j] the action line and [bulk'] the bulk buffer. *)
Definition state_after (pro : prologue) (j : bytes * nat) (bulk' : es_bulk)
  : loop_state :=
  {| tms := p_tms pro; logstash_index := p_logstash_index pro;
     j_index := fst j; index_len := snd j; bulk := bulk' |}.

(** The index name of current-time mode: the index pattern formatted
    against the first reading of the wall clock. *)
Definition wall_clock_index : bytes :=
  strftime E (index ctx) (gmtime_r E (tv_sec (flb_time_get E 0))).

(** The array [logstash_index] still starts with the configured prefix. *)
Definition prefix_intact (st : loop_state) : Prop :=
  firstn (length (logstash_prefix ctx)) (logstash_index st) = logstash_prefix ctx.

(** The second entry of a record. *)
Definition record_map (root : msgpack_object) : msgpack_object :=
  match root with
  | MSGPACK_OBJECT_ARRAY [_; map] => map
  | _ => MSGPACK_OBJECT_NIL
  end.

(** The prefix a record brings with it: the value the lookup of
    [logstash_prefix_key] finds in its map, cut to 128 bytes. [None] when
    no key is configured, when the lookup gives the null pointer, and
    when the value is empty. *)
Definition prefix_value (map : msgpack_object) : option bytes :=
  match logstash_prefix_key ctx with
  | None => None
  | Some _ =>
      match flb_ra_translate E (ra_prefix_key ctx) tag map with
      | None => None
      | Some v => if length v =? 0 then None else Some (firstn 128 v)
      end
  end.

(** None of the records of two entries among [records] brings a prefix. *)
Definition no_prefix_value (records : list msgpack_object) : Prop :=
  Forall (fun r => two_entries r = true -> prefix_value (record_map r) = None)
         records.

(** The time the loop holds after the object [root] when it held [t]
    before it (lines 381-394): an object that is skipped leaves it alone,
    and so does a record when [current_time_index] is on or when its time
    does not decode; otherwise it is the time of the record. *)
Definition time_kept (t : flb_time) (root : msgpack_object) : flb_time :=
  if two_entries root then
    if current_time_index ctx then t
    else match flb_time_pop_from_msgpack E root with
         | Some t' => t'
         | None => t
         end
  else t.

(** The time the index name of the record [root] is dated with in
    logstash mode, [before] being the objects of the batch in front of
    it. The loop starts with the wall clock as first read by the call
    when [current_time_index] is on, and with what [tms] holds on entry
    otherwise. *)
Definition logstash_time (entry : entry_values)
           (before : list msgpack_object) (root : msgpack_object) : flb_time :=
  time_kept (fold_left time_kept before
                       (if current_time_index ctx then flb_time_get E 0
                        else tms_on_entry entry))
            root.

(** The date pattern formatted against [t], as it gets into an array
    with [room] bytes left: nothing when it does not fit. *)
Definition date_suffix (room : nat) (t : flb_time) : bytes :=
  match strftime_max room (logstash_dateformat ctx) (gmtime_r E (tv_sec t)) with
  | Some date => date
  | None => []
  end.

(** The logstash index name made of [prefix] and the time [t]: the
    prefix, a dash and the date, in the array of 256 bytes, read as a C
    string. *)
Definition logstash_index_name (prefix : bytes) (t : flb_time) : bytes :=
  c_str (prefix ++ B "-"
         ++ date_suffix (sizeof_logstash_index - (length prefix + 1) - 1) t).

(** The property of the loop state that current-time mode rests on: with
    id generation the time is the first reading of the wall clock; without
    it the action line is the one made before the loop from that reading. *)
Definition current_time_invariant (st : loop_state) : Prop :=
  (generate_id ctx = true -> tms st = flb_time_get E 0)
  /\ (generate_id ctx = false ->
      exists size id,
        set_j_index size (action_line wall_clock_index id)
        = Next (j_index st, index_len st)).

(** [record_fails st root z]: in the state [st], the record [root] gets
    through its prologue and then fails in one of the three ways the loop
    checks for: the sanitizer returns -1; or the document buffer has no
    JSON form; or the bulk buffer cannot take the two lines ([z] tells
    whether [*out_size] is zeroed, which is done in the third case only). *)
Definition record_fails (st : loop_state) (root : msgpack_object) (z : bool)
  : Prop :=
  exists t map pro ret tmp_sbuf,
    root = MSGPACK_OBJECT_ARRAY [t; map]
    /\ is_type T_MAP map = true
    /\ record_prologue st root map = Next pro
    /\ es_pack_map_content (flb_malloc E) ctx (p_pck pro) map = (ret, tmp_sbuf)
    /\ ((ret = (-1)%Z /\ z = false)
        \/ (ret <> (-1)%Z
            /\ exists j,
                record_action pro tmp_sbuf = Next j
                /\ ((flb_msgpack_raw_to_json_sds E tmp_sbuf = None /\ z = false)
                    \/ (exists json action,
                          flb_msgpack_raw_to_json_sds E tmp_sbuf = Some json
                          /\ j_index_bytes (fst j) (snd j) = Next action
                          /\ es_bulk_append (bulk st) action json = None
                          /\ z = true)))).

(** [record_lines st root action json st']: in the state [st], the
    iteration for the record [root] runs through: the prologue, the
    sanitizer, the action line, the conversion to JSON and the append all
    succeed; [action] and [json] are the two lines appended and [st'] is
    the state the iteration leaves. *)
Definition record_lines (st : loop_state) (root : msgpack_object)
           (action json : bytes) (st' : loop_state) : Prop :=
  exists t map pro ret tmp_sbuf j bulk',
    root = MSGPACK_OBJECT_ARRAY [t; map]
    /\ is_type T_MAP map = true
    /\ record_prologue st root map = Next pro
    /\ es_pack_map_content (flb_malloc E) ctx (p_pck pro) map = (ret, tmp_sbuf)
    /\ ret <> (-1)%Z
    /\ record_action pro tmp_sbuf = Next j
    /\ flb_msgpack_raw_to_json_sds E tmp_sbuf = Some json
    /\ j_index_bytes (fst j) (snd j) = Next action
    /\ es_bulk_append (bulk st) action json = Some bulk'
    /\ st' = state_after pro j bulk'.

(** [records_give st data pairs st']: from the state [st], the loop runs
    through the objects [data]: those that are not arrays of two entries
    are skipped, each of the others gives its pair of lines in the state
    the records before it have left; [pairs] are these pairs, in order,
    and [st'] is the state after the last object. *)
Inductive records_give
  : loop_state -> list msgpack_object -> list (bytes * bytes) -> loop_state
    -> Prop :=
| give_none (st : loop_state) : records_give st [] [] st
| give_skip (st : loop_state) (root : msgpack_object)
            (rest : list msgpack_object) (pairs : list (bytes * bytes))
            (st' : loop_state) :
    two_entries root = false ->
    records_give st rest pairs st' ->
    records_give st (root :: rest) pairs st'
| give_pair (st : loop_state) (root : msgpack_object)
            (rest : list msgpack_object) (action json : bytes)
            (st1 : loop_state) (pairs : list (bytes * bytes))
            (st' : loop_state) :
    record_lines st root action json st1 ->
    records_give st1 rest pairs st' ->
    records_give st (root :: rest) ((action, json) :: pairs) st'.

(** The batch passes the validation of lines 244-264: its first object
    is an array that is not empty. *)
Definition starts_with_an_array (data : list msgpack_object) : bool :=
  match data with
  | MSGPACK_OBJECT_ARRAY (_ :: _) :: _ => true
  | _ => false
  end.

End Formatter.

(* ------------------------------------------------------------------ *)
(** ** Flush callback: [cb_es_flush], [add_aws_auth] *)
(* ------------------------------------------------------------------ *)

(** The objects and heap blocks the plugin creates and has to destroy,
    each named after the variable or the field that first holds it. A
    pointer field of the context holds one of them, or [None] for the
    null pointer; two fields that hold the same object point to the same
    memory. *)
Inductive object : Type :=
| Ctx                (* the context, from flb_calloc *)
| Cloud_host         (* the string extract_cloud_host returns *)
| Split_tokens       (* the list flb_utils_split returns *)
| Cloud_user         (* flb_strdup, ctx->cloud_user *)
| Cloud_passwd       (* flb_strdup, ctx->cloud_passwd *)
| Upstream           (* flb_upstream_create, ctx->u *)
| Index_copy         (* flb_strdup, ctx->index *)
| Type_copy          (* flb_strdup, ctx->type *)
| Prefix_key_buf     (* flb_malloc, buf *)
| Ra_prefix_key      (* flb_ra_create, ctx->ra_prefix_key *)
| Aws_tls            (* flb_tls_create, ctx->aws_tls *)
| Chain_provider     (* flb_standard_chain_provider_create *)
| Session_name       (* flb_sts_session_name, aws_session_name *)
| Sts_tls            (* flb_tls_create, ctx->aws_sts_tls *)
| Sts_provider.      (* flb_sts_provider_create *)

(** The fields of [struct flb_elasticsearch] that the formatter does not
    read: the request URI, the limit of the response buffer, the
    credentials, and the objects the context owns. A pointer field is an
    [option], [None] for the null pointer. *)
Record flb_elasticsearch_net : Type := {
  uri : bytes;
  buffer_size : Z;
  http_user : option bytes;
  http_passwd : option bytes;
  cloud_user : option bytes;
  cloud_passwd : option bytes;
  u : option object;
  ra_prefix_key_object : option object;
  has_aws_auth : bool;
  aws_region : option bytes;
  aws_sts_endpoint : option bytes;
  aws_tls : option object;
  aws_sts_tls : option object;
  aws_provider : option object;
  base_aws_provider : option object
}.

(** What [FLB_OUTPUT_RETURN] hands back to the engine. *)
Inductive flb_output_return : Type := FLB_OK | FLB_RETRY | FLB_ERROR.

(** The calls [cb_es_flush] makes on the connection, on the HTTP client
    and on the heap once it holds a connection, each named after the
    function called: [Http_client] is the creation of the client for a
    POST of [body] to [uri], [Free_pack] is [flb_free (pack)],
    [Sds_destroy] is [flb_sds_destroy (signature)]. Calls of the logging
    macros are left out. *)
Inductive flush_call : Type :=
| Upstream_conn_release
| Http_client (uri body : bytes) (body_size : nat)
| Http_buffer_size (size : Z)
| Http_add_header (key val : bytes)
| Http_basic_auth (user passwd : bytes)
| Http_strip_port_from_host
| Signv4_do (region : option bytes) (service : bytes) (provider : option object)
| Http_client_debug
| Http_do
| Http_client_destroy
| Free_pack
| Sds_destroy.

(** [flb_http_add_header (c, key, key_len, val, val_len)]. *)
Definition add_header (key : bytes) (key_len : nat) (val : bytes) (val_len : nat)
  : flush_call :=
  Http_add_header (firstn key_len key) (firstn val_len val).

(** The result of [cb_es_flush]: the value returned to the engine with the
    calls made, or a run with undefined behaviour. *)
Inductive flush_result : Type :=
| Flush_returns (ret : flb_output_return) (calls : list flush_call)
| Flush_undefined.

(** What the functions [cb_es_flush] calls give back. Each one is told the
    calls made before it, so that its answer may depend on the request. *)
Record transport : Type := {
  (** [flb_upstream_conn_get]: whether a connection is handed out. *)
  flb_upstream_conn_get : bool;
  (** [flb_http_client]: whether a client is created. *)
  flb_http_client_created : bool;
  (** [flb_http_strip_port_from_host]: the value returned. *)
  flb_http_strip_port_from_host : list flush_call -> Z;
  (** [flb_signv4_do]: the signature, [None] for the null pointer. *)
  flb_signv4_do : list flush_call -> option bytes;
  (** [flb_http_do]: the value returned and the response it leaves in the
      client. *)
  flb_http_do : list flush_call -> Z * flb_http_client
}.

Definition is_conn_release (c : flush_call) : bool :=
  match c with Upstream_conn_release => true | _ => false end.
Definition is_http_client (c : flush_call) : bool :=
  match c with Http_client _ _ _ => true | _ => false end.
Definition is_client_destroy (c : flush_call) : bool :=
  match c with Http_client_destroy => true | _ => false end.
Definition is_free_pack (c : flush_call) : bool :=
  match c with Free_pack => true | _ => false end.
Definition is_sds_destroy (c : flush_call) : bool :=
  match c with Sds_destroy => true | _ => false end.
Definition is_user_agent (c : flush_call) : bool :=
  match c with
  | Http_add_header key _ =>
      (* the key is [User-Agent]: each is a prefix of the other *)
      starts_with key (B "User-Agent") && starts_with (B "User-Agent") key
  | _ => false
  end.
Definition is_basic_auth (c : flush_call) : bool :=
  match c with Http_basic_auth _ _ => true | _ => false end.
Definition is_signv4_do (c : flush_call) : bool :=
  match c with Signv4_do _ _ _ => true | _ => false end.
Definition is_http_do (c : flush_call) : bool :=
  match c with Http_do => true | _ => false end.

(** How many of the calls satisfy [p]. *)
Definition count_calls (p : flush_call -> bool) (calls : list flush_call) : nat :=
  length (filter p calls).

Section Flush.

Variable E : platform.
Variable T : transport.
Variable flb_pack_json : bytes -> option msgpack_sbuffer.
(** Whether the plugin is compiled with [FLB_HAVE_AWS]. *)
Variable FLB_HAVE_AWS : bool.
Variable ctx : flb_elasticsearch.
Variable net : flb_elasticsearch_net.
Variable tag : bytes.

(** [add_aws_auth] (lines 46-73), after the calls [calls]: the calls made
    and the signature. *)
Definition add_aws_auth (calls : list flush_call)
  : list flush_call * option bytes :=
  let ret := flb_http_strip_port_from_host T calls in
  let calls := calls ++ [Http_strip_port_from_host] in
  if (ret <? 0)%Z then (calls, None)
  else
    let calls :=
      calls ++ [add_header (B "User-Agent") 10 (B "aws-fluent-bit-plugin") 21] in
    (calls ++ [Signv4_do (aws_region net) (B "es") (aws_provider net)],
     flb_signv4_do T calls).

(** Lines 744-749: the credentials of the configuration file first, those
    of [cloud_auth] otherwise. *)
Definition basic_auth : list flush_call :=
  match http_user net, http_passwd net with
  | Some user, Some passwd => [Http_basic_auth user passwd]
  | _, _ =>
      match cloud_user net, cloud_passwd net with
      | Some user, Some passwd => [Http_basic_auth user passwd]
      | _, _ => []
      end
  end.

(** Lines 732-764: the client composed for the payload [pack]. Gives the
    calls made, the signature, and whether the code went on to send
    ([false] for the [goto retry] of a request that could not be
    signed). *)
Definition compose_request (pack : bytes) (pack_size : nat)
  : list flush_call * option bytes * bool :=
  let calls := [Http_client (uri net) pack pack_size;
                Http_buffer_size (buffer_size net)] in
  let calls :=
    if FLB_HAVE_AWS then calls
    else calls ++ [add_header (B "User-Agent") 10 (B "Fluent-Bit") 10] in
  let calls :=
    calls ++ [add_header (B "Content-Type") 12 (B "application/x-ndjson") 20] in
  let calls := calls ++ basic_auth in
  if FLB_HAVE_AWS then
    if has_aws_auth net then
      let '(calls, signature) := add_aws_auth calls in
      match signature with
      | None => (calls, None, false)
      | Some _ => (calls ++ [Http_client_debug], signature, true)
      end
    else
      (calls ++ [add_header (B "User-Agent") 10 (B "Fluent-Bit") 10;
                 Http_client_debug], None, true)
  else (calls ++ [Http_client_debug], None, true).

(** What the label [retry] and the cleanup have in common: the client is
    destroyed, the payload freed, the connection released. *)
Definition tail_calls : list flush_call :=
  [Http_client_destroy; Free_pack; Upstream_conn_release].

(** The label [retry] (lines 826-830). *)
Definition retry (calls : list flush_call) : flush_result :=
  Flush_returns FLB_RETRY (calls ++ tail_calls).

(** The cleanup of a flush that went through (lines 816-823). *)
Definition cleanup (calls : list flush_call) (signature : option bytes)
  : flush_result :=
  Flush_returns FLB_OK
                (calls ++ tail_calls
                       ++ match signature with
                          | Some _ => [Sds_destroy]
                          | None => []
                          end).

(** Lines 766-814: the request is sent and the response judged. *)
Definition send_request (calls : list flush_call) (signature : option bytes)
  : flush_result :=
  let '(ret, c) := flb_http_do T calls in
  let calls := calls ++ [Http_do] in
  if negb (ret =? 0)%Z then retry calls
  else if negb (resp_status c =? 200)%Z && negb (resp_status c =? 201)%Z
  then retry calls
  else if (0 <? resp_payload_size c)%Z then
    if elasticsearch_error_check flb_pack_json ctx c
    then retry calls
    else cleanup calls signature
  else retry calls.

(** [cb_es_flush]. [data] is the sequence of objects in the chunk, [entry]
    what the automatic variables of the formatter hold. The client that
    [flb_http_client] returns is used without a check, so a null pointer
    is dereferenced. *)
Definition cb_es_flush (entry : entry_values) (data : list msgpack_object)
  : flush_result :=
  if negb (flb_upstream_conn_get T) then Flush_returns FLB_RETRY []
  else
    match elasticsearch_format E ctx tag entry data with
    | Format_undefined => Flush_undefined
    | Format_error _ => Flush_returns FLB_ERROR [Upstream_conn_release]
    | Format_ok pack pack_size =>
        if negb (flb_http_client_created T) then Flush_undefined
        else
          let '(calls, signature, go_on) := compose_request pack pack_size in
          if go_on then send_request calls signature else retry calls
    end.

End Flush.

(* ------------------------------------------------------------------ *)
(** ** Configuration: es_conf.c, [cb_es_init], [cb_es_exit] *)
(* ------------------------------------------------------------------ *)

(** A function of es_conf.c returns a value, or runs into undefined
    behaviour. *)
Inductive outcome (A : Type) : Type :=
| Returns (a : A)
| Undefined_behaviour.
Arguments Returns {A} a.
Arguments Undefined_behaviour {A}.

Definition and_then {A C : Type} (m : outcome A) (k : A -> outcome C)
  : outcome C :=
  match m with
  | Returns a => k a
  | Undefined_behaviour => Undefined_behaviour
  end.

(** *** [strtok] with the delimiter [$]

    [mem] is the memory from the place where the scan starts to the end
    of the array it lies in; a scan that leaves the array is undefined. *)

Definition dollar : ascii := "$"%char.

(** The scan over leading delimiters. *)
Fixpoint strtok_skip (mem : bytes) : outcome bytes :=
  match mem with
  | [] => Undefined_behaviour
  | c :: rest => if Ascii.eqb c dollar then strtok_skip rest else Returns mem
  end.

(** The scan to the end of the token: the token, and the memory from the
    saved pointer on. A delimiter ends the token, is overwritten with a
    NUL, and the saved pointer goes past it; at the NUL that ends the
    string the saved pointer stays. *)
Fixpoint strtok_scan (mem : bytes) : outcome (bytes * bytes) :=
  match mem with
  | [] => Undefined_behaviour
  | c :: rest =>
      if Ascii.eqb c NUL then Returns ([], mem)
      else if Ascii.eqb c dollar then Returns ([], rest)
      else and_then (strtok_scan rest)
                    (fun r => Returns (c :: fst r, snd r))
  end.

(** [strtok]: [None] for the null pointer (no token left). *)
Definition strtok (mem : bytes) : outcome (option (bytes * bytes)) :=
  and_then (strtok_skip mem)
           (fun start =>
              match start with
              | [] => Undefined_behaviour
              | c :: _ =>
                  if Ascii.eqb c NUL then Returns None
                  else and_then (strtok_scan start) (fun r => Returns (Some r))
              end).

(** [strchr (s, c)] followed by [++]: the C string behind the first [c]. *)
Fixpoint after_char (c : ascii) (s : bytes) : option bytes :=
  match s with
  | [] => None
  | x :: rest => if Ascii.eqb x c then Some rest else after_char c rest
  end.

(** *** The output instance and the collaborators of es_conf.c *)

(** What [flb_es_conf_create] reads of [struct flb_output_instance]. *)
Record flb_output_instance : Type := {
  (** [ins->host.uri]: the values of the fields of the URI, [None] for
      the null pointer; [uri->count] is their number. *)
  host_uri : option (list bytes);
  (** [ins->host.name] and [ins->host.port]. *)
  host_name : option bytes;
  host_port : Z;
  (** [flb_output_get_property (name, ins)]. *)
  flb_output_get_property : string -> option bytes
}.

(** What the functions es_conf.c calls give back, and a constant of es.h.
    The arguments of a call are part of the model only where the answer
    is made to depend on them. *)
Record conf_env : Type := {
  (** [flb_calloc], [flb_malloc (size)], [flb_strdup (s)] and
      [flb_sds_create (s)]: whether the block is granted. *)
  flb_calloc_ok : bool;
  flb_malloc_ok : nat -> bool;
  flb_strdup_ok : bytes -> bool;
  flb_sds_create_ok : bytes -> bool;
  (** [mbedtls_base64_decode (dst, dlen, &olen, src, slen)]: the [olen]
      bytes written to [dst], [None] for a return value other than 0. *)
  mbedtls_base64_decode : nat -> bytes -> option bytes;
  (** [flb_output_net_default (host, port, ins)]: the name and the port
      of the instance afterwards. *)
  flb_output_net_default : bytes -> Z -> option bytes * Z -> option bytes * Z;
  (** [flb_output_config_map_set]: the context as the configuration map
      fills it, [None] for -1. *)
  flb_output_config_map_set : option (flb_elasticsearch * flb_elasticsearch_net);
  (** [flb_utils_split (line, separator, max_split)]: the values of the
      entries of the list, [None] for the null pointer. *)
  flb_utils_split : bytes -> ascii -> Z -> option (list bytes);
  (** Whether these return an object: [flb_upstream_create],
      [flb_ra_create (pattern)], [flb_tls_create] (for the object it is
      called for), [flb_standard_chain_provider_create],
      [flb_sts_session_name], [flb_sts_provider_create]. *)
  flb_upstream_create_ok : bool;
  flb_ra_create_ok : bytes -> bool;
  flb_tls_create_ok : object -> bool;
  flb_standard_chain_provider_create_ok : bool;
  flb_sts_session_name_ok : bool;
  flb_sts_provider_create_ok : bool;
  (** [sizeof (ctx->uri)], from es.h. *)
  sizeof_uri : nat
}.

(** An object is created, or destroyed (freed). *)
Inductive conf_call : Type :=
| Created (o : object)
| Destroyed (o : object).

Definition object_eqb (a b : object) : bool :=
  match a, b with
  | Ctx, Ctx | Cloud_host, Cloud_host | Split_tokens, Split_tokens
  | Cloud_user, Cloud_user | Cloud_passwd, Cloud_passwd
  | Upstream, Upstream | Index_copy, Index_copy | Type_copy, Type_copy
  | Prefix_key_buf, Prefix_key_buf | Ra_prefix_key, Ra_prefix_key
  | Aws_tls, Aws_tls | Chain_provider, Chain_provider
  | Session_name, Session_name | Sts_tls, Sts_tls
  | Sts_provider, Sts_provider => true
  | _, _ => false
  end.

(** How often [o] is created, and destroyed, by the calls. *)
Definition created (o : object) (calls : list conf_call) : nat :=
  length (filter (fun c => match c with
                           | Created o' => object_eqb o o'
                           | Destroyed _ => false
                           end) calls).

Definition destroyed (o : object) (calls : list conf_call) : nat :=
  length (filter (fun c => match c with
                           | Destroyed o' => object_eqb o o'
                           | Created _ => false
                           end) calls).

(** The result of [flb_es_conf_create]: the context, with the name and
    the port the instance is left with and the calls made; or the null
    pointer; or undefined behaviour. The formatter's part of the context
    is [None] when [flb_strdup] has left [index] or [type] null: the
    context is returned all the same. *)
Inductive conf_result : Type :=
| Conf_ctx (ctx : option flb_elasticsearch) (net : flb_elasticsearch_net)
           (host : option bytes * Z) (calls : list conf_call)
| Conf_null (host : option bytes * Z) (calls : list conf_call)
| Conf_undefined.

(** A part of [flb_es_conf_create] goes on, or ends the function. *)
Inductive conf_step (A : Type) : Type :=
| Continue (a : A)
| Stop (r : conf_result).
Arguments Continue {A} a.
Arguments Stop {A} r.

Definition conf_bind {A C : Type} (m : conf_step A) (k : A -> conf_step C)
  : conf_step C :=
  match m with
  | Continue a => k a
  | Stop r => Stop r
  end.

(** *** Assignments to the fields of the context *)

Definition set_index (v : bytes) (c : flb_elasticsearch) : flb_elasticsearch :=
  {| index := v; type := type c;
     suppress_type_name := suppress_type_name c;
     logstash_format := logstash_format c; logstash_prefix := logstash_prefix c;
     logstash_prefix_key := logstash_prefix_key c;
     ra_prefix_key := ra_prefix_key c;
     logstash_dateformat := logstash_dateformat c; time_key := time_key c;
     time_key_format := time_key_format c; time_key_nanos := time_key_nanos c;
     include_tag_key := include_tag_key c; tag_key := tag_key c;
     generate_id := generate_id c; replace_dots := replace_dots c;
     id_format := id_format c; current_time_index := current_time_index c;
     trace_output := trace_output c; trace_error := trace_error c |}.

Definition set_type (v : bytes) (c : flb_elasticsearch) : flb_elasticsearch :=
  {| index := index c; type := v;
     suppress_type_name := suppress_type_name c;
     logstash_format := logstash_format c; logstash_prefix := logstash_prefix c;
     logstash_prefix_key := logstash_prefix_key c;
     ra_prefix_key := ra_prefix_key c;
     logstash_dateformat := logstash_dateformat c; time_key := time_key c;
     time_key_format := time_key_format c; time_key_nanos := time_key_nanos c;
     include_tag_key := include_tag_key c; tag_key := tag_key c;
     generate_id := generate_id c; replace_dots := replace_dots c;
     id_format := id_format c; current_time_index := current_time_index c;
     trace_output := trace_output c; trace_error := trace_error c |}.

Definition set_ra_prefix_key (v : bytes) (c : flb_elasticsearch)
  : flb_elasticsearch :=
  {| index := index c; type := type c;
     suppress_type_name := suppress_type_name c;
     logstash_format := logstash_format c; logstash_prefix := logstash_prefix c;
     logstash_prefix_key := logstash_prefix_key c;
     ra_prefix_key := v;
     logstash_dateformat := logstash_dateformat c; time_key := time_key c;
     time_key_format := time_key_format c; time_key_nanos := time_key_nanos c;
     include_tag_key := include_tag_key c; tag_key := tag_key c;
     generate_id := generate_id c; replace_dots := replace_dots c;
     id_format := id_format c; current_time_index := current_time_index c;
     trace_output := trace_output c; trace_error := trace_error c |}.

Definition set_id_format (v : option bytes) (c : flb_elasticsearch)
  : flb_elasticsearch :=
  {| index := index c; type := type c;
     suppress_type_name := suppress_type_name c;
     logstash_format := logstash_format c; logstash_prefix := logstash_prefix c;
     logstash_prefix_key := logstash_prefix_key c;
     ra_prefix_key := ra_prefix_key c;
     logstash_dateformat := logstash_dateformat c; time_key := time_key c;
     time_key_format := time_key_format c; time_key_nanos := time_key_nanos c;
     include_tag_key := include_tag_key c; tag_key := tag_key c;
     generate_id := generate_id c; replace_dots := replace_dots c;
     id_format := v; current_time_index := current_time_index c;
     trace_output := trace_output c; trace_error := trace_error c |}.

(** The fields of the second record, listed once: a new record from the
    values of all of them. *)
Definition net_of (uri' : bytes) (buffer_size' : Z)
           (http_user' http_passwd' cloud_user' cloud_passwd' : option bytes)
           (u' ra' : option object) (has_aws_auth' : bool)
           (aws_region' aws_sts_endpoint' : option bytes)
           (aws_tls' aws_sts_tls' aws_provider' base_aws_provider' : option object)
  : flb_elasticsearch_net :=
  {| uri := uri'; buffer_size := buffer_size';
     http_user := http_user'; http_passwd := http_passwd';
     cloud_user := cloud_user'; cloud_passwd := cloud_passwd';
     u := u'; ra_prefix_key_object := ra';
     has_aws_auth := has_aws_auth';
     aws_region := aws_region'; aws_sts_endpoint := aws_sts_endpoint';
     aws_tls := aws_tls'; aws_sts_tls := aws_sts_tls';
     aws_provider := aws_provider'; base_aws_provider := base_aws_provider' |}.

Definition set_uri (v : bytes) (n : flb_elasticsearch_net) :=
  net_of v (buffer_size n) (http_user n) (http_passwd n) (cloud_user n)
         (cloud_passwd n) (u n) (ra_prefix_key_object n) (has_aws_auth n)
         (aws_region n) (aws_sts_endpoint n) (aws_tls n) (aws_sts_tls n)
         (aws_provider n) (base_aws_provider n).
Definition set_buffer_size (v : Z) (n : flb_elasticsearch_net) :=
  net_of (uri n) v (http_user n) (http_passwd n) (cloud_user n)
         (cloud_passwd n) (u n) (ra_prefix_key_object n) (has_aws_auth n)
         (aws_region n) (aws_sts_endpoint n) (aws_tls n) (aws_sts_tls n)
         (aws_provider n) (base_aws_provider n).
Definition set_cloud_user (v : option bytes) (n : flb_elasticsearch_net) :=
  net_of (uri n) (buffer_size n) (http_user n) (http_passwd n) v
         (cloud_passwd n) (u n) (ra_prefix_key_object n) (has_aws_auth n)
         (aws_region n) (aws_sts_endpoint n) (aws_tls n) (aws_sts_tls n)
         (aws_provider n) (base_aws_provider n).
Definition set_cloud_passwd (v : option bytes) (n : flb_elasticsearch_net) :=
  net_of (uri n) (buffer_size n) (http_user n) (http_passwd n) (cloud_user n)
         v (u n) (ra_prefix_key_object n) (has_aws_auth n)
         (aws_region n) (aws_sts_endpoint n) (aws_tls n) (aws_sts_tls n)
         (aws_provider n) (base_aws_provider n).
Definition set_u (v : option object) (n : flb_elasticsearch_net) :=
  net_of (uri n) (buffer_size n) (http_user n) (http_passwd n) (cloud_user n)
         (cloud_passwd n) v (ra_prefix_key_object n) (has_aws_auth n)
         (aws_region n) (aws_sts_endpoint n) (aws_tls n) (aws_sts_tls n)
         (aws_provider n) (base_aws_provider n).
Definition set_ra_prefix_key_object (v : option object)
           (n : flb_elasticsearch_net) :=
  net_of (uri n) (buffer_size n) (http_user n) (http_passwd n) (cloud_user n)
         (cloud_passwd n) (u n) v (has_aws_auth n)
         (aws_region n) (aws_sts_endpoint n) (aws_tls n) (aws_sts_tls n)
         (aws_provider n) (base_aws_provider n).
Definition set_has_aws_auth (v : bool) (n : flb_elasticsearch_net) :=
  net_of (uri n) (buffer_size n) (http_user n) (http_passwd n) (cloud_user n)
         (cloud_passwd n) (u n) (ra_prefix_key_object n) v
         (aws_region n) (aws_sts_endpoint n) (aws_tls n) (aws_sts_tls n)
         (aws_provider n) (base_aws_provider n).
Definition set_aws_region (v : option bytes) (n : flb_elasticsearch_net) :=
  net_of (uri n) (buffer_size n) (http_user n) (http_passwd n) (cloud_user n)
         (cloud_passwd n) (u n) (ra_prefix_key_object n) (has_aws_auth n)
         v (aws_sts_endpoint n) (aws_tls n) (aws_sts_tls n)
         (aws_provider n) (base_aws_provider n).
Definition set_aws_sts_endpoint (v : option bytes) (n : flb_elasticsearch_net) :=
  net_of (uri n) (buffer_size n) (http_user n) (http_passwd n) (cloud_user n)
         (cloud_passwd n) (u n) (ra_prefix_key_object n) (has_aws_auth n)
         (aws_region n) v (aws_tls n) (aws_sts_tls n)
         (aws_provider n) (base_aws_provider n).
Definition set_aws_tls (v : option object) (n : flb_elasticsearch_net) :=
  net_of (uri n) (buffer_size n) (http_user n) (http_passwd n) (cloud_user n)
         (cloud_passwd n) (u n) (ra_prefix_key_object n) (has_aws_auth n)
         (aws_region n) (aws_sts_endpoint n) v (aws_sts_tls n)
         (aws_provider n) (base_aws_provider n).
Definition set_aws_sts_tls (v : option object) (n : flb_elasticsearch_net) :=
  net_of (uri n) (buffer_size n) (http_user n) (http_passwd n) (cloud_user n)
         (cloud_passwd n) (u n) (ra_prefix_key_object n) (has_aws_auth n)
         (aws_region n) (aws_sts_endpoint n) (aws_tls n) v
         (aws_provider n) (base_aws_provider n).
Definition set_aws_provider (v : option object) (n : flb_elasticsearch_net) :=
  net_of (uri n) (buffer_size n) (http_user n) (http_passwd n) (cloud_user n)
         (cloud_passwd n) (u n) (ra_prefix_key_object n) (has_aws_auth n)
         (aws_region n) (aws_sts_endpoint n) (aws_tls n) (aws_sts_tls n)
         v (base_aws_provider n).
Definition set_base_aws_provider (v : option object)
           (n : flb_elasticsearch_net) :=
  net_of (uri n) (buffer_size n) (http_user n) (http_passwd n) (cloud_user n)
         (cloud_passwd n) (u n) (ra_prefix_key_object n) (has_aws_auth n)
         (aws_region n) (aws_sts_endpoint n) (aws_tls n) (aws_sts_tls n)
         (aws_provider n) v.

(** The second record of a context that [flb_calloc] has just zeroed. *)
Definition zeroed_net : flb_elasticsearch_net :=
  net_of [] 0 None None None None None None false None None None None None None.

(** Of what [flb_output_config_map_set] leaves, the fields that an entry
    of [config_map] writes (those with [FLB_TRUE] before their offset);
    the others keep the zero of [flb_calloc]. *)
Definition mapped_net (n : flb_elasticsearch_net) : flb_elasticsearch_net :=
  net_of [] (buffer_size n) (http_user n) (http_passwd n) None None None None
         (has_aws_auth n) (aws_region n) (aws_sts_endpoint n)
         None None None None.

Definition mapped_ctx (c : flb_elasticsearch) : flb_elasticsearch :=
  set_id_format None (set_ra_prefix_key [] c).

Section Conf.

Variable V : conf_env.
(** Whether the plugin is compiled with [FLB_HAVE_AWS]. *)
Variable FLB_HAVE_AWS : bool.

(** *** [extract_cloud_host] (es_conf.c, lines 41-79) *)

Definition sizeof_buf : nat := 256.
Definition sizeof_cloud_host_buf : nat := 256.

(** [char buf[256] = {0}] after the decoder has written [decoded] at its
    start. *)
Definition decoded_buf (decoded : bytes) : bytes :=
  decoded ++ repeat NUL (sizeof_buf - length decoded).

(** [strcpy (cloud_host_buf, host)], [strcat] of a dot, [strcat] of the
    region: the string left in the array. *)
Definition cloud_host_string (host region : bytes) : outcome bytes :=
  if length (host ++ B "." ++ region) <? sizeof_cloud_host_buf
  then Returns (host ++ B "." ++ region)
  else Undefined_behaviour.

(** [None] is the null pointer. A decoder that writes more than the
    [dlen] it is given writes past [buf]. *)
Definition extract_cloud_host (cloud_id : bytes) : outcome (option bytes) :=
  match after_char ":"%char (c_str cloud_id) with
  | None => Returns None
  | Some colon =>
      match mbedtls_base64_decode V sizeof_buf colon with
      | None => Returns None
      | Some decoded =>
          if sizeof_buf <? length decoded then Undefined_behaviour
          else
            and_then (strtok (decoded_buf decoded)) (fun first =>
            match first with
            | None => Returns None
            | Some (region, saved) =>
                and_then (strtok saved) (fun second =>
                match second with
                | None => Returns None
                | Some (host, _) =>
                    and_then (cloud_host_string host region) (fun s =>
                    if flb_sds_create_ok V s then Returns (Some s)
                    else Returns None)
                end)
            end)
      end
  end.

(** *** [set_cloud_credentials] (lines 90-110) *)

(** The loop over the entries, [items] counting them: the first is
    copied to [cloud_user], the second to [cloud_passwd]. A copy that
    [flb_strdup] refuses leaves the null pointer. *)
Fixpoint cloud_credentials_loop (items : nat) (toks : list bytes)
         (n : flb_elasticsearch_net) (calls : list conf_call)
  : flb_elasticsearch_net * list conf_call :=
  match toks with
  | [] => (n, calls)
  | value :: rest =>
      let items := S items in
      let '(n, calls) :=
        if items =? 1 then
          if flb_strdup_ok V value
          then (set_cloud_user (Some value) n, calls ++ [Created Cloud_user])
          else (set_cloud_user None n, calls)
        else (n, calls) in
      let '(n, calls) :=
        if items =? 2 then
          if flb_strdup_ok V value
          then (set_cloud_passwd (Some value) n, calls ++ [Created Cloud_passwd])
          else (set_cloud_passwd None n, calls)
        else (n, calls) in
      cloud_credentials_loop items rest n calls
  end.

(** The list is walked without a check for the null pointer. *)
Definition set_cloud_credentials (n : flb_elasticsearch_net)
           (cloud_auth : bytes) (calls : list conf_call)
  : outcome (flb_elasticsearch_net * list conf_call) :=
  match flb_utils_split V cloud_auth ":"%char (-1) with
  | None => Undefined_behaviour
  | Some toks =>
      let '(n, calls) :=
        cloud_credentials_loop 0 toks n (calls ++ [Created Split_tokens]) in
      Returns (n, calls ++ [Destroyed Split_tokens])
  end.

(** *** [flb_es_conf_destroy] (lines 389-426) *)

Definition destroy_object (field : option object) : list conf_call :=
  match field with
  | Some o => [Destroyed o]
  | None => []
  end.

(** [flb_free] of a string field: nothing for the null pointer. *)
Definition free_string (field : option bytes) (o : object) : list conf_call :=
  match field with
  | Some _ => [Destroyed o]
  | None => []
  end.

(** The value returned and the calls made. *)
Definition flb_es_conf_destroy (ctx : option flb_elasticsearch_net)
  : Z * list conf_call :=
  match ctx with
  | None => (0%Z, [])
  | Some n =>
      (0%Z,
       destroy_object (u n)
       ++ (if FLB_HAVE_AWS
           then destroy_object (base_aws_provider n)
                ++ destroy_object (aws_provider n)
                ++ destroy_object (aws_tls n)
                ++ destroy_object (aws_sts_tls n)
           else [])
       ++ destroy_object (ra_prefix_key_object n)
       ++ free_string (cloud_passwd n) Cloud_passwd
       ++ free_string (cloud_user n) Cloud_user
       ++ [Destroyed Ctx])
  end.

(** *** [flb_es_conf_create] (lines 112-387) *)

(** [flb_es_conf_destroy (ctx); return NULL;]. *)
Definition destroy_and_return_null {A : Type} (n : flb_elasticsearch_net)
           (host : option bytes * Z) (calls : list conf_call) : conf_step A :=
  Stop (Conf_null host (calls ++ snd (flb_es_conf_destroy (Some n)))).

(** Lines 141-146: the first two fields of the URI of the instance, when
    it has at least two. *)
Definition uri_fields (ins : flb_output_instance)
  : option bytes * option bytes :=
  match host_uri ins with
  | Some fields =>
      if 2 <=? length fields then (nth_error fields 0, nth_error fields 1)
      else (None, None)
  | None => (None, None)
  end.

(** Lines 148-159: the host taken from [cloud_id]. *)
Definition conf_cloud_id (ins : flb_output_instance) (calls : list conf_call)
  : conf_step ((option bytes * Z) * list conf_call) :=
  match flb_output_get_property ins "cloud_id" with
  | Some tmp =>
      match extract_cloud_host tmp with
      | Undefined_behaviour => Stop Conf_undefined
      | Returns None =>
          destroy_and_return_null zeroed_net (host_name ins, host_port ins) calls
      | Returns (Some cloud_host) =>
          Continue ((Some cloud_host, 443%Z), calls ++ [Created Cloud_host])
      end
  | None => Continue ((host_name ins, host_port ins), calls)
  end.

(** Lines 164-176: the context filled from the configuration map, and
    the credentials of [cloud_auth]. *)
Definition conf_config_map (ins : flb_output_instance)
           (host : option bytes * Z) (calls : list conf_call)
  : conf_step (flb_elasticsearch * flb_elasticsearch_net * list conf_call) :=
  match flb_output_config_map_set V with
  | None => destroy_and_return_null zeroed_net host calls
  | Some (c, n) =>
      let c := mapped_ctx c in
      let n := mapped_net n in
      match flb_output_get_property ins "cloud_auth" with
      | Some tmp =>
          match set_cloud_credentials n tmp calls with
          | Undefined_behaviour => Stop Conf_undefined
          | Returns (n, calls) => Continue (c, n, calls)
          end
      | None => Continue (c, n, calls)
      end
  end.

(** Lines 190-204: the upstream. *)
Definition conf_upstream (n : flb_elasticsearch_net)
           (host : option bytes * Z) (calls : list conf_call)
  : conf_step (flb_elasticsearch_net * list conf_call) :=
  if flb_upstream_create_ok V
  then Continue (set_u (Some Upstream) n, calls ++ [Created Upstream])
  else destroy_and_return_null n host calls.

(** Lines 206-213: index and type taken from the URI. The formatter's
    part of the context is lost when a copy is refused. *)
Definition conf_index_type (f : option bytes * option bytes)
           (c0 : flb_elasticsearch) (calls : list conf_call)
  : option flb_elasticsearch * list conf_call :=
  let '(c, calls) :=
    match fst f with
    | Some value =>
        if flb_strdup_ok V value
        then (Some (set_index value c0), calls ++ [Created Index_copy])
        else (None, calls)
    | None => (Some c0, calls)
    end in
  match snd f with
  | Some value =>
      if flb_strdup_ok V value
      then (option_map (set_type value) c, calls ++ [Created Type_copy])
      else (None, calls)
  | None => (c, calls)
  end.

(** Lines 215-218. *)
Definition conf_buffer_size (size : Z) : Z :=
  if (size =? -1)%Z then 0%Z else size.

(** Lines 220-233: the complete output of the conversion that makes the
    URI of the bulk request, from the properties [path] and [pipeline]. *)
Definition bulk_uri_format (ins : flb_output_instance) : bytes :=
  let path :=
    match flb_output_get_property ins "path" with
    | Some p => p
    | None => []
    end in
  match flb_output_get_property ins "pipeline" with
  | Some tmp => percent_s path ++ B "/_bulk/?pipeline=" ++ percent_s tmp
  | None => percent_s path ++ B "/_bulk"
  end.

(** What [snprintf], given the size [sizeof (ctx->uri) - 1], leaves in
    [ctx->uri]. *)
Definition conf_uri (ins : flb_output_instance) : bytes :=
  fst (snprintf (sizeof_uri V - 1) (bulk_uri_format ins)).

(** Lines 236-261: the record accessor of [logstash_prefix_key]. For a
    key that does not start with a dollar sign the pattern is built in a
    block [buf], which is freed right after [flb_ra_create], before its
    result is looked at. *)
Definition conf_prefix_key (c : option flb_elasticsearch)
           (key : option bytes) (n : flb_elasticsearch_net)
           (host : option bytes * Z) (calls : list conf_call)
  : conf_step (option flb_elasticsearch * flb_elasticsearch_net
               * list conf_call) :=
  match key with
  | None => Continue (c, n, calls)
  | Some prefix_key =>
      conf_bind
        (if Ascii.eqb (hd NUL prefix_key) dollar
         then
           if flb_ra_create_ok V (conf_ra_pattern prefix_key)
           then Continue (true, calls ++ [Created Ra_prefix_key])
           else Continue (false, calls)
         else if flb_malloc_ok V (length prefix_key + 2)
              then
                let calls := calls ++ [Created Prefix_key_buf] in
                if flb_ra_create_ok V (conf_ra_pattern prefix_key)
                then Continue (true, calls ++ [Created Ra_prefix_key;
                                               Destroyed Prefix_key_buf])
                else Continue (false, calls ++ [Destroyed Prefix_key_buf])
              else destroy_and_return_null n host calls)
        (fun '(created, calls) =>
           if created : bool
           then Continue (option_map (set_ra_prefix_key
                                        (conf_ra_pattern prefix_key)) c,
                          set_ra_prefix_key_object (Some Ra_prefix_key) n,
                          calls)
           else destroy_and_return_null n host calls)
  end.

(** Lines 320-374: the provider that assumes the role [aws_role_arn]. *)
Definition conf_aws_role (ins : flb_output_instance)
           (n : flb_elasticsearch_net) (host : option bytes * Z)
           (calls : list conf_call)
  : conf_step (flb_elasticsearch_net * list conf_call) :=
  match flb_output_get_property ins "aws_role_arn" with
  | None => Continue (n, calls)
  | Some _ =>
      let n := set_base_aws_provider (aws_provider n) n in
      if negb (flb_sts_session_name_ok V)
      then destroy_and_return_null n host calls
      else
        let calls := calls ++ [Created Session_name] in
        if negb (flb_tls_create_ok V Sts_tls)
        then destroy_and_return_null (set_aws_sts_tls None n) host calls
        else
          let n := set_aws_sts_tls (Some Sts_tls) n in
          let calls := calls ++ [Created Sts_tls] in
          if flb_sts_provider_create_ok V
          then Continue (set_aws_provider (Some Sts_provider) n,
                         calls ++ [Created Sts_provider;
                                   Destroyed Session_name])
          else destroy_and_return_null (set_aws_provider None n) host
                                       (calls ++ [Destroyed Session_name])
  end.

(** Lines 271-384: AWS authentication. *)
Definition conf_aws (ins : flb_output_instance) (n : flb_elasticsearch_net)
           (host : option bytes * Z) (calls : list conf_call)
  : conf_step (flb_elasticsearch_net * list conf_call) :=
  if negb FLB_HAVE_AWS then Continue (n, calls)
  else
    let n := set_has_aws_auth FLB_FALSE n in
    match flb_output_get_property ins "aws_auth" with
    | None => Continue (n, calls)
    | Some tmp =>
        if negb (strncasecmp_eq tmp (B "On") 2) then Continue (n, calls)
        else
          let n := set_has_aws_auth FLB_TRUE n in
          if negb (flb_tls_create_ok V Aws_tls)
          then destroy_and_return_null (set_aws_tls None n) host calls
          else
            let n := set_aws_tls (Some Aws_tls) n in
            let calls := calls ++ [Created Aws_tls] in
            match flb_output_get_property ins "aws_region" with
            | None => destroy_and_return_null n host calls
            | Some region =>
                let n := set_aws_region (Some region) n in
                let n :=
                  match flb_output_get_property ins "aws_sts_endpoint" with
                  | Some endpoint => set_aws_sts_endpoint (Some endpoint) n
                  | None => n
                  end in
                if negb (flb_standard_chain_provider_create_ok V)
                then destroy_and_return_null (set_aws_provider None n) host calls
                else
                  conf_aws_role ins
                                (set_aws_provider (Some Chain_provider) n) host
                                (calls ++ [Created Chain_provider])
            end
    end.

Definition flb_es_conf_create (ins : flb_output_instance) : conf_result :=
  if negb (flb_calloc_ok V) then Conf_null (host_name ins, host_port ins) []
  else
    let f := uri_fields ins in
    let run :=
      conf_bind (conf_cloud_id ins [Created Ctx]) (fun '(host, calls) =>
      let host := flb_output_net_default V (B "127.0.0.1") 9200%Z host in
      conf_bind (conf_config_map ins host calls) (fun '(c0, n, calls) =>
      conf_bind (conf_upstream n host calls) (fun '(n, calls) =>
      let '(c, calls) := conf_index_type f c0 calls in
      let n := set_buffer_size (conf_buffer_size (buffer_size n)) n in
      let n := set_uri (conf_uri ins) n in
      conf_bind (conf_prefix_key c (logstash_prefix_key c0) n host calls)
                (fun '(c, n, calls) =>
      let c :=
        match flb_output_get_property ins "id_format" with
        | Some tmp => option_map (set_id_format (Some tmp)) c
        | None => c
        end in
      conf_bind (conf_aws ins n host calls) (fun '(n, calls) =>
      Stop (Conf_ctx c n host calls)))))) in
    match run with
    | Stop r => r
    | Continue r => r
    end.

(** *** [cb_es_init] and [cb_es_exit] (es.c, lines 571-596 and 833-839) *)

(** The value [cb_es_init] returns, with what [flb_es_conf_create] gave;
    the context is handed to the engine by [flb_output_set_context]. *)
Definition cb_es_init (ins : flb_output_instance) : outcome (Z * conf_result) :=
  match flb_es_conf_create ins with
  | Conf_undefined => Undefined_behaviour
  | Conf_null host calls => Returns ((-1)%Z, Conf_null host calls)
  | Conf_ctx c n host calls => Returns (0%Z, Conf_ctx c n host calls)
  end.

(** The value [cb_es_exit] returns and the calls made. *)
Definition cb_es_exit (data : option flb_elasticsearch_net)
  : Z * list conf_call :=
  (0%Z, snd (flb_es_conf_destroy data)).

End Conf.

(** *** The life of the objects *)

(** The objects and blocks that [flb_es_conf_destroy], or the function
    that made them, releases. The three others are released by no
    function of the plugin: the cloud host is stored in the instance
    ([ins->host.name]); the copies of the index and of the type (lines
    207-213, marked FIXME in the source) are stored in the context, which
    [flb_es_conf_destroy] frees without them. *)
Definition tracked (o : object) : bool :=
  match o with
  | Cloud_host | Index_copy | Type_copy => false
  | _ => true
  end.

(** Those among them that every failing path of [flb_es_conf_create]
    releases as often as it has created them. *)
Definition released_on_failure (o : object) : bool :=
  match o with
  | Cloud_host | Index_copy | Type_copy | Session_name | Chain_provider => false
  | _ => true
  end.

(** How often [flb_es_conf_destroy] would destroy [o] if it were given
    the context now. *)
Definition owned (FLB_HAVE_AWS : bool) (n : flb_elasticsearch_net)
           (o : object) : nat :=
  destroyed o (snd (flb_es_conf_destroy FLB_HAVE_AWS (Some n))).

(** Every tracked object created so far has been destroyed or is held by
    the context. *)
Definition accounted (FLB_HAVE_AWS : bool) (n : flb_elasticsearch_net)
           (calls : list conf_call) : Prop :=
  forall o, tracked o = true ->
            created o calls = destroyed o calls + owned FLB_HAVE_AWS n o.

(** A run that has ended early has not given a context. *)
Definition no_context (r : conf_result) : Prop :=
  match r with
  | Conf_ctx _ _ _ _ => False
  | _ => True
  end.

(** What has become of the objects that are not tracked: [i] copies of
    the index, [t] copies of the type and [h] cloud hosts have been
    created, none of them has been destroyed, and
    [flb_es_conf_destroy] would destroy none if it were given the
    context now. *)
Definition unreleased (FLB_HAVE_AWS : bool) (n : flb_elasticsearch_net)
           (calls : list conf_call) (i t h : nat) : Prop :=
  created Index_copy calls = i
  /\ created Type_copy calls = t
  /\ created Cloud_host calls = h
  /\ forall o, tracked o = false ->
                destroyed o calls = 0 /\ owned FLB_HAVE_AWS n o = 0.

(** A failing run has released what it had to: this holds of a result
    that is the null pointer with balanced calls, and of a run that is
    undefined, about which nothing is claimed. *)
Definition cleaned (r : conf_result) : Prop :=
  match r with
  | Conf_null _ calls =>
      forall o, released_on_failure o = true ->
                created o calls = destroyed o calls
  | Conf_undefined => True
  | Conf_ctx _ _ _ _ => False
  end.

(** At each place of [flb_es_conf_create]: the tracked objects are
    accounted for, and the context holds none of them twice. *)
Definition in_order (FLB_HAVE_AWS : bool) (n : flb_elasticsearch_net)
           (calls : list conf_call) : Prop :=
  accounted FLB_HAVE_AWS n calls /\ forall o, owned FLB_HAVE_AWS n o <= 1.

(** Before the part on AWS authentication is reached, neither the chain
    provider nor the session name has been created. *)
Definition before_aws (calls : list conf_call) : Prop :=
  created Chain_provider calls = 0 /\ created Session_name calls = 0.

(** The same of a run that has ended. *)
Definition ended_before_aws (r : conf_result) : Prop :=
  match r with
  | Conf_null _ calls => before_aws calls
  | _ => True
  end.

(* ------------------------------------------------------------------ *)
(** ** Notions used to state properties of the formatter and of the
       sanitizer *)
(* ------------------------------------------------------------------ *)

(** Every key of the tree, at any depth, is a string; unless
    [dots_allowed], none of them holds a dot. *)
Fixpoint string_keys (dots_allowed : bool) (o : msgpack_object) : bool :=
  match o with
  | MSGPACK_OBJECT_MAP entries =>
      (fix go (l : list (msgpack_object * msgpack_object)) : bool :=
         match l with
         | [] => true
         | (k, v) :: l' =>
             match k with
             | MSGPACK_OBJECT_STR s =>
                 dots_allowed
                 || negb (existsb (fun c => Ascii.eqb c "."%char) s)
             | _ => false
             end
             && string_keys dots_allowed v && go l'
         end) entries
  | MSGPACK_OBJECT_ARRAY elts =>
      (fix go (l : list msgpack_object) : bool :=
         match l with
         | [] => true
         | e :: l' => string_keys dots_allowed e && go l'
         end) elts
  | _ => true
  end.

Definition is_decimal (c : ascii) : Prop := In c (B "0123456789").

(** The number a string of decimal digits denotes. *)
Definition decimal_value (digits : bytes) : N :=
  fold_left (fun acc c => (acc * 10 + (N.of_nat (nat_of_ascii c) - 48))%N)
            digits 0%N.

(** The number a string of hexadecimal digits (lower case) denotes. *)
Definition hex_digit (c : ascii) : N :=
  let n := N.of_nat (nat_of_ascii c) in
  if (n <? 58)%N then (n - 48)%N else (n - 87)%N.

Definition hex_value (digits : bytes) : N :=
  fold_left (fun acc c => (acc * 16 + hex_digit c)%N) digits 0%N.

(** The number the four digits of the word [i] of an id string denote:
    in [xxxxxxxx-xxxx-xxxx-xxxx-xxxxxxxxxxxx] the eight words start at
    the characters 0, 4, 9, 14, 19, 24, 28 and 32. *)
Definition uuid_word (id : bytes) (i : nat) : N :=
  hex_value (firstn 4 (skipn (nth i [0; 4; 9; 14; 19; 24; 28; 32] 0) id)).

Section Document.

Variable ctx : flb_elasticsearch.
Variable tag : bytes.

(** The entries of the document of a record, given the value of its time
    key and the entries of its map: the time key, the tag key when it is
    asked for, and the sanitized entries of the record. *)
Definition document_fields (time_formatted : bytes)
           (entries : list (msgpack_object * msgpack_object))
  : list (msgpack_object * msgpack_object) :=
  (MSGPACK_OBJECT_STR (time_key ctx), MSGPACK_OBJECT_STR time_formatted)
  :: (if include_tag_key ctx
      then [(MSGPACK_OBJECT_STR (tag_key ctx), MSGPACK_OBJECT_STR tag)]
      else [])
  ++ map (sanitized_entry ctx) entries.

End Document.

(* ------------------------------------------------------------------ *)
(** ** Reference collaborators

    Executable stand-ins for the functions of other compilation units,
    used to evaluate the embedding on concrete inputs. The general
    statements below quantify over every [platform] and every JSON packer;
    these instances only show that their hypotheses can be met. *)
(* ------------------------------------------------------------------ *)

Module Reference.

(** *** A JSON reader for [flb_pack_json]

    Objects, arrays, strings without escapes, unsigned integers, [true],
    [false] and [null], with blanks between tokens. *)

Definition is_blank (c : ascii) : bool :=
  Ascii.eqb c " "%char || Ascii.eqb c newline
  || Ascii.eqb c (ascii_of_nat 9) || Ascii.eqb c (ascii_of_nat 13).

Fixpoint skip_blanks (s : bytes) : bytes :=
  match s with
  | c :: r => if is_blank c then skip_blanks r else s
  | [] => []
  end.

Fixpoint read_string (s acc : bytes) : option (bytes * bytes) :=
  match s with
  | [] => None
  | c :: r =>
      if Ascii.eqb c dquote then Some (rev acc, r)
      else if Ascii.eqb c "\"%char then None
      else read_string r (c :: acc)
  end.

Definition digit_value (c : ascii) : option N :=
  let n := nat_of_ascii c in
  if (48 <=? n) && (n <=? 57) then Some (N.of_nat (n - 48)) else None.

Fixpoint read_digits (s : bytes) (acc : N) : N * bytes :=
  match s with
  | c :: r =>
      match digit_value c with
      | Some d => read_digits r (acc * 10 + d)%N
      | None => (acc, s)
      end
  | [] => (acc, [])
  end.

Fixpoint read_value (fuel : nat) (s : bytes) : option (msgpack_object * bytes) :=
  match fuel with
  | O => None
  | S fuel' =>
      let s := skip_blanks s in
      if starts_with (B "true") s
      then Some (MSGPACK_OBJECT_BOOLEAN true, skipn 4 s)
      else if starts_with (B "false") s
      then Some (MSGPACK_OBJECT_BOOLEAN false, skipn 5 s)
      else if starts_with (B "null") s
      then Some (MSGPACK_OBJECT_NIL, skipn 4 s)
      else
        match s with
        | [] => None
        | c :: r =>
            if Ascii.eqb c dquote then
              match read_string r [] with
              | Some (str, r') => Some (MSGPACK_OBJECT_STR str, r')
              | None => None
              end
            else if Ascii.eqb c "["%char then
              match skip_blanks r with
              | c' :: r' =>
                  if Ascii.eqb c' "]"%char then Some (MSGPACK_OBJECT_ARRAY [], r')
                  else match read_elements fuel' r with
                       | Some (elts, r'') => Some (MSGPACK_OBJECT_ARRAY elts, r'')
                       | None => None
                       end
              | [] => None
              end
            else if Ascii.eqb c "{"%char then
              match skip_blanks r with
              | c' :: r' =>
                  if Ascii.eqb c' "}"%char then Some (MSGPACK_OBJECT_MAP [], r')
                  else match read_members fuel' r with
                       | Some (kvs, r'') => Some (MSGPACK_OBJECT_MAP kvs, r'')
                       | None => None
                       end
              | [] => None
              end
            else
              match digit_value c with
              | Some _ =>
                  let '(n, r') := read_digits s 0 in
                  Some (MSGPACK_OBJECT_POSITIVE_INTEGER n, r')
              | None => None
              end
        end
  end
with read_elements (fuel : nat) (s : bytes)
  : option (list msgpack_object * bytes) :=
  match fuel with
  | O => None
  | S fuel' =>
      match read_value fuel' s with
      | Some (v, r) =>
          match skip_blanks r with
          | c :: r' =>
              if Ascii.eqb c ","%char then
                match read_elements fuel' r' with
                | Some (l, r'') => Some (v :: l, r'')
                | None => None
                end
              else if Ascii.eqb c "]"%char then Some ([v], r')
              else None
          | [] => None
          end
      | None => None
      end
  end
with read_members (fuel : nat) (s : bytes)
  : option (list (msgpack_object * msgpack_object) * bytes) :=
  match fuel with
  | O => None
  | S fuel' =>
      match skip_blanks s with
      | q :: r =>
          if Ascii.eqb q dquote then
            match read_string r [] with
            | Some (k, r1) =>
                match skip_blanks r1 with
                | colon :: r2 =>
                    if Ascii.eqb colon ":"%char then
                      match read_value fuel' r2 with
                      | Some (v, r3) =>
                          match skip_blanks r3 with
                          | c :: r4 =>
                              if Ascii.eqb c ","%char then
                                match read_members fuel' r4 with
                                | Some (l, r5) =>
                                    Some ((MSGPACK_OBJECT_STR k, v) :: l, r5)
                                | None => None
                                end
                              else if Ascii.eqb c "}"%char
                              then Some ([(MSGPACK_OBJECT_STR k, v)], r4)
                              else None
                          | [] => None
                          end
                      | None => None
                      end
                    else None
                | [] => None
                end
            | None => None
            end
          else None
      | [] => None
      end
  end.

Definition pack_json (payload : bytes) : option msgpack_sbuffer :=
  match read_value (S (length payload)) payload with
  | Some (v, rest) =>
      match skip_blanks rest with
      | [] => Some (object_items v)
      | _ :: _ => None
      end
  | None => None
  end.

(** *** Calendar time for [gmtime_r] and [strftime] *)

Record calendar : Type := {
  tm_year : Z; tm_mon : Z; tm_mday : Z; tm_hour : Z; tm_min : Z; tm_sec : Z
}.

(** Days since 1970-01-01 to a date of the proleptic Gregorian calendar. *)
Definition civil_from_days (days : Z) : Z * Z * Z :=
  let z := (days + 719468)%Z in
  let era := (z / 146097)%Z in
  let doe := (z - era * 146097)%Z in
  let yoe := ((doe - doe / 1460 + doe / 36524 - doe / 146096) / 365)%Z in
  let doy := (doe - (365 * yoe + yoe / 4 - yoe / 100))%Z in
  let mp := ((5 * doy + 2) / 153)%Z in
  let d := (doy - (153 * mp + 2) / 5 + 1)%Z in
  let m := (if mp <? 10 then mp + 3 else mp - 9)%Z in
  let y := (yoe + era * 400 + (if m <=? 2 then 1 else 0))%Z in
  (y, m, d).

Definition gmtime (sec : Z) : calendar :=
  let days := (sec / 86400)%Z in
  let rem := (sec mod 86400)%Z in
  let '(y, m, d) := civil_from_days days in
  {| tm_year := y; tm_mon := m; tm_mday := d;
     tm_hour := (rem / 3600)%Z; tm_min := (rem mod 3600 / 60)%Z;
     tm_sec := (rem mod 60)%Z |}.

Definition two_digits (z : Z) : bytes := printf_0 2 10 (Z.to_N z).

(** The conversions [%Y %m %d %H %M %S] and [%%]; any other character is
    copied. *)
Fixpoint format_time (format : bytes) (t : calendar) : bytes :=
  match format with
  | [] => []
  | c :: r =>
      if Ascii.eqb c "%"%char then
        match r with
        | [] => [c]
        | k :: r' =>
            (if Ascii.eqb k "Y"%char then printf_0 4 10 (Z.to_N (tm_year t))
             else if Ascii.eqb k "m"%char then two_digits (tm_mon t)
             else if Ascii.eqb k "d"%char then two_digits (tm_mday t)
             else if Ascii.eqb k "H"%char then two_digits (tm_hour t)
             else if Ascii.eqb k "M"%char then two_digits (tm_min t)
             else if Ascii.eqb k "S"%char then two_digits (tm_sec t)
             else if Ascii.eqb k "%"%char then [k]
             else [c; k]) ++ format_time r' t
        end
      else c :: format_time r t
  end.

(** *** Record time, record accessor, JSON writer, hash *)

(** The time of a record [[time, map]] given as a count of seconds. *)
Definition time_pop (root : msgpack_object) : option flb_time :=
  match root with
  | MSGPACK_OBJECT_ARRAY [MSGPACK_OBJECT_POSITIVE_INTEGER s; _] =>
      Some {| tv_sec := Z.of_N s; tv_nsec := 0 |}
  | _ => None
  end.

Fixpoint lookup_str (name : bytes)
         (entries : list (msgpack_object * msgpack_object)) : option bytes :=
  match entries with
  | [] => None
  | (MSGPACK_OBJECT_STR k, MSGPACK_OBJECT_STR v) :: rest =>
      if starts_with k name && starts_with name k then Some v
      else lookup_str name rest
  | _ :: rest => lookup_str name rest
  end.

(** A record accessor for patterns made of a dollar sign and the name of a
    top-level string field. *)
Definition ra_translate (pattern tag : bytes) (map : msgpack_object)
  : option bytes :=
  match pattern, map with
  | _ :: name, MSGPACK_OBJECT_MAP entries => lookup_str name entries
  | _, _ => None
  end.

Fixpoint to_json (o : msgpack_object) : bytes :=
  match o with
  | MSGPACK_OBJECT_NIL => B "null"
  | MSGPACK_OBJECT_BOOLEAN b => if b then B "true" else B "false"
  | MSGPACK_OBJECT_POSITIVE_INTEGER u => utoa 10 u
  | MSGPACK_OBJECT_NEGATIVE_INTEGER i => B "-" ++ utoa 10 (Z.to_N (- i))
  | MSGPACK_OBJECT_FLOAT _ => B "0.0"
  | MSGPACK_OBJECT_STR s => quoted s
  | MSGPACK_OBJECT_BIN s => quoted s
  | MSGPACK_OBJECT_EXT _ s => quoted s
  | MSGPACK_OBJECT_ARRAY elts =>
      B "[" ++
      (fix go (l : list msgpack_object) : bytes :=
         match l with
         | [] => []
         | [e] => to_json e
         | e :: l' => to_json e ++ B "," ++ go l'
         end) elts ++ B "]"
  | MSGPACK_OBJECT_MAP kvs =>
      B "{" ++
      (fix go (l : list (msgpack_object * msgpack_object)) : bytes :=
         match l with
         | [] => []
         | [(k, v)] => to_json k ++ B ":" ++ to_json v
         | (k, v) :: l' => to_json k ++ B ":" ++ to_json v ++ B "," ++ go l'
         end) kvs ++ B "}"
  end.

Definition raw_to_json (buf : msgpack_sbuffer) : option bytes :=
  match msgpack_unpack_next buf with
  | Some o => Some (to_json o)
  | None => None
  end.

(** A checksum standing for the hash: eight running sums over the item
    sizes and bytes. *)
Definition item_code (i : item) : N :=
  match i with
  | I_nil => 1
  | I_bool b => if b then 2 else 3
  | I_uint u => 5 + u
  | I_int z => 7 + Z.to_N (Z.abs z)
  | I_float f => 11 + f
  | I_str n => 13 + N.of_nat n
  | I_bin n => 17 + N.of_nat n
  | I_ext n _ => 19 + N.of_nat n
  | I_body b => fold_left (fun a c => (a * 31 + N.of_nat (nat_of_ascii c)) mod 65521) b 23
  | I_array n => 29 + N.of_nat n
  | I_map n => 31 + N.of_nat n
  end%N.

Definition checksum (data : msgpack_sbuffer) (seed : N) : list N :=
  let h := fold_left (fun a i => (a * 131 + item_code i) mod 4294967291)%N data seed in
  map (fun k => (h * (2 * k + 1) + k) mod 65536)%N [1; 2; 3; 4; 5; 6; 7; 8]%N.

(** The reference platform: every allocation succeeds, the clock reads
    2024-01-02 00:00:00 UTC and then one second more at every reading. *)
Definition reference : platform := {|
  tm := calendar;
  gmtime_r := gmtime;
  strftime := format_time;
  strftime_leaves := fun max format t => firstn max (format_time format t);
  flb_time_get := fun n => {| tv_sec := 1704153600 + Z.of_nat n; tv_nsec := 0 |};
  flb_time_pop_from_msgpack := time_pop;
  flb_ra_translate := ra_translate;
  flb_msgpack_raw_to_json_sds := raw_to_json;
  MurmurHash3_x64_128 := checksum;
  flb_malloc := fun _ => true;
  es_bulk_room := fun _ => true;
  ES_BULK_HEADER := 165;
  ES_BULK_CHUNK := 4096
|}.

(** The configuration [flb_es_conf_create] builds from the defaults of
    the configuration map. *)
Definition default_ctx : flb_elasticsearch := {|
  index := B "fluent-bit";
  type := B "_doc";
  suppress_type_name := false;
  logstash_format := false;
  logstash_prefix := B "logstash";
  logstash_prefix_key := None;
  ra_prefix_key := [];
  logstash_dateformat := B "%Y.%m.%d";
  time_key := B "@timestamp";
  time_key_format := B "%Y-%m-%dT%H:%M:%S";
  time_key_nanos := false;
  include_tag_key := false;
  tag_key := B "_flb-key";
  generate_id := false;
  replace_dots := false;
  id_format := None;
  current_time_index := false;
  trace_output := false;
  trace_error := false
|}.

(** The default configuration with the options the formatter branches
    on set as given. *)
Definition configured (logstash generate current_time dots suppress : bool)
           (index_name prefix : bytes) (prefix_key id_fmt : option bytes)
  : flb_elasticsearch := {|
  index := index_name;
  type := B "_doc";
  suppress_type_name := suppress;
  logstash_format := logstash;
  logstash_prefix := prefix;
  logstash_prefix_key := prefix_key;
  ra_prefix_key := match prefix_key with
                   | Some k => conf_ra_pattern k
                   | None => []
                   end;
  logstash_dateformat := B "%Y.%m.%d";
  time_key := B "@timestamp";
  time_key_format := B "%Y-%m-%dT%H:%M:%S";
  time_key_nanos := false;
  include_tag_key := false;
  tag_key := B "_flb-key";
  generate_id := generate;
  replace_dots := dots;
  id_format := id_fmt;
  current_time_index := current_time;
  trace_output := false;
  trace_error := false
|}.

Definition no_entry_values : entry_values := {|
  tms_on_entry := {| tv_sec := 0; tv_nsec := 0 |};
  map_ptr_on_entry := [];
  logstash_index_on_entry := repeat NUL 256
|}.

Definition str (s : string) : msgpack_object := MSGPACK_OBJECT_STR (B s).

Definition record_at (sec : N) (fields : list (msgpack_object * msgpack_object))
  : msgpack_object :=
  MSGPACK_OBJECT_ARRAY [MSGPACK_OBJECT_POSITIVE_INTEGER sec;
                        MSGPACK_OBJECT_MAP fields].

(** Current-time mode with a dated index pattern, and two records of
    June 2023. *)
Definition current_time_ctx : flb_elasticsearch :=
  configured false false true false false (B "logs-%Y.%m.%d") [] None None.

Definition records_of_2023 : list msgpack_object :=
  [record_at 1686787200 [(str "msg", str "one")];
   record_at 1686873600 [(str "msg", str "two")]].

(** Logstash mode with the prefix [app], without and with the wall clock. *)
Definition logstash_ctx : flb_elasticsearch :=
  configured true false false false false (B "fluent-bit") (B "app") None None.

Definition logstash_wall_clock_ctx : flb_elasticsearch :=
  configured true false true false false (B "fluent-bit") (B "app") None None.

(** Template ids: the id format [$[id]], and two records with the
    fields [id: abc] and [id: xyz]. *)
Definition id_format_ctx : flb_elasticsearch :=
  configured false false false false false (B "fluent-bit") []
             None (Some (B "$[id]")).

Definition records_with_ids : list msgpack_object :=
  [record_at 1704153600 [(str "id", str "abc")];
   record_at 1704153600 [(str "id", str "xyz")]].

(** The same platform with an allocator that refuses every request. *)
Definition starved : platform := {|
  tm := calendar;
  gmtime_r := gmtime;
  strftime := format_time;
  strftime_leaves := fun max format t => firstn max (format_time format t);
  flb_time_get := fun n => {| tv_sec := 1704153600 + Z.of_nat n; tv_nsec := 0 |};
  flb_time_pop_from_msgpack := time_pop;
  flb_ra_translate := ra_translate;
  flb_msgpack_raw_to_json_sds := raw_to_json;
  MurmurHash3_x64_128 := checksum;
  flb_malloc := fun _ => false;
  es_bulk_room := fun _ => true;
  ES_BULK_HEADER := 165;
  ES_BULK_CHUNK := 4096
|}.

(** What a step holds, or a default. *)
Definition from_next {A : Type} (s : step A) (default : A) : A :=
  match s with Next a => a | _ => default end.

Definition output_of (r : format_result) : bytes * nat :=
  match r with Format_ok d n => (d, n) | _ => ([], 0) end.

Definition no_state : loop_state := {|
  tms := {| tv_sec := 0; tv_nsec := 0 |};
  logstash_index := [];
  j_index := [];
  index_len := 0;
  bulk := {| bulk_ptr := [] |}
|}.

Definition no_prologue : prologue := {|
  p_tms := {| tv_sec := 0; tv_nsec := 0 |};
  p_logstash_index := [];
  p_es_index := [];
  p_j_index := [];
  p_index_len := 0;
  p_pck := []
|}.

(** Responses of the bulk API: a success, a partial failure, a success cut
    after the start of its first item, and a cut error. *)
Definition response (payload : bytes) : flb_http_client :=
  {| resp_status := 200; resp_payload := payload |}.

Definition payload_ok : bytes :=
  B "{" ++ quoted (B "took") ++ B ":3," ++ quoted (B "errors") ++ B ":false,"
    ++ quoted (B "items") ++ B ":[]}".

Definition payload_errors : bytes :=
  B "{" ++ quoted (B "took") ++ B ":3," ++ quoted (B "errors") ++ B ":true,"
    ++ quoted (B "items") ++ B ":[]}".

Definition payload_cut_ok : bytes :=
  B "{" ++ quoted (B "took") ++ B ":3," ++ quoted (B "errors") ++ B ":false,"
    ++ quoted (B "items") ++ B ":[{" ++ quoted (B "index") ++ B ":{".

Definition payload_cut_errors : bytes :=
  B "{" ++ quoted (B "took") ++ B ":3," ++ quoted (B "errors") ++ B ":true,"
    ++ quoted (B "items") ++ B ":[{" ++ quoted (B "index") ++ B ":{".

(** A record with a key of 300 bytes, which needs a heap block. *)
Definition long_key_record : msgpack_object :=
  record_at 1704153600
            [(MSGPACK_OBJECT_STR (repeat "k"%char 300),
              MSGPACK_OBJECT_POSITIVE_INTEGER 1)].

(** A record whose field [a] holds a map with a key of 300 bytes. *)
Definition nested_long_key_record : msgpack_object :=
  record_at 1704153600
            [(str "a",
              MSGPACK_OBJECT_MAP
                [(MSGPACK_OBJECT_STR (repeat "k"%char 300),
                  MSGPACK_OBJECT_POSITIVE_INTEGER 1)]);
             (str "b", MSGPACK_OBJECT_POSITIVE_INTEGER 2)].

(** Memory in which the entries of a record with the one field [id] are
    followed by an entry with a nil key. *)
Definition id_entries : list (msgpack_object * msgpack_object) :=
  [(str "id", str "abc"); (MSGPACK_OBJECT_NIL, MSGPACK_OBJECT_NIL)].

Definition entry_values_with (mem : list (msgpack_object * msgpack_object))
  : entry_values := {|
  tms_on_entry := {| tv_sec := 0; tv_nsec := 0 |};
  map_ptr_on_entry := mem;
  logstash_index_on_entry := repeat NUL 256
|}.

(** *** The host side: transports, configurations and instances *)

(** A transport on which everything goes well: the server answers 200
    with [payload_ok]. *)
Definition transport_ok : transport := {|
  flb_upstream_conn_get := true;
  flb_http_client_created := true;
  flb_http_strip_port_from_host := fun _ => 0%Z;
  flb_signv4_do := fun _ => Some (B "AWS4-HMAC-SHA256 Credential=reference");
  flb_http_do := fun _ => (0%Z, response payload_ok)
|}.

(** The same transport with a server that cannot be reached. *)
Definition transport_down : transport := {|
  flb_upstream_conn_get := true;
  flb_http_client_created := true;
  flb_http_strip_port_from_host := fun _ => 0%Z;
  flb_signv4_do := fun _ => Some (B "AWS4-HMAC-SHA256 Credential=reference");
  flb_http_do := fun _ => ((-1)%Z, {| resp_status := 0; resp_payload := [] |})
|}.

(** The second record of a context with the defaults of the
    configuration map and the credentials given. *)
Definition net_with (user passwd cloud_u cloud_p : option bytes) (aws : bool)
  : flb_elasticsearch_net := {|
  uri := B "/_bulk";
  buffer_size := 512000;
  http_user := user;
  http_passwd := passwd;
  cloud_user := cloud_u;
  cloud_passwd := cloud_p;
  u := Some Upstream;
  ra_prefix_key_object := None;
  has_aws_auth := aws;
  aws_region := if aws then Some (B "us-east-1") else None;
  aws_sts_endpoint := None;
  aws_tls := if aws then Some Aws_tls else None;
  aws_sts_tls := None;
  aws_provider := if aws then Some Chain_provider else None;
  base_aws_provider := None
|}.

(** Base64, as [mbedtls_base64_decode] reads it: groups of four
    characters, the last one padded with [=]; an error when a character
    is not of the alphabet or the output does not fit [dlen]. *)
Definition base64_value (c : ascii) : option N :=
  let n := N.of_nat (nat_of_ascii c) in
  (if (65 <=? n) && (n <=? 90) then Some (n - 65)
   else if (97 <=? n) && (n <=? 122) then Some (n - 71)
   else if (48 <=? n) && (n <=? 57) then Some (n + 4)
   else if n =? 43 then Some 62
   else if n =? 47 then Some 63
   else None)%N.

Definition byte_of (n : N) : ascii := ascii_of_N (n mod 256).

Fixpoint base64_groups (s : bytes) : option bytes :=
  match s with
  | [] => Some []
  | a :: b :: c :: d :: rest =>
      match base64_value a, base64_value b with
      | Some va, Some vb =>
          if Ascii.eqb d "="%char then
            match rest with
            | [] =>
                if Ascii.eqb c "="%char then Some [byte_of (va * 4 + vb / 16)]
                else
                  match base64_value c with
                  | Some vc =>
                      Some [byte_of (va * 4 + vb / 16);
                            byte_of (vb mod 16 * 16 + vc / 4)]
                  | None => None
                  end
            | _ => None
            end
          else
            match base64_value c, base64_value d, base64_groups rest with
            | Some vc, Some vd, Some out =>
                Some (byte_of (va * 4 + vb / 16)
                      :: byte_of (vb mod 16 * 16 + vc / 4)
                      :: byte_of (vc mod 4 * 64 + vd) :: out)
            | _, _, _ => None
            end
      | _, _ => None
      end
  | _ => None
  end%N.

Definition base64_decode (dlen : nat) (src : bytes) : option bytes :=
  match base64_groups src with
  | Some out => if length out <=? dlen then Some out else None
  | None => None
  end.

(** The parts of [line] between the separators, the empty ones left
    out. *)
Fixpoint split_at (sep : ascii) (line acc : bytes) : list bytes :=
  match line with
  | [] => match acc with [] => [] | _ => [acc] end
  | c :: rest =>
      if Ascii.eqb c sep
      then match acc with
           | [] => split_at sep rest []
           | _ => acc :: split_at sep rest []
           end
      else split_at sep rest (acc ++ [c])
  end.

(** A host on which every request is granted, but for the TLS instances
    [tls] refuses and, unless [session], the session name. The
    configuration map leaves the defaults, -1 for the limit of the
    response buffer, and the prefix key given. *)
Definition host_with (tls : object -> bool) (session : bool)
           (prefix_key : option bytes) : conf_env := {|
  flb_calloc_ok := true;
  flb_malloc_ok := fun _ => true;
  flb_strdup_ok := fun _ => true;
  flb_sds_create_ok := fun _ => true;
  mbedtls_base64_decode := base64_decode;
  flb_output_net_default :=
    fun name port host =>
      (match fst host with Some h => Some h | None => Some name end,
       if (snd host =? 0)%Z then port else snd host);
  flb_output_config_map_set :=
    Some (configured false false false false false (B "fluent-bit")
                     (B "logstash") prefix_key None,
          set_buffer_size (-1) (net_with None None None None true));
  flb_utils_split := fun line sep _ => Some (split_at sep (c_str line) []);
  flb_upstream_create_ok := true;
  flb_ra_create_ok := fun _ => true;
  flb_tls_create_ok := tls;
  flb_standard_chain_provider_create_ok := true;
  flb_sts_session_name_ok := session;
  flb_sts_provider_create_ok := true;
  sizeof_uri := 256
|}.

Definition host : conf_env := host_with (fun _ => true) true None.

(** An instance with the properties given and no host of its own. *)
Definition prop (key value : string) : string * string := (key, value).

Fixpoint property (props : list (string * string)) (key : string)
  : option bytes :=
  match props with
  | [] => None
  | (k, v) :: rest => if String.eqb k key then Some (B v) else property rest key
  end.

Definition instance (fields : option (list bytes))
           (props : list (string * string)) : flb_output_instance := {|
  host_uri := fields;
  host_name := None;
  host_port := 0;
  flb_output_get_property := property props
|}.

(** The cloud id [reference:] followed by the base64 of
    [us-east-1$es01.example$kb01.example]. *)
Definition cloud_id : bytes :=
  B "reference:dXMtZWFzdC0xJGVzMDEuZXhhbXBsZSRrYjAxLmV4YW1wbGU=".

(** An instance with a cloud id, credentials, a path and a pipeline, and
    a role to assume with AWS authentication. *)
Definition cloud_instance : flb_output_instance :=
  instance None
           [prop "cloud_id"
                 "reference:dXMtZWFzdC0xJGVzMDEuZXhhbXBsZSRrYjAxLmV4YW1wbGU=";
            prop "cloud_auth" "elastic:secret:more";
            prop "path" "/es"; prop "pipeline" "p1";
            prop "aws_auth" "only"; prop "aws_region" "eu-west-1";
            prop "aws_role_arn" "arn:aws:iam::1:role/es"].

(** An instance with index and type in its URI and an id format. *)
Definition uri_instance : flb_output_instance :=
  instance (Some [B "logs"; B "event"; B "more"])
           [prop "id_format" "$[id]"; prop "aws_auth" "true"].

(** *** Further inputs for the formatter *)

(** The reference platform with no memory for the bulk buffer. *)
Definition without_bulk_room : platform := {|
  tm := calendar;
  gmtime_r := gmtime;
  strftime := format_time;
  strftime_leaves := fun max format t => firstn max (format_time format t);
  flb_time_get := fun n => {| tv_sec := 1704153600 + Z.of_nat n; tv_nsec := 0 |};
  flb_time_pop_from_msgpack := time_pop;
  flb_ra_translate := ra_translate;
  flb_msgpack_raw_to_json_sds := raw_to_json;
  MurmurHash3_x64_128 := checksum;
  flb_malloc := fun _ => true;
  es_bulk_room := fun _ => false;
  ES_BULK_HEADER := 165;
  ES_BULK_CHUNK := 4096
|}.

(** Current-time mode with an index pattern that shows the second of the
    wall clock, with and without id generation. *)
Definition clock_ctx (generate : bool) : flb_elasticsearch :=
  configured false generate true false false (B "logs-%H.%M.%S") [] None None.

(** Logstash mode with the prefix [app] and the prefix key [svc]. *)
Definition prefix_key_ctx : flb_elasticsearch :=
  configured true false false false false (B "fluent-bit") (B "app")
             (Some (B "svc")) None.

(** Logstash mode with the prefix [app] and a date pattern of 252
    letters, whose expansion does not fit the array behind [app-]. *)
Definition long_date_ctx : flb_elasticsearch := {|
  index := B "fluent-bit";
  type := B "_doc";
  suppress_type_name := false;
  logstash_format := true;
  logstash_prefix := B "app";
  logstash_prefix_key := None;
  ra_prefix_key := [];
  logstash_dateformat := repeat "x"%char 252;
  time_key := B "@timestamp";
  time_key_format := B "%Y-%m-%dT%H:%M:%S";
  time_key_nanos := false;
  include_tag_key := false;
  tag_key := B "_flb-key";
  generate_id := false;
  replace_dots := false;
  id_format := None;
  current_time_index := false;
  trace_output := false;
  trace_error := false
|}.

(** Logstash mode with id generation. *)
Definition logstash_id_ctx : flb_elasticsearch :=
  configured true true false false false (B "fluent-bit") (B "app") None None.

(** A record whose first entry is not a time. *)
Definition untimed_record (fields : list (msgpack_object * msgpack_object))
  : msgpack_object :=
  MSGPACK_OBJECT_ARRAY [str "never"; MSGPACK_OBJECT_MAP fields].

(** The document lines of the records [msg: hi] and [msg: one] of
    2024-01-02. *)
Definition document_line (sec : string)
           (fields : list (msgpack_object * msgpack_object)) : bytes :=
  to_json (MSGPACK_OBJECT_MAP
             ((str "@timestamp", MSGPACK_OBJECT_STR (B sec)) :: fields)).

(** A response whose payload holds the literal of a success behind a NUL
    byte. *)
Definition payload_behind_nul : bytes :=
  NUL :: errors_false_items ++ B "]}".

(** The document buffer of a record: the time key and the fields. *)
Definition document_buffer (sec : string)
           (fields : list (msgpack_object * msgpack_object))
  : msgpack_sbuffer :=
  object_items (MSGPACK_OBJECT_MAP
                  ((str "@timestamp", MSGPACK_OBJECT_STR (B sec)) :: fields)).

End Reference.

(* ================================================================== *)
(** * Properties *)
(* ================================================================== *)

(* ------------------------------------------------------------------ *)
(** ** C strings *)
(* ------------------------------------------------------------------ *)

Lemma starts_with_app (needle hay : bytes) :
  starts_with needle hay = true <-> exists post, hay = needle ++ post.
Proof.
  revert hay. induction needle as [| a needle IH]; intros hay; simpl.
  - split; [intros _; now exists hay | reflexivity].
  - destruct hay as [| b hay].
    + split; [discriminate | intros [post H]; discriminate].
    + rewrite andb_true_iff, Ascii.eqb_eq, IH. split.
      * intros [-> [post ->]]. now exists post.
      * intros [post H]. injection H as -> ->. split; [reflexivity | now exists post].
Qed.

Lemma find_sub_contains (needle hay : bytes) :
  find_sub needle hay <> None <-> contains hay needle.
Proof.
  unfold contains. induction hay as [| c hay IH].
  - simpl. destruct (starts_with needle []) eqn:Hs.
    + split; [intros _ | discriminate].
      apply starts_with_app in Hs. destruct Hs as [post H]. now exists [], post.
    + split; [intros H; now elim H |].
      intros [pre [post H]]. exfalso.
      destruct pre; [| discriminate].
      assert (starts_with needle [] = true) by (apply starts_with_app; now exists post).
      congruence.
  - cbn [find_sub]. destruct (starts_with needle (c :: hay)) eqn:Hs.
    + split; [intros _ | discriminate].
      apply starts_with_app in Hs. destruct Hs as [post H]. now exists [], post.
    + split.
      * intros H. destruct (find_sub needle hay) eqn:Hf; [| now elim H].
        destruct IH as [IH _]. destruct IH as [pre [post Hp]]; [discriminate |].
        exists (c :: pre), post. simpl. now rewrite Hp.
      * intros [pre [post H]]. destruct pre as [| c' pre].
        -- exfalso. simpl in H.
           assert (starts_with needle (c :: hay) = true)
             by (apply starts_with_app; now exists post).
           congruence.
        -- injection H as -> ->.
           destruct IH as [_ IH].
           destruct (find_sub needle (pre ++ needle ++ post)) eqn:Hf; [discriminate |].
           exfalso. apply IH; [now exists pre, post | reflexivity].
Qed.

Lemma c_str_no_nul (s : bytes) : ~ In NUL s -> c_str s = s.
Proof.
  induction s as [| c s IH]; intros H; simpl; [reflexivity |].
  destruct (Ascii.eqb c NUL) eqn:Hc.
  - apply Ascii.eqb_eq in Hc. subst. exfalso. apply H. now left.
  - f_equal. apply IH. intros Hin. apply H. now right.
Qed.

Lemma c_str_app_nul (s rest : bytes) :
  ~ In NUL s -> c_str (s ++ NUL :: rest) = s.
Proof.
  induction s as [| c s IH]; intros H; simpl; [reflexivity |].
  destruct (Ascii.eqb c NUL) eqn:Hc.
  - apply Ascii.eqb_eq in Hc. subst. exfalso. apply H. now left.
  - f_equal. apply IH. intros Hin. apply H. now right.
Qed.

(** [strncmp] against a literal of [n] characters without a NUL decides
    equality with a name of [n] bytes. *)
Lemma strncmp_eq_literal (s lit : bytes) :
  length s = length lit -> ~ In NUL lit ->
  strncmp_eq s lit (length lit) = true <-> s = lit.
Proof.
  revert s. induction lit as [| c lit IH]; intros s Hlen Hnul.
  - destruct s; [| discriminate]. simpl. tauto.
  - destruct s as [| a s]; [discriminate |]. simpl in Hlen. injection Hlen as Hlen.
    cbn [strncmp_eq length hd tl].
    assert (Hc : c <> NUL) by (intros ->; apply Hnul; now left).
    assert (Hl : ~ In NUL lit) by (intros Hin; apply Hnul; now right).
    destruct (Ascii.eqb a c) eqn:Hac.
    + apply Ascii.eqb_eq in Hac. subst a.
      destruct (Ascii.eqb c NUL) eqn:Hcn; [apply Ascii.eqb_eq in Hcn; contradiction |].
      rewrite (IH s Hlen Hl). split; [now intros -> | now intros [= ->]].
    + split; [discriminate |]. intros [= -> _]. rewrite Ascii.eqb_refl in Hac. discriminate.
Qed.


Lemma c_str_cut (a rest : bytes) : c_str (a ++ NUL :: rest) = c_str a.
Proof.
  induction a as [| c a IH]; [reflexivity |].
  simpl. destruct (Ascii.eqb c NUL); [reflexivity | now rewrite IH].
Qed.

Lemma memcpy_at_start (buf src : bytes) :
  memcpy_at buf 0 src = src ++ skipn (length src) buf.
Proof. reflexivity. Qed.

(** Writing behind a head that is in place keeps the head. *)
Lemma memcpy_at_behind (buf head src : bytes) :
  firstn (length head) buf = head ->
  exists tail, memcpy_at buf (length head) src = head ++ src ++ tail.
Proof.
  intros H. unfold memcpy_at. rewrite H. now eexists.
Qed.

Lemma firstn_app_exact (A : Type) (a b : list A) : firstn (length a) (a ++ b) = a.
Proof. rewrite firstn_app, firstn_all, Nat.sub_diag. simpl. apply app_nil_r. Qed.
(* ------------------------------------------------------------------ *)
(** ** The packer and the unpacker *)
(* ------------------------------------------------------------------ *)

Lemma object_items_map entries :
  object_items (MSGPACK_OBJECT_MAP entries)
  = I_map (length entries) :: flat_map entry_items entries.
Proof.
  simpl; f_equal;
    try (induction entries as [| [k v] l IH];
         [reflexivity
         | simpl; unfold entry_items at 1; simpl; now rewrite IH, app_assoc]).
Qed.

Lemma object_items_array elts :
  object_items (MSGPACK_OBJECT_ARRAY elts)
  = I_array (length elts) :: flat_map object_items elts.
Proof.
  simpl; f_equal;
    try (induction elts as [| e l IH]; [reflexivity | simpl; now rewrite IH]).
Qed.

Lemma fuel_for_array elts :
  fuel_for (MSGPACK_OBJECT_ARRAY elts) = S (fuel_for_list elts).
Proof.
  simpl; f_equal;
    try (induction elts as [| e l IH]; [reflexivity | simpl; now rewrite IH]).
Qed.

Lemma fuel_for_map entries :
  fuel_for (MSGPACK_OBJECT_MAP entries) = S (fuel_for_pairs entries).
Proof.
  simpl; f_equal;
    try (induction entries as [| [k v] l IH]; [reflexivity | simpl; now rewrite IH]).
Qed.

(** Reading back what [msgpack_pack_object] wrote gives the object and
    leaves what follows it. *)
Lemma unpack_object_items (o : msgpack_object) :
  forall fuel rest, fuel_for o <= fuel ->
    unpack_object fuel (object_items o ++ rest) = Some (o, rest).
Proof.
  induction o as [| b | u | i | f | s | elts IH | entries IH | s | t s]
    using object_induction; intros fuel rest Hfuel;
    try (destruct fuel as [| fuel]; [simpl in Hfuel; lia |];
         simpl; rewrite ?Nat.eqb_refl; reflexivity).
  - (* array *)
    rewrite fuel_for_array in Hfuel. rewrite object_items_array.
    destruct fuel as [| fuel]; [lia |]. simpl.
    assert (H : unpack_objects fuel (length elts) (flat_map object_items elts ++ rest)
                = Some (elts, rest)); [| now rewrite H].
    apply le_S_n in Hfuel. clear - IH Hfuel. revert fuel Hfuel.
    induction elts as [| e l IHl]; intros fuel Hfuel.
    + destruct fuel; [simpl in Hfuel; lia | reflexivity].
    + simpl in Hfuel. destruct fuel as [| fuel]; [lia |].
      cbn [length flat_map unpack_objects]. rewrite <- app_assoc.
      rewrite (IH e (or_introl eq_refl)) by lia.
      rewrite IHl; [reflexivity | | lia].
      intros x Hx. apply IH. now right.
  - (* map *)
    rewrite fuel_for_map in Hfuel. rewrite object_items_map.
    destruct fuel as [| fuel]; [lia |]. simpl.
    assert (H : unpack_pairs fuel (length entries) (flat_map entry_items entries ++ rest)
                = Some (entries, rest)); [| now rewrite H].
    apply le_S_n in Hfuel. clear - IH Hfuel. revert fuel Hfuel.
    induction entries as [| [k v] l IHl]; intros fuel Hfuel.
    + destruct fuel; [simpl in Hfuel; lia | reflexivity].
    + simpl in Hfuel. destruct fuel as [| fuel]; [lia |].
      cbn [length flat_map unpack_pairs]. unfold entry_items at 1. cbn [fst snd].
      rewrite <- !app_assoc.
      destruct (IH k v (or_introl eq_refl)) as [IHk IHv].
      rewrite IHk by lia. rewrite IHv by lia.
      rewrite IHl; [reflexivity | | lia].
      intros k' v' Hin. apply IH. now right.
Qed.

Lemma object_items_nonempty o : 1 <= length (object_items o).
Proof. destruct o; simpl; lia. Qed.

Lemma fuel_for_bound (o : msgpack_object) :
  fuel_for o <= 2 * length (object_items o).
Proof.
  induction o as [| b | u | i | f | s | elts IH | entries IH | s | t s]
    using object_induction; try (simpl; lia).
  - rewrite fuel_for_array, object_items_array. cbn [length].
    assert (H : fuel_for_list elts <= 2 * length (flat_map object_items elts) + 1); [| lia].
    induction elts as [| e l IHl]; [simpl; lia |].
    cbn [fuel_for_list fold_right flat_map]. fold (fuel_for_list l).
    rewrite length_app.
    pose proof (IH e (or_introl eq_refl)). pose proof (object_items_nonempty e).
    assert (fuel_for_list l <= 2 * length (flat_map object_items l) + 1)
      by (apply IHl; intros x Hx; apply IH; now right).
    lia.
  - rewrite fuel_for_map, object_items_map. cbn [length].
    assert (H : fuel_for_pairs entries <= 2 * length (flat_map entry_items entries) + 1); [| lia].
    induction entries as [| [k v] l IHl]; [simpl; lia |].
    cbn [fuel_for_pairs fold_right flat_map fst snd]. fold (fuel_for_pairs l).
    rewrite length_app. unfold entry_items at 1. cbn [fst snd]. rewrite length_app.
    destruct (IH k v (or_introl eq_refl)).
    pose proof (object_items_nonempty k). pose proof (object_items_nonempty v).
    assert (fuel_for_pairs l <= 2 * length (flat_map entry_items l) + 1)
      by (apply IHl; intros k' v' Hin; apply IH; now right).
    lia.
Qed.

(** [msgpack_unpack_next] on a buffer that starts with the items of an
    object finds that object. *)
Lemma msgpack_unpack_next_items (o : msgpack_object) (rest : list item) :
  msgpack_unpack_next (object_items o ++ rest) = Some o.
Proof.
  unfold msgpack_unpack_next.
  rewrite unpack_object_items; [reflexivity |].
  pose proof (fuel_for_bound o). rewrite length_app. lia.
Qed.

(* ------------------------------------------------------------------ *)
(** ** Number conversions *)
(* ------------------------------------------------------------------ *)

Lemma utoa_loop_length (k fuel : nat) (base n : N) (acc : bytes) :
  (0 < base)%N -> 1 <= k -> (n < base ^ N.of_nat k)%N ->
  length (utoa_loop fuel base n acc) <= k + length acc.
Proof.
  intros Hbase. revert k n acc.
  induction fuel as [| fuel IH]; intros k n acc Hk Hn; [simpl; lia |].
  cbn [utoa_loop].
  destruct (n / base =? 0)%N eqn:Hq; [simpl; lia |].
  apply N.eqb_neq in Hq.
  destruct k as [| [| k]]; [lia | |].
  - exfalso. apply Hq. apply N.div_small.
    change (N.of_nat 1) with 1%N in Hn. now rewrite N.pow_1_r in Hn.
  - assert (Hdiv : (n / base < base ^ N.of_nat (S k))%N).
    { apply N.Div0.div_lt_upper_bound.
      replace (N.of_nat (S (S k))) with (N.succ (N.of_nat (S k))) in Hn by lia.
      now rewrite N.pow_succ_r' in Hn. }
    specialize (IH (S k) (n / base)%N (digit_char (n mod base) :: acc)).
    cbn [length] in IH. specialize (IH ltac:(lia) Hdiv). lia.
Qed.

Lemma digit_char_hex (d : N) : (d < 16)%N -> is_hex (digit_char d).
Proof.
  intros Hd. unfold is_hex, digit_char. apply nth_In.
  change (length (B "0123456789abcdef")) with 16. lia.
Qed.

Lemma utoa_loop_hex (fuel : nat) (n : N) (acc : bytes) :
  Forall is_hex acc -> Forall is_hex (utoa_loop fuel 16 n acc).
Proof.
  revert n acc. induction fuel as [| fuel IH]; intros n acc Hacc; [exact Hacc |].
  cbn [utoa_loop].
  assert (Hd : Forall is_hex (digit_char (n mod 16) :: acc)).
  { constructor; [| exact Hacc]. apply digit_char_hex. now apply N.mod_lt. }
  destruct (n / 16 =? 0)%N; [exact Hd | now apply IH].
Qed.

(** [%04x] of a 16-bit number: exactly four hexadecimal digits. *)
Lemma printf_04x (n : N) :
  (n < 65536)%N ->
  length (printf_0 4 16 n) = 4 /\ Forall is_hex (printf_0 4 16 n).
Proof.
  intros Hn. unfold printf_0, utoa.
  pose proof (@utoa_loop_length 4 (S (N.size_nat n)) 16 n [] ltac:(lia) ltac:(lia) Hn) as Hlen.
  cbn [length] in Hlen. split.
  - rewrite length_app, repeat_length. lia.
  - apply Forall_app. split.
    + apply Forall_forall. intros c Hc. apply repeat_spec in Hc. subst c.
      cbv. tauto.
    + apply utoa_loop_hex. constructor.
Qed.

Lemma size_nat_bound (n : N) : (n < 2 ^ N.of_nat (N.size_nat n))%N.
Proof.
  destruct n as [| p]; [reflexivity |]. cbn [N.size_nat].
  induction p as [p IH | p IH |]; cbn [Pos.size_nat].
  - rewrite Nat2N.inj_succ, N.pow_succ_r'. lia.
  - rewrite Nat2N.inj_succ, N.pow_succ_r'. lia.
  - reflexivity.
Qed.

Lemma hex_digit_char (d : N) : (d < 16)%N -> hex_digit (digit_char d) = d.
Proof.
  intros Hd.
  assert (Hcases : d = 0%N \/ d = 1%N \/ d = 2%N \/ d = 3%N \/ d = 4%N
                   \/ d = 5%N \/ d = 6%N \/ d = 7%N \/ d = 8%N \/ d = 9%N
                   \/ d = 10%N \/ d = 11%N \/ d = 12%N \/ d = 13%N
                   \/ d = 14%N \/ d = 15%N)
    by lia.
  repeat (destruct Hcases as [-> | Hcases]; [reflexivity |]).
  now subst d.
Qed.

(** Read back, the hexadecimal digits written in front of [acc] denote
    [n]. *)
Lemma utoa_loop_hex_value (fuel : nat) (n : N) (acc : bytes) :
  (n < 16 ^ N.of_nat fuel)%N ->
  fold_left (fun a c => (a * 16 + hex_digit c)%N) (utoa_loop fuel 16 n acc) 0%N
  = fold_left (fun a c => (a * 16 + hex_digit c)%N) acc n.
Proof.
  revert n acc. induction fuel as [| fuel IH]; intros n acc Hn.
  - change (N.of_nat 0) with 0%N in Hn. rewrite N.pow_0_r in Hn.
    assert (n = 0%N) by lia. subst n. reflexivity.
  - cbn [utoa_loop].
    assert (Hmod : (n mod 16 < 16)%N) by now apply N.mod_lt.
    pose proof (hex_digit_char Hmod) as Hval.
    pose proof (N.div_mod n 16 ltac:(lia)) as Hdm.
    destruct (n / 16 =? 0)%N eqn:Hq.
    + apply N.eqb_eq in Hq. cbn [fold_left]. rewrite Hval. f_equal. lia.
    + rewrite IH.
      * cbn [fold_left]. rewrite Hval. f_equal. lia.
      * apply N.Div0.div_lt_upper_bound.
        rewrite Nat2N.inj_succ, N.pow_succ_r' in Hn. exact Hn.
Qed.

(** The four digits of [%04x] denote the number. *)
Lemma printf_04x_value (n : N) :
  (n < 65536)%N -> hex_value (printf_0 4 16 n) = n.
Proof.
  intros Hn. unfold printf_0, utoa, hex_value. rewrite fold_left_app.
  assert (Hzeros : forall k,
             fold_left (fun a c => (a * 16 + hex_digit c)%N)
                       (repeat "0"%char k) 0%N = 0%N).
  { induction k as [| k IHk]; [reflexivity | exact IHk]. }
  rewrite Hzeros, utoa_loop_hex_value; [reflexivity |].
  eapply N.lt_le_trans; [apply size_nat_bound |].
  rewrite Nat2N.inj_succ, N.pow_succ_r'.
  assert (H2 : (2 ^ N.of_nat (N.size_nat n) <= 16 ^ N.of_nat (N.size_nat n))%N)
    by (apply N.pow_le_mono_l; lia).
  lia.
Qed.
(* ------------------------------------------------------------------ *)
(** ** The sanitizer *)
(* ------------------------------------------------------------------ *)

Section SanitizerFacts.

Variable malloc : nat -> bool.
Variable ctx : flb_elasticsearch.

Lemma es_pack_map_content_loop pk entries :
  es_pack_map_content malloc ctx pk (MSGPACK_OBJECT_MAP entries)
  = map_loop malloc ctx pk entries.
Proof.
  revert pk. induction entries as [| [k v] l IH]; intros pk; [reflexivity |].
  simpl. destruct (es_pack_map_key malloc ctx pk k) as [pk1 |]; [| reflexivity].
  apply IH.
Qed.

Lemma es_pack_array_content_loop pk elts :
  es_pack_array_content malloc ctx pk (MSGPACK_OBJECT_ARRAY elts)
  = array_loop malloc ctx pk elts.
Proof.
  revert pk. induction elts as [| e l IH]; intros pk; [reflexivity |].
  simpl. apply IH.
Qed.

Lemma sanitized_map entries :
  sanitized ctx (MSGPACK_OBJECT_MAP entries)
  = MSGPACK_OBJECT_MAP (map (sanitized_entry ctx) entries).
Proof.
  simpl; f_equal;
    try (induction entries as [| [k v] l IH]; [reflexivity | simpl; now rewrite IH]).
Qed.

Lemma sanitized_array elts :
  sanitized ctx (MSGPACK_OBJECT_ARRAY elts)
  = MSGPACK_OBJECT_ARRAY (map (sanitized ctx) elts).
Proof.
  simpl; f_equal;
    try (induction elts as [| e l IH]; [reflexivity | simpl; now rewrite IH]).
Qed.

Lemma keys_allocated_map entries :
  keys_allocated malloc (MSGPACK_OBJECT_MAP entries)
  = forallb (fun kv => key_fits malloc (fst kv) && keys_allocated malloc (snd kv)) entries.
Proof.
  simpl. induction entries as [| [k v] l IH]; [reflexivity |].
  simpl. now rewrite IH.
Qed.

Lemma keys_allocated_array elts :
  keys_allocated malloc (MSGPACK_OBJECT_ARRAY elts)
  = forallb (keys_allocated malloc) elts.
Proof.
  simpl. induction elts as [| e l IH]; [reflexivity |].
  simpl. now rewrite IH.
Qed.

Lemma replace_dots_in_length name : length (replace_dots_in name) = length name.
Proof. apply length_map. Qed.

Lemma sanitize_key_name_length name :
  length (sanitize_key_name ctx name) = length name.
Proof.
  unfold sanitize_key_name. destruct (replace_dots ctx); [apply replace_dots_in_length | reflexivity].
Qed.

(** The key part of an iteration: it fails exactly when the key needs a
    heap block and does not get it, and otherwise appends a string item
    holding the sanitized bytes of the key. *)
Lemma es_pack_map_key_spec pk k :
  es_pack_map_key malloc ctx pk k
  = if key_fits malloc k
    then Some (pk ++ object_items
                       (MSGPACK_OBJECT_STR (sanitize_key_name ctx (key_ptr k))))
    else None.
Proof.
  unfold es_pack_map_key, key_fits.
  destruct ((length (key_ptr k) <? sizeof_buf_key - 1)
            || malloc (length (key_ptr k) + 1)); [| reflexivity].
  unfold msgpack_pack_str_body, msgpack_pack_str. simpl.
  rewrite <- (sanitize_key_name_length (key_ptr k)) at 2.
  rewrite firstn_all, sanitize_key_name_length, <- app_assoc. reflexivity.
Qed.

(** With every heap block granted, a value is written as the items of its
    sanitized tree. *)
Lemma pack_sanitized_value_items (v : msgpack_object) :
  keys_allocated malloc v = true ->
  forall pk, pack_sanitized_value malloc ctx pk v
             = pk ++ object_items (sanitized ctx v).
Proof.
  induction v as [| b | u | i | f | s | elts IH | entries IH | s | t s]
    using object_induction; intros Hk pk; try reflexivity.
  - (* array *)
    unfold pack_sanitized_value. rewrite es_pack_array_content_loop.
    rewrite sanitized_array, object_items_array, length_map.
    unfold msgpack_pack_array.
    rewrite keys_allocated_array in Hk.
    replace (pk ++ I_array (length elts) :: flat_map object_items (map (sanitized ctx) elts))
      with ((pk ++ [I_array (length elts)]) ++ flat_map object_items (map (sanitized ctx) elts))
      by (rewrite <- app_assoc; reflexivity).
    generalize (pk ++ [I_array (length elts)]) as pk0.
    clear pk. induction elts as [| e l IHl]; intros pk0.
    + simpl. now rewrite app_nil_r.
    + simpl in Hk. apply andb_true_iff in Hk. destruct Hk as [He Hl].
      cbn [array_loop map flat_map]. rewrite (IH e (or_introl eq_refl) He).
      rewrite IHl; [now rewrite <- app_assoc | | exact Hl].
      intros x Hx. apply IH. now right.
  - (* map *)
    unfold pack_sanitized_value. rewrite es_pack_map_content_loop.
    rewrite sanitized_map, object_items_map, length_map.
    unfold msgpack_pack_map.
    rewrite keys_allocated_map in Hk.
    replace (pk ++ I_map (length entries) :: flat_map entry_items (map (sanitized_entry ctx) entries))
      with ((pk ++ [I_map (length entries)]) ++ flat_map entry_items (map (sanitized_entry ctx) entries))
      by (rewrite <- app_assoc; reflexivity).
    generalize (pk ++ [I_map (length entries)]) as pk0.
    clear pk. induction entries as [| [k v] l IHl]; intros pk0.
    + simpl. now rewrite app_nil_r.
    + simpl in Hk. apply andb_true_iff in Hk. destruct Hk as [Hkv Hl].
      apply andb_true_iff in Hkv. destruct Hkv as [Hfit Hv].
      cbn [map_loop map flat_map]. rewrite es_pack_map_key_spec, Hfit.
      destruct (IH k v (or_introl eq_refl)) as [_ IHv].
      rewrite (IHv Hv). rewrite IHl; [| | exact Hl].
      * unfold entry_items at 2, sanitized_entry at 1. cbn [fst snd].
        now rewrite <- !app_assoc.
      * intros k' v' Hin. apply IH. now right.
Qed.

Lemma map_loop_result pk entries :
  fst (map_loop malloc ctx pk entries)
  = if forallb (fun kv => key_fits malloc (fst kv)) entries then 0%Z else (-1)%Z.
Proof.
  revert pk. induction entries as [| [k v] l IH]; intros pk; [reflexivity |].
  cbn [map_loop forallb fst]. rewrite es_pack_map_key_spec.
  destruct (key_fits malloc k); [apply IH | reflexivity].
Qed.

Lemma depth_nested_map n : depth (nested_map n) = S n.
Proof.
  induction n as [| n IH]; [reflexivity |].
  cbn [nested_map depth]. rewrite IH. simpl. lia.
Qed.

Lemma nested_map_packs n pk :
  fst (es_pack_map_content malloc ctx pk (nested_map n)) = 0%Z.
Proof.
  destruct n as [| n]; cbn [nested_map]; rewrite es_pack_map_content_loop, map_loop_result;
    reflexivity.
Qed.

Lemma replace_dots_in_nth name i :
  nth i (replace_dots_in name) NUL
  = if Ascii.eqb (nth i name NUL) "."%char then "_"%char else nth i name NUL.
Proof.
  revert i. induction name as [| c name IH]; intros [| i]; simpl; try reflexivity.
  apply IH.
Qed.

Lemma replace_dots_in_no_dot name : ~ In "."%char (replace_dots_in name).
Proof.
  unfold replace_dots_in. rewrite in_map_iff. intros [c [Hc _]].
  destruct (Ascii.eqb c "."%char) eqn:E; [discriminate |].
  subst c. rewrite Ascii.eqb_refl in E. discriminate.
Qed.

Lemma type_of_sanitized v : type_of (sanitized ctx v) = type_of v.
Proof. destruct v; reflexivity. Qed.

Lemma sanitized_scalar v :
  is_type T_MAP v = false -> is_type T_ARRAY v = false -> sanitized ctx v = v.
Proof. destruct v; intros H1 H2; try reflexivity; discriminate. Qed.

(** C6. With [replace_dots] on, the name the sanitizer writes for a key of
    type string or binary has the length of the original name, holds no
    dot, and holds at every position an underscore where the original held
    a dot and the original byte elsewhere; and these are the bytes
    [es_pack_map_content] appends for the key whenever it gets past the
    key (it does not only when a key of 255 bytes or more is refused its
    heap block). *)
Theorem dot_replacement_is_total_and_local (name : bytes) :
  replace_dots ctx = FLB_TRUE ->
  let name' := sanitize_key_name ctx name in
  length name' = length name
  /\ ~ In "."%char name'
  /\ (forall i, nth i name' NUL
                = if Ascii.eqb (nth i name NUL) "."%char then "_"%char
                  else nth i name NUL)
  /\ (forall k pk pk',
        k = MSGPACK_OBJECT_STR name \/ k = MSGPACK_OBJECT_BIN name ->
        es_pack_map_key malloc ctx pk k = Some pk' ->
        pk' = pk ++ [I_str (length name); I_body name'])
  /\ (forall k v rest pk,
        k = MSGPACK_OBJECT_STR name \/ k = MSGPACK_OBJECT_BIN name ->
        key_fits malloc k = true ->
        es_pack_map_content malloc ctx pk (MSGPACK_OBJECT_MAP ((k, v) :: rest))
        = map_loop malloc ctx
            (pack_sanitized_value malloc ctx
               (pk ++ [I_str (length name); I_body name']) v) rest).
Proof.
  intros Hdots name'. subst name'. unfold sanitize_key_name. rewrite Hdots.
  split; [apply replace_dots_in_length |].
  split; [apply replace_dots_in_no_dot |].
  split; [apply replace_dots_in_nth |].
  assert (Hkey : forall k pk,
             k = MSGPACK_OBJECT_STR name \/ k = MSGPACK_OBJECT_BIN name ->
             es_pack_map_key malloc ctx pk k
             = if key_fits malloc k
               then Some (pk ++ [I_str (length name); I_body (replace_dots_in name)])
               else None).
  { intros k pk Hk. rewrite es_pack_map_key_spec.
    assert (Hp : key_ptr k = name) by (destruct Hk as [-> | ->]; reflexivity).
    rewrite Hp. unfold sanitize_key_name. rewrite Hdots.
    cbn [object_items]. now rewrite replace_dots_in_length. }
  split.
  - intros k pk pk' Hk Hsome. rewrite (Hkey k pk Hk) in Hsome.
    destruct (key_fits malloc k); [now injection Hsome as <- | discriminate].
  - intros k v rest pk Hk Hfit. rewrite es_pack_map_content_loop.
    cbn [map_loop]. now rewrite (Hkey k pk Hk), Hfit.
Qed.

(** C7, amended. When every key that needs a heap block gets it, the
    sanitizer returns 0 and what it writes behind the map header is read
    back as a mapping with as many entries as the input, in the same
    order; the key of each entry is a string holding the bytes of the
    original key when that was a string or a binary (dots replaced when
    [replace_dots] is on) and no byte at all when it was of another type;
    the value of each entry is the sanitized original value: a map or an
    array sanitized in turn, element by element, any other value
    unchanged, the type of a value never changing. *)
Theorem sanitizer_writes_the_sanitized_map
        (entries : list (msgpack_object * msgpack_object)) :
  keys_allocated malloc (MSGPACK_OBJECT_MAP entries) = true ->
  (forall pk,
      es_pack_map_content malloc ctx (msgpack_pack_map pk (length entries))
                          (MSGPACK_OBJECT_MAP entries)
      = (0%Z, msgpack_pack_object pk (sanitized ctx (MSGPACK_OBJECT_MAP entries))))
  /\ msgpack_unpack_next
       (snd (es_pack_map_content malloc ctx
               (msgpack_pack_map msgpack_sbuffer_init (length entries))
               (MSGPACK_OBJECT_MAP entries)))
     = Some (sanitized ctx (MSGPACK_OBJECT_MAP entries))
  /\ sanitized ctx (MSGPACK_OBJECT_MAP entries)
     = MSGPACK_OBJECT_MAP (map (sanitized_entry ctx) entries)
  /\ length (map (sanitized_entry ctx) entries) = length entries
  /\ (forall i k v,
        nth_error entries i = Some (k, v) ->
        nth_error (map (sanitized_entry ctx) entries) i
        = Some (MSGPACK_OBJECT_STR (sanitize_key_name ctx (key_ptr k)),
                sanitized ctx v))
  /\ (forall name, key_ptr (MSGPACK_OBJECT_STR name) = name
                   /\ key_ptr (MSGPACK_OBJECT_BIN name) = name)
  /\ (forall k, is_type T_STR k = false -> is_type T_BIN k = false ->
                key_ptr k = [])
  /\ (forall name, sanitize_key_name ctx name
                   = if replace_dots ctx then replace_dots_in name else name)
  /\ (forall v, type_of (sanitized ctx v) = type_of v)
  /\ (forall elts, sanitized ctx (MSGPACK_OBJECT_ARRAY elts)
                   = MSGPACK_OBJECT_ARRAY (map (sanitized ctx) elts))
  /\ (forall v, is_type T_MAP v = false -> is_type T_ARRAY v = false ->
                sanitized ctx v = v).
Proof.
  intros Hk.
  assert (Hw : forall pk,
             es_pack_map_content malloc ctx (msgpack_pack_map pk (length entries))
                                 (MSGPACK_OBJECT_MAP entries)
             = (0%Z, msgpack_pack_object pk
                       (sanitized ctx (MSGPACK_OBJECT_MAP entries)))).
  { intros pk.
    pose proof (pack_sanitized_value_items _ Hk pk) as Hv.
    unfold pack_sanitized_value in Hv. unfold msgpack_pack_object. rewrite <- Hv.
    apply injective_projections; [| reflexivity].
    rewrite es_pack_map_content_loop, map_loop_result. cbn [fst].
    rewrite keys_allocated_map in Hk.
    assert (Hall : forallb (fun kv => key_fits malloc (fst kv)) entries = true).
    { rewrite forallb_forall in *. intros kv Hin.
      specialize (Hk kv Hin). now apply andb_true_iff in Hk. }
    now rewrite Hall. }
  split; [exact Hw |].
  split.
  { rewrite Hw. cbn [snd]. unfold msgpack_pack_object, msgpack_sbuffer_init.
    cbn [app]. rewrite <- (app_nil_r (object_items _)).
    apply msgpack_unpack_next_items. }
  split; [apply sanitized_map |].
  split; [apply length_map |].
  split.
  { intros i k v Hi. rewrite nth_error_map, Hi. reflexivity. }
  split; [intros name; split; reflexivity |].
  split; [intros k H1 H2; destruct k; try reflexivity; discriminate |].
  split; [reflexivity |].
  split; [apply type_of_sanitized |].
  split; [apply sanitized_array | apply sanitized_scalar].
Qed.

(** *** The sanitizer on a call stack *)

Lemma es_pack_map_content_on_loop room pk entries :
  es_pack_map_content_on malloc ctx room pk (MSGPACK_OBJECT_MAP entries)
  = if room =? 0 then Stack_exhausted
    else map_loop_on malloc ctx (room - 1) pk entries.
Proof.
  destruct room as [| room']; [reflexivity |].
  change (S room' =? 0) with false. cbv iota.
  revert pk. induction entries as [| [k v] l IH]; intros pk; [reflexivity |].
  simpl. simpl in IH.
  destruct (es_pack_map_key malloc ctx pk k) as [pk1 |]; [| reflexivity].
  unfold pack_sanitized_value_on.
  destruct v; try apply IH;
    (match goal with
     | |- match ?x with _ => _ end = _ =>
         destruct x as [r |]; [apply IH | reflexivity]
     end).
Qed.

Lemma es_pack_array_content_on_loop room pk elts :
  es_pack_array_content_on malloc ctx room pk (MSGPACK_OBJECT_ARRAY elts)
  = if room =? 0 then Stack_exhausted
    else array_loop_on malloc ctx (room - 1) pk elts.
Proof.
  destruct room as [| room']; [reflexivity |].
  change (S room' =? 0) with false. cbv iota.
  revert pk. induction elts as [| e l IH]; intros pk; [reflexivity |].
  simpl. simpl in IH. unfold pack_sanitized_value_on.
  destruct e; try apply IH;
    (match goal with
     | |- match ?x with _ => _ end = _ =>
         destruct x as [r |]; [apply IH | reflexivity]
     end).
Qed.

Lemma depth_array_in elts e :
  In e elts -> depth e < depth (MSGPACK_OBJECT_ARRAY elts).
Proof.
  intros Hin. cbn [depth]. apply Nat.lt_succ_r.
  induction elts as [| x l IH]; [destruct Hin |].
  destruct Hin as [-> | Hin]; [lia |]. specialize (IH Hin). lia.
Qed.

Lemma depth_map_in entries k v :
  In (k, v) entries -> depth v < depth (MSGPACK_OBJECT_MAP entries).
Proof.
  intros Hin. cbn [depth]. apply Nat.lt_succ_r.
  induction entries as [| [k0 v0] l IH]; [destruct Hin |].
  destruct Hin as [Heq | Hin]; [injection Heq as -> ->; lia |].
  specialize (IH Hin). lia.
Qed.

(** A value on a stack: either the stack runs out, or the value is
    written as on a stack that never runs out; and the stack does not run
    out when it has room for as many activations as the value has levels
    of nesting. *)
Lemma pack_sanitized_value_on_spec (v : msgpack_object) :
  forall room pk,
    (pack_sanitized_value_on malloc ctx room pk v = Stack_exhausted
     \/ exists z, pack_sanitized_value_on malloc ctx room pk v
                  = Returned (z, pack_sanitized_value malloc ctx pk v))
    /\ (depth v <= room ->
        exists z, pack_sanitized_value_on malloc ctx room pk v
                  = Returned (z, pack_sanitized_value malloc ctx pk v)).
Proof.
  induction v as [| b | u | i | f | s | elts IH | entries IH | s | t s]
    using object_induction; intros room pk;
    try (split; [right |]; now exists 0%Z).
  - (* array *)
    unfold pack_sanitized_value_on, pack_sanitized_value.
    rewrite es_pack_array_content_on_loop, es_pack_array_content_loop.
    destruct (room =? 0) eqn:Hroom.
    { split; [now left |]. apply Nat.eqb_eq in Hroom. cbn [depth]. lia. }
    apply Nat.eqb_neq in Hroom.
    assert (Hloop : forall l pk0,
               (forall e, In e l -> In e elts) ->
               (array_loop_on malloc ctx (room - 1) pk0 l = Stack_exhausted
                \/ array_loop_on malloc ctx (room - 1) pk0 l
                   = Returned (array_loop malloc ctx pk0 l))
               /\ ((forall e, In e l -> depth e <= room - 1) ->
                   array_loop_on malloc ctx (room - 1) pk0 l
                   = Returned (array_loop malloc ctx pk0 l))).
    { induction l as [| e l IHl]; intros pk0 Hsub.
      - split; [right |]; reflexivity.
      - cbn [array_loop_on array_loop].
        destruct (IH e (Hsub e (or_introl eq_refl)) (room - 1) pk0)
          as [Hany Hfit].
        destruct (IHl (pack_sanitized_value malloc ctx pk0 e)
                      (fun x Hx => Hsub x (or_intror Hx))) as [Hany' Hfit'].
        split.
        + destruct Hany as [-> | [z ->]]; [now left | exact Hany'].
        + intros Hd. destruct (Hfit (Hd e (or_introl eq_refl))) as [z ->].
          cbn [snd]. apply Hfit'. intros x Hx. apply Hd. now right. }
    destruct (Hloop elts (msgpack_pack_array pk (length elts)) (fun e H => H))
      as [Hany Hfit].
    rewrite (surjective_pairing (array_loop malloc ctx _ elts)) in Hany, Hfit.
    split.
    + destruct Hany as [-> | ->]; [now left | right; now eexists].
    + intros Hd. rewrite Hfit; [now eexists |].
      intros e He. pose proof (depth_array_in elts e He). lia.
  - (* map *)
    unfold pack_sanitized_value_on, pack_sanitized_value.
    rewrite es_pack_map_content_on_loop, es_pack_map_content_loop.
    destruct (room =? 0) eqn:Hroom.
    { split; [now left |]. apply Nat.eqb_eq in Hroom. cbn [depth]. lia. }
    apply Nat.eqb_neq in Hroom.
    assert (Hloop : forall l pk0,
               (forall k v, In (k, v) l -> In (k, v) entries) ->
               (map_loop_on malloc ctx (room - 1) pk0 l = Stack_exhausted
                \/ map_loop_on malloc ctx (room - 1) pk0 l
                   = Returned (map_loop malloc ctx pk0 l))
               /\ ((forall k v, In (k, v) l -> depth v <= room - 1) ->
                   map_loop_on malloc ctx (room - 1) pk0 l
                   = Returned (map_loop malloc ctx pk0 l))).
    { induction l as [| [k v] l IHl]; intros pk0 Hsub.
      - split; [right |]; reflexivity.
      - cbn [map_loop_on map_loop].
        destruct (es_pack_map_key malloc ctx pk0 k) as [pk1 |];
          [| split; [right |]; reflexivity].
        destruct (IH k v (Hsub k v (or_introl eq_refl))) as [_ IHv].
        destruct (IHv (room - 1) pk1) as [Hany Hfit].
        destruct (IHl (pack_sanitized_value malloc ctx pk1 v)
                      (fun k' v' Hx => Hsub k' v' (or_intror Hx)))
          as [Hany' Hfit'].
        split.
        + destruct Hany as [-> | [z ->]]; [now left | exact Hany'].
        + intros Hd. destruct (Hfit (Hd k v (or_introl eq_refl))) as [z ->].
          cbn [snd]. apply Hfit'. intros k' v' Hx. apply (Hd k' v'). now right. }
    destruct (Hloop entries (msgpack_pack_map pk (length entries))
                    (fun k v H => H)) as [Hany Hfit].
    rewrite (surjective_pairing (map_loop malloc ctx _ entries)) in Hany, Hfit.
    split.
    + destruct Hany as [-> | ->]; [now left | right; now eexists].
    + intros Hd. rewrite Hfit; [now eexists |].
      intros k v Hkv. pose proof (depth_map_in entries k v Hkv). lia.
Qed.

(** The sanitizer on a stack with room for at least one activation. *)
Lemma es_pack_map_content_on_spec room pk map :
  (es_pack_map_content_on malloc ctx room pk map = Stack_exhausted
   \/ es_pack_map_content_on malloc ctx room pk map
      = Returned (es_pack_map_content malloc ctx pk map))
  /\ (1 <= room -> depth map <= room ->
      es_pack_map_content_on malloc ctx room pk map
      = Returned (es_pack_map_content malloc ctx pk map)).
Proof.
  destruct (room =? 0) eqn:Hroom.
  { apply Nat.eqb_eq in Hroom. subst room.
    split; [left; now destruct map | lia]. }
  destruct map as [| b | u | i | f | s | elts | entries | s | t s];
    try (cbn [es_pack_map_content_on es_pack_map_content]; rewrite Hroom;
         split; [right |]; reflexivity).
  rewrite es_pack_map_content_on_loop, es_pack_map_content_loop, Hroom.
  apply Nat.eqb_neq in Hroom.
  assert (Hloop : forall l pk0,
             (map_loop_on malloc ctx (room - 1) pk0 l = Stack_exhausted
              \/ map_loop_on malloc ctx (room - 1) pk0 l
                 = Returned (map_loop malloc ctx pk0 l))
             /\ ((forall k v, In (k, v) l -> depth v <= room - 1) ->
                 map_loop_on malloc ctx (room - 1) pk0 l
                 = Returned (map_loop malloc ctx pk0 l))).
  { induction l as [| [k v] l IHl]; intros pk0.
    - split; [right |]; reflexivity.
    - cbn [map_loop_on map_loop].
      destruct (es_pack_map_key malloc ctx pk0 k) as [pk1 |];
        [| split; [right |]; reflexivity].
      destruct (pack_sanitized_value_on_spec v (room - 1) pk1) as [Hany Hfit].
      destruct (IHl (pack_sanitized_value malloc ctx pk1 v)) as [Hany' Hfit'].
      split.
      + destruct Hany as [-> | [z ->]]; [now left | exact Hany'].
      + intros Hd. destruct (Hfit (Hd k v (or_introl eq_refl))) as [z ->].
        cbn [snd]. apply Hfit'. intros k' v' Hx. apply (Hd k' v'). now right. }
  destruct (Hloop entries pk) as [Hany Hfit].
  split; [exact Hany |]. intros _ Hd. apply Hfit.
  intros k v Hkv. pose proof (depth_map_in entries k v Hkv). lia.
Qed.

(** A map nested deeper than the stack has room for. *)
Lemma nested_map_exhausts n room pk :
  room <= n ->
  es_pack_map_content_on malloc ctx room pk (nested_map n) = Stack_exhausted.
Proof.
  revert room pk. induction n as [| n IH]; intros room pk Hroom.
  - assert (room = 0) by lia. subst room. reflexivity.
  - cbn [nested_map]. rewrite es_pack_map_content_on_loop.
    destruct (room =? 0) eqn:H0; [reflexivity |]. apply Nat.eqb_neq in H0.
    cbn [map_loop_on]. rewrite es_pack_map_key_spec.
    assert (Hfit : key_fits malloc (MSGPACK_OBJECT_STR (B "k")) = true)
      by reflexivity.
    rewrite Hfit. unfold pack_sanitized_value_on.
    destruct n as [| n']; cbn [nested_map]; cbn [nested_map] in IH;
      rewrite IH by lia; reflexivity.
Qed.


End SanitizerFacts.

(* ------------------------------------------------------------------ *)
(** ** The response validator *)
(* ------------------------------------------------------------------ *)

Section ResponseValidatorFacts.

Variable pack_json : bytes -> option msgpack_sbuffer.

(** The two tests on a string key, [size != 6] and [strncmp], single out
    the key [errors]. *)
Lemma errors_key_test (s : bytes) :
  (if negb (length s =? 6) then false else strncmp_eq s (B "errors") 6) = true
  <-> s = B "errors".
Proof.
  destruct (length s =? 6) eqn:Hlen; cbn [negb].
  - apply Nat.eqb_eq in Hlen.
    apply (strncmp_eq_literal s (B "errors")); [exact Hlen |].
    cbv. intuition discriminate.
  - apply Nat.eqb_neq in Hlen. split; [discriminate |].
    intros ->. now elim Hlen.
Qed.

Lemma error_check_entries_skip k v rest :
  (exists s, k = MSGPACK_OBJECT_STR s) -> k <> MSGPACK_OBJECT_STR (B "errors") ->
  error_check_entries ((k, v) :: rest) = error_check_entries rest.
Proof.
  intros [s ->] Hne. cbn [error_check_entries].
  pose proof (errors_key_test s) as Ht.
  destruct (negb (length s =? 6)); [reflexivity |].
  destruct (strncmp_eq s (B "errors") 6); [| reflexivity].
  exfalso. apply Hne. f_equal. now apply Ht.
Qed.

Lemma error_check_entries_hit v rest :
  error_check_entries ((MSGPACK_OBJECT_STR (B "errors"), v) :: rest)
  = match v with MSGPACK_OBJECT_BOOLEAN b => b | _ => true end.
Proof. destruct v as [| [|] | | | | | | | |]; reflexivity. Qed.

Lemma error_check_entries_absent entries :
  (forall v, ~ In (MSGPACK_OBJECT_STR (B "errors"), v) entries) ->
  error_check_entries entries = true.
Proof.
  induction entries as [| [k v] rest IH]; intros Habs; [reflexivity |].
  assert (Hne : k <> MSGPACK_OBJECT_STR (B "errors"))
    by (intros ->; apply (Habs v); now left).
  assert (Hrest : error_check_entries rest = true)
    by (apply IH; intros v' Hin; apply (Habs v'); now right).
  destruct k; try reflexivity.
  rewrite error_check_entries_skip; [exact Hrest | now eexists | exact Hne].
Qed.

Lemma error_check_entries_first pre v post :
  (forall k' v', In (k', v') pre -> k' <> MSGPACK_OBJECT_STR (B "errors")) ->
  (is_type T_BOOLEAN v = false ->
   error_check_entries (pre ++ (MSGPACK_OBJECT_STR (B "errors"), v) :: post) = true)
  /\ (forall b, v = MSGPACK_OBJECT_BOOLEAN b ->
        (forall k' v', In (k', v') pre -> is_type T_STR k' = true) ->
        error_check_entries (pre ++ (MSGPACK_OBJECT_STR (B "errors"), v) :: post) = b).
Proof.
  induction pre as [| [k w] pre IH]; intros Hne.
  - cbn [app]. rewrite error_check_entries_hit. split.
    + intros Hv. destruct v; try reflexivity; discriminate.
    + now intros b ->.
  - assert (Hk : k <> MSGPACK_OBJECT_STR (B "errors")) by (apply (Hne k w); now left).
    destruct IH as [IH1 IH2]; [intros k' v' Hin; apply (Hne k' v'); now right |].
    cbn [app]. split.
    + intros Hv. destruct k; try reflexivity.
      rewrite error_check_entries_skip; [now apply IH1 | now eexists | exact Hk].
    + intros b Hb Hstr.
      assert (Hs : is_type T_STR k = true) by (apply (Hstr k w); now left).
      destruct k; try discriminate.
      rewrite error_check_entries_skip; [| now eexists | exact Hk].
      apply IH2; [exact Hb | intros k' v' Hin; apply (Hstr k' v'); now right].
Qed.

(** C1, amended. The verdict of the response validator.
    When the payload does not parse as JSON: error-present for the empty
    payload; for a payload that is not empty, no-error when it contains
    the literal ["errors":false,"items":[] before its first NUL byte
    (the validator searches it as a C string), error-present when it
    does not.
    When the payload parses: error-present when the msgpack form cannot be
    read back or its root is not a mapping; error-present when no entry of
    the root has the 6-byte string key [errors]; otherwise the first entry
    with that key decides: error-present when its value is not a boolean,
    and exactly its boolean value when it is one (the keys of a JSON
    object, here those before it, being strings). *)
Theorem error_check_verdict (ctx : flb_elasticsearch) (c : flb_http_client) :
  (pack_json (resp_payload c) = None ->
     (resp_payload c = [] -> elasticsearch_error_check pack_json ctx c = FLB_TRUE)
     /\ (resp_payload c <> [] ->
         contains (c_str (resp_payload c)) errors_false_items ->
         elasticsearch_error_check pack_json ctx c = FLB_FALSE)
     /\ (resp_payload c <> [] ->
         ~ contains (c_str (resp_payload c)) errors_false_items ->
         elasticsearch_error_check pack_json ctx c = FLB_TRUE))
  /\ (forall out_buf, pack_json (resp_payload c) = Some out_buf ->
        (msgpack_unpack_next out_buf = None ->
         elasticsearch_error_check pack_json ctx c = FLB_TRUE)
        /\ (forall root, msgpack_unpack_next out_buf = Some root ->
              (is_type T_MAP root = false ->
               elasticsearch_error_check pack_json ctx c = FLB_TRUE)
              /\ (forall entries, root = MSGPACK_OBJECT_MAP entries ->
                    ((forall v, ~ In (MSGPACK_OBJECT_STR (B "errors"), v) entries) ->
                     elasticsearch_error_check pack_json ctx c = FLB_TRUE)
                    /\ (forall pre v post,
                          entries = pre ++ (MSGPACK_OBJECT_STR (B "errors"), v) :: post ->
                          (forall k' v', In (k', v') pre ->
                                         k' <> MSGPACK_OBJECT_STR (B "errors")) ->
                          (is_type T_BOOLEAN v = false ->
                           elasticsearch_error_check pack_json ctx c = FLB_TRUE)
                          /\ (forall b, v = MSGPACK_OBJECT_BOOLEAN b ->
                                (forall k' v', In (k', v') pre ->
                                               is_type T_STR k' = true) ->
                                elasticsearch_error_check pack_json ctx c = b))))).
Proof.
  unfold elasticsearch_error_check, resp_payload_size. split.
  - intros ->.
    assert (Hneedle : c_str errors_false_items = errors_false_items)
      by (apply c_str_no_nul; cbv; intuition discriminate).
    split; [| split].
    + intros ->. reflexivity.
    + intros Hne Hin.
      destruct (Z.of_nat (length (resp_payload c)) <=? 0)%Z eqn:Hsz.
      { apply Z.leb_le in Hsz. destruct (resp_payload c); [now elim Hne | simpl in Hsz; lia]. }
      unfold strstr. rewrite Hneedle.
      apply find_sub_contains in Hin.
      destruct (find_sub errors_false_items (c_str (resp_payload c)));
        [reflexivity | now elim Hin].
    + intros Hne Hnot.
      destruct (Z.of_nat (length (resp_payload c)) <=? 0)%Z; [reflexivity |].
      unfold strstr. rewrite Hneedle.
      destruct (find_sub errors_false_items (c_str (resp_payload c))) eqn:Hf;
        [| reflexivity].
      exfalso. apply Hnot. apply find_sub_contains. now rewrite Hf.
  - intros out_buf ->. split.
    + now intros ->.
    + intros root ->. split.
      * intros Hroot. destruct root; try reflexivity; discriminate.
      * intros entries ->. split.
        -- apply error_check_entries_absent.
        -- intros pre v post -> Hne. now apply error_check_entries_first.
Qed.

End ResponseValidatorFacts.

(* ------------------------------------------------------------------ *)
(** ** The formatter *)
(* ------------------------------------------------------------------ *)

Section FormatterFacts.

Variable E : platform.
Variable ctx : flb_elasticsearch.
Variable tag : bytes.

Lemma bind_next {A C : Type} (m : step A) (k : A -> step C) (c : C) :
  bind m k = Next c -> exists a, m = Next a /\ k a = Next c.
Proof. destruct m as [a | z |]; simpl; intros H; [now exists a | discriminate ..]. Qed.

Lemma bind_error {A C : Type} (m : step A) (k : A -> step C) (z : bool) :
  bind m k = Return_error z ->
  m = Return_error z \/ exists a, m = Next a /\ k a = Return_error z.
Proof.
  destruct m as [a | z' |]; simpl; intros H;
    [right; now exists a | left; now injection H as -> | discriminate].
Qed.

Lemma format_records_app st before after :
  format_records E ctx tag st (before ++ after)
  = bind (format_records E ctx tag st before)
         (fun st' => format_records E ctx tag st' after).
Proof.
  revert st. induction before as [| r l IH]; intros st; [reflexivity |].
  cbn [app format_records].
  destruct (format_record E ctx tag st r) as [st' | z |]; simpl; [apply IH | reflexivity ..].
Qed.

Lemma format_record_skips st root :
  two_entries root = false -> format_record E ctx tag st root = Next st.
Proof.
  destruct root as [| | | | | | elts | | |]; try reflexivity.
  destruct elts as [| a [| b [| c l]]]; try reflexivity. discriminate.
Qed.

Lemma format_records_skip_all st data :
  Forall (fun root => two_entries root = false) data ->
  format_records E ctx tag st data = Next st.
Proof.
  induction 1 as [| r l Hr Hl IH]; [reflexivity |].
  cbn [format_records]. rewrite (format_record_skips st r Hr). exact IH.
Qed.

Lemma two_entries_shape root :
  two_entries root = true -> exists t map, root = MSGPACK_OBJECT_ARRAY [t; map].
Proof.
  destruct root as [| | | | | | elts | | |]; try discriminate.
  destruct elts as [| a [| b [| c l]]]; try discriminate. intros _. now exists a, b.
Qed.

(** What the preamble leaves alone: the bulk buffer. *)
Lemma preamble_bulk entry bulk0 st :
  preamble E ctx entry bulk0 = Next st -> bulk st = bulk0.
Proof.
  unfold preamble. intros H.
  apply bind_next in H. destruct H as [idx0 [_ H]].
  apply bind_next in H. destruct H as [[[[t j] l] reads] [_ H]].
  injection H as <-. reflexivity.
Qed.

Lemma preamble_no_error entry bulk0 z :
  preamble E ctx entry bulk0 <> Return_error z.
Proof.
  unfold preamble, pregenerate, index_line, index_line_id, expand_id_format.
  intros H. apply bind_error in H. destruct H as [H | [idx0 [_ H]]].
  - destruct (logstash_format ctx); [destruct (_ <? _) |]; discriminate.
  - apply bind_error in H. destruct H as [H | [[[[t j] l] reads] [_ H]]]; [| discriminate].
    destruct (negb (logstash_format ctx) && negb (generate_id ctx)); [| discriminate].
    apply bind_error in H. destruct H as [H | [r [_ H]]]; [| discriminate].
    destruct (strftime_max _ _ _ _) as [es_index |]; [| discriminate].
    assert (Hset : forall size full z', set_j_index E size full <> Return_error z').
    { intros size full z'. unfold set_j_index. destruct (_ && _); intros Hx; discriminate. }
    assert (Hcat : forall a s z', id_cat a s <> Return_error z').
    { intros a s z'. unfold id_cat. destruct (_ <? _); intros Hx; discriminate. }
    assert (Hfields : forall mem key z', id_format_fields mem key <> Return_error z').
    { intros mem key. induction mem as [| [k0 v0] rest IH]; intros z'; [intros Hx; discriminate |].
      cbn [id_format_fields]. destruct (is_type T_NIL k0); [intros Hx; discriminate |].
      destruct rest as [| [k1 v1] rest']; [intros Hx; discriminate |].
      intros Hb. apply bind_error in Hb. destruct Hb as [Hb | [a [_ Hb]]];
        [now apply (IH z') | discriminate]. }
    assert (Hloop : forall rounds mem p acc z',
               id_format_loop rounds mem p acc <> Return_error z').
    { induction rounds as [| n IH]; intros mem p acc z'; [intros Hx; discriminate |].
      cbn [id_format_loop]. destruct (strstr p (B "$[")) as [i |]; [| apply Hcat].
      intros Hb. apply bind_error in Hb. destruct Hb as [Hb | [a [_ Hb]]];
        [now apply Hcat in Hb |].
      destruct (strstr (skipn i p) (B "]")) as [j' |]; [| discriminate].
      destruct (sizeof_key <=? j' - 2); [discriminate |].
      apply bind_error in Hb. destruct Hb as [Hb | [vals [_ Hb]]];
        [now apply Hfields in Hb |].
      apply bind_error in Hb. destruct Hb as [Hb | [acc' [_ Hb]]];
        [now apply Hcat in Hb | now apply IH in Hb]. }
    destruct (id_format ctx) as [id_fmt |].
    + destruct (flb_malloc E sizeof_p_id_format); [| discriminate].
      apply bind_error in H. destruct H as [H | [p [_ H]]]; [now apply Hloop in H |].
      apply bind_error in H. destruct H as [H | [j [_ H]]]; [| discriminate].
      destruct (suppress_type_name ctx); now apply Hset in H.
    + apply bind_error in H. destruct H as [H | [j [_ H]]]; [| discriminate].
      destruct (suppress_type_name ctx); now apply Hset in H.
Qed.

(** The preamble runs through in each of these configurations. *)
Lemma preamble_defined entry bulk0 :
  (logstash_format ctx = true /\ length (logstash_prefix ctx) < 256)
  \/ (logstash_format ctx = false /\ generate_id ctx = true)
  \/ (logstash_format ctx = false /\ generate_id ctx = false
      /\ id_format ctx = None
      /\ length (strftime E (index ctx)
                          (gmtime_r E (tv_sec (flb_time_get E 0)))) < 255) ->
  exists st0, preamble E ctx entry bulk0 = Next st0.
Proof.
  unfold preamble. intros [[Hlog Hfit] | [[Hlog Hgen] | [Hlog [Hgen [Hid Hfit]]]]].
  - rewrite Hlog. apply Nat.ltb_lt in Hfit. unfold sizeof_logstash_index.
    rewrite Hfit. cbn [bind negb andb]. eexists. reflexivity.
  - rewrite Hlog, Hgen. cbn [bind negb andb]. eexists. reflexivity.
  - rewrite Hlog, Hgen. cbn [bind negb andb]. unfold pregenerate, strftime_max.
    apply Nat.ltb_lt in Hfit. unfold sizeof_index_formatted.
    change (256 - 1) with 255. rewrite Hfit, Hid.
    unfold index_line, set_j_index. rewrite Nat.ltb_irrefl. cbn [andb].
    destruct (suppress_type_name ctx); cbn [bind]; eexists; reflexivity.
Qed.

(** C10, amended. For a batch whose first object is an array that is not
    empty, and in which every object is malformed (not an array, or an
    array whose size is not 2): when the bulk buffer cannot be created
    the formatter returns -1; when it is created, the formatter never
    returns an error: it skips every object and returns success with a
    bulk buffer of length zero whenever what runs before the loop runs
    through, and has undefined behaviour when that has. What runs before
    the loop runs through with the logstash format when the prefix fits
    its array; without it, with id generation, always; and with neither,
    when no id format is set and the index pattern, formatted, fits its
    array. *)
Theorem all_malformed_batch_is_an_empty_success
        (entry : entry_values) (elts : list msgpack_object)
        (rest : list msgpack_object) :
  elts <> [] ->
  Forall (fun root => two_entries root = false)
         (MSGPACK_OBJECT_ARRAY elts :: rest) ->
  (es_bulk_room E 0 = false ->
   elasticsearch_format E ctx tag entry (MSGPACK_OBJECT_ARRAY elts :: rest)
   = Format_error false)
  /\ (es_bulk_room E 0 = true ->
      (forall st0, preamble E ctx entry {| bulk_ptr := [] |} = Next st0 ->
                   elasticsearch_format E ctx tag entry
                                        (MSGPACK_OBJECT_ARRAY elts :: rest)
                   = Format_ok [] 0)
      /\ (preamble E ctx entry {| bulk_ptr := [] |} = Undefined ->
          elasticsearch_format E ctx tag entry
                               (MSGPACK_OBJECT_ARRAY elts :: rest)
          = Format_undefined)
      /\ (forall z, elasticsearch_format E ctx tag entry
                                         (MSGPACK_OBJECT_ARRAY elts :: rest)
                    <> Format_error z)
      /\ ((logstash_format ctx = true /\ length (logstash_prefix ctx) < 256)
          \/ (logstash_format ctx = false /\ generate_id ctx = true)
          \/ (logstash_format ctx = false /\ generate_id ctx = false
              /\ id_format ctx = None
              /\ length (strftime E (index ctx)
                                  (gmtime_r E (tv_sec (flb_time_get E 0))))
                 < 255) ->
          elasticsearch_format E ctx tag entry
                               (MSGPACK_OBJECT_ARRAY elts :: rest)
          = Format_ok [] 0)).
Proof.
  intros Hne Hall.
  assert (Hlen : (length elts =? 0) = false)
    by (destruct elts; [now elim Hne | reflexivity]).
  split.
  - intros Hroom. unfold elasticsearch_format, es_bulk_create.
    now rewrite Hlen, Hroom.
  - intros Hroom.
    assert (Hrun : forall st0,
               preamble E ctx entry {| bulk_ptr := [] |} = Next st0 ->
               elasticsearch_format E ctx tag entry
                                    (MSGPACK_OBJECT_ARRAY elts :: rest)
               = Format_ok [] 0).
    { intros st0 Hpre. unfold elasticsearch_format, es_bulk_create.
      rewrite Hlen, Hroom, Hpre. cbn [bind].
      rewrite (format_records_skip_all st0 Hall).
      now rewrite (preamble_bulk _ _ Hpre). }
    split; [exact Hrun | split; [| split]].
    + intros Hpre. unfold elasticsearch_format, es_bulk_create.
      now rewrite Hlen, Hroom, Hpre.
    + intros z. unfold elasticsearch_format, es_bulk_create. rewrite Hlen, Hroom.
      destruct (preamble E ctx entry {| bulk_ptr := [] |}) as [st0 | z' |] eqn:Hpre.
      * cbn [bind]. rewrite (format_records_skip_all st0 Hall). discriminate.
      * now apply preamble_no_error in Hpre.
      * discriminate.
    + intros Hconf.
      destruct (@preamble_defined entry {| bulk_ptr := [] |} Hconf) as [st0 Hpre].
      now apply (Hrun st0).
Qed.

Lemma set_j_index_no_error size full z : set_j_index E size full <> Return_error z.
Proof. unfold set_j_index. destruct (_ && _); intros H; discriminate. Qed.

Lemma index_line_no_error es_index z : index_line E ctx es_index <> Return_error z.
Proof. unfold index_line. destruct (suppress_type_name ctx); apply set_j_index_no_error. Qed.

Lemma index_line_id_no_error size es_index id z :
  index_line_id E ctx size es_index id <> Return_error z.
Proof. unfold index_line_id. destruct (suppress_type_name ctx); apply set_j_index_no_error. Qed.

Lemma record_action_no_error pro buf z : record_action E ctx pro buf <> Return_error z.
Proof.
  unfold record_action. destruct (generate_id ctx);
    [apply index_line_id_no_error | intros H; discriminate].
Qed.

Lemma j_index_bytes_no_error j len z : j_index_bytes E j len <> Return_error z.
Proof. unfold j_index_bytes. destruct (_ && _); intros H; discriminate. Qed.

Lemma time_value_no_error t z : time_value E ctx t <> Return_error z.
Proof.
  unfold time_value. destruct (snprintf _ _) as [written len].
  destruct (_ <=? _); intros H; discriminate.
Qed.

Lemma logstash_name_no_error idx n t z :
  logstash_name E ctx idx n t <> Return_error z.
Proof. unfold logstash_name. destruct (_ <? _); intros H; discriminate. Qed.

Lemma record_prologue_no_error st root map z :
  record_prologue E ctx tag st root map <> Return_error z.
Proof.
  unfold record_prologue. destruct (lookup_prefix E ctx tag (logstash_index st) map) as [idx1 n].
  intros H. apply bind_error in H. destruct H as [H | [tf [_ H]]].
  - now apply time_value_no_error in H.
  - apply bind_error in H. destruct H as [H | [[[i e] j] [_ H]]]; [| discriminate].
    destruct (logstash_format ctx).
    + apply bind_error in H. destruct H as [H | [r [_ H]]].
      * now apply logstash_name_no_error in H.
      * destruct (generate_id ctx); [discriminate |].
        apply bind_error in H. destruct H as [H | [j' [_ H]]];
          [now apply index_line_no_error in H | discriminate].
    + destruct (current_time_index ctx); [| discriminate].
      destruct (strftime_max _ _ _ _); discriminate.
Qed.

(** A record either is skipped and changes nothing, or appends exactly its
    pair of lines to the bulk buffer. *)
Lemma format_record_next st root st' :
  format_record E ctx tag st root = Next st' ->
  (two_entries root = false /\ st' = st)
  \/ (two_entries root = true
      /\ exists action json,
          record_pair E ctx tag st root action json
          /\ bulk_ptr (bulk st') = bulk_ptr (bulk st) ++ line_pair (action, json)).
Proof.
  intros H. destruct (two_entries root) eqn:Htwo.
  - right. split; [reflexivity |].
    destruct (two_entries_shape root Htwo) as [t [map ->]].
    cbn [format_record] in H.
    destruct (is_type T_MAP map) eqn:Hmap; [| discriminate].
    apply bind_next in H. destruct H as [pro [Hpro H]].
    unfold record_epilogue in H.
    destruct (es_pack_map_content (flb_malloc E) ctx (p_pck pro) map) as [ret tmp_sbuf] eqn:Hsan.
    destruct (ret =? -1)%Z eqn:Hret; [discriminate |].
    apply bind_next in H. destruct H as [j [Hj H]].
    destruct (flb_msgpack_raw_to_json_sds E tmp_sbuf) as [json |] eqn:Hjson; [| discriminate].
    apply bind_next in H. destruct H as [action [Hact H]].
    unfold es_bulk_append in H. destruct (es_bulk_room E _); [| discriminate].
    injection H as <-. exists action, json. split; [| reflexivity].
    exists t, map, pro, ret, tmp_sbuf, j.
    repeat split; try assumption. now apply Z.eqb_neq.
  - left. split; [reflexivity |].
    rewrite (format_record_skips st root Htwo) in H. now injection H.
Qed.

Lemma format_record_error st root z :
  format_record E ctx tag st root = Return_error z
  <-> record_fails E ctx tag st root z.
Proof.
  split.
  - intros H. destruct (two_entries root) eqn:Htwo;
      [| rewrite (format_record_skips st root Htwo) in H; discriminate].
    destruct (two_entries_shape root Htwo) as [t [map ->]].
    cbn [format_record] in H.
    destruct (is_type T_MAP map) eqn:Hmap; [| discriminate].
    apply bind_error in H. destruct H as [H | [pro [Hpro H]]];
      [now apply record_prologue_no_error in H |].
    unfold record_epilogue in H.
    destruct (es_pack_map_content (flb_malloc E) ctx (p_pck pro) map) as [ret tmp_sbuf] eqn:Hsan.
    exists t, map, pro, ret, tmp_sbuf. repeat split; try assumption.
    destruct (ret =? -1)%Z eqn:Hret.
    + left. apply Z.eqb_eq in Hret. now injection H as <-.
    + right. apply Z.eqb_neq in Hret. split; [exact Hret |].
      apply bind_error in H. destruct H as [H | [j [Hj H]]];
        [now apply record_action_no_error in H |].
      exists j. split; [exact Hj |].
      destruct (flb_msgpack_raw_to_json_sds E tmp_sbuf) as [json |] eqn:Hjson.
      * right. apply bind_error in H. destruct H as [H | [action [Hact H]]];
          [now apply j_index_bytes_no_error in H |].
        destruct (es_bulk_append E (bulk st) action json) eqn:Happ; [discriminate |].
        exists json, action. now injection H as <-.
      * left. now injection H as <-.
  - intros [t [map [pro [ret [tmp_sbuf [-> [Hmap [Hpro [Hsan Hcause]]]]]]]]].
    cbn [format_record]. rewrite Hmap, Hpro. cbn [bind].
    unfold record_epilogue. rewrite Hsan.
    destruct Hcause as [[-> ->] | [Hret [j [Hj Hcause]]]]; [reflexivity |].
    apply Z.eqb_neq in Hret. rewrite Hret, Hj. cbn [bind].
    destruct Hcause as [[-> ->] | [json [action [Hjson [Hact [Happ ->]]]]]];
      [reflexivity |].
    rewrite Hjson, Hact. cbn [bind]. now rewrite Happ.
Qed.

(** The loop appends one pair of lines for each record of two entries, in
    order, and nothing else. *)
Lemma format_records_pairs st data st' :
  format_records E ctx tag st data = Next st' ->
  exists pairs,
    Forall2 (fun root p => exists st1, record_pair E ctx tag st1 root (fst p) (snd p))
            (filter two_entries data) pairs
    /\ bulk_ptr (bulk st') = bulk_ptr (bulk st) ++ flat_map line_pair pairs.
Proof.
  revert st. induction data as [| root rest IH]; intros st H.
  - injection H as <-. exists []. split; [constructor | now rewrite app_nil_r].
  - cbn [format_records] in H. apply bind_next in H. destruct H as [st1 [Hrec H]].
    destruct (IH st1 H) as [pairs [Hall Hbulk]].
    apply format_record_next in Hrec.
    destruct Hrec as [[Htwo ->] | [Htwo [action [json [Hpair Hb]]]]].
    + exists pairs. cbn [filter]. rewrite Htwo. now split.
    + exists ((action, json) :: pairs). cbn [filter]. rewrite Htwo. split.
      * constructor; [now exists st | exact Hall].
      * rewrite Hbulk, Hb. cbn [flat_map]. now rewrite <- app_assoc.
Qed.

(** The same, with the state the record leaves. *)
Lemma format_record_next_state st root st' :
  format_record E ctx tag st root = Next st' ->
  two_entries root = true ->
  exists t map pro ret tmp_sbuf j action json,
    root = MSGPACK_OBJECT_ARRAY [t; map]
    /\ is_type T_MAP map = true
    /\ record_prologue E ctx tag st root map = Next pro
    /\ es_pack_map_content (flb_malloc E) ctx (p_pck pro) map = (ret, tmp_sbuf)
    /\ ret <> (-1)%Z
    /\ record_action E ctx pro tmp_sbuf = Next j
    /\ flb_msgpack_raw_to_json_sds E tmp_sbuf = Some json
    /\ j_index_bytes E (fst j) (snd j) = Next action
    /\ st' = state_after pro j
                         {| bulk_ptr := bulk_ptr (bulk st) ++ line_pair (action, json) |}.
Proof.
  intros H Htwo.
  destruct (two_entries_shape root Htwo) as [t [map ->]].
  cbn [format_record] in H.
  destruct (is_type T_MAP map) eqn:Hmap; [| discriminate].
  apply bind_next in H. destruct H as [pro [Hpro H]].
  unfold record_epilogue in H.
  destruct (es_pack_map_content (flb_malloc E) ctx (p_pck pro) map) as [ret tmp_sbuf] eqn:Hsan.
  destruct (ret =? -1)%Z eqn:Hret; [discriminate |].
  apply bind_next in H. destruct H as [j [Hj H]].
  destruct (flb_msgpack_raw_to_json_sds E tmp_sbuf) as [json |] eqn:Hjson; [| discriminate].
  apply bind_next in H. destruct H as [action [Hact H]].
  unfold es_bulk_append in H. destruct (es_bulk_room E _); [| discriminate].
  injection H as <-. exists t, map, pro, ret, tmp_sbuf, j, action, json.
  repeat split; try assumption. now apply Z.eqb_neq.
Qed.

(** A property of the loop state that the preamble establishes and every
    iteration keeps holds in the state in which each record is formatted. *)
Lemma format_records_invariant (Inv : loop_state -> Prop) :
  (forall st root st',
      Inv st -> format_record E ctx tag st root = Next st' -> Inv st') ->
  forall st data st',
    Inv st ->
    format_records E ctx tag st data = Next st' ->
    exists pairs,
      Forall2 (fun root p =>
                 exists st1, Inv st1
                             /\ record_pair E ctx tag st1 root (fst p) (snd p))
              (filter two_entries data) pairs
      /\ bulk_ptr (bulk st') = bulk_ptr (bulk st) ++ flat_map line_pair pairs.
Proof.
  intros Hkeep st data. revert st.
  induction data as [| root rest IH]; intros st st' Hinv H.
  - injection H as <-. exists []. split; [constructor | now rewrite app_nil_r].
  - cbn [format_records] in H. apply bind_next in H. destruct H as [st1 [Hrec H]].
    destruct (IH st1 st' (Hkeep _ _ _ Hinv Hrec) H) as [pairs [Hall Hbulk]].
    apply format_record_next in Hrec.
    destruct Hrec as [[Htwo ->] | [Htwo [action [json [Hpair Hb]]]]].
    + exists pairs. cbn [filter]. rewrite Htwo. now split.
    + exists ((action, json) :: pairs). cbn [filter]. rewrite Htwo. split.
      * constructor; [now exists st | exact Hall].
      * rewrite Hbulk, Hb. cbn [flat_map]. now rewrite <- app_assoc.
Qed.

Lemma elasticsearch_format_invariant (Inv : loop_state -> Prop) entry :
  (forall bulk0 st0, preamble E ctx entry bulk0 = Next st0 -> Inv st0) ->
  (forall st root st',
      Inv st -> format_record E ctx tag st root = Next st' -> Inv st') ->
  forall data out_data out_size,
    elasticsearch_format E ctx tag entry data = Format_ok out_data out_size ->
    exists pairs,
      Forall2 (fun root p =>
                 exists st1, Inv st1
                             /\ record_pair E ctx tag st1 root (fst p) (snd p))
              (filter two_entries data) pairs
      /\ out_data = flat_map line_pair pairs.
Proof.
  intros Hpre Hkeep data out_data out_size H. unfold elasticsearch_format in H.
  destruct data as [| first data']; [discriminate |].
  destruct first; try discriminate.
  destruct (length elts =? 0); [discriminate |].
  destruct (es_bulk_create E) as [bulk0 |] eqn:Hcreate; [| discriminate].
  destruct (preamble E ctx entry bulk0) as [st0 | |] eqn:Hp; try discriminate.
  cbn [bind] in H.
  destruct (format_records E ctx tag st0 (MSGPACK_OBJECT_ARRAY elts :: data'))
    as [st | |] eqn:Hrun; try discriminate.
  injection H as <- <-.
  destruct (@format_records_invariant Inv Hkeep _ _ _ (Hpre _ _ Hp) Hrun)
    as [pairs [Hall Hb]].
  exists pairs. split; [exact Hall |].
  rewrite Hb, (preamble_bulk _ _ Hp).
  unfold es_bulk_create in Hcreate. destruct (es_bulk_room E 0); [| discriminate].
  now injection Hcreate as <-.
Qed.

(** An iteration that runs through is an iteration that gives its pair
    of lines. *)
Lemma format_record_lines st root st' :
  two_entries root = true ->
  format_record E ctx tag st root = Next st'
  <-> exists action json, record_lines E ctx tag st root action json st'.
Proof.
  intros Htwo. split.
  - intros H.
    destruct (format_record_next_state st root H Htwo)
      as [t [map [pro [ret [buf [j [action [json
           [-> [Hmap [Hpro [Hsan [Hret [Hj [Hjson [Hact ->]]]]]]]]]]]]]]]].
    exists action, json, t, map, pro, ret, buf, j.
    exists {| bulk_ptr := bulk_ptr (bulk st) ++ line_pair (action, json) |}.
    repeat split; try assumption.
    cbn [format_record] in H. rewrite Hmap, Hpro in H. cbn [bind] in H.
    unfold record_epilogue in H. rewrite Hsan in H.
    apply Z.eqb_neq in Hret. rewrite Hret, Hj in H. cbn [bind] in H.
    rewrite Hjson, Hact in H. cbn [bind] in H.
    unfold es_bulk_append in *.
    destruct (es_bulk_room E _); [| discriminate H].
    unfold line_pair. cbn [fst snd]. reflexivity.
  - intros [action [json [t [map [pro [ret [buf [j [bulk'
      [-> [Hmap [Hpro [Hsan [Hret [Hj [Hjson [Hact [Happ ->]]]]]]]]]]]]]]]]]].
    cbn [format_record]. rewrite Hmap, Hpro. cbn [bind].
    unfold record_epilogue. rewrite Hsan.
    apply Z.eqb_neq in Hret. rewrite Hret, Hj. cbn [bind].
    rewrite Hjson, Hact. cbn [bind]. rewrite Happ. reflexivity.
Qed.

Lemma record_lines_two_entries st root action json st' :
  record_lines E ctx tag st root action json st' -> two_entries root = true.
Proof. intros [t [map [pro [ret [buf [j [bulk' [-> _]]]]]]]]. reflexivity. Qed.

(** What an iteration that gives its lines does to the bulk buffer. *)
Lemma record_lines_bulk st root action json st' :
  record_lines E ctx tag st root action json st' ->
  bulk_ptr (bulk st') = bulk_ptr (bulk st) ++ line_pair (action, json).
Proof.
  intros [t [map [pro [ret [buf [j [bulk'
    [_ [_ [_ [_ [_ [_ [_ [_ [Happ ->]]]]]]]]]]]]]]]].
  unfold es_bulk_append in Happ.
  destruct (es_bulk_room E _); [| discriminate Happ].
  injection Happ as <-. reflexivity.
Qed.

(** The loop runs through exactly when its records give their lines one
    after the other. *)
Lemma format_records_give st data st' :
  format_records E ctx tag st data = Next st'
  <-> exists pairs, records_give E ctx tag st data pairs st'.
Proof.
  split.
  - revert st. induction data as [| root rest IH]; intros st H.
    + injection H as <-. exists []. constructor.
    + cbn [format_records] in H. apply bind_next in H.
      destruct H as [st1 [Hrec H]].
      destruct (IH st1 H) as [pairs Hrest].
      destruct (two_entries root) eqn:Htwo.
      * apply (format_record_lines st root st1 Htwo) in Hrec.
        destruct Hrec as [action [json Hlines]].
        exists ((action, json) :: pairs).
        now apply give_pair with st1.
      * rewrite (format_record_skips st root Htwo) in Hrec.
        injection Hrec as <-. exists pairs. now apply give_skip.
  - intros [pairs H].
    induction H as [st | st root rest pairs st' Htwo _ IH
                    | st root rest action json st1 pairs st' Hlines _ IH].
    + reflexivity.
    + cbn [format_records]. now rewrite (format_record_skips st root Htwo).
    + cbn [format_records].
      assert (Hrec : format_record E ctx tag st root = Next st1).
      { apply format_record_lines;
          [exact (record_lines_two_entries Hlines) | now exists action, json]. }
      now rewrite Hrec.
Qed.

(** The bulk buffer after the loop: one pair of lines for each record of
    two entries. *)
Lemma records_give_bulk st data pairs st' :
  records_give E ctx tag st data pairs st' ->
  bulk_ptr (bulk st') = bulk_ptr (bulk st) ++ flat_map line_pair pairs
  /\ length pairs = length (filter two_entries data).
Proof.
  induction 1 as [st | st root rest pairs st' Htwo _ [IHb IHl]
                  | st root rest action json st1 pairs st' Hlines _ [IHb IHl]].
  - split; [now rewrite app_nil_r | reflexivity].
  - cbn [filter]. rewrite Htwo. now split.
  - cbn [filter]. rewrite (record_lines_two_entries Hlines).
    cbn [length flat_map]. split; [| now rewrite IHl].
    rewrite IHb, (record_lines_bulk Hlines). now rewrite <- app_assoc.
Qed.

Lemma starts_with_an_array_spec data :
  starts_with_an_array data = true
  <-> exists e elts rest, data = MSGPACK_OBJECT_ARRAY (e :: elts) :: rest.
Proof.
  split.
  - destruct data as [| first rest]; [discriminate |].
    destruct first as [| | | | | | elts | | |]; try discriminate.
    destruct elts as [| e elts]; [discriminate |].
    intros _. now exists e, elts, rest.
  - intros [e [elts [rest ->]]]. reflexivity.
Qed.

Lemma elasticsearch_format_starts data entry :
  starts_with_an_array data = false ->
  elasticsearch_format E ctx tag entry data = Format_error false.
Proof.
  destruct data as [| first rest]; [reflexivity |].
  destruct first as [| | | | | | elts | | |]; try reflexivity.
  destruct elts as [| e elts]; [reflexivity | discriminate].
Qed.

Lemma elasticsearch_format_runs data entry :
  starts_with_an_array data = true ->
  elasticsearch_format E ctx tag entry data
  = match es_bulk_create E with
    | None => Format_error false
    | Some bulk0 =>
        match (st0 <- preamble E ctx entry bulk0 ;;
               format_records E ctx tag st0 data) with
        | Next st => Format_ok (bulk_ptr (bulk st)) (bulk_len (bulk st))
        | Return_error z => Format_error z
        | Undefined => Format_undefined
        end
    end.
Proof.
  intros H. apply starts_with_an_array_spec in H.
  destruct H as [e [elts [rest ->]]]. reflexivity.
Qed.

Lemma es_bulk_create_empty bulk0 :
  es_bulk_create E = Some bulk0 -> bulk_ptr bulk0 = [].
Proof.
  unfold es_bulk_create. destruct (es_bulk_room E 0); [| discriminate].
  now intros [= <-].
Qed.

(** The first record of the loop that fails, with the lines of those
    before it. *)
Lemma format_records_error st data z :
  format_records E ctx tag st data = Return_error z ->
  exists before pairs st1 root after,
    data = before ++ root :: after
    /\ records_give E ctx tag st before pairs st1
    /\ record_fails E ctx tag st1 root z.
Proof.
  revert st. induction data as [| root rest IH]; intros st H; [discriminate |].
  cbn [format_records] in H. apply bind_error in H.
  destruct H as [H | [st1 [Hrec H]]].
  - exists [], [], st, root, rest. split; [reflexivity |].
    split; [constructor | now apply format_record_error].
  - destruct (IH st1 H) as [before [pairs [st2 [r [after [-> [Hgive Hfail]]]]]]].
    destruct (two_entries root) eqn:Htwo.
    + apply (format_record_lines st root st1 Htwo) in Hrec.
      destruct Hrec as [action [json Hlines]].
      exists (root :: before), ((action, json) :: pairs), st2, r, after.
      split; [reflexivity |]. split; [now apply give_pair with st1 | exact Hfail].
    + rewrite (format_record_skips st root Htwo) in Hrec. injection Hrec as <-.
      exists (root :: before), pairs, st2, r, after.
      split; [reflexivity |]. split; [now apply give_skip | exact Hfail].
Qed.

(** A return of 0: what has run, and what is handed over. *)
Lemma elasticsearch_format_ok entry data out_data out_size :
  elasticsearch_format E ctx tag entry data = Format_ok out_data out_size ->
  exists bulk0 st0 pairs st,
    starts_with_an_array data = true
    /\ es_bulk_create E = Some bulk0
    /\ preamble E ctx entry bulk0 = Next st0
    /\ records_give E ctx tag st0 data pairs st
    /\ out_data = flat_map line_pair pairs
    /\ out_size = length out_data
    /\ length pairs = length (filter two_entries data).
Proof.
  intros H.
  destruct (starts_with_an_array data) eqn:Hstart;
    [| rewrite (elasticsearch_format_starts _ entry Hstart) in H; discriminate].
  rewrite (elasticsearch_format_runs _ entry Hstart) in H.
  destruct (es_bulk_create E) as [bulk0 |] eqn:Hbulk; [| discriminate].
  destruct (preamble E ctx entry bulk0) as [st0 | |] eqn:Hpre; try discriminate.
  cbn [bind] in H.
  destruct (format_records E ctx tag st0 data) as [st | |] eqn:Hrun;
    try discriminate.
  injection H as <- <-.
  apply format_records_give in Hrun. destruct Hrun as [pairs Hgive].
  destruct (records_give_bulk Hgive) as [Hb Hl].
  exists bulk0, st0, pairs, st. repeat split; try assumption.
  rewrite Hb, (preamble_bulk _ _ Hpre), (es_bulk_create_empty Hbulk).
  reflexivity.
Qed.


End FormatterFacts.

(* ------------------------------------------------------------------ *)
(** ** Document ids *)
(* ------------------------------------------------------------------ *)

Section IdFacts.

Variable E : platform.
Variable ctx : flb_elasticsearch.
Variable tag : bytes.

Lemma hash_word_16_bits hash i : (hash_word hash i < 65536)%N.
Proof. unfold hash_word. now apply N.mod_lt. Qed.

Lemma uuid_format_shape (hash : list N) :
  exists a b c d e,
    uuid_format hash = a ++ B "-" ++ b ++ B "-" ++ c ++ B "-" ++ d ++ B "-" ++ e
    /\ length a = 8 /\ length b = 4 /\ length c = 4 /\ length d = 4
    /\ length e = 12
    /\ Forall is_hex (a ++ b ++ c ++ d ++ e).
Proof.
  pose proof (fun i => printf_04x (hash_word_16_bits hash i)) as Hx.
  exists (printf_0 4 16 (hash_word hash 0) ++ printf_0 4 16 (hash_word hash 1)),
         (printf_0 4 16 (hash_word hash 2)),
         (printf_0 4 16 (hash_word hash 3)),
         (printf_0 4 16 (hash_word hash 4)),
         (printf_0 4 16 (hash_word hash 5) ++ printf_0 4 16 (hash_word hash 6)
          ++ printf_0 4 16 (hash_word hash 7)).
  split; [unfold uuid_format; now rewrite <- !app_assoc |].
  rewrite !length_app.
  destruct (Hx 0) as [L0 F0], (Hx 1) as [L1 F1], (Hx 2) as [L2 F2],
    (Hx 3) as [L3 F3], (Hx 4) as [L4 F4], (Hx 5) as [L5 F5],
    (Hx 6) as [L6 F6], (Hx 7) as [L7 F7].
  rewrite L0, L1, L2, L3, L4, L5, L6, L7.
  repeat (split; [reflexivity |]).
  rewrite !Forall_app. repeat split; assumption.
Qed.

Lemma uuid_format_length (hash : list N) : length (uuid_format hash) = 36.
Proof.
  destruct (uuid_format_shape hash) as [a [b [c [d [e [-> [La [Lb [Lc [Ld [Le _]]]]]]]]]]].
  rewrite !length_app, La, Lb, Lc, Ld, Le. reflexivity.
Qed.

Lemma es_uuid_of_format (buf : msgpack_sbuffer) :
  es_uuid_of E buf = uuid_format (MurmurHash3_x64_128 E buf 42).
Proof.
  unfold es_uuid_of, snprintf, sizeof_es_uuid. cbn [fst].
  apply firstn_all2. rewrite uuid_format_length. lia.
Qed.

Lemma index_line_is_action_line es_index :
  index_line E ctx es_index
  = set_j_index E (ES_BULK_HEADER E) (action_line ctx es_index None).
Proof. unfold index_line, action_line. now destruct (suppress_type_name ctx). Qed.

Lemma index_line_id_is_action_line size es_index id :
  exists size',
    index_line_id E ctx size es_index id
    = set_j_index E size' (action_line ctx es_index (Some id))
    /\ (size' = size \/ size' = ES_BULK_HEADER E).
Proof.
  unfold index_line_id, action_line. destruct (suppress_type_name ctx);
    [exists size | exists (ES_BULK_HEADER E)]; split; auto.
Qed.

(** An action line that fits [j_index] reaches the bulk buffer whole. *)
Lemma action_bytes_fits size line :
  length line < ES_BULK_HEADER E -> length line < size ->
  action_bytes E size line = Next line.
Proof.
  intros Hfit Hsize. unfold action_bytes, set_j_index.
  assert (Hle : (ES_BULK_HEADER E <=? length line) = false) by (apply Nat.leb_gt; lia).
  rewrite Hle, andb_false_r. cbn [bind]. unfold snprintf, j_index_bytes. cbn [fst snd].
  rewrite (firstn_all2 (n := size - 1)) by lia.
  assert (Hle' : (length line <=? ES_BULK_HEADER E) = true) by (apply Nat.leb_le; lia).
  assert (Hle2 : (length line <=? length line + 1) = true) by (apply Nat.leb_le; lia).
  rewrite Hle', Hle2. cbn [andb]. f_equal.
  rewrite firstn_app, firstn_all, Nat.sub_diag. cbn [firstn]. apply app_nil_r.
Qed.

Lemma strftime_max_some max format t s :
  strftime_max E max format t = Some s -> s = strftime E format t.
Proof.
  unfold strftime_max. destruct (_ <? _); [now intros [= <-] | discriminate].
Qed.

Lemma index_line_id_header es_index id :
  index_line_id E ctx (ES_BULK_HEADER E) es_index id
  = set_j_index E (ES_BULK_HEADER E) (action_line ctx es_index (Some id)).
Proof. unfold index_line_id, action_line. now destruct (suppress_type_name ctx). Qed.

Lemma four_bytes (s : bytes) :
  length s = 4 -> exists a b c d, s = [a; b; c; d].
Proof.
  destruct s as [| a [| b [| c [| d [| e s]]]]]; try discriminate.
  intros _. now exists a, b, c, d.
Qed.

(** Read back, the word [i] of the id string is the word [i] of the
    hash. *)
Lemma uuid_format_words (hash : list N) (i : nat) :
  i < 8 -> uuid_word (uuid_format hash) i = hash_word hash i.
Proof.
  intros Hi.
  assert (Hx : forall k, exists a b c d,
               printf_0 4 16 (hash_word hash k) = [a; b; c; d]
               /\ hex_value [a; b; c; d] = hash_word hash k).
  { intros k. destruct (printf_04x (hash_word_16_bits hash k)) as [L _].
    destruct (four_bytes _ L) as [a [b [c [d Heq]]]].
    exists a, b, c, d. split; [exact Heq |].
    rewrite <- Heq. apply printf_04x_value. apply hash_word_16_bits. }
  destruct (Hx 0) as [a0 [b0 [c0 [d0 [E0 V0]]]]].
  destruct (Hx 1) as [a1 [b1 [c1 [d1 [E1 V1]]]]].
  destruct (Hx 2) as [a2 [b2 [c2 [d2 [E2 V2]]]]].
  destruct (Hx 3) as [a3 [b3 [c3 [d3 [E3 V3]]]]].
  destruct (Hx 4) as [a4 [b4 [c4 [d4 [E4 V4]]]]].
  destruct (Hx 5) as [a5 [b5 [c5 [d5 [E5 V5]]]]].
  destruct (Hx 6) as [a6 [b6 [c6 [d6 [E6 V6]]]]].
  destruct (Hx 7) as [a7 [b7 [c7 [d7 [E7 V7]]]]].
  unfold uuid_word. cbv beta zeta delta [uuid_format].
  rewrite E0, E1, E2, E3, E4, E5, E6, E7.
  destruct i as [| [| [| [| [| [| [| [| i]]]]]]]]; try assumption. lia.
Qed.

(** Two hashes give the same id string exactly when their eight words
    are the same. *)
Lemma uuid_format_injective (h1 h2 : list N) :
  uuid_format h1 = uuid_format h2
  <-> forall i, i < 8 -> hash_word h1 i = hash_word h2 i.
Proof.
  split.
  - intros H i Hi.
    rewrite <- (uuid_format_words h1 Hi), <- (uuid_format_words h2 Hi).
    now rewrite H.
  - intros H. unfold uuid_format.
    rewrite (H 0), (H 1), (H 2), (H 3), (H 4), (H 5), (H 6), (H 7) by lia.
    reflexivity.
Qed.

(** With id generation on, the action line of a record is made from the
    index name of its prologue and the id of its document buffer, the
    buffer whose JSON form is the document line. *)
Lemma record_lines_generated_id st root action json st' :
  generate_id ctx = true ->
  record_lines E ctx tag st root action json st' ->
  exists t map pro,
    root = MSGPACK_OBJECT_ARRAY [t; map]
    /\ record_prologue E ctx tag st root map = Next pro
    /\ let doc := snd (es_pack_map_content (flb_malloc E) ctx (p_pck pro) map) in
       flb_msgpack_raw_to_json_sds E doc = Some json
       /\ action_bytes E (ES_BULK_HEADER E)
                       (action_line ctx (p_es_index pro)
                                    (Some (es_uuid_of E doc)))
          = Next action.
Proof.
  intros Hgen [t [map [pro [ret [tmp_sbuf [j [bulk' [-> [Hmap [Hpro [Hsan [Hret
                 [Hj [Hjson [Hact _]]]]]]]]]]]]]]].
  exists t, map, pro. split; [reflexivity |]. split; [exact Hpro |].
  rewrite Hsan. cbn [snd]. split; [exact Hjson |].
  unfold record_action in Hj. rewrite Hgen, index_line_id_header in Hj.
  unfold action_bytes. rewrite Hj. exact Hact.
Qed.

(** The loop with id generation on: every pair of lines is a document
    line and an action line that carries the id of the document buffer
    the document line is made from. *)
Lemma records_give_generated_ids st data pairs st' :
  generate_id ctx = true ->
  records_give E ctx tag st data pairs st' ->
  Forall (fun p =>
            exists doc es_index,
              flb_msgpack_raw_to_json_sds E doc = Some (snd p)
              /\ action_bytes E (ES_BULK_HEADER E)
                   (action_line ctx es_index
                      (Some (uuid_format (MurmurHash3_x64_128 E doc 42))))
                 = Next (fst p))
         pairs.
Proof.
  intros Hgen Hgive.
  induction Hgive as [st | st r0 rest pairs st' Hskip Hgive IH
                      | st r0 rest action0 json0 st1 pairs st' Hlines Hgive IH];
    [constructor | exact IH |].
  constructor; [| exact IH].
  destruct (record_lines_generated_id Hgen Hlines)
    as [t [map [pro [_ [_ [Hjson Hact]]]]]].
  eexists. exists (p_es_index pro). cbn [fst snd].
  split; [exact Hjson |]. rewrite <- es_uuid_of_format. exact Hact.
Qed.

(** C8. With id generation on: (1) the action line of every record
    carries as its id the string made from the murmur hash (seed 42) of
    the document buffer of the record, the buffer that holds the
    sanitized, serialized document and that is also turned into the
    document line; (2) so it is for every pair of lines of the buffer the
    formatter hands over; (3) the id string is made of the eight 16-bit
    words of the hash, each printed as four hexadecimal digits that
    denote it, in the shape 8-4-4-4-12 with dashes between the groups,
    36 characters in all; (4) two document buffers get the same id
    exactly when the eight words of their hashes are the same, so
    byte-identical documents always get the same id. *)
Theorem hash_id_is_a_uuid_of_the_document :
  generate_id ctx = FLB_TRUE ->
  (forall st root action json st',
      record_lines E ctx tag st root action json st' ->
      exists t map pro,
        root = MSGPACK_OBJECT_ARRAY [t; map]
        /\ record_prologue E ctx tag st root map = Next pro
        /\ let doc := snd (es_pack_map_content (flb_malloc E) ctx
                                               (p_pck pro) map) in
           flb_msgpack_raw_to_json_sds E doc = Some json
           /\ action_bytes E (ES_BULK_HEADER E)
                           (action_line ctx (p_es_index pro)
                                        (Some (es_uuid_of E doc)))
              = Next action)
  /\ (forall entry data out_data out_size,
        elasticsearch_format E ctx tag entry data = Format_ok out_data out_size ->
        exists pairs,
          out_data = flat_map line_pair pairs
          /\ length pairs = length (filter two_entries data)
          /\ Forall (fun p =>
                       exists doc es_index,
                         flb_msgpack_raw_to_json_sds E doc = Some (snd p)
                         /\ action_bytes E (ES_BULK_HEADER E)
                              (action_line ctx es_index
                                 (Some (uuid_format
                                          (MurmurHash3_x64_128 E doc 42))))
                            = Next (fst p))
                    pairs)
  /\ (forall doc : msgpack_sbuffer,
        let hash := MurmurHash3_x64_128 E doc 42 in
        es_uuid_of E doc = uuid_format hash
        /\ (forall i, i < 8 -> uuid_word (es_uuid_of E doc) i = hash_word hash i)
        /\ length (es_uuid_of E doc) = 36
        /\ exists a b c d e,
            es_uuid_of E doc
            = a ++ B "-" ++ b ++ B "-" ++ c ++ B "-" ++ d ++ B "-" ++ e
            /\ length a = 8 /\ length b = 4 /\ length c = 4 /\ length d = 4
            /\ length e = 12
            /\ Forall is_hex (a ++ b ++ c ++ d ++ e))
  /\ (forall doc1 doc2 : msgpack_sbuffer,
        es_uuid_of E doc1 = es_uuid_of E doc2
        <-> forall i, i < 8 ->
                      hash_word (MurmurHash3_x64_128 E doc1 42) i
                      = hash_word (MurmurHash3_x64_128 E doc2 42) i).
Proof.
  intros Hgen. split; [| split; [| split]].
  - intros st root action json st'. now apply record_lines_generated_id.
  - intros entry data out_data out_size H.
    destruct (elasticsearch_format_ok E ctx tag entry data H)
      as [bulk0 [st0 [pairs [st [_ [_ [_ [Hgive [Hout [_ Hlen]]]]]]]]]].
    exists pairs. split; [exact Hout |]. split; [exact Hlen |].
    exact (records_give_generated_ids Hgen Hgive).
  - intros doc. cbv zeta. rewrite es_uuid_of_format. split; [reflexivity |].
    split; [intros i; apply uuid_format_words |].
    split; [apply uuid_format_length | apply uuid_format_shape].
  - intros doc1 doc2. rewrite !es_uuid_of_format. apply uuid_format_injective.
Qed.

End IdFacts.

(* ------------------------------------------------------------------ *)
(** ** Index names *)
(* ------------------------------------------------------------------ *)

Section IndexFacts.

Variable E : platform.
Variable ctx : flb_elasticsearch.
Variable tag : bytes.

(** What the prologue computes when the logstash format is off and the
    wall clock is used: the time is left alone, the index name is the
    index pattern formatted against it, the action line is left alone. *)
Lemma record_prologue_current_time st root map pro :
  logstash_format ctx = false -> current_time_index ctx = true ->
  record_prologue E ctx tag st root map = Next pro ->
  p_tms pro = tms st
  /\ p_es_index pro = strftime E (index ctx) (gmtime_r E (tv_sec (tms st)))
  /\ p_j_index pro = j_index st /\ p_index_len pro = index_len st.
Proof.
  intros Hlog Hcur H. unfold record_prologue, record_time in H.
  rewrite Hlog, Hcur in H.
  destruct (lookup_prefix E ctx tag (logstash_index st) map) as [idx1 n].
  apply bind_next in H. destruct H as [tf [_ H]].
  apply bind_next in H. destruct H as [[[i e] j] [Hnames H]].
  destruct (strftime_max E (sizeof_index_formatted - 1) (index ctx)
                         (gmtime_r E (tv_sec (tms st)))) as [s |] eqn:Hs;
    [| discriminate].
  injection Hnames as <- <- <-. injection H as <-. cbn.
  apply strftime_max_some in Hs. now subst s.
Qed.

Lemma preamble_current_time entry bulk0 st0 :
  logstash_format ctx = false -> current_time_index ctx = true ->
  preamble E ctx entry bulk0 = Next st0 -> current_time_invariant E ctx st0.
Proof.
  intros Hlog Hcur H. unfold preamble in H. rewrite Hlog, Hcur in H.
  cbn [bind negb andb] in H.
  destruct (generate_id ctx) eqn:Hgen; cbn [negb bind] in H.
  - injection H as <-. split; [intros _; reflexivity | intros Hf; congruence].
  - apply bind_next in H. destruct H as [[[[t j] l] reads] [Hpre H]].
    injection H as <-. split; [intros Hf; congruence | intros _]. cbn [j_index index_len].
    apply bind_next in Hpre. destruct Hpre as [[[t' j'] l'] [Hpre Heq]].
    injection Heq as -> -> -> _.
    unfold pregenerate in Hpre.
    destruct (strftime_max E (sizeof_index_formatted - 1) (index ctx)
                           (gmtime_r E (tv_sec (flb_time_get E 0))))
      as [es_index |] eqn:Hs; [| discriminate].
    apply strftime_max_some in Hs. fold (wall_clock_index E ctx) in Hs. subst es_index.
    destruct (id_format ctx) as [id_fmt |].
    + destruct (flb_malloc E sizeof_p_id_format); [| discriminate].
      apply bind_next in Hpre. destruct Hpre as [p_id [_ Hpre]].
      apply bind_next in Hpre. destruct Hpre as [[j0 l0] [Hj Hpre]].
      injection Hpre as _ <- <-.
      destruct (index_line_id_is_action_line E ctx (ES_BULK_CHUNK E)
                                             (wall_clock_index E ctx) p_id)
        as [size' [Heq _]].
      exists size', (Some p_id). now rewrite <- Heq.
    + apply bind_next in Hpre. destruct Hpre as [[j0 l0] [Hj Hpre]].
      injection Hpre as _ <- <-.
      exists (ES_BULK_HEADER E), None. now rewrite <- index_line_is_action_line.
Qed.

Lemma current_time_invariant_kept st root st' :
  logstash_format ctx = false -> current_time_index ctx = true ->
  current_time_invariant E ctx st ->
  format_record E ctx tag st root = Next st' ->
  current_time_invariant E ctx st'.
Proof.
  intros Hlog Hcur [Hid Hline] H.
  destruct (two_entries root) eqn:Htwo.
  - destruct (format_record_next_state E ctx tag st root H Htwo)
      as [t [map [pro [ret [buf [j [action [json
           [-> [Hmap [Hpro [Hsan [Hret [Hj [Hjson [Hact ->]]]]]]]]]]]]]]]].
    destruct (@record_prologue_current_time st _ map pro Hlog Hcur Hpro)
      as [Htms [Hes [Hpj Hpl]]].
    unfold state_after. split; cbn [tms j_index index_len].
    + intros Hgen. rewrite Htms. now apply Hid.
    + intros Hgen. unfold record_action in Hj. rewrite Hgen in Hj.
      injection Hj as <-. cbn [fst snd]. rewrite Hpj, Hpl. now apply Hline.
  - rewrite (format_record_skips E ctx tag st root Htwo) in H. injection H as <-.
    now split.
Qed.

(** C4, amended. In current-time mode without the logstash format,
    when the formatter returns 0 the buffer holds one pair of lines for
    each record of two entries, and the action line of every pair is the
    action line format filled with one index name: the index pattern
    formatted against the wall clock as read by this call (its first
    reading), the same for every record. With id
    generation the name is recomputed for every record from the time read
    once before the loop; without it the name is computed once, with the
    action line, before the loop. An action line that fits [j_index]
    reaches the buffer whole. *)
Theorem current_time_index_names_every_action_line
        (entry : entry_values) (data : list msgpack_object)
        (out_data : bytes) (out_size : nat) :
  current_time_index ctx = FLB_TRUE ->
  logstash_format ctx = FLB_FALSE ->
  elasticsearch_format E ctx tag entry data = Format_ok out_data out_size ->
  exists pairs,
    out_data = flat_map line_pair pairs
    /\ length pairs = length (filter two_entries data)
    /\ Forall (fun p =>
                 exists size id,
                   action_bytes E size
                                (action_line ctx (wall_clock_index E ctx) id)
                   = Next (fst p)
                   /\ (length (action_line ctx (wall_clock_index E ctx) id)
                       < Nat.min size (ES_BULK_HEADER E) ->
                       fst p = action_line ctx (wall_clock_index E ctx) id))
              pairs.
Proof.
  intros Hcur Hlog H.
  destruct (elasticsearch_format_invariant E ctx tag (current_time_invariant E ctx) entry
              (fun b s => @preamble_current_time entry b s Hlog Hcur)
              (fun st root st' Hi Hr =>
                 @current_time_invariant_kept st root st' Hlog Hcur Hi Hr)
              data H)
    as [pairs [Hall Hout]].
  exists pairs. split; [exact Hout |]. split; [symmetry; exact (Forall2_length Hall) |].
  clear - Hall Hcur Hlog.
  induction Hall as [| root p roots pairs [st [[Hid Hline] Hpair]] Hrest IH];
    constructor; [| exact IH].
  assert (Hex : exists size id,
             action_bytes E size (action_line ctx (wall_clock_index E ctx) id)
             = Next (fst p)).
  { destruct Hpair as [t [map [pro [ret [buf [j [-> [Hmap [Hpro [Hsan [Hret [Hj [Hjson Hact]]]]]]]]]]]]].
    destruct (@record_prologue_current_time st _ map pro Hlog Hcur Hpro)
      as [Htms [Hes [Hpj Hpl]]].
    unfold record_action in Hj. destruct (generate_id ctx) eqn:Hgen.
    - rewrite index_line_id_header, Hes, (Hid eq_refl) in Hj.
      exists (ES_BULK_HEADER E), (Some (es_uuid_of E buf)).
      unfold action_bytes, wall_clock_index. now rewrite Hj.
    - destruct (Hline eq_refl) as [size [id Hset]].
      exists size, id. unfold action_bytes. rewrite Hset. cbn [bind fst snd].
      injection Hj as <-. cbn [fst snd] in Hact. now rewrite <- Hpj, <- Hpl. }
  destruct Hex as [size [id Hex]]. exists size, id. split; [exact Hex |].
  intros Hfit. rewrite action_bytes_fits in Hex by lia. now injection Hex.
Qed.

(** What [logstash_name] writes when the array holds [head] in front of
    the place where the dash goes: the head stays where it is, and the
    name is the head, a dash and the date, the date being left out when
    it does not fit. *)
Lemma logstash_name_behind idx n t head r :
  firstn (length head) idx = head ->
  length head = (if 0 <? n then n else length (logstash_prefix ctx)) ->
  logstash_name E ctx idx n (gmtime_r E (tv_sec t)) = Next r ->
  snd r = logstash_index_name E ctx head t
  /\ firstn (length head) (fst r) = head.
Proof.
  intros Hhead Hlen H. unfold logstash_name in H. rewrite <- Hlen in H.
  destruct (sizeof_logstash_index - 1 <? length head + 1); [discriminate |].
  injection H as <-. cbn [fst snd]. unfold logstash_index_name, date_suffix.
  change (B "-") with ["-"%char].
  destruct (@memcpy_at_behind idx head ["-"%char] Hhead) as [tail1 Hdash].
  rewrite Hdash.
  assert (H1 : forall tl, firstn (length (head ++ ["-"%char]))
                                 (head ++ ["-"%char] ++ tl)
                          = head ++ ["-"%char]).
  { intros tl. rewrite (app_assoc head). apply firstn_app_exact. }
  assert (Hl : length (head ++ ["-"%char]) = length head + 1)
    by (rewrite length_app; reflexivity).
  destruct (strftime_max E _ (logstash_dateformat ctx) (gmtime_r E (tv_sec t)))
    as [date |].
  - destruct (@memcpy_at_behind (head ++ ["-"%char] ++ tail1) (head ++ ["-"%char])
                (date ++ [NUL]) (H1 tail1)) as [tail2 Hdate].
    rewrite Hl in Hdate. rewrite Hdate. split.
    + replace ((head ++ ["-"%char]) ++ (date ++ [NUL]) ++ tail2)
        with ((head ++ ["-"%char] ++ date) ++ NUL :: tail2)
        by (rewrite <- !app_assoc; reflexivity).
      apply c_str_cut.
    + rewrite <- app_assoc. apply firstn_app_exact.
  - set (left := firstn _ (strftime_leaves E _ _ _)).
    destruct (@memcpy_at_behind (head ++ ["-"%char] ++ tail1) (head ++ ["-"%char])
                left (H1 tail1)) as [tail2 Hleft].
    rewrite Hl in Hleft. rewrite Hleft.
    assert (H2 : firstn (length (head ++ ["-"%char]))
                        ((head ++ ["-"%char]) ++ left ++ tail2)
                 = head ++ ["-"%char]) by apply firstn_app_exact.
    destruct (@memcpy_at_behind ((head ++ ["-"%char]) ++ left ++ tail2)
                (head ++ ["-"%char]) [NUL] H2) as [tail3 Hnul].
    rewrite Hl in Hnul. rewrite Hnul. split.
    + rewrite app_nil_r. apply (c_str_cut (head ++ ["-"%char]) tail3).
    + rewrite <- app_assoc. apply firstn_app_exact.
Qed.

(** The lookup of the prefix key, in terms of the value it finds. *)
Lemma lookup_prefix_value idx map :
  match prefix_value E ctx tag map with
  | Some v =>
      lookup_prefix E ctx tag idx map = (v ++ skipn (length v) idx, length v)
      /\ 0 < length v
  | None => lookup_prefix E ctx tag idx map = (idx, 0)
  end.
Proof.
  unfold prefix_value, lookup_prefix.
  destruct (logstash_prefix_key ctx); [| reflexivity].
  destruct (flb_ra_translate E (ra_prefix_key ctx) tag map) as [v |];
    [| reflexivity].
  destruct (length v =? 0) eqn:H0.
  - apply Nat.eqb_eq in H0. destruct v; [reflexivity | discriminate].
  - apply Nat.eqb_neq in H0. rewrite memcpy_at_start.
    destruct (128 <? length v) eqn:Hlen.
    + apply Nat.ltb_lt in Hlen. rewrite length_firstn.
      replace (Nat.min 128 (length v)) with 128 by lia. split; [reflexivity | lia].
    + apply Nat.ltb_ge in Hlen. rewrite firstn_all.
      rewrite (firstn_all2 (n := 128)) by lia. split; [reflexivity | lia].
Qed.

(** The prologue in logstash mode: the state it works on, and what it
    gives. *)
Lemma record_prologue_logstash st root map pro :
  logstash_format ctx = true ->
  record_prologue E ctx tag st root map = Next pro ->
  exists r,
    logstash_name E ctx (fst (lookup_prefix E ctx tag (logstash_index st) map))
                  (snd (lookup_prefix E ctx tag (logstash_index st) map))
                  (gmtime_r E (tv_sec (record_time E ctx st root)))
    = Next r
    /\ p_tms pro = record_time E ctx st root
    /\ p_logstash_index pro = fst r /\ p_es_index pro = snd r
    /\ (generate_id ctx = false ->
        index_line E ctx (snd r) = Next (p_j_index pro, p_index_len pro)).
Proof.
  intros Hlog H. unfold record_prologue in H. rewrite Hlog in H.
  destruct (lookup_prefix E ctx tag (logstash_index st) map) as [idx1 n].
  apply bind_next in H. destruct H as [tf [_ H]].
  apply bind_next in H. destruct H as [[[i e] j] [Hnames H]].
  apply bind_next in Hnames. destruct Hnames as [r [Hr Hnames]].
  exists r. cbn [fst snd]. split; [exact Hr |].
  injection H as <-.
  cbn [p_tms p_logstash_index p_es_index p_j_index p_index_len].
  destruct (generate_id ctx).
  - injection Hnames as <- <- <-. repeat split. discriminate.
  - apply bind_next in Hnames. destruct Hnames as [j' [Hj Hnames]].
    injection Hnames as <- <- <-. repeat split. intros _.
    rewrite Hj. now destruct j'.
Qed.

Lemma preamble_prefix_intact entry bulk0 st0 :
  logstash_format ctx = true ->
  preamble E ctx entry bulk0 = Next st0 ->
  prefix_intact ctx st0
  /\ tms st0 = (if current_time_index ctx then flb_time_get E 0
                else tms_on_entry entry).
Proof.
  intros Hlog H. unfold preamble in H. rewrite Hlog in H.
  destruct (length (logstash_prefix ctx) <? sizeof_logstash_index); [| discriminate].
  cbn [bind negb andb] in H. injection H as <-.
  unfold prefix_intact. cbn [logstash_index tms]. split; [| reflexivity].
  rewrite memcpy_at_start.
  rewrite <- app_assoc. apply firstn_app_exact.
Qed.

(** The index name the prologue of a record resolves in logstash mode,
    and what it leaves in the array and in [tms]. *)
Lemma record_prologue_index_name st t map pro :
  logstash_format ctx = true ->
  record_prologue E ctx tag st (MSGPACK_OBJECT_ARRAY [t; map]) map = Next pro ->
  let time := time_kept E ctx (tms st) (MSGPACK_OBJECT_ARRAY [t; map]) in
  p_tms pro = time
  /\ (forall v, prefix_value E ctx tag map = Some v ->
                p_es_index pro = logstash_index_name E ctx v time)
  /\ (prefix_value E ctx tag map = None -> prefix_intact ctx st ->
      p_es_index pro = logstash_index_name E ctx (logstash_prefix ctx) time
      /\ firstn (length (logstash_prefix ctx)) (p_logstash_index pro)
         = logstash_prefix ctx).
Proof.
  intros Hlog Hpro.
  destruct (@record_prologue_logstash st _ map pro Hlog Hpro)
    as [r [Hname [Htms [Hidx [Hes Hline]]]]].
  assert (Htime : record_time E ctx st (MSGPACK_OBJECT_ARRAY [t; map])
                  = time_kept E ctx (tms st) (MSGPACK_OBJECT_ARRAY [t; map]))
    by reflexivity.
  rewrite Htime in Hname, Htms. cbv zeta.
  pose proof (lookup_prefix_value (logstash_index st) map) as Hlook.
  split; [exact Htms |]. split.
  - intros v Hv. rewrite Hv in Hlook. destruct Hlook as [Hlook Hpos].
    rewrite Hlook in Hname. cbn [fst snd] in Hname.
    apply Nat.ltb_lt in Hpos.
    destruct (@logstash_name_behind
                (v ++ skipn (length v) (logstash_index st)) (length v)
                (time_kept E ctx (tms st) (MSGPACK_OBJECT_ARRAY [t; map])) v r)
      as [Hs _];
      [apply firstn_app_exact | now rewrite Hpos | exact Hname | now rewrite Hes].
  - intros Hv Hintact. rewrite Hv in Hlook. rewrite Hlook in Hname.
    cbn [fst snd] in Hname.
    destruct (@logstash_name_behind (logstash_index st) 0
                (time_kept E ctx (tms st) (MSGPACK_OBJECT_ARRAY [t; map]))
                (logstash_prefix ctx) r Hintact)
      as [Hs Hf]; [reflexivity | exact Hname |].
    split; [now rewrite Hes | now rewrite Hidx].
Qed.

(** The two lines of a record in logstash mode. The action line is the
    action-line format filled with the index name and, with id
    generation, the id of the document buffer whose JSON form is the
    document line. The index name is made of the prefix the record
    brings, or of the configured prefix when it brings none and the
    array still starts with the configured prefix, which then stays. *)
Lemma record_lines_logstash st root action json st' :
  logstash_format ctx = true ->
  record_lines E ctx tag st root action json st' ->
  let time := time_kept E ctx (tms st) root in
  two_entries root = true
  /\ tms st' = time
  /\ exists buf,
      flb_msgpack_raw_to_json_sds E buf = Some json
      /\ let id := if generate_id ctx then Some (es_uuid_of E buf) else None in
         (forall v, prefix_value E ctx tag (record_map root) = Some v ->
                    action_bytes E (ES_BULK_HEADER E)
                      (action_line ctx (logstash_index_name E ctx v time) id)
                    = Next action)
         /\ (prefix_value E ctx tag (record_map root) = None ->
             prefix_intact ctx st ->
             action_bytes E (ES_BULK_HEADER E)
               (action_line ctx
                  (logstash_index_name E ctx (logstash_prefix ctx) time) id)
             = Next action
             /\ prefix_intact ctx st').
Proof.
  intros Hlog [t [map [pro [ret [buf [j [bulk' [-> [Hmap [Hpro [Hsan [Hret
                [Hj [Hjson [Hact [Happ ->]]]]]]]]]]]]]]]].
  destruct (@record_prologue_index_name st t map pro Hlog Hpro)
    as [Htms [Hfound Hstatic]].
  destruct (@record_prologue_logstash st _ map pro Hlog Hpro)
    as [r [_ [_ [_ [Hes Hline]]]]].
  cbv zeta. split; [reflexivity |]. split; [exact Htms |].
  exists buf. split; [exact Hjson |]. cbn [record_map].
  assert (Hset : set_j_index E (ES_BULK_HEADER E)
                   (action_line ctx (p_es_index pro)
                      (if generate_id ctx then Some (es_uuid_of E buf) else None))
                 = Next j).
  { unfold record_action in Hj. destruct (generate_id ctx).
    - now rewrite <- index_line_id_header.
    - rewrite <- index_line_is_action_line, Hes, (Hline eq_refl).
      now rewrite Hj. }
  split.
  - intros v Hv. rewrite <- (Hfound v Hv). unfold action_bytes.
    rewrite Hset. exact Hact.
  - intros Hv Hintact. destruct (Hstatic Hv Hintact) as [Hname Hkept]. split.
    + rewrite <- Hname. unfold action_bytes. rewrite Hset. exact Hact.
    + exact Hkept.
Qed.

(** The loop in logstash mode: the action line of the record that has
    the objects [before] in front of it is the one of the list the loop
    gives at the place of the record, it is dated with the time the loop
    holds at the record, and it names the prefix of the record, or the
    configured prefix when neither the record nor a record before it
    brings one. *)
Lemma records_give_logstash st0 data pairs st :
  logstash_format ctx = true ->
  records_give E ctx tag st0 data pairs st ->
  forall before root after,
    data = before ++ root :: after -> two_entries root = true ->
    let time := time_kept E ctx (fold_left (time_kept E ctx) before (tms st0))
                          root in
    exists action json buf,
      nth_error pairs (length (filter two_entries before)) = Some (action, json)
      /\ flb_msgpack_raw_to_json_sds E buf = Some json
      /\ let id := if generate_id ctx then Some (es_uuid_of E buf) else None in
         (forall v, prefix_value E ctx tag (record_map root) = Some v ->
                    action_bytes E (ES_BULK_HEADER E)
                      (action_line ctx (logstash_index_name E ctx v time) id)
                    = Next action)
         /\ (prefix_value E ctx tag (record_map root) = None ->
             no_prefix_value E ctx tag before -> prefix_intact ctx st0 ->
             action_bytes E (ES_BULK_HEADER E)
               (action_line ctx
                  (logstash_index_name E ctx (logstash_prefix ctx) time) id)
             = Next action).
Proof.
  intros Hlog Hgive.
  induction Hgive as [st | st r0 rest pairs st' Hskip Hgive IH
                      | st r0 rest action0 json0 st1 pairs st' Hlines Hgive IH];
    intros before root after Hdata Htwo.
  - now destruct before.
  - destruct before as [| b before]; injection Hdata as <- ->.
    + congruence.
    + destruct (IH before root after eq_refl Htwo)
        as [action [json [buf [Hnth [Hjson [Hfound Hstatic]]]]]].
      assert (Hk : time_kept E ctx (tms st) r0 = tms st)
        by (unfold time_kept; now rewrite Hskip).
      cbn [filter fold_left]. rewrite Hk, Hskip.
      exists action, json, buf. split; [exact Hnth |]. split; [exact Hjson |].
      split; [exact Hfound |].
      intros Hv Hbefore Hintact. apply Hstatic; try assumption.
      now inversion Hbefore.
  - destruct (@record_lines_logstash st r0 action0 json0 st1 Hlog Hlines)
      as [Htwo0 [Htms [buf0 [Hjson0 [Hfound0 Hstatic0]]]]].
    destruct before as [| b before]; injection Hdata as <- ->.
    + exists action0, json0, buf0. cbn [filter fold_left length nth_error].
      split; [reflexivity |]. split; [exact Hjson0 |].
      split; [exact Hfound0 |].
      intros Hv _ Hintact. now apply Hstatic0.
    + destruct (IH before root after eq_refl Htwo)
        as [action [json [buf [Hnth [Hjson [Hfound Hstatic]]]]]].
      cbn [filter fold_left]. rewrite Htwo0. cbn [length nth_error].
      rewrite <- Htms.
      exists action, json, buf. split; [exact Hnth |]. split; [exact Hjson |].
      split; [exact Hfound |].
      intros Hv Hbefore Hintact. inversion Hbefore as [| x l Hb Hbs]; subst.
      apply Hstatic; try assumption.
      now apply Hstatic0; [apply Hb |].
Qed.

(** The formatter in logstash mode, when it returns 0. *)
Lemma elasticsearch_format_logstash entry data out_data out_size :
  logstash_format ctx = true ->
  elasticsearch_format E ctx tag entry data = Format_ok out_data out_size ->
  exists pairs,
    out_data = flat_map line_pair pairs
    /\ length pairs = length (filter two_entries data)
    /\ forall before root after,
        data = before ++ root :: after -> two_entries root = true ->
        let time := logstash_time E ctx entry before root in
        exists action json buf,
          nth_error pairs (length (filter two_entries before))
          = Some (action, json)
          /\ flb_msgpack_raw_to_json_sds E buf = Some json
          /\ let id := if generate_id ctx then Some (es_uuid_of E buf)
                       else None in
             (forall v, prefix_value E ctx tag (record_map root) = Some v ->
                        action_bytes E (ES_BULK_HEADER E)
                          (action_line ctx (logstash_index_name E ctx v time) id)
                        = Next action)
             /\ (prefix_value E ctx tag (record_map root) = None ->
                 no_prefix_value E ctx tag before ->
                 action_bytes E (ES_BULK_HEADER E)
                   (action_line ctx
                      (logstash_index_name E ctx (logstash_prefix ctx) time) id)
                 = Next action).
Proof.
  intros Hlog H.
  destruct (elasticsearch_format_ok E ctx tag entry data H)
    as [bulk0 [st0 [pairs [st [_ [_ [Hpre [Hgive [Hout [_ Hlen]]]]]]]]]].
  destruct (@preamble_prefix_intact entry bulk0 st0 Hlog Hpre) as [Hintact Htms].
  exists pairs. split; [exact Hout |]. split; [exact Hlen |].
  intros before root after Hdata Htwo.
  destruct (@records_give_logstash st0 data pairs st Hlog Hgive
              before root after Hdata Htwo)
    as [action [json [buf [Hnth [Hjson [Hfound Hstatic]]]]]].
  unfold logstash_time. rewrite <- Htms.
  exists action, json, buf. split; [exact Hnth |]. split; [exact Hjson |].
  split; [exact Hfound |].
  intros Hv Hbefore. now apply Hstatic.
Qed.

Lemma no_prefix_key_no_value map :
  logstash_prefix_key ctx = None -> prefix_value E ctx tag map = None.
Proof. intros H. unfold prefix_value. now rewrite H. Qed.


(** In logstash mode with no prefix key configured, when the formatter
    returns 0 the action line of every record of two entries is the
    action-line format filled with the configured prefix, a dash and the
    date (read as a C string), the date being the date pattern formatted
    against the time the loop holds at that record; without id
    generation the line carries no id. *)
Theorem logstash_static_prefix_names_every_action_line
        (entry : entry_values) (data : list msgpack_object)
        (out_data : bytes) (out_size : nat) :
  logstash_format ctx = FLB_TRUE ->
  logstash_prefix_key ctx = None ->
  elasticsearch_format E ctx tag entry data = Format_ok out_data out_size ->
  exists pairs,
    out_data = flat_map line_pair pairs
    /\ forall before root after,
        data = before ++ root :: after -> two_entries root = true ->
        exists action json id,
          nth_error pairs (length (filter two_entries before))
          = Some (action, json)
          /\ (generate_id ctx = FLB_FALSE -> id = None)
          /\ action_bytes E (ES_BULK_HEADER E)
               (action_line ctx
                  (logstash_index_name E ctx (logstash_prefix ctx)
                     (logstash_time E ctx entry before root)) id)
             = Next action.
Proof.
  intros Hlog Hkey H.
  destruct (@elasticsearch_format_logstash entry data out_data out_size Hlog H)
    as [pairs [Hout [_ Hall]]].
  exists pairs. split; [exact Hout |].
  intros before root after Hdata Htwo.
  destruct (Hall before root after Hdata Htwo)
    as [action [json [buf [Hnth [_ [_ Hstatic]]]]]].
  exists action, json, (if generate_id ctx then Some (es_uuid_of E buf) else None).
  split; [exact Hnth |]. split; [intros Hgen; now rewrite Hgen |].
  apply Hstatic; [now apply no_prefix_key_no_value |].
  apply Forall_forall. intros r _ _. now apply no_prefix_key_no_value.
Qed.

(** Without the logstash format the prologue leaves the action line as it
    finds it. *)
Lemma record_prologue_keeps_action_line st root map pro :
  logstash_format ctx = false ->
  record_prologue E ctx tag st root map = Next pro ->
  p_j_index pro = j_index st /\ p_index_len pro = index_len st.
Proof.
  intros Hlog H. unfold record_prologue in H. rewrite Hlog in H.
  destruct (lookup_prefix E ctx tag (logstash_index st) map) as [idx1 n].
  apply bind_next in H. destruct H as [tf [_ H]].
  apply bind_next in H. destruct H as [[[i e] j] [Hnames H]].
  injection H as <-. cbn [p_j_index p_index_len].
  destruct (current_time_index ctx).
  - destruct (strftime_max E _ _ _); [| discriminate].
    now injection Hnames as <- <- <-.
  - now injection Hnames as <- <- <-.
Qed.

Lemma preamble_action_line entry bulk1 bulk2 st1 st2 :
  preamble E ctx entry bulk1 = Next st1 ->
  preamble E ctx entry bulk2 = Next st2 ->
  j_index st1 = j_index st2 /\ index_len st1 = index_len st2.
Proof.
  unfold preamble. intros H1 H2.
  destruct (if logstash_format ctx then _ else _) as [idx0 | |]; try discriminate.
  cbn [bind] in H1, H2.
  destruct (if negb (logstash_format ctx) && negb (generate_id ctx) then _ else _)
    as [[[[t j] l] reads] | |]; try discriminate.
  cbn [bind] in H1, H2. injection H1 as <-. injection H2 as <-. now split.
Qed.

(** Without the logstash format and without id generation, every record
    gets the action line made before the loop, whatever the record holds:
    an id built from [id_format] is the same for all the records of the
    batch. *)
Theorem pregenerated_action_line_is_shared
        (entry : entry_values) (data : list msgpack_object)
        (out_data : bytes) (out_size : nat) :
  logstash_format ctx = FLB_FALSE ->
  generate_id ctx = FLB_FALSE ->
  elasticsearch_format E ctx tag entry data = Format_ok out_data out_size ->
  exists pairs,
    out_data = flat_map line_pair pairs
    /\ length pairs = length (filter two_entries data)
    /\ forall bulk0 st0,
        preamble E ctx entry bulk0 = Next st0 ->
        Forall (fun p => j_index_bytes E (j_index st0) (index_len st0)
                         = Next (fst p)) pairs.
Proof.
  intros Hlog Hgen H.
  pose (Inv := fun st : loop_state =>
                 forall bulk0 st0,
                   preamble E ctx entry bulk0 = Next st0 ->
                   j_index st = j_index st0 /\ index_len st = index_len st0).
  assert (Hkeep : forall st root st',
             Inv st -> format_record E ctx tag st root = Next st' -> Inv st').
  { intros st root st' Hinv Hrec. destruct (two_entries root) eqn:Htwo.
    - destruct (format_record_next_state E ctx tag st root Hrec Htwo)
        as [t [map [pro [ret [buf [j [action [json
             [-> [Hmap [Hpro [Hsan [Hret [Hj [Hjson [Hact ->]]]]]]]]]]]]]]]].
      destruct (@record_prologue_keeps_action_line st _ map pro Hlog Hpro) as [Hpj Hpl].
      unfold record_action in Hj. rewrite Hgen in Hj. injection Hj as <-.
      intros bulk0 st0 Hp. unfold state_after. cbn [j_index index_len fst snd].
      rewrite Hpj, Hpl. now apply (Hinv bulk0).
    - rewrite (format_record_skips E ctx tag st root Htwo) in Hrec.
      now injection Hrec as <-. }
  destruct (elasticsearch_format_invariant E ctx tag Inv entry
              (fun b s Hs b0 s0 Hs0 => @preamble_action_line entry b b0 s s0 Hs Hs0)
              Hkeep data H)
    as [pairs [Hall Hout]].
  exists pairs. split; [exact Hout |].
  split; [symmetry; exact (Forall2_length Hall) |].
  intros bulk0 st0 Hp. clear - Hall Hp Hlog Hgen.
  induction Hall as [| root p roots pairs [st [Hinv Hpair]] Hrest IH];
    constructor; [| exact IH].
  destruct Hpair as [t [map [pro [ret [buf [j [-> [Hmap [Hpro [Hsan [Hret [Hj [Hjson Hact]]]]]]]]]]]]].
  destruct (@record_prologue_keeps_action_line st _ map pro Hlog Hpro) as [Hpj Hpl].
  unfold record_action in Hj. rewrite Hgen in Hj. injection Hj as <-.
  cbn [fst snd] in Hact. destruct (Hinv bulk0 st0 Hp) as [Hj0 Hl0].
  now rewrite <- Hj0, <- Hl0, <- Hpj, <- Hpl.
Qed.

End IndexFacts.

(* ------------------------------------------------------------------ *)
(** ** Further properties of the sanitizer *)
(* ------------------------------------------------------------------ *)

Section MoreSanitizerFacts.

Variable malloc : nat -> bool.
Variable ctx : flb_elasticsearch.

(** With every heap block granted, the loop over the entries of a map
    returns 0 and appends the items of the sanitized entries. *)
Lemma map_loop_items entries :
  keys_allocated malloc (MSGPACK_OBJECT_MAP entries) = true ->
  forall pk,
    map_loop malloc ctx pk entries
    = (0%Z, pk ++ flat_map entry_items (map (sanitized_entry ctx) entries)).
Proof.
  rewrite keys_allocated_map.
  induction entries as [| [k v] l IH]; intros Hk pk.
  - simpl. now rewrite app_nil_r.
  - simpl in Hk. apply andb_true_iff in Hk. destruct Hk as [Hkv Hl].
    apply andb_true_iff in Hkv. destruct Hkv as [Hfit Hv].
    cbn [map_loop map flat_map]. rewrite es_pack_map_key_spec, Hfit.
    rewrite (pack_sanitized_value_items malloc ctx v Hv).
    rewrite (IH Hl). unfold entry_items at 2, sanitized_entry at 1.
    cbn [fst snd]. now rewrite <- !app_assoc.
Qed.

Lemma sanitize_key_name_plain dots_allowed s :
  (dots_allowed || negb (existsb (fun c => Ascii.eqb c "."%char) s)) = true ->
  dots_allowed = negb (replace_dots ctx) ->
  sanitize_key_name ctx s = s.
Proof.
  intros H ->. unfold sanitize_key_name.
  destruct (replace_dots ctx); [| reflexivity].
  cbn [negb orb] in H. apply negb_true_iff in H.
  unfold replace_dots_in. induction s as [| c s IH]; [reflexivity |].
  cbn [existsb] in H. apply orb_false_iff in H. destruct H as [Hc Hs].
  cbn [map]. rewrite Hc, (IH Hs). reflexivity.
Qed.

Lemma string_keys_map dots_allowed entries :
  string_keys dots_allowed (MSGPACK_OBJECT_MAP entries)
  = forallb (fun kv =>
               match fst kv with
               | MSGPACK_OBJECT_STR s =>
                   dots_allowed
                   || negb (existsb (fun c => Ascii.eqb c "."%char) s)
               | _ => false
               end && string_keys dots_allowed (snd kv)) entries.
Proof.
  induction entries as [| [k v] l IH]; [reflexivity |].
  cbn [forallb fst snd]. rewrite <- IH. reflexivity.
Qed.

Lemma string_keys_array dots_allowed elts :
  string_keys dots_allowed (MSGPACK_OBJECT_ARRAY elts)
  = forallb (string_keys dots_allowed) elts.
Proof.
  induction elts as [| e l IH]; [reflexivity |].
  cbn [forallb]. rewrite <- IH. reflexivity.
Qed.

(** A tree whose keys are all strings that the sanitizer has no reason
    to rewrite is its own sanitized tree. *)
Lemma sanitized_plain (o : msgpack_object) :
  string_keys (negb (replace_dots ctx)) o = true -> sanitized ctx o = o.
Proof.
  induction o as [| b | u | i | f | s | elts IH | entries IH | s | t s]
    using object_induction; intros Hs; try reflexivity.
  - rewrite sanitized_array. f_equal. rewrite string_keys_array in Hs.
    induction elts as [| e l IHl]; [reflexivity |].
    cbn [forallb] in Hs. apply andb_true_iff in Hs. destruct Hs as [He Hl].
    cbn [map]. rewrite (IH e (or_introl eq_refl) He). f_equal.
    apply IHl; [| exact Hl]. intros x Hx. apply IH. now right.
  - rewrite sanitized_map. f_equal. rewrite string_keys_map in Hs.
    induction entries as [| [k v] l IHl]; [reflexivity |].
    cbn [forallb fst snd] in Hs. apply andb_true_iff in Hs.
    destruct Hs as [Hkv Hl]. apply andb_true_iff in Hkv.
    destruct Hkv as [Hk Hv].
    cbn [map]. f_equal.
    + unfold sanitized_entry. cbn [fst snd].
      destruct (IH k v (or_introl eq_refl)) as [_ IHv]. rewrite (IHv Hv).
      destruct k; try discriminate. cbn [key_ptr].
      now rewrite (sanitize_key_name_plain _ Hk eq_refl).
    + apply IHl; [| exact Hl]. intros k' v' Hin. apply IH. now right.
Qed.

(** The sanitized tree has keys that are strings of the length of the
    original keys, so it needs the same heap blocks. *)
Lemma keys_allocated_sanitized (o : msgpack_object) :
  keys_allocated malloc (sanitized ctx o) = keys_allocated malloc o.
Proof.
  induction o as [| b | u | i | f | s | elts IH | entries IH | s | t s]
    using object_induction; try reflexivity.
  - rewrite sanitized_array, !keys_allocated_array.
    induction elts as [| e l IHl]; [reflexivity |].
    cbn [map forallb]. rewrite (IH e (or_introl eq_refl)). f_equal.
    apply IHl. intros x Hx. apply IH. now right.
  - rewrite sanitized_map, !keys_allocated_map.
    induction entries as [| [k v] l IHl]; [reflexivity |].
    cbn [map forallb]. unfold sanitized_entry at 1 2. cbn [fst snd].
    destruct (IH k v (or_introl eq_refl)) as [_ IHv]. rewrite IHv.
    f_equal.
    + f_equal. unfold key_fits. cbn [key_ptr].
      now rewrite sanitize_key_name_length.
    + apply IHl. intros k' v' Hin. apply IH. now right.
Qed.

Lemma sanitize_key_name_twice name :
  sanitize_key_name ctx (sanitize_key_name ctx name) = sanitize_key_name ctx name.
Proof.
  unfold sanitize_key_name. destruct (replace_dots ctx); [| reflexivity].
  unfold replace_dots_in. rewrite map_map. apply map_ext. intros c.
  destruct (Ascii.eqb c "."%char) eqn:Hc; [reflexivity | now rewrite Hc].
Qed.

Lemma sanitized_twice (o : msgpack_object) :
  sanitized ctx (sanitized ctx o) = sanitized ctx o.
Proof.
  induction o as [| b | u | i | f | s | elts IH | entries IH | s | t s]
    using object_induction; try reflexivity.
  - rewrite !sanitized_array. f_equal. rewrite map_map.
    apply map_ext_in. intros e He. now apply IH.
  - rewrite !sanitized_map. f_equal. rewrite map_map.
    apply map_ext_in. intros [k v] Hin. unfold sanitized_entry. cbn [fst snd].
    destruct (IH k v Hin) as [_ IHv]. rewrite IHv. cbn [key_ptr].
    now rewrite sanitize_key_name_twice.
Qed.

(** A map whose keys, at every depth, are strings (free of dots when
    [replace_dots] is on) goes through the sanitizer unchanged: with every
    heap block granted, the sanitizer returns 0 and writes behind the map
    header exactly what [msgpack_pack_object] writes for the map. *)
Theorem sanitizer_keeps_plain_string_keys
        (entries : list (msgpack_object * msgpack_object)) :
  string_keys (negb (replace_dots ctx)) (MSGPACK_OBJECT_MAP entries) = true ->
  keys_allocated malloc (MSGPACK_OBJECT_MAP entries) = true ->
  forall pk,
    es_pack_map_content malloc ctx (msgpack_pack_map pk (length entries))
                        (MSGPACK_OBJECT_MAP entries)
    = (0%Z, msgpack_pack_object pk (MSGPACK_OBJECT_MAP entries)).
Proof.
  intros Hs Hk pk. rewrite es_pack_map_content_loop, (map_loop_items _ Hk).
  pose proof (sanitized_plain _ Hs) as Hid. rewrite sanitized_map in Hid.
  injection Hid as Hid. rewrite Hid.
  unfold msgpack_pack_object, msgpack_pack_map.
  rewrite object_items_map, <- app_assoc. reflexivity.
Qed.

(** The sanitizer is idempotent: run on the map it has written (the
    sanitized map), it writes the same items again. *)
Theorem sanitizer_is_idempotent
        (entries : list (msgpack_object * msgpack_object)) :
  keys_allocated malloc (MSGPACK_OBJECT_MAP entries) = true ->
  forall pk,
    es_pack_map_content malloc ctx pk
                        (sanitized ctx (MSGPACK_OBJECT_MAP entries))
    = es_pack_map_content malloc ctx pk (MSGPACK_OBJECT_MAP entries).
Proof.
  intros Hk pk.
  pose proof (keys_allocated_sanitized (MSGPACK_OBJECT_MAP entries)) as Hk'.
  rewrite Hk in Hk'. pose proof (sanitized_twice (MSGPACK_OBJECT_MAP entries)) as Ht.
  rewrite sanitized_map in Hk', Ht |- *. rewrite sanitized_map in Ht.
  injection Ht as Ht.
  rewrite !es_pack_map_content_loop, (map_loop_items _ Hk), (map_loop_items _ Hk').
  now rewrite Ht.
Qed.

(** The loop over the entries of a map stops at the first key that is
    refused its heap block: it returns -1, and the buffer keeps what the
    entries before that key gave. *)
Lemma map_loop_refused pk pre k w post :
  forallb (fun kv => key_fits malloc (fst kv)) pre = true ->
  key_fits malloc k = false ->
  map_loop malloc ctx pk (pre ++ (k, w) :: post)
  = ((-1)%Z, snd (map_loop malloc ctx pk pre)).
Proof.
  intros Hpre Hk. revert pk.
  induction pre as [| [k0 v0] pre IH]; intros pk.
  - cbn [app map_loop snd]. now rewrite es_pack_map_key_spec, Hk.
  - cbn [forallb fst] in Hpre. apply andb_true_iff in Hpre.
    destruct Hpre as [H0 Hpre].
    cbn [app map_loop]. rewrite es_pack_map_key_spec, H0. now apply IH.
Qed.

(** The result of a nested call of the sanitizer is dropped. Let a map
    be nested in a record, and let one of its keys be refused its heap
    block, the keys before it being granted theirs. The call for the
    nested map returns -1 and leaves behind the header, which announces
    all the entries of the map, only the entries before that key. The
    enclosing call, for a map or for an array, does not look at this
    result: it goes on with its next entry behind the map cut short, and
    returns what its own keys decide, 0 when the nested map is its only
    value. *)
Theorem nested_failure_is_dropped
        (pre : list (msgpack_object * msgpack_object))
        (k w : msgpack_object)
        (post : list (msgpack_object * msgpack_object)) :
  forallb (fun kv => key_fits malloc (fst kv)) pre = true ->
  key_fits malloc k = false ->
  let nested := MSGPACK_OBJECT_MAP (pre ++ (k, w) :: post) in
  let cut pk :=
    snd (es_pack_map_content
           malloc ctx
           (msgpack_pack_map pk (length (pre ++ (k, w) :: post)))
           (MSGPACK_OBJECT_MAP pre)) in
  (forall pk,
      es_pack_map_content malloc ctx pk nested
      = ((-1)%Z, snd (es_pack_map_content malloc ctx pk
                                          (MSGPACK_OBJECT_MAP pre))))
  /\ (forall pk key rest,
        key_fits malloc key = true ->
        es_pack_map_content malloc ctx pk
                            (MSGPACK_OBJECT_MAP ((key, nested) :: rest))
        = es_pack_map_content
            malloc ctx
            (cut (pk ++ object_items
                          (MSGPACK_OBJECT_STR
                             (sanitize_key_name ctx (key_ptr key)))))
            (MSGPACK_OBJECT_MAP rest))
  /\ (forall pk key,
        key_fits malloc key = true ->
        fst (es_pack_map_content malloc ctx pk
                                 (MSGPACK_OBJECT_MAP [(key, nested)]))
        = 0%Z)
  /\ (forall pk rest,
        es_pack_array_content malloc ctx pk
                              (MSGPACK_OBJECT_ARRAY (nested :: rest))
        = es_pack_array_content malloc ctx (cut pk)
                                (MSGPACK_OBJECT_ARRAY rest)).
Proof.
  intros Hpre Hk nested cut.
  assert (Hnested : forall pk,
             es_pack_map_content malloc ctx pk nested
             = ((-1)%Z, snd (es_pack_map_content malloc ctx pk
                                                 (MSGPACK_OBJECT_MAP pre)))).
  { intros pk. unfold nested.
    rewrite !es_pack_map_content_loop. now apply map_loop_refused. }
  assert (Hmap : forall pk key rest,
             key_fits malloc key = true ->
             es_pack_map_content malloc ctx pk
                                 (MSGPACK_OBJECT_MAP ((key, nested) :: rest))
             = es_pack_map_content
                 malloc ctx
                 (cut (pk ++ object_items
                               (MSGPACK_OBJECT_STR
                                  (sanitize_key_name ctx (key_ptr key)))))
                 (MSGPACK_OBJECT_MAP rest)).
  { intros pk key rest Hkey.
    rewrite (es_pack_map_content_loop malloc ctx pk ((key, nested) :: rest)).
    cbn [map_loop]. rewrite es_pack_map_key_spec, Hkey.
    unfold pack_sanitized_value, nested at 1.
    fold nested. rewrite Hnested. cbn [snd].
    now rewrite <- es_pack_map_content_loop. }
  split; [exact Hnested |]. split; [exact Hmap |]. split.
  - intros pk key Hkey. rewrite (Hmap pk key [] Hkey). reflexivity.
  - intros pk rest.
    rewrite (es_pack_array_content_loop malloc ctx pk (nested :: rest)).
    cbn [array_loop]. unfold pack_sanitized_value, nested at 1.
    fold nested. rewrite Hnested. cbn [snd].
    now rewrite <- es_pack_array_content_loop.
Qed.

End MoreSanitizerFacts.

(* ------------------------------------------------------------------ *)
(** ** Decimal conversions *)
(* ------------------------------------------------------------------ *)

Lemma digit_char_decimal (d : N) :
  (d < 10)%N ->
  is_decimal (digit_char d)
  /\ (N.of_nat (nat_of_ascii (digit_char d)) - 48 = d)%N.
Proof.
  intros Hd.
  assert (Hcases : d = 0%N \/ d = 1%N \/ d = 2%N \/ d = 3%N \/ d = 4%N
                   \/ d = 5%N \/ d = 6%N \/ d = 7%N \/ d = 8%N \/ d = 9%N)
    by lia.
  repeat (destruct Hcases as [-> | Hcases]; [split; [cbv; tauto | reflexivity] |]).
  subst d. split; [cbv; tauto | reflexivity].
Qed.

Lemma utoa_loop_decimal (fuel : nat) (n : N) (acc : bytes) :
  Forall is_decimal acc -> Forall is_decimal (utoa_loop fuel 10 n acc).
Proof.
  revert n acc. induction fuel as [| fuel IH]; intros n acc Hacc; [exact Hacc |].
  cbn [utoa_loop].
  assert (Hd : Forall is_decimal (digit_char (n mod 10) :: acc)).
  { constructor; [| exact Hacc]. apply digit_char_decimal. now apply N.mod_lt. }
  destruct (n / 10 =? 0)%N; [exact Hd | now apply IH].
Qed.

(** Read back, the digits written in front of [acc] denote [n]. *)
Lemma utoa_loop_value (fuel : nat) (n : N) (acc : bytes) :
  (n < 10 ^ N.of_nat fuel)%N ->
  fold_left (fun a c => (a * 10 + (N.of_nat (nat_of_ascii c) - 48))%N)
            (utoa_loop fuel 10 n acc) 0%N
  = fold_left (fun a c => (a * 10 + (N.of_nat (nat_of_ascii c) - 48))%N)
              acc n.
Proof.
  revert n acc. induction fuel as [| fuel IH]; intros n acc Hn.
  - change (N.of_nat 0) with 0%N in Hn. rewrite N.pow_0_r in Hn.
    assert (n = 0%N) by lia. subst n. reflexivity.
  - cbn [utoa_loop].
    assert (Hmod : (n mod 10 < 10)%N) by now apply N.mod_lt.
    destruct (digit_char_decimal Hmod) as [_ Hval].
    pose proof (N.div_mod n 10 ltac:(lia)) as Hdm.
    destruct (n / 10 =? 0)%N eqn:Hq.
    + apply N.eqb_eq in Hq. cbn [fold_left]. rewrite Hval. f_equal. lia.
    + rewrite IH.
      * cbn [fold_left]. rewrite Hval. f_equal. lia.
      * apply N.Div0.div_lt_upper_bound.
        rewrite Nat2N.inj_succ, N.pow_succ_r' in Hn. exact Hn.
Qed.

(** The conversion [%0w] in base ten of a number below [10^w]: exactly
    [w] decimal digits, which denote the number. *)
Lemma printf_0_decimal (w : nat) (n : N) :
  1 <= w -> (n < 10 ^ N.of_nat w)%N ->
  length (printf_0 w 10 n) = w
  /\ Forall is_decimal (printf_0 w 10 n)
  /\ decimal_value (printf_0 w 10 n) = n.
Proof.
  intros Hw Hn. unfold printf_0, utoa.
  pose proof (@utoa_loop_length w (S (N.size_nat n)) 10 n [] ltac:(lia) Hw Hn)
    as Hlen.
  cbn [length] in Hlen. split; [| split].
  - rewrite length_app, repeat_length. lia.
  - apply Forall_app. split.
    + apply Forall_forall. intros c Hc. apply repeat_spec in Hc. subst c.
      cbv. tauto.
    + apply utoa_loop_decimal. constructor.
  - unfold decimal_value. rewrite fold_left_app.
    assert (Hzeros : forall k,
               fold_left (fun a c => (a * 10 + (N.of_nat (nat_of_ascii c) - 48))%N)
                         (repeat "0"%char k) 0%N = 0%N).
    { induction k as [| k IHk]; [reflexivity | exact IHk]. }
    rewrite Hzeros, utoa_loop_value; [reflexivity |].
    eapply N.lt_le_trans; [apply size_nat_bound |].
    rewrite Nat2N.inj_succ, N.pow_succ_r'.
    assert (H2 : (2 ^ N.of_nat (N.size_nat n) <= 10 ^ N.of_nat (N.size_nat n))%N)
      by (apply N.pow_le_mono_l; lia).
    lia.
Qed.

(* ------------------------------------------------------------------ *)
(** ** Further properties of the formatter *)
(* ------------------------------------------------------------------ *)

Section MoreFormatterFacts.

Variable E : platform.
Variable ctx : flb_elasticsearch.
Variable tag : bytes.

Lemma format_records_filter st data :
  format_records E ctx tag st data
  = format_records E ctx tag st (filter two_entries data).
Proof.
  revert st. induction data as [| root rest IH]; intros st; [reflexivity |].
  cbn [filter]. destruct (two_entries root) eqn:Htwo.
  - cbn [format_records]. destruct (format_record E ctx tag st root);
      cbn [bind]; [apply IH | reflexivity | reflexivity].
  - cbn [format_records]. rewrite (format_record_skips E ctx tag st root Htwo).
    cbn [bind]. apply IH.
Qed.

(** Objects of the input that are not arrays of two entries leave no
    trace: the formatter gives the same result, in every respect, as on
    the input without them (the first object apart, which decides whether
    the batch is looked at). *)
Theorem malformed_records_leave_no_trace
        (entry : entry_values) (first : msgpack_object)
        (rest : list msgpack_object) :
  elasticsearch_format E ctx tag entry (first :: rest)
  = elasticsearch_format E ctx tag entry (first :: filter two_entries rest).
Proof.
  unfold elasticsearch_format. destruct first; try reflexivity.
  destruct (length elts =? 0); [reflexivity |].
  destruct (es_bulk_create E) as [bulk0 |]; [| reflexivity].
  destruct (preamble E ctx entry bulk0) as [st0 | z |]; cbn [bind];
    try reflexivity.
  cbn [format_records].
  destruct (format_record E ctx tag st0 (MSGPACK_OBJECT_ARRAY elts));
    cbn [bind]; try reflexivity.
  now rewrite format_records_filter.
Qed.

Lemma prologue_packer st root map pro :
  record_prologue E ctx tag st root map = Next pro ->
  exists tv,
    time_value E ctx (record_time E ctx st root) = Next tv
    /\ p_pck pro
       = I_map (S ((if include_tag_key ctx then S else fun n => n)
                     (match map with
                      | MSGPACK_OBJECT_MAP entries => length entries
                      | _ => 0
                      end)))
         :: object_items (MSGPACK_OBJECT_STR (time_key ctx))
         ++ object_items (MSGPACK_OBJECT_STR tv)
         ++ (if include_tag_key ctx
             then object_items (MSGPACK_OBJECT_STR (tag_key ctx))
                  ++ object_items (MSGPACK_OBJECT_STR tag)
             else []).
Proof.
  unfold record_prologue.
  destruct (lookup_prefix E ctx tag (logstash_index st) map) as [idx1 n].
  intros H. apply bind_next in H. destruct H as [tv [Htv H]].
  apply bind_next in H. destruct H as [[[idx2 es_index] j] [_ H]].
  exists tv. split; [exact Htv |].
  injection H as <-. cbn [p_pck].
  unfold msgpack_pack_str_body, msgpack_pack_str, msgpack_pack_map,
    msgpack_sbuffer_init.
  rewrite !firstn_all. cbn [object_items].
  destruct (include_tag_key ctx); cbn [app];
    rewrite ?firstn_all, ?Nat.add_1_r; reflexivity.
Qed.


Lemma strftime_max_fits max format t :
  length (strftime E format t) < max ->
  strftime_max E max format t = Some (strftime E format t).
Proof.
  intros H. unfold strftime_max.
  destruct (length (strftime E format t) <? max) eqn:Hlt; [reflexivity |].
  apply Nat.ltb_ge in Hlt. lia.
Qed.

(** The value of the time key. For a time whose nanoseconds are below one
    second and a time format whose expansion leaves room for the fraction,
    the value is the expansion of the format, a dot, a fraction of fixed
    width and the letter Z. The fraction has nine decimal digits that
    denote the nanoseconds when [time_key_nanos] is on, and three that
    denote the milliseconds, rounded down, when it is off. *)
Theorem time_value_has_a_fixed_width_fraction (t : flb_time) :
  (tv_nsec t < 1000000000)%N ->
  length (strftime E (time_key_format ctx) (gmtime_r E (tv_sec t))) < 244 ->
  exists digits,
    time_value E ctx t
    = Next (strftime E (time_key_format ctx) (gmtime_r E (tv_sec t))
            ++ B "." ++ digits ++ B "Z")
    /\ length digits = (if time_key_nanos ctx then 9 else 3)
    /\ Forall is_decimal digits
    /\ decimal_value digits
       = (if time_key_nanos ctx then tv_nsec t else (tv_nsec t / 1000000)%N).
Proof.
  intros Hns Hlen. unfold time_value.
  rewrite strftime_max_fits by (unfold sizeof_time_formatted; lia).
  set (s := strftime E (time_key_format ctx) (gmtime_r E (tv_sec t))) in *.
  assert (Hrun : forall digits,
             length digits <= 9 ->
             (let '(written, len) :=
                snprintf (sizeof_time_formatted - 1 - length s)
                         (B "." ++ digits ++ B "Z") in
              if len <=? length written + 1
              then Next (firstn (length s + len) (s ++ written ++ [NUL]))
              else Undefined)
             = Next (s ++ B "." ++ digits ++ B "Z")).
  { intros digits Hd. unfold snprintf, sizeof_time_formatted.
    assert (Hl : length (B "." ++ digits ++ B "Z") = length digits + 2).
    { rewrite !length_app. cbn [B list_ascii_of_string length]. lia. }
    rewrite firstn_all2 by lia.
    assert (Hle : (length (B "." ++ digits ++ B "Z")
                   <=? length (B "." ++ digits ++ B "Z") + 1) = true)
      by (apply Nat.leb_le; lia).
    rewrite Hle. f_equal.
    rewrite firstn_app, firstn_all2 by lia.
    replace (length s + length (B "." ++ digits ++ B "Z") - length s)
      with (length (B "." ++ digits ++ B "Z")) by lia.
    rewrite firstn_app, firstn_all, Nat.sub_diag. cbn [firstn].
    now rewrite app_nil_r. }
  destruct (time_key_nanos ctx).
  - destruct (@printf_0_decimal 9 (tv_nsec t) ltac:(lia) Hns) as [Hl [Hd Hv]].
    exists (printf_0 9 10 (tv_nsec t)).
    split; [| split; [exact Hl | split; [exact Hd | exact Hv]]].
    apply Hrun. lia.
  - assert (Hms : (tv_nsec t / 1000000 < 10 ^ N.of_nat 3)%N).
    { apply N.Div0.div_lt_upper_bound. exact Hns. }
    destruct (@printf_0_decimal 3 (tv_nsec t / 1000000)%N ltac:(lia) Hms)
      as [Hl [Hd Hv]].
    exists (printf_0 3 10 (tv_nsec t / 1000000)%N).
    split; [| split; [exact Hl | split; [exact Hd | exact Hv]]].
    apply Hrun. lia.
Qed.

Lemma expand_id_format_plain (fmt : bytes) :
  strstr (c_str fmt) (B "$[") = None ->
  length (c_str fmt) < sizeof_p_id_format ->
  forall mem, expand_id_format fmt mem = Next (c_str fmt).
Proof.
  intros Hnone Hlen mem. unfold expand_id_format. cbn [id_format_loop].
  rewrite Hnone. unfold id_cat. cbn [app].
  apply Nat.ltb_lt in Hlen. now rewrite Hlen.
Qed.

(** An id format without a placeholder. With the logstash format and id
    generation off and an [id_format] that holds no [$[] and has fewer
    than 300 bytes, the template is its own expansion, whatever the memory
    the expansion reads; and the action line made before the loop, which
    every record of the batch then gets, carries the template itself as
    the id. *)
Theorem id_format_without_placeholder_is_the_id (fmt : bytes) :
  logstash_format ctx = FLB_FALSE ->
  generate_id ctx = FLB_FALSE ->
  id_format ctx = Some fmt ->
  strstr (c_str fmt) (B "$[") = None ->
  length (c_str fmt) < 300 ->
  (forall mem, expand_id_format fmt mem = Next (c_str fmt))
  /\ (forall entry bulk0 st0,
        preamble E ctx entry bulk0 = Next st0 ->
        exists size,
          set_j_index E size
                      (action_line ctx (wall_clock_index E ctx)
                                   (Some (c_str fmt)))
          = Next (j_index st0, index_len st0)).
Proof.
  intros Hlog Hgen Hfmt Hnone Hlen.
  split; [now apply expand_id_format_plain |].
  intros entry bulk0 st0 Hpre. unfold preamble in Hpre.
  rewrite Hlog, Hgen in Hpre. cbn [negb andb bind] in Hpre.
  unfold pregenerate in Hpre. rewrite Hfmt in Hpre.
  destruct (strftime_max E (sizeof_index_formatted - 1) (index ctx)
                         (gmtime_r E (tv_sec (flb_time_get E 0))))
    as [es_index |] eqn:Hidx; [| discriminate].
  apply strftime_max_some in Hidx.
  destruct (flb_malloc E sizeof_p_id_format); [| discriminate].
  rewrite (expand_id_format_plain fmt Hnone Hlen) in Hpre. cbn [bind] in Hpre.
  destruct (index_line_id_is_action_line E ctx (ES_BULK_CHUNK E) es_index (c_str fmt))
    as [size [Hline _]].
  rewrite Hline in Hpre.
  destruct (set_j_index E size (action_line ctx es_index (Some (c_str fmt))))
    as [[j len] | z |] eqn:Hj; cbn [bind] in Hpre; try discriminate.
  injection Hpre as <-. cbn [j_index index_len fst snd].
  exists size. unfold wall_clock_index. rewrite <- Hidx. exact Hj.
Qed.

(** The action line and the array [j_index] of [ES_BULK_HEADER] bytes.
    A line shorter than the array reaches the bulk buffer whole. A line of
    exactly [ES_BULK_HEADER] bytes reaches it with its last byte, the
    newline, replaced by the NUL that [snprintf] wrote. For a longer line
    [index_len] exceeds the array and the copy reads past its end. *)
Theorem action_line_must_fit_the_header (line : bytes) :
  0 < ES_BULK_HEADER E ->
  (length line < ES_BULK_HEADER E ->
   action_bytes E (ES_BULK_HEADER E) line = Next line)
  /\ (length line = ES_BULK_HEADER E ->
      action_bytes E (ES_BULK_HEADER E) line
      = Next (firstn (ES_BULK_HEADER E - 1) line ++ [NUL]))
  /\ (ES_BULK_HEADER E < length line ->
      action_bytes E (ES_BULK_HEADER E) line = Undefined).
Proof.
  intros Hpos. split; [| split]; intros Hlen.
  - now apply action_bytes_fits.
  - unfold action_bytes, set_j_index.
    rewrite Nat.ltb_irrefl. cbn [andb bind snprintf fst snd].
    unfold j_index_bytes.
    assert (H1 : (length line <=? ES_BULK_HEADER E) = true)
      by (apply Nat.leb_le; lia).
    assert (H2 : (length line
                  <=? length (firstn (ES_BULK_HEADER E - 1) line) + 1) = true)
      by (apply Nat.leb_le; rewrite length_firstn; lia).
    rewrite H1, H2. cbn [andb]. f_equal.
    rewrite firstn_all2; [reflexivity |].
    rewrite length_app, length_firstn. cbn [length]. lia.
  - unfold action_bytes, set_j_index.
    rewrite Nat.ltb_irrefl. cbn [andb bind snprintf fst snd].
    unfold j_index_bytes.
    assert (H1 : (length line <=? ES_BULK_HEADER E) = false)
      by (apply Nat.leb_gt; lia).
    now rewrite H1.
Qed.

End MoreFormatterFacts.

(* ------------------------------------------------------------------ *)
(** ** The flush callback *)
(* ------------------------------------------------------------------ *)

Section FlushFacts.

Variable E : platform.
Variable T : transport.
Variable pack_json : bytes -> option msgpack_sbuffer.
Variable aws : bool.
Variable ctx : flb_elasticsearch.
Variable net : flb_elasticsearch_net.
Variable tag : bytes.

Lemma count_calls_app p a b :
  count_calls p (a ++ b) = count_calls p a + count_calls p b.
Proof. unfold count_calls. now rewrite filter_app, length_app. Qed.

(** The runs of [cb_es_flush] that return, sorted by the place where they
    leave the function. *)
Lemma cb_es_flush_returns entry data ret calls :
  cb_es_flush E T pack_json aws ctx net tag entry data = Flush_returns ret calls ->
  (flb_upstream_conn_get T = false /\ ret = FLB_RETRY /\ calls = [])
  \/ (flb_upstream_conn_get T = true
      /\ (exists z, elasticsearch_format E ctx tag entry data = Format_error z)
      /\ ret = FLB_ERROR /\ calls = [Upstream_conn_release])
  \/ (flb_upstream_conn_get T = true
      /\ exists pack size req sig go,
          elasticsearch_format E ctx tag entry data = Format_ok pack size
          /\ flb_http_client_created T = true
          /\ compose_request T aws net pack size = (req, sig, go)
          /\ ((go = false /\ ret = FLB_RETRY /\ calls = req ++ tail_calls)
              \/ (go = true
                  /\ send_request T pack_json ctx req sig
                     = Flush_returns ret calls))).
Proof.
  unfold cb_es_flush.
  destruct (flb_upstream_conn_get T); cbn [negb].
  - destruct (elasticsearch_format E ctx tag entry data) as [z | pack size |];
      [| | discriminate].
    + intros H. injection H as <- <-. right. left.
      repeat split; eauto.
    + destruct (flb_http_client_created T); cbn [negb]; [| discriminate].
      destruct (compose_request T aws net pack size) as [[req sig] go] eqn:Hreq.
      intros H. right. right. split; [reflexivity |].
      exists pack, size, req, sig, go.
      split; [reflexivity | split; [reflexivity | split; [exact Hreq |]]].
      clear Hreq. destruct go.
      * right. split; [reflexivity | exact H].
      * left. unfold retry in H. injection H as <- <-. now repeat split.
  - intros H. injection H as <- <-. left. now repeat split.
Qed.

(** The request is sent and the response judged: the flush is
    acknowledged exactly when the response is accepted. *)
Lemma send_request_returns req sig ret calls :
  send_request T pack_json ctx req sig = Flush_returns ret calls ->
  (ret = FLB_OK
   /\ calls = req ++ [Http_do] ++ tail_calls
                  ++ match sig with Some _ => [Sds_destroy] | None => [] end
   /\ exists c, flb_http_do T req = (0%Z, c)
                /\ (resp_status c = 200%Z \/ resp_status c = 201%Z)
                /\ resp_payload c <> []
                /\ elasticsearch_error_check pack_json ctx c = false)
  \/ (ret = FLB_RETRY
      /\ calls = req ++ [Http_do] ++ tail_calls
      /\ forall c, flb_http_do T req = (0%Z, c) ->
                   (resp_status c = 200%Z \/ resp_status c = 201%Z) ->
                   resp_payload c <> [] ->
                   elasticsearch_error_check pack_json ctx c = true).
Proof.
  unfold send_request, retry, cleanup.
  destruct (flb_http_do T req) as [r c] eqn:Hdo.
  destruct (r =? 0)%Z eqn:Hr; cbn [negb].
  - apply Z.eqb_eq in Hr. subst r.
    destruct (resp_status c =? 200)%Z eqn:H200; cbn [negb andb].
    + apply Z.eqb_eq in H200.
      destruct (0 <? resp_payload_size c)%Z eqn:Hsize.
      * destruct (elasticsearch_error_check pack_json ctx c) eqn:Hcheck;
          intros H; injection H as <- <-.
        -- right. rewrite <- app_assoc. repeat split.
           intros c' Hc' _ _. now injection Hc' as <-.
        -- left. rewrite <- !app_assoc. repeat split.
           exists c. repeat split; auto.
           intros Hnil. unfold resp_payload_size in Hsize. rewrite Hnil in Hsize.
           discriminate.
      * intros H; injection H as <- <-. right. rewrite <- app_assoc.
        repeat split. intros c' Hc' _ Hne. injection Hc' as <-.
        exfalso. apply Hne. unfold resp_payload_size in Hsize.
        destruct (resp_payload c); [reflexivity |].
        cbn [length] in Hsize. apply Z.ltb_ge in Hsize. lia.
    + destruct (resp_status c =? 201)%Z eqn:H201; cbn [negb].
      * apply Z.eqb_eq in H201.
        destruct (0 <? resp_payload_size c)%Z eqn:Hsize.
        -- destruct (elasticsearch_error_check pack_json ctx c) eqn:Hcheck;
             intros H; injection H as <- <-.
           ++ right. rewrite <- app_assoc. repeat split.
              intros c' Hc' _ _. now injection Hc' as <-.
           ++ left. rewrite <- !app_assoc. repeat split.
              exists c. repeat split; auto.
              intros Hnil. unfold resp_payload_size in Hsize.
              rewrite Hnil in Hsize. discriminate.
        -- intros H; injection H as <- <-. right. rewrite <- app_assoc.
           repeat split. intros c' Hc' _ Hne. injection Hc' as <-.
           exfalso. apply Hne. unfold resp_payload_size in Hsize.
           destruct (resp_payload c); [reflexivity |].
           cbn [length] in Hsize. apply Z.ltb_ge in Hsize. lia.
      * intros H; injection H as <- <-. right. rewrite <- app_assoc.
        repeat split. intros c' Hc' Hst _. injection Hc' as <-.
        apply Z.eqb_neq in H200, H201. destruct Hst; contradiction.
  - intros H; injection H as <- <-. right. rewrite <- app_assoc.
    repeat split. intros c' Hc'. injection Hc' as Hr' _.
    rewrite Hr' in Hr. discriminate.
Qed.

Ltac compose_cases H :=
  unfold compose_request, add_aws_auth, basic_auth, add_header in H;
  destruct aws;
  [ destruct (has_aws_auth net);
    [ destruct (flb_http_strip_port_from_host T _ <? 0)%Z;
      [| destruct (flb_signv4_do T _) eqn:?Hsign ]
    | ]
  | ];
  destruct (http_user net) as [hu |] eqn:?Hhu;
  destruct (http_passwd net) as [hp |] eqn:?Hhp;
  destruct (cloud_user net) as [cu |] eqn:?Hcu;
  destruct (cloud_passwd net) as [cp |] eqn:?Hcp;
  cbn [app] in H; try discriminate H; injection H; intros; subst.

(** The composed request holds the creation of one client and none of
    the calls that end a flush. *)
Lemma compose_request_lifecycle pack size req sig go :
  compose_request T aws net pack size = (req, sig, go) ->
  count_calls is_http_client req = 1
  /\ count_calls is_conn_release req = 0
  /\ count_calls is_client_destroy req = 0
  /\ count_calls is_free_pack req = 0
  /\ count_calls is_sds_destroy req = 0
  /\ count_calls is_http_do req = 0.
Proof.
  intros H. compose_cases H; repeat split; reflexivity.
Qed.

(** What a request that is sent carries: the client made for the payload
    and the URI of the context, the content type of the bulk API, and one
    user agent. *)
Lemma compose_request_headers pack size req sig :
  compose_request T aws net pack size = (req, sig, true) ->
  (exists rest,
      req = Http_client (uri net) pack size
            :: Http_buffer_size (buffer_size net) :: rest)
  /\ In (Http_add_header (B "Content-Type") (B "application/x-ndjson")) req
  /\ count_calls is_user_agent req = 1.
Proof.
  intros H. compose_cases H;
    (split; [eexists; reflexivity | split; [| reflexivity]]);
    cbn; tauto.
Qed.

(** The credentials of a request: those of [http_user] and [http_passwd]
    when both are set, those of [cloud_auth] when they are not and both
    of these are set, none otherwise. *)
Lemma compose_request_auth pack size req sig go user passwd :
  compose_request T aws net pack size = (req, sig, go) ->
  In (Http_basic_auth user passwd) req
  <-> (http_user net = Some user /\ http_passwd net = Some passwd)
      \/ ((http_user net = None \/ http_passwd net = None)
          /\ cloud_user net = Some user /\ cloud_passwd net = Some passwd).
Proof.
  intros H. compose_cases H; cbn; split;
    intros Hin;
    repeat match goal with
           | H : _ \/ _ |- _ => destruct H
           | H : _ /\ _ |- _ => destruct H
           | H : False |- _ => destruct H
           end;
    try discriminate; try congruence;
    try (match goal with
         | H : Http_basic_auth _ _ = Http_basic_auth _ _ |- _ =>
             injection H as <- <-
         end; tauto);
    try (match goal with
         | H1 : Some _ = Some _, H2 : Some _ = Some _ |- _ =>
             injection H1 as <-; injection H2 as <-
         end; tauto).
Qed.

(** The signature: there is one exactly when the plugin is compiled with
    AWS support, the context asks for AWS authentication and the request
    could be signed; it is what [flb_signv4_do] returned. *)
Lemma compose_request_signature pack size req sig go :
  compose_request T aws net pack size = (req, sig, go) ->
  (go = true ->
   count_calls is_signv4_do req = (if aws && has_aws_auth net then 1 else 0)
   /\ (aws && has_aws_auth net = true -> sig <> None)
   /\ (aws && has_aws_auth net = false -> sig = None))
  /\ (go = false -> sig = None /\ aws && has_aws_auth net = true)
  /\ (forall s, sig = Some s -> exists before, flb_signv4_do T before = Some s).
Proof.
  intros H. unfold compose_request, add_aws_auth, basic_auth, add_header in H.
  destruct aws; cbn [andb].
  - destruct (has_aws_auth net).
    + destruct (flb_http_strip_port_from_host T _ <? 0)%Z.
      * injection H as <- <- <-. repeat split; try discriminate.
      * destruct (flb_signv4_do T _) as [s |] eqn:Hsign.
        -- injection H as <- <- <-. repeat split; try discriminate.
           ++ destruct (http_user net), (http_passwd net), (cloud_user net),
                (cloud_passwd net); reflexivity.
           ++ intros s' Hs'. injection Hs' as <-. eexists. exact Hsign.
        -- injection H as <- <- <-. repeat split; try discriminate.
    + injection H as <- <- <-. repeat split; try discriminate.
      destruct (http_user net), (http_passwd net), (cloud_user net),
        (cloud_passwd net); reflexivity.
  - injection H as <- <- <-. repeat split; try discriminate.
    destruct (http_user net), (http_passwd net), (cloud_user net),
      (cloud_passwd net); reflexivity.
Qed.

(** A flush is acknowledged in one case only. [cb_es_flush] returns
    [FLB_OK] exactly when it gets a connection, the formatter returns a
    payload, the request can be composed (and signed, when asked), and
    [flb_http_do] returns 0 with a response whose status is 200 or 201,
    whose payload is not empty and in which the validator finds no
    error. The calls it has then made are those of the request, the
    sending, and the cleanup. *)
Theorem flush_is_acknowledged_only_on_a_validated_response
        (entry : entry_values) (data : list msgpack_object)
        (calls : list flush_call) :
  cb_es_flush E T pack_json aws ctx net tag entry data
  = Flush_returns FLB_OK calls
  <-> flb_upstream_conn_get T = true
      /\ exists pack size req sig c,
          elasticsearch_format E ctx tag entry data = Format_ok pack size
          /\ flb_http_client_created T = true
          /\ compose_request T aws net pack size = (req, sig, true)
          /\ flb_http_do T req = (0%Z, c)
          /\ (resp_status c = 200%Z \/ resp_status c = 201%Z)
          /\ resp_payload c <> []
          /\ elasticsearch_error_check pack_json ctx c = false
          /\ calls = req ++ [Http_do] ++ tail_calls
                         ++ match sig with
                            | Some _ => [Sds_destroy]
                            | None => []
                            end.
Proof.
  split.
  - intros H. apply cb_es_flush_returns in H.
    destruct H as [[_ [H _]] | [[_ [_ [H _]]] | [Hconn H]]]; try discriminate.
    destruct H as [pack [size [req [sig [go [Hfmt [Hcl [Hreq H]]]]]]]].
    destruct H as [[_ [H _]] | [-> H]]; [discriminate |].
    apply send_request_returns in H.
    destruct H as [[_ [Hcalls [c [Hdo [Hst [Hne Hcheck]]]]]] | [H _]];
      [| discriminate].
    split; [exact Hconn |]. exists pack, size, req, sig, c. now repeat split.
  - intros [Hconn [pack [size [req [sig [c H]]]]]].
    destruct H as [Hfmt [Hcl [Hreq [Hdo [Hst [Hne [Hcheck ->]]]]]]].
    unfold cb_es_flush. rewrite Hconn, Hfmt, Hcl, Hreq. cbn [negb].
    unfold send_request. rewrite Hdo. cbn [Z.eqb negb].
    assert (Hstatus : negb (resp_status c =? 200)%Z
                      && negb (resp_status c =? 201)%Z = false).
    { destruct Hst as [-> | ->]; reflexivity. }
    rewrite Hstatus.
    assert (Hsize : (0 <? resp_payload_size c)%Z = true).
    { unfold resp_payload_size. destruct (resp_payload c); [contradiction |].
      cbn [length]. apply Z.ltb_lt. lia. }
    rewrite Hsize, Hcheck. unfold cleanup. now rewrite <- !app_assoc.
Qed.

(** A failure of the formatter is not retried. With a connection at
    hand, [cb_es_flush] returns [FLB_ERROR] exactly when the formatter
    returns -1; it has then released the connection and done nothing
    else: no client is made and no request sent. A chunk that is empty,
    or whose first object is not an array or is an empty array, is such a
    failure. *)
Theorem formatter_failure_is_an_error_without_retry
        (entry : entry_values) (data : list msgpack_object) :
  flb_upstream_conn_get T = true ->
  (forall calls,
      cb_es_flush E T pack_json aws ctx net tag entry data
      = Flush_returns FLB_ERROR calls
      <-> (exists z, elasticsearch_format E ctx tag entry data = Format_error z)
          /\ calls = [Upstream_conn_release])
  /\ (data = []
      \/ (exists first rest,
             data = first :: rest
             /\ (is_type T_ARRAY first = false
                 \/ first = MSGPACK_OBJECT_ARRAY [])) ->
      cb_es_flush E T pack_json aws ctx net tag entry data
      = Flush_returns FLB_ERROR [Upstream_conn_release]).
Proof.
  intros Hconn.
  assert (Herr : forall z,
             elasticsearch_format E ctx tag entry data = Format_error z ->
             cb_es_flush E T pack_json aws ctx net tag entry data
             = Flush_returns FLB_ERROR [Upstream_conn_release]).
  { intros z Hz. unfold cb_es_flush. now rewrite Hconn, Hz. }
  split.
  - intros calls. split.
    + intros H. apply cb_es_flush_returns in H.
      destruct H as [[_ [H _]] | [[_ [Hz [_ Hcalls]]] | [_ H]]];
        [discriminate | now split |].
      destruct H as [pack [size [req [sig [go [_ [_ [_ H]]]]]]]].
      destruct H as [[_ [H _]] | [_ H]]; [discriminate |].
      apply send_request_returns in H.
      destruct H as [[H _] | [H _]]; discriminate.
    + intros [[z Hz] ->]. now apply Herr with z.
  - intros [-> | [first [rest [-> Hfirst]]]].
    + now apply Herr with false.
    + apply Herr with false. unfold elasticsearch_format.
      destruct Hfirst as [Hty | ->]; [| reflexivity].
      destruct first; try reflexivity; discriminate.
Qed.

(** What a flush takes it gives back, once. In every run that returns:
    the connection is released once when one was obtained, and never
    otherwise; a client is made when, and only when, the formatter has
    returned a payload; the client is then destroyed once and the payload
    freed once; and the request is sent at most once. *)
Theorem flush_releases_what_it_takes
        (entry : entry_values) (data : list msgpack_object)
        (ret : flb_output_return) (calls : list flush_call) :
  cb_es_flush E T pack_json aws ctx net tag entry data = Flush_returns ret calls ->
  count_calls is_conn_release calls
  = (if flb_upstream_conn_get T then 1 else 0)
  /\ count_calls is_http_client calls
     = (match elasticsearch_format E ctx tag entry data with
        | Format_ok _ _ => if flb_upstream_conn_get T then 1 else 0
        | _ => 0
        end)
  /\ count_calls is_client_destroy calls = count_calls is_http_client calls
  /\ count_calls is_free_pack calls = count_calls is_http_client calls
  /\ count_calls is_http_do calls <= 1.
Proof.
  intros H. apply cb_es_flush_returns in H.
  destruct H as [[Hconn [_ ->]] | [[Hconn [[z Hz] [_ ->]]] | [Hconn H]]].
  - rewrite Hconn. destruct (elasticsearch_format E ctx tag entry data);
      repeat split; cbn; lia.
  - rewrite Hconn, Hz. repeat split; cbn; lia.
  - destruct H as [pack [size [req [sig [go [Hfmt [_ [Hreq H]]]]]]]].
    rewrite Hconn, Hfmt.
    destruct (compose_request_lifecycle _ _ Hreq)
      as [Hc [Hr [Hd [Hf [_ Hdo]]]]].
    destruct H as [[_ [_ ->]] | [_ H]].
    + rewrite !count_calls_app, Hc, Hr, Hd, Hf, Hdo. repeat split; cbn; lia.
    + apply send_request_returns in H.
      destruct H as [[_ [-> _]] | [_ [-> _]]];
        rewrite !count_calls_app, Hc, Hr, Hd, Hf, Hdo;
        destruct sig; repeat split; cbn; lia.
Qed.

(** The signature is destroyed only when the flush is acknowledged. In
    a run that returns [FLB_OK] the signature, if there is one, is
    destroyed once. In a run that returns anything else it is never
    destroyed: when the request was signed and sent and the flush is then
    retried (the sending failed, or the response was not accepted), the
    signature [flb_signv4_do] returned is left allocated. *)
Theorem signature_is_destroyed_only_on_success
        (entry : entry_values) (data : list msgpack_object)
        (ret : flb_output_return) (calls : list flush_call) :
  cb_es_flush E T pack_json aws ctx net tag entry data = Flush_returns ret calls ->
  (ret = FLB_OK ->
   count_calls is_sds_destroy calls = count_calls is_signv4_do calls)
  /\ (ret <> FLB_OK -> count_calls is_sds_destroy calls = 0)
  /\ (ret = FLB_RETRY ->
      count_calls is_http_do calls = 1 ->
      aws && has_aws_auth net = true ->
      exists before signature,
        flb_signv4_do T before = Some signature
        /\ count_calls is_signv4_do calls = 1
        /\ count_calls is_sds_destroy calls = 0).
Proof.
  intros H. apply cb_es_flush_returns in H.
  destruct H as [[Hconn [-> ->]] | [[Hconn [[z Hz] [-> ->]]] | [Hconn H]]].
  - repeat split; try discriminate; try reflexivity;
      intros _ Hdo; discriminate Hdo.
  - repeat split; try discriminate; try reflexivity;
      intros _ Hdo; discriminate Hdo.
  - destruct H as [pack [size [req [sig [go [Hfmt [_ [Hreq H]]]]]]]].
    destruct (compose_request_lifecycle _ _ Hreq)
      as [_ [_ [_ [_ [Hs Hdo]]]]].
    destruct (compose_request_signature _ _ Hreq) as [Hgo [Hstop Hsig]].
    destruct H as [[-> [-> ->]] | [-> H]].
    + repeat split; try discriminate.
      * now rewrite count_calls_app, Hs.
      * intros _ Hsent. rewrite count_calls_app, Hdo in Hsent.
        discriminate Hsent.
    + destruct (Hgo eq_refl) as [Hcount [Hsome Hnone]].
      apply send_request_returns in H.
      destruct H as [[-> [-> _]] | [-> [-> _]]].
      * repeat split; try discriminate; [| congruence].
        intros _. rewrite !count_calls_app, Hs, Hcount.
        destruct (aws && has_aws_auth net).
        -- destruct sig; [reflexivity | now elim (Hsome eq_refl)].
        -- now rewrite (Hnone eq_refl).
      * repeat split; try discriminate.
        -- intros _. now rewrite !count_calls_app, Hs.
        -- intros _ _ Haws. rewrite Haws in Hcount.
           destruct sig as [s |]; [| now elim (Hsome Haws)].
           destruct (Hsig s eq_refl) as [before Hbefore].
           exists before, s. split; [exact Hbefore |].
           rewrite !count_calls_app, Hs, Hcount. split; reflexivity.
Qed.

(** What every request that is sent carries. In a run in which
    [flb_http_do] is called, the calls start with the creation of a
    client for the payload the formatter returned and the URI of the
    context, followed by the limit of the response buffer; the content
    type of the bulk API is set; one user agent is set; and the
    credentials are those of [http_user] and [http_passwd] when both are
    set, those of [cloud_auth] when they are not and both of these are
    set, none otherwise. *)
Theorem sent_request_is_well_formed
        (entry : entry_values) (data : list msgpack_object)
        (ret : flb_output_return) (calls : list flush_call) :
  cb_es_flush E T pack_json aws ctx net tag entry data = Flush_returns ret calls ->
  In Http_do calls ->
  (exists pack size rest,
      elasticsearch_format E ctx tag entry data = Format_ok pack size
      /\ calls = Http_client (uri net) pack size
                 :: Http_buffer_size (buffer_size net) :: rest)
  /\ In (Http_add_header (B "Content-Type") (B "application/x-ndjson")) calls
  /\ count_calls is_user_agent calls = 1
  /\ (forall user passwd,
        In (Http_basic_auth user passwd) calls
        <-> (http_user net = Some user /\ http_passwd net = Some passwd)
            \/ ((http_user net = None \/ http_passwd net = None)
                /\ cloud_user net = Some user
                /\ cloud_passwd net = Some passwd)).
Proof.
  intros H Hsent. apply cb_es_flush_returns in H.
  destruct H as [[_ [_ ->]] | [[_ [_ [_ ->]]] | [_ H]]].
  - destruct Hsent.
  - destruct Hsent as [Hx | []]. discriminate Hx.
  - destruct H as [pack [size [req [sig [go [Hfmt [_ [Hreq H]]]]]]]].
    assert (Hnot : ~ In Http_do req).
    { intros Hin. destruct (compose_request_lifecycle _ _ Hreq)
        as [_ [_ [_ [_ [_ Hdo]]]]].
      unfold count_calls in Hdo.
      assert (Hf : In Http_do (filter is_http_do req))
        by (apply filter_In; now split).
      destruct (filter is_http_do req); [destruct Hf | discriminate Hdo]. }
    destruct H as [[-> [_ ->]] | [-> H]].
    + exfalso. apply in_app_or in Hsent. destruct Hsent as [Hs | Hs];
        [now apply Hnot |].
      cbn in Hs. repeat (destruct Hs as [Hs | Hs]; [discriminate Hs |]).
      destruct Hs.
    + destruct (compose_request_headers _ _ Hreq) as [[rest Hrest] [Hct Hua]].
      pose proof (fun user passwd =>
                    compose_request_auth _ _ user passwd Hreq) as Hauth.
      assert (Hcalls : exists tail,
                 calls = req ++ tail
                 /\ count_calls is_user_agent tail = 0
                 /\ forall user passwd, ~ In (Http_basic_auth user passwd) tail).
      { apply send_request_returns in H.
        destruct H as [[_ [-> _]] | [_ [-> _]]]; eexists;
          (split; [reflexivity | split; [destruct sig; reflexivity |]]);
          intros user passwd Hin; cbn in Hin;
          repeat (destruct Hin as [Hin | Hin]; [discriminate Hin |]);
          destruct sig; cbn in Hin;
          repeat (destruct Hin as [Hin | Hin]; [discriminate Hin |]);
          destruct Hin. }
      destruct Hcalls as [tail [-> [Htail Hnoauth]]].
      split; [| split; [| split]].
      * exists pack, size, (rest ++ tail). split; [exact Hfmt |].
        rewrite Hrest. reflexivity.
      * apply in_or_app. now left.
      * now rewrite count_calls_app, Hua, Htail.
      * intros user passwd. rewrite <- Hauth. split.
        -- intros Hin. apply in_app_or in Hin. destruct Hin as [Hin | Hin];
             [exact Hin | now elim (Hnoauth user passwd)].
        -- intros Hin. apply in_or_app. now left.
Qed.

(** With AWS authentication the request is composed in one of three
    ways: the port cannot be stripped, the request cannot be signed, or
    it is signed. *)
Lemma compose_request_signed pack size req sig go :
  aws = true -> has_aws_auth net = true ->
  compose_request T aws net pack size = (req, sig, go) ->
  exists head,
    ~ In Http_do head
    /\ ((flb_http_strip_port_from_host T head < 0)%Z
        /\ req = head ++ [Http_strip_port_from_host]
        /\ sig = None /\ go = false
        \/ (0 <= flb_http_strip_port_from_host T head)%Z
           /\ exists signed,
               signed = head ++ [Http_strip_port_from_host;
                                 Http_add_header (B "User-Agent")
                                                 (B "aws-fluent-bit-plugin")]
               /\ (flb_signv4_do T signed = None
                   /\ req = signed ++ [Signv4_do (aws_region net) (B "es")
                                                 (aws_provider net)]
                   /\ sig = None /\ go = false
                   \/ exists s,
                       flb_signv4_do T signed = Some s
                       /\ req = signed ++ [Signv4_do (aws_region net) (B "es")
                                                     (aws_provider net);
                                           Http_client_debug]
                       /\ sig = Some s /\ go = true)).
Proof.
  intros Haws Hauth H.
  unfold compose_request in H. rewrite Hauth in H.
  destruct aws; [| discriminate Haws].
  match type of H with
  | context [add_aws_auth T net ?h] => remember h as head eqn:Hhead
  end.
  exists head. split.
  { subst head. unfold basic_auth, add_header.
    destruct (http_user net), (http_passwd net), (cloud_user net),
      (cloud_passwd net); cbn; intros Hin;
      repeat (destruct Hin as [Hin | Hin]; [discriminate Hin |]);
      destruct Hin. }
  clear Hhead. unfold add_aws_auth in H.
  destruct (flb_http_strip_port_from_host T head <? 0)%Z eqn:Hstrip.
  - apply Z.ltb_lt in Hstrip. injection H as <- <- <-. left. now repeat split.
  - apply Z.ltb_ge in Hstrip. right. split; [exact Hstrip |].
    match type of H with
    | context [flb_signv4_do T ?c] => remember c as signed eqn:Hsigned
    end.
    exists signed. split.
    { rewrite Hsigned, <- app_assoc. reflexivity. }
    clear Hsigned.
    destruct (flb_signv4_do T signed) as [s |].
    + right. exists s. injection H as <- <- <-.
      rewrite <- app_assoc. now repeat split.
    + left. injection H as <- <- <-. now repeat split.
Qed.

(** With AWS authentication on, no request leaves unsigned. In a run in
    which [flb_http_do] is called, the port has been stripped from the
    host header, the user agent of the AWS plugin set, and
    [flb_signv4_do] called for the region and the provider of the
    context and the service [es], and it has returned a signature; the
    request is sent right after. When the port cannot be stripped or the
    signing fails, the flush is retried and nothing is sent. *)
Theorem aws_request_is_signed_before_it_is_sent
        (entry : entry_values) (data : list msgpack_object)
        (ret : flb_output_return) (calls : list flush_call) :
  aws = true -> has_aws_auth net = true ->
  cb_es_flush E T pack_json aws ctx net tag entry data = Flush_returns ret calls ->
  (In Http_do calls ->
   exists head after signature,
     calls = head ++ [Http_strip_port_from_host;
                      Http_add_header (B "User-Agent")
                                      (B "aws-fluent-bit-plugin");
                      Signv4_do (aws_region net) (B "es") (aws_provider net);
                      Http_client_debug; Http_do] ++ after
     /\ ~ In Http_do head
     /\ (0 <= flb_http_strip_port_from_host T head)%Z
     /\ flb_signv4_do T (head ++ [Http_strip_port_from_host;
                                  Http_add_header (B "User-Agent")
                                                  (B "aws-fluent-bit-plugin")])
        = Some signature)
  /\ ((forall before, (flb_http_strip_port_from_host T before < 0)%Z)
      \/ (forall before, flb_signv4_do T before = None) ->
      ~ In Http_do calls /\ ret <> FLB_OK).
Proof.
  intros Haws Hauth H. apply cb_es_flush_returns in H.
  destruct H as [[_ [-> ->]] | [[_ [_ [-> ->]]] | [_ H]]].
  - split; [intros [] | intros _; split; [intros [] | discriminate]].
  - split; [intros [Hx | []]; discriminate Hx |].
    intros _. split; [intros [Hx | []]; discriminate Hx | discriminate].
  - destruct H as [pack [size [req [sig [go [_ [_ [Hreq H]]]]]]]].
    apply (@compose_request_signed _ _ _ _ _ Haws Hauth) in Hreq.
    destruct Hreq as [head [Hhead Hreq]].
    destruct Hreq
      as [[Hstrip [-> [-> ->]]]
         | [Hstrip [signed [-> [[Hsign [-> [-> ->]]]
                               | [s [Hsign [-> [-> ->]]]]]]]]].
    + destruct H as [[_ [-> ->]] | [Hgo _]]; [| discriminate Hgo].
      assert (Hnot : ~ In Http_do
                       ((head ++ [Http_strip_port_from_host]) ++ tail_calls)).
      { intros Hin. rewrite !in_app_iff in Hin. cbn in Hin.
        intuition discriminate. }
      split; [intros Hin; now elim Hnot |].
      intros _. split; [exact Hnot | discriminate].
    + destruct H as [[_ [-> ->]] | [Hgo _]]; [| discriminate Hgo].
      match goal with
      | |- (In Http_do ?l -> _) /\ _ => assert (Hnot : ~ In Http_do l)
      end.
      { intros Hin. rewrite !in_app_iff in Hin. cbn in Hin.
        intuition discriminate. }
      split; [intros Hin; now elim Hnot |].
      intros _. split; [exact Hnot | discriminate].
    + destruct H as [[Hgo _] | [_ H]]; [discriminate Hgo |].
      apply send_request_returns in H. split.
      * intros _. exists head.
        destruct H as [[_ [-> _]] | [_ [-> _]]]; eexists; exists s;
          (split; [rewrite <- !app_assoc; cbn [app]; reflexivity |]);
          (split; [exact Hhead | split; [exact Hstrip | exact Hsign]]).
      * intros [Hx | Hx]; exfalso.
        -- specialize (Hx head). lia.
        -- rewrite Hx in Hsign. discriminate Hsign.
Qed.

End FlushFacts.

(* ------------------------------------------------------------------ *)
(** ** The cloud host *)
(* ------------------------------------------------------------------ *)

Lemma and_then_returns {A C : Type} (m : outcome A) (k : A -> outcome C) (c : C) :
  and_then m k = Returns c -> exists a, m = Returns a /\ k a = Returns c.
Proof. destruct m as [a |]; [now exists a | discriminate]. Qed.

Lemma after_char_app (c : ascii) (name rest : bytes) :
  ~ In c name -> after_char c (name ++ c :: rest) = Some rest.
Proof.
  induction name as [| x name IH]; intros Hnot.
  - cbn. now rewrite Ascii.eqb_refl.
  - cbn. destruct (Ascii.eqb x c) eqn:Hx.
    + apply Ascii.eqb_eq in Hx. subst x. exfalso. apply Hnot. now left.
    + apply IH. intros Hin. apply Hnot. now right.
Qed.

(** A token: bytes that are neither NUL nor the delimiter. *)
Lemma strtok_scan_token (mem tok rest : bytes) :
  strtok_scan mem = Returns (tok, rest) ->
  ~ In NUL tok /\ ~ In dollar tok
  /\ ((mem = tok ++ rest /\ hd dollar rest = NUL)
      \/ mem = tok ++ dollar :: rest).
Proof.
  revert tok rest. induction mem as [| c mem IH]; intros tok rest H;
    [discriminate |].
  cbn [strtok_scan] in H.
  destruct (Ascii.eqb c NUL) eqn:Hnul.
  - injection H as <- <-. apply Ascii.eqb_eq in Hnul. subst c.
    repeat split; auto.
  - destruct (Ascii.eqb c dollar) eqn:Hdol.
    + injection H as <- <-. apply Ascii.eqb_eq in Hdol. subst c.
      repeat split; auto.
    + apply and_then_returns in H. destruct H as [[tok' rest'] [Hscan H]].
      injection H as <- <-. cbn [fst snd].
      destruct (IH _ _ Hscan) as [Hn [Hd Hmem]].
      apply Ascii.eqb_neq in Hnul, Hdol.
      split; [| split].
      * intros [Heq | Hin]; [now apply Hnul | now apply Hn].
      * intros [Heq | Hin]; [now apply Hdol | now apply Hd].
      * destruct Hmem as [[-> Hhd] | ->]; [left | right]; auto.
Qed.

Lemma strtok_scan_dollar (tok rest : bytes) :
  ~ In NUL tok -> ~ In dollar tok ->
  strtok_scan (tok ++ dollar :: rest) = Returns (tok, rest).
Proof.
  induction tok as [| c tok IH]; intros Hn Hd.
  - reflexivity.
  - cbn [app strtok_scan].
    assert (Hc1 : Ascii.eqb c NUL = false).
    { apply Ascii.eqb_neq. intros ->. apply Hn. now left. }
    assert (Hc2 : Ascii.eqb c dollar = false).
    { apply Ascii.eqb_neq. intros ->. apply Hd. now left. }
    rewrite Hc1, Hc2, IH; [reflexivity | |];
      intros Hin; [apply Hn | apply Hd]; now right.
Qed.

Lemma strtok_scan_nul (tok rest : bytes) :
  ~ In NUL tok -> ~ In dollar tok ->
  strtok_scan (tok ++ NUL :: rest) = Returns (tok, NUL :: rest).
Proof.
  induction tok as [| c tok IH]; intros Hn Hd.
  - reflexivity.
  - cbn [app strtok_scan].
    assert (Hc1 : Ascii.eqb c NUL = false).
    { apply Ascii.eqb_neq. intros ->. apply Hn. now left. }
    assert (Hc2 : Ascii.eqb c dollar = false).
    { apply Ascii.eqb_neq. intros ->. apply Hd. now left. }
    rewrite Hc1, Hc2, IH; [reflexivity | |];
      intros Hin; [apply Hn | apply Hd]; now right.
Qed.

(** In memory that holds a NUL the scans stay inside it. *)
Lemma strtok_skip_terminated (mem : bytes) :
  In NUL mem ->
  exists c rest,
    strtok_skip mem = Returns (c :: rest)
    /\ c <> dollar /\ In NUL (c :: rest)
    /\ length (c :: rest) <= length mem.
Proof.
  induction mem as [| c mem IH]; intros Hin; [destruct Hin |].
  cbn [strtok_skip]. destruct (Ascii.eqb c dollar) eqn:Hc.
  - apply Ascii.eqb_eq in Hc. subst c.
    destruct Hin as [Heq | Hin]; [discriminate Heq |].
    destruct (IH Hin) as [c' [rest [Hs [Hne [Hnul Hlen]]]]].
    exists c', rest. repeat split; auto. cbn [length] in *. lia.
  - exists c, mem. apply Ascii.eqb_neq in Hc. repeat split; auto.
Qed.

Lemma strtok_scan_terminated (mem : bytes) :
  In NUL mem -> exists tok rest, strtok_scan mem = Returns (tok, rest).
Proof.
  induction mem as [| c mem IH]; intros Hin; [destruct Hin |].
  cbn [strtok_scan]. destruct (Ascii.eqb c NUL) eqn:Hnul; [eauto |].
  destruct (Ascii.eqb c dollar) eqn:Hdol; [eauto |].
  destruct Hin as [Heq | Hin].
  - subst c. discriminate Hnul.
  - destruct (IH Hin) as [tok [rest ->]]. cbn [and_then]. eauto.
Qed.

(** What [strtok] gives in memory that holds a NUL: no token, or a token
    that is not empty, with the memory behind it. *)
Lemma strtok_terminated (mem : bytes) :
  In NUL mem ->
  strtok mem = Returns None
  \/ exists tok rest,
      strtok mem = Returns (Some (tok, rest))
      /\ tok <> [] /\ ~ In NUL tok /\ ~ In dollar tok
      /\ ((hd dollar rest = NUL /\ length tok + length rest <= length mem)
          \/ (In NUL rest /\ length tok + 1 + length rest <= length mem)).
Proof.
  intros Hin. unfold strtok.
  destruct (strtok_skip_terminated _ Hin) as [c [start [-> [Hne [Hnul Hlen]]]]].
  cbn [and_then]. destruct (Ascii.eqb c NUL) eqn:Hc; [now left |].
  right. destruct (strtok_scan_terminated _ Hnul) as [tok [rest Hscan]].
  rewrite Hscan. cbn [and_then]. exists tok, rest. split; [reflexivity |].
  destruct (strtok_scan_token _ Hscan) as [Hn [Hd Hmem]].
  split; [| split; [exact Hn | split; [exact Hd |]]].
  - intros ->. cbn [strtok_scan] in Hscan. rewrite Hc in Hscan.
    apply Ascii.eqb_neq in Hne. rewrite Hne in Hscan.
    destruct (strtok_scan start) as [[t r] |]; discriminate Hscan.
  - destruct Hmem as [[Hmem Hhd] | Hmem].
    + left. split; [exact Hhd |].
      rewrite <- (length_app tok rest), <- Hmem. exact Hlen.
    + right. split.
      * rewrite Hmem in Hnul. apply in_app_or in Hnul.
        destruct Hnul as [Hx | [Hx | Hx]];
          [now elim Hn | discriminate Hx | exact Hx].
      * assert (Hl : length (c :: start) = length tok + S (length rest))
          by (rewrite Hmem, length_app; reflexivity).
        lia.
Qed.

Lemma strtok_some_token (mem tok rest : bytes) :
  strtok mem = Returns (Some (tok, rest)) ->
  tok <> [] /\ ~ In NUL tok /\ ~ In dollar tok.
Proof.
  unfold strtok. intros H. apply and_then_returns in H.
  destruct H as [start [Hskip H]].
  destruct start as [| c start]; [discriminate |].
  destruct (Ascii.eqb c NUL) eqn:Hc; [discriminate |].
  apply and_then_returns in H. destruct H as [[t r] [Hscan H]].
  injection H as <- <-.
  destruct (strtok_scan_token _ Hscan) as [Hn [Hd _]].
  split; [| split; assumption].
  intros ->. cbn [strtok_scan] in Hscan. rewrite Hc in Hscan.
  assert (Hne : Ascii.eqb c dollar = false).
  { clear Hscan. revert Hskip. induction mem as [| x mem IH]; [discriminate |].
    cbn [strtok_skip]. destruct (Ascii.eqb x dollar) eqn:Hx; [exact IH |].
    intros H. injection H as <- _. exact Hx. }
  rewrite Hne in Hscan.
  destruct (strtok_scan start) as [[t' r'] |]; discriminate Hscan.
Qed.

Lemma strtok_skip_token (c : ascii) (mem : bytes) :
  c <> dollar -> strtok_skip (c :: mem) = Returns (c :: mem).
Proof.
  intros Hc. cbn [strtok_skip]. apply Ascii.eqb_neq in Hc. now rewrite Hc.
Qed.

Lemma in_repeat_nul (k : nat) : 0 < k -> In NUL (repeat NUL k).
Proof. destruct k; [lia | now left]. Qed.

Lemma strtok_scan_runs_off (mem : bytes) :
  ~ In NUL mem -> ~ In dollar mem -> strtok_scan mem = Undefined_behaviour.
Proof.
  induction mem as [| c mem IH]; intros Hn Hd; [reflexivity |].
  cbn [strtok_scan].
  assert (Hc1 : Ascii.eqb c NUL = false).
  { apply Ascii.eqb_neq. intros ->. apply Hn. now left. }
  assert (Hc2 : Ascii.eqb c dollar = false).
  { apply Ascii.eqb_neq. intros ->. apply Hd. now left. }
  rewrite Hc1, Hc2, IH; [reflexivity | |];
    intros Hin; [apply Hn | apply Hd]; now right.
Qed.

Lemma strtok_at_nul (rest : bytes) : strtok (NUL :: rest) = Returns None.
Proof. reflexivity. Qed.

Section CloudHostFacts.

Variable V : conf_env.

(** The host of a cloud id. For a cloud id made of a name without a
    colon, a colon and a text that decodes, into fewer than 256 bytes, to
    a region, a dollar sign, a host and then nothing or a dollar sign and
    more, region and host being not empty and free of dollar signs and
    NUL: the function returns the host, a dot and the region (when
    [flb_sds_create] gets its memory). *)
Theorem cloud_host_of_a_cloud_id
        (name encoded region host more : bytes) :
  ~ In ":"%char name ->
  ~ In NUL (name ++ ":"%char :: encoded) ->
  mbedtls_base64_decode V 256 encoded = Some (region ++ dollar :: host ++ more) ->
  length (region ++ dollar :: host ++ more) < 256 ->
  region <> [] -> host <> [] ->
  ~ In NUL region -> ~ In dollar region ->
  ~ In NUL host -> ~ In dollar host ->
  more = [] \/ hd NUL more = dollar ->
  flb_sds_create_ok V (host ++ B "." ++ region) = true ->
  extract_cloud_host V (name ++ ":"%char :: encoded)
  = Returns (Some (host ++ B "." ++ region)).
Proof.
  intros Hname Hnul Hdec Hlen Hr Hh Hrn Hrd Hhn Hhd Hmore Hsds.
  unfold extract_cloud_host.
  rewrite (@c_str_no_nul _ Hnul), (@after_char_app _ _ encoded Hname).
  unfold sizeof_buf. rewrite Hdec.
  assert (Hfits : (256 <? length (region ++ dollar :: host ++ more)) = false)
    by (apply Nat.ltb_ge; lia).
  rewrite Hfits. unfold decoded_buf, sizeof_buf.
  destruct region as [| r0 region]; [contradiction |].
  destruct host as [| h0 host]; [contradiction |].
  assert (Hr0 : r0 <> dollar) by (intros ->; apply Hrd; now left).
  assert (Hh0 : h0 <> dollar) by (intros ->; apply Hhd; now left).
  assert (Hr0n : Ascii.eqb r0 NUL = false)
    by (apply Ascii.eqb_neq; intros ->; apply Hrn; now left).
  assert (Hh0n : Ascii.eqb h0 NUL = false)
    by (apply Ascii.eqb_neq; intros ->; apply Hhn; now left).
  unfold strtok at 1. rewrite <- !app_assoc. cbn [app].
  rewrite (@strtok_skip_token _ _ Hr0). cbn [and_then]. rewrite Hr0n.
  match goal with
  | |- context [strtok_scan (r0 :: region ++ dollar :: ?x)] =>
      pose proof (@strtok_scan_dollar (r0 :: region) x Hrn Hrd) as Hs1
  end.
  cbn [app] in Hs1. rewrite Hs1. clear Hs1. cbn [and_then].
  unfold strtok. rewrite (@strtok_skip_token _ _ Hh0). cbn [and_then].
  rewrite Hh0n. rewrite <- ?app_assoc.
  match goal with
  | |- context [strtok_scan (h0 :: host ++ more ++ ?pad)] =>
      assert (Hscan : exists saved,
                 strtok_scan (h0 :: host ++ more ++ pad)
                 = Returns (h0 :: host, saved));
      [ assert (Hpad : exists k, pad = NUL :: repeat NUL k)
      | ]
  end.
  { match goal with
    | |- exists k, repeat NUL ?n = _ =>
        assert (Hn : exists k, n = S k)
    end.
    { eexists (255 - length (r0 :: region ++ dollar :: h0 :: host ++ more)).
      repeat (rewrite ?length_app in *; cbn [length] in *). lia. }
    destruct Hn as [k ->]. exists k. reflexivity. }
  { destruct Hpad as [k ->].
    destruct Hmore as [-> | Hmore].
    - cbn [app].
      pose proof (@strtok_scan_nul (h0 :: host) (repeat NUL k) Hhn Hhd) as Hs2.
      cbn [app] in Hs2. rewrite Hs2. eauto.
    - destruct more as [| m0 more]; [discriminate Hmore |].
      cbn [hd] in Hmore. subst m0. cbn [app].
      pose proof (@strtok_scan_dollar (h0 :: host)
                                      (more ++ NUL :: repeat NUL k) Hhn Hhd)
        as Hs2.
      cbn [app] in Hs2. rewrite Hs2. eauto. }
  destruct Hscan as [saved Hscan]. rewrite Hscan. cbn [and_then].
  unfold cloud_host_string, sizeof_cloud_host_buf.
  assert (Hroom : (length ((h0 :: host) ++ B "." ++ r0 :: region) <? 256) = true).
  { apply Nat.ltb_lt.
    repeat (rewrite ?length_app in *;
            cbn [length B list_ascii_of_string] in *).
    lia. }
  rewrite Hroom. cbn [and_then]. now rewrite Hsds.
Qed.

Lemma decoded_buf_length (decoded : bytes) :
  length decoded <= 256 -> length (decoded_buf decoded) = 256.
Proof.
  intros H. unfold decoded_buf, sizeof_buf. rewrite length_app, repeat_length.
  lia.
Qed.

(** Whatever host the function returns is well formed: a host, a dot and
    a region, both of them not empty and free of dollar signs and NUL,
    in a string that fits the array it was built in. *)
Theorem cloud_host_is_well_formed (cloud_id s : bytes) :
  extract_cloud_host V cloud_id = Returns (Some s) ->
  exists region host,
    s = host ++ B "." ++ region
    /\ region <> [] /\ host <> []
    /\ ~ In dollar region /\ ~ In dollar host
    /\ ~ In NUL region /\ ~ In NUL host
    /\ length s < 256.
Proof.
  unfold extract_cloud_host. intros H.
  destruct (after_char ":"%char (c_str cloud_id)) as [colon |]; [| discriminate].
  destruct (mbedtls_base64_decode V sizeof_buf colon) as [decoded |];
    [| discriminate].
  destruct (sizeof_buf <? length decoded); [discriminate |].
  apply and_then_returns in H. destruct H as [first [Hfirst H]].
  destruct first as [[region saved] |]; [| discriminate].
  apply and_then_returns in H. destruct H as [second [Hsecond H]].
  destruct second as [[host saved'] |]; [| discriminate].
  apply and_then_returns in H. destruct H as [s' [Hs' H]].
  destruct (flb_sds_create_ok V s'); [| discriminate].
  injection H as <-.
  unfold cloud_host_string, sizeof_cloud_host_buf in Hs'.
  destruct (length (host ++ B "." ++ region) <? 256) eqn:Hroom;
    [| discriminate].
  injection Hs' as <-. apply Nat.ltb_lt in Hroom.
  destruct (@strtok_some_token _ _ _ Hfirst) as [Hr [Hrn Hrd]].
  destruct (@strtok_some_token _ _ _ Hsecond) as [Hh [Hhn Hhd]].
  exists region, host. repeat split; assumption.
Qed.

(** The function stays inside its two arrays of 256 bytes unless the
    decoder fills the first one to the last byte: a run is undefined only
    when the decoded text has 256 bytes or more. It is undefined when the
    decoded text has exactly 256 bytes with no NUL and no dollar sign
    among them, [strtok] then reading past the array. *)
Theorem extract_cloud_host_stays_in_its_arrays (cloud_id : bytes) :
  (extract_cloud_host V cloud_id = Undefined_behaviour ->
   exists colon decoded,
     after_char ":"%char (c_str cloud_id) = Some colon
     /\ mbedtls_base64_decode V 256 colon = Some decoded
     /\ 256 <= length decoded)
  /\ (forall colon decoded,
        after_char ":"%char (c_str cloud_id) = Some colon ->
        mbedtls_base64_decode V 256 colon = Some decoded ->
        length decoded = 256 -> ~ In NUL decoded -> ~ In dollar decoded ->
        extract_cloud_host V cloud_id = Undefined_behaviour).
Proof.
  split.
  - unfold extract_cloud_host. intros H.
    destruct (after_char ":"%char (c_str cloud_id)) as [colon |] eqn:Hcolon;
      [| discriminate].
    unfold sizeof_buf in H.
    destruct (mbedtls_base64_decode V 256 colon) as [decoded |] eqn:Hdec;
      [| discriminate].
    exists colon, decoded. split; [reflexivity | split; [exact Hdec |]].
    destruct (256 <? length decoded) eqn:Hbig.
    { apply Nat.ltb_lt in Hbig. lia. }
    apply Nat.ltb_ge in Hbig.
    destruct (Nat.eq_dec (length decoded) 256) as [Heq | Hneq]; [lia |].
    exfalso.
    assert (Hnul : In NUL (decoded_buf decoded)).
    { unfold decoded_buf, sizeof_buf. apply in_or_app. right.
      apply in_repeat_nul. lia. }
    pose proof (@decoded_buf_length decoded Hbig) as Hbuf.
    destruct (@strtok_terminated _ Hnul)
      as [Hnone | [region [saved [Hsome [_ [_ [_ Hsaved]]]]]]].
    + rewrite Hnone in H. discriminate H.
    + rewrite Hsome in H. cbn [and_then] in H.
      destruct Hsaved as [[Hhd _] | [Hin Hlen]].
      * destruct saved as [| c saved]; [discriminate Hhd |].
        cbn [hd] in Hhd. subst c. rewrite strtok_at_nul in H. discriminate H.
      * destruct (@strtok_terminated _ Hin)
          as [Hnone | [host [saved' [Hsome' [_ [_ [_ Hsaved']]]]]]].
        -- rewrite Hnone in H. discriminate H.
        -- rewrite Hsome' in H. cbn [and_then] in H.
           unfold cloud_host_string, sizeof_cloud_host_buf in H.
           assert (Hroom : (length (host ++ B "." ++ region) <? 256) = true).
           { apply Nat.ltb_lt. rewrite !length_app.
             cbn [B list_ascii_of_string length].
             assert (Hhost : length host + 1 <= length saved).
             { destruct Hsaved' as [[Hhd' Hl] | [_ Hl]]; [| lia].
               destruct saved' as [| c' saved']; [discriminate Hhd' |].
               cbn [length] in Hl. lia. }
             lia. }
           rewrite Hroom in H. cbn [and_then] in H.
           destruct (flb_sds_create_ok V (host ++ B "." ++ region));
             discriminate H.
  - intros colon decoded Hcolon Hdec Hlen Hn Hd.
    unfold extract_cloud_host. rewrite Hcolon. unfold sizeof_buf.
    rewrite Hdec, Hlen, Nat.ltb_irrefl.
    unfold decoded_buf, sizeof_buf. rewrite Hlen, Nat.sub_diag.
    cbn [repeat]. rewrite app_nil_r.
    destruct decoded as [| c decoded]; [discriminate Hlen |].
    assert (Hc1 : c <> dollar) by (intros ->; apply Hd; now left).
    assert (Hc2 : Ascii.eqb c NUL = false).
    { apply Ascii.eqb_neq. intros ->. apply Hn. now left. }
    unfold strtok. rewrite (@strtok_skip_token _ _ Hc1). cbn [and_then].
    rewrite Hc2, (@strtok_scan_runs_off _ Hn Hd). reflexivity.
Qed.

End CloudHostFacts.

(* ------------------------------------------------------------------ *)
(** ** Creation and destruction of the context *)
(* ------------------------------------------------------------------ *)

Lemma created_app o a b : created o (a ++ b) = created o a + created o b.
Proof. unfold created. now rewrite filter_app, length_app. Qed.

Lemma destroyed_app o a b : destroyed o (a ++ b) = destroyed o a + destroyed o b.
Proof. unfold destroyed. now rewrite filter_app, length_app. Qed.

Lemma conf_bind_continue {A C : Type} (m : conf_step A) (k : A -> conf_step C) r :
  conf_bind m k = r ->
  (exists a, m = Continue a /\ k a = r)
  \/ (exists r', m = Stop r' /\ r = Stop r').
Proof.
  destruct m as [a | r']; cbn [conf_bind]; intros H.
  - left. now exists a.
  - right. exists r'. now subst.
Qed.

Section CreateFacts.

Variable V : conf_env.
Variable aws : bool.

(** The loop of [set_cloud_credentials] looks at two entries. *)
Lemma cloud_credentials_loop_done k toks n calls :
  cloud_credentials_loop V (S (S k)) toks n calls = (n, calls).
Proof.
  revert k. induction toks as [| value rest IH]; intros k; [reflexivity |].
  cbn [cloud_credentials_loop]. change (S (S (S k)) =? 1) with false.
  change (S (S (S k)) =? 2) with false. cbn iota. apply IH.
Qed.

Lemma cloud_credentials_loop_tokens toks n calls :
  cloud_credentials_loop V 0 toks n calls
  = match toks with
    | [] => (n, calls)
    | user :: rest =>
        let n1 := set_cloud_user (if flb_strdup_ok V user then Some user
                                  else None) n in
        let calls1 := if flb_strdup_ok V user
                      then calls ++ [Created Cloud_user] else calls in
        match rest with
        | [] => (n1, calls1)
        | passwd :: _ =>
            (set_cloud_passwd (if flb_strdup_ok V passwd then Some passwd
                               else None) n1,
             if flb_strdup_ok V passwd
             then calls1 ++ [Created Cloud_passwd] else calls1)
        end
    end.
Proof.
  destruct toks as [| user [| passwd rest]]; [reflexivity | |].
  - cbn [cloud_credentials_loop Nat.eqb].
    destruct (flb_strdup_ok V user); reflexivity.
  - cbn [cloud_credentials_loop Nat.eqb].
    destruct (flb_strdup_ok V user), (flb_strdup_ok V passwd);
      cbn iota; now rewrite cloud_credentials_loop_done.
Qed.

(** Accounting goals: the calls of a step against what the context
    owns before and after it, object by object. *)
Ltac account_core :=
  rewrite ?created_app, ?destroyed_app in *;
  unfold owned, flb_es_conf_destroy in *;
  cbn [snd u ra_prefix_key_object aws_tls aws_sts_tls aws_provider
           base_aws_provider cloud_user cloud_passwd
           set_uri set_buffer_size set_cloud_user set_cloud_passwd set_u
           set_ra_prefix_key_object set_has_aws_auth set_aws_region
           set_aws_sts_endpoint set_aws_tls set_aws_sts_tls set_aws_provider
           set_base_aws_provider net_of mapped_net zeroed_net] in *;
  repeat match goal with
         | H : ?f _ = None |- _ => rewrite H in *; clear H
         | H : ?f _ = Some _ |- _ => rewrite H in *; clear H
         end;
  rewrite ?destroyed_app in *;
  repeat match goal with
         | |- context [free_string ?x _] =>
             lazymatch x with
             | Some _ => fail
             | None => fail
             | _ => destruct x
             end
         | H : context [free_string ?x _] |- _ =>
             lazymatch x with
             | Some _ => fail
             | None => fail
             | _ => destruct x
             end
         end;
  destruct aws; cbn in *; lia.

Ltac account_hyps :=
  repeat match goal with
         | H : in_order _ _ _ |- _ => unfold in_order in H; destruct H
         | H : before_aws _ |- _ => unfold before_aws in H; destruct H
         end;
  unfold accounted in *.

Ltac account_objects :=
  let o := fresh "o" in
  intros o;
  destruct o;
  try (let Ho := fresh "Ho" in intros Ho; try discriminate Ho; clear Ho);
  repeat match goal with
         | H : forall o, tracked o = true -> _ |- _ =>
             match goal with
             | |- context [created ?x _] =>
                 first [ pose proof (H x eq_refl) | idtac ]; clear H
             | |- context [owned _ _ ?x] =>
                 first [ pose proof (H x eq_refl) | idtac ]; clear H
             end
         | H : forall o, owned _ _ o <= 1 |- _ =>
             match goal with
             | |- context [created ?x _] => pose proof (H x); clear H
             | |- context [owned _ _ ?x] => pose proof (H x); clear H
             end
         end;
  account_core.

(** [in_order], [cleaned] and [before_aws] goals. *)
Ltac account :=
  account_hyps;
  lazymatch goal with
  | |- in_order _ _ _ => unfold in_order, accounted; split; account_objects
  | |- cleaned _ => unfold cleaned; account_objects
  | |- before_aws _ => unfold before_aws; split; account_core
  | |- ended_before_aws _ => unfold ended_before_aws, before_aws; split; account_core
  end.

Lemma conf_cloud_id_in_order ins :
  match conf_cloud_id V aws ins [Created Ctx] with
  | Continue (_, calls) => in_order aws zeroed_net calls /\ before_aws calls
  | Stop r => cleaned r /\ ended_before_aws r
  end.
Proof.
  unfold conf_cloud_id, destroy_and_return_null.
  destruct (flb_output_get_property ins "cloud_id") as [tmp |].
  - destruct (extract_cloud_host V tmp) as [[cloud_host |] |].
    + split; account.
    + split; account.
    + split; exact I.
  - split; account.
Qed.

Lemma conf_config_map_in_order ins host calls :
  in_order aws zeroed_net calls -> before_aws calls ->
  match conf_config_map V aws ins host calls with
  | Continue (_, n, calls') =>
      in_order aws n calls' /\ before_aws calls'
      /\ u n = None /\ ra_prefix_key_object n = None
      /\ aws_tls n = None /\ aws_sts_tls n = None
      /\ aws_provider n = None /\ base_aws_provider n = None
  | Stop r => cleaned r /\ ended_before_aws r
  end.
Proof.
  intros Hin Hb. unfold conf_config_map, destroy_and_return_null.
  destruct (flb_output_config_map_set V) as [[c n] |]; [| split; account].
  destruct (flb_output_get_property ins "cloud_auth") as [tmp |].
  - unfold set_cloud_credentials.
    destruct (flb_utils_split V tmp ":" (-1)) as [toks |]; [| split; exact I].
    rewrite cloud_credentials_loop_tokens.
    destruct toks as [| user [| passwd rest]];
      [| destruct (flb_strdup_ok V user)
       | destruct (flb_strdup_ok V user), (flb_strdup_ok V passwd)];
      (split; [account | split; [account | repeat split; reflexivity]]).
  - split; [account | split; [account | repeat split; reflexivity]].
Qed.

Lemma conf_upstream_in_order n host calls :
  in_order aws n calls -> before_aws calls ->
  u n = None -> ra_prefix_key_object n = None ->
  aws_tls n = None -> aws_sts_tls n = None ->
  aws_provider n = None -> base_aws_provider n = None ->
  match conf_upstream V aws n host calls with
  | Continue (n', calls') =>
      in_order aws n' calls' /\ before_aws calls'
      /\ u n' = Some Upstream /\ ra_prefix_key_object n' = None
      /\ aws_tls n' = None /\ aws_sts_tls n' = None
      /\ aws_provider n' = None /\ base_aws_provider n' = None
  | Stop r => cleaned r /\ ended_before_aws r
  end.
Proof.
  intros Hin Hb Hu Hra H1 H2 H3 H4.
  unfold conf_upstream, destroy_and_return_null.
  destruct (flb_upstream_create_ok V).
  - split; [account | split; [account | repeat split; assumption]].
  - split; account.
Qed.

Lemma conf_index_type_in_order f c0 n calls :
  in_order aws n calls -> before_aws calls ->
  in_order aws n (snd (conf_index_type V f c0 calls))
  /\ before_aws (snd (conf_index_type V f c0 calls)).
Proof.
  intros Hin Hb. unfold conf_index_type.
  destruct f as [[i |] [t |]]; cbn [fst snd];
    repeat match goal with
           | |- context [flb_strdup_ok V ?x] => destruct (flb_strdup_ok V x)
           end;
    cbn [snd]; split; account.
Qed.

Lemma set_uri_in_order v b n calls :
  in_order aws n calls ->
  in_order aws (set_uri v (set_buffer_size b n)) calls.
Proof. intros Hin. account. Qed.

Lemma conf_prefix_key_in_order c key n host calls :
  in_order aws n calls -> before_aws calls ->
  u n = Some Upstream -> ra_prefix_key_object n = None ->
  aws_tls n = None -> aws_sts_tls n = None ->
  aws_provider n = None -> base_aws_provider n = None ->
  match conf_prefix_key V aws c key n host calls with
  | Continue (_, n', calls') =>
      in_order aws n' calls' /\ before_aws calls'
      /\ u n' = Some Upstream
      /\ (ra_prefix_key_object n' = None
          \/ ra_prefix_key_object n' = Some Ra_prefix_key)
      /\ aws_tls n' = None /\ aws_sts_tls n' = None
      /\ aws_provider n' = None /\ base_aws_provider n' = None
  | Stop r => cleaned r /\ ended_before_aws r
  end.
Proof.
  intros Hin Hb Hu Hra H1 H2 H3 H4.
  unfold conf_prefix_key, destroy_and_return_null.
  destruct key as [prefix_key |];
    [| split; [exact Hin | split; [exact Hb | repeat split; auto]]].
  destruct (Ascii.eqb (hd NUL prefix_key) dollar); cbn [conf_bind].
  - destruct (flb_ra_create_ok V (conf_ra_pattern prefix_key)).
    + split; [account | split; [account | repeat split; auto]].
    + split; account.
  - destruct (flb_malloc_ok V (length prefix_key + 2)); cbn [conf_bind].
    + destruct (flb_ra_create_ok V (conf_ra_pattern prefix_key)).
      * split; [account | split; [account | repeat split; auto]].
      * split; account.
    + split; account.
Qed.

Lemma conf_aws_in_order ins n host calls :
  in_order aws n calls ->
  u n = Some Upstream ->
  ra_prefix_key_object n = None
  \/ ra_prefix_key_object n = Some Ra_prefix_key ->
  aws_tls n = None -> aws_sts_tls n = None ->
  aws_provider n = None -> base_aws_provider n = None ->
  match conf_aws V aws ins n host calls with
  | Continue (n', calls') => in_order aws n' calls'
  | Stop r => cleaned r
  end.
Proof.
  intros Hin Hu Hra H1 H2 H3 H4.
  unfold conf_aws, conf_aws_role, destroy_and_return_null.
  destruct aws eqn:Haws; cbn [negb]; [| exact Hin].
  destruct (flb_output_get_property ins "aws_auth") as [tmp |];
    [| destruct Hra; account].
  destruct (strncasecmp_eq tmp (B "On") 2); cbn [negb];
    [| destruct Hra; account].
  destruct (flb_tls_create_ok V Aws_tls); cbn [negb];
    [| destruct Hra; account].
  destruct (flb_output_get_property ins "aws_region") as [region |];
    [| destruct Hra; account].
  destruct (flb_output_get_property ins "aws_sts_endpoint") as [endpoint |];
    (destruct (flb_standard_chain_provider_create_ok V); cbn [negb];
     [| destruct Hra; account]);
    (destruct (flb_output_get_property ins "aws_role_arn") as [arn |];
     [| destruct Hra; account]);
    (destruct (flb_sts_session_name_ok V); cbn [negb];
     [| destruct Hra; account]);
    (destruct (flb_tls_create_ok V Sts_tls); cbn [negb];
     [| destruct Hra; account]);
    (destruct (flb_sts_provider_create_ok V); destruct Hra; account).
Qed.

(** The whole of [flb_es_conf_create]. *)
Lemma flb_es_conf_create_in_order ins :
  match flb_es_conf_create V aws ins with
  | Conf_ctx _ n _ calls => in_order aws n calls
  | r => cleaned r
  end.
Proof.
  unfold flb_es_conf_create.
  destruct (flb_calloc_ok V); cbn [negb];
    [| intros o _; reflexivity].
  pose proof (conf_cloud_id_in_order ins) as H1.
  destruct (conf_cloud_id V aws ins [Created Ctx]) as [[host0 calls1] | r1];
    cbn [conf_bind];
    [| destruct H1 as [H1 _]; destruct r1; [destruct H1 | exact H1 | exact I]].
  destruct H1 as [Hin1 Hb1].
  pose proof (conf_config_map_in_order
                ins (flb_output_net_default V (B "127.0.0.1") 9200 host0)
                Hin1 Hb1) as H2.
  destruct (conf_config_map V aws ins _ calls1) as [[[c0 n1] calls2] | r2];
    cbn [conf_bind];
    [| destruct H2 as [H2 _]; destruct r2; [destruct H2 | exact H2 | exact I]].
  destruct H2 as [Hin2 [Hb2 [Hu [Hra [Ht [Hs [Hp Hbp]]]]]]].
  pose proof (conf_upstream_in_order
                (flb_output_net_default V (B "127.0.0.1") 9200 host0)
                Hin2 Hb2 Hu Hra Ht Hs Hp Hbp) as H3.
  destruct (conf_upstream V aws n1 _ calls2) as [[n2 calls3] | r3];
    cbn [conf_bind];
    [| destruct H3 as [H3 _]; destruct r3; [destruct H3 | exact H3 | exact I]].
  destruct H3 as [Hin3 [Hb3 [Hu3 [Hra3 [Ht3 [Hs3 [Hp3 Hbp3]]]]]]].
  destruct (conf_index_type_in_order (uri_fields ins) c0 Hin3 Hb3)
    as [Hin4 Hb4].
  destruct (conf_index_type V (uri_fields ins) c0 calls3) as [c3 calls4].
  cbn [snd] in Hin4, Hb4.
  pose proof (set_uri_in_order (conf_uri V ins)
                               (conf_buffer_size (buffer_size n2)) Hin4)
    as Hin5.
  pose proof (@conf_prefix_key_in_order
                c3 (logstash_prefix_key c0)
                (set_uri (conf_uri V ins)
                         (set_buffer_size (conf_buffer_size (buffer_size n2)) n2))
                (flb_output_net_default V (B "127.0.0.1") 9200 host0)
                calls4 Hin5 Hb4 Hu3 Hra3 Ht3 Hs3 Hp3 Hbp3) as H6.
  destruct (conf_prefix_key V aws c3 _ _ _ calls4) as [[[c5 n5] calls5] | r6];
    cbn [conf_bind];
    [| destruct H6 as [H6 _]; destruct r6; [destruct H6 | exact H6 | exact I]].
  destruct H6 as [Hin6 [Hb6 [Hu6 [Hra6 [Ht6 [Hs6 [Hp6 Hbp6]]]]]]].
  pose proof (@conf_aws_in_order
                ins n5 (flb_output_net_default V (B "127.0.0.1") 9200 host0)
                calls5 Hin6 Hu6 Hra6 Ht6 Hs6 Hp6 Hbp6) as H7.
  destruct (conf_aws V aws ins n5 _ calls5) as [[n7 calls7] | r7];
    cbn [conf_bind]; [exact H7 |].
  destruct r7; [destruct H7 | exact H7 | exact I].
Qed.

(** *** The objects that are never released *)

Ltac leak :=
  cbn [conf_bind];
  repeat match goal with
         | H : unreleased _ _ _ _ _ _ |- _ =>
             let Hi := fresh "Hi" in
             let Ht := fresh "Ht" in
             let Hh := fresh "Hh" in
             let Hd := fresh "Hd" in
             destruct H as [Hi [Ht [Hh Hd]]];
             destruct (Hd Index_copy eq_refl);
             destruct (Hd Type_copy eq_refl);
             destruct (Hd Cloud_host eq_refl);
             clear Hd
         end;
  unfold unreleased;
  repeat match goal with
         | |- _ /\ _ => split
         | |- forall o, tracked o = false -> _ =>
             let o := fresh "o" in
             let Ho := fresh "Ho" in
             intros o Ho; destruct o; try discriminate Ho; clear Ho
         end;
  rewrite ?created_app in *;
  unfold owned, flb_es_conf_destroy in *;
  cbn [snd u ra_prefix_key_object aws_tls aws_sts_tls aws_provider
           base_aws_provider cloud_user cloud_passwd
           set_uri set_buffer_size set_cloud_user set_cloud_passwd set_u
           set_ra_prefix_key_object set_has_aws_auth set_aws_region
           set_aws_sts_endpoint set_aws_tls set_aws_sts_tls set_aws_provider
           set_base_aws_provider net_of mapped_net zeroed_net] in *;
  destruct aws;
  rewrite ?destroyed_app in *;
  cbn in *; lia.

Lemma conf_cloud_id_unreleased ins :
  match conf_cloud_id V aws ins [Created Ctx] with
  | Continue (_, calls) =>
      unreleased aws zeroed_net calls 0 0
                 (match flb_output_get_property ins "cloud_id" with
                  | Some _ => 1
                  | None => 0
                  end)
  | Stop r => no_context r
  end.
Proof.
  unfold conf_cloud_id, destroy_and_return_null.
  destruct (flb_output_get_property ins "cloud_id") as [tmp |].
  - destruct (extract_cloud_host V tmp) as [[cloud_host |] |];
      [leak | exact I | exact I].
  - leak.
Qed.

Lemma conf_config_map_unreleased ins host calls i t h :
  unreleased aws zeroed_net calls i t h ->
  match conf_config_map V aws ins host calls with
  | Continue (_, n, calls') => unreleased aws n calls' i t h
  | Stop r => no_context r
  end.
Proof.
  intros H. unfold conf_config_map, destroy_and_return_null.
  destruct (flb_output_config_map_set V) as [[c n] |]; [| exact I].
  destruct (flb_output_get_property ins "cloud_auth") as [tmp |]; [| leak].
  unfold set_cloud_credentials.
  destruct (flb_utils_split V tmp ":" (-1)) as [toks |]; [| exact I].
  rewrite cloud_credentials_loop_tokens.
  destruct toks as [| user [| passwd rest]];
    [| destruct (flb_strdup_ok V user)
     | destruct (flb_strdup_ok V user), (flb_strdup_ok V passwd)];
    leak.
Qed.

Lemma conf_upstream_unreleased n host calls i t h :
  unreleased aws n calls i t h ->
  match conf_upstream V aws n host calls with
  | Continue (n', calls') => unreleased aws n' calls' i t h
  | Stop r => no_context r
  end.
Proof.
  intros H. unfold conf_upstream, destroy_and_return_null.
  destruct (flb_upstream_create_ok V); [leak | exact I].
Qed.

Lemma conf_index_type_unreleased f c0 n calls h :
  unreleased aws n calls 0 0 h ->
  unreleased aws n (snd (conf_index_type V f c0 calls))
             (match fst f with
              | Some value => if flb_strdup_ok V value then 1 else 0
              | None => 0
              end)
             (match snd f with
              | Some value => if flb_strdup_ok V value then 1 else 0
              | None => 0
              end)
             h.
Proof.
  intros H. unfold conf_index_type.
  destruct f as [[i |] [t |]]; cbn [fst snd];
    repeat match goal with
           | |- context [flb_strdup_ok V ?x] => destruct (flb_strdup_ok V x)
           end;
    cbn [snd]; leak.
Qed.

Lemma set_uri_unreleased v b n calls i t h :
  unreleased aws n calls i t h ->
  unreleased aws (set_uri v (set_buffer_size b n)) calls i t h.
Proof. intros H. leak. Qed.

Lemma conf_prefix_key_unreleased c key n host calls i t h :
  unreleased aws n calls i t h ->
  match conf_prefix_key V aws c key n host calls with
  | Continue (_, n', calls') => unreleased aws n' calls' i t h
  | Stop r => no_context r
  end.
Proof.
  intros H. unfold conf_prefix_key, destroy_and_return_null.
  destruct key as [prefix_key |]; [| exact H].
  destruct (Ascii.eqb (hd NUL prefix_key) dollar); cbn [conf_bind].
  - destruct (flb_ra_create_ok V (conf_ra_pattern prefix_key));
      [leak | exact I].
  - destruct (flb_malloc_ok V (length prefix_key + 2)); cbn [conf_bind];
      [| exact I].
    destruct (flb_ra_create_ok V (conf_ra_pattern prefix_key));
      [leak | exact I].
Qed.

Lemma conf_aws_unreleased ins n host calls i t h :
  unreleased aws n calls i t h ->
  match conf_aws V aws ins n host calls with
  | Continue (n', calls') => unreleased aws n' calls' i t h
  | Stop r => no_context r
  end.
Proof.
  intros H. unfold conf_aws, conf_aws_role, destroy_and_return_null.
  destruct aws eqn:Haws; cbn [negb]; [| exact H].
  destruct (flb_output_get_property ins "aws_auth") as [tmp |]; [| leak].
  destruct (strncasecmp_eq tmp (B "On") 2); cbn [negb]; [| leak].
  destruct (flb_tls_create_ok V Aws_tls); cbn [negb]; [| exact I].
  destruct (flb_output_get_property ins "aws_region") as [region |];
    [| exact I].
  destruct (flb_output_get_property ins "aws_sts_endpoint") as [endpoint |];
    (destruct (flb_standard_chain_provider_create_ok V); cbn [negb];
     [| exact I]);
    (destruct (flb_output_get_property ins "aws_role_arn") as [arn |];
     [| leak]);
    (destruct (flb_sts_session_name_ok V); cbn [negb]; [| exact I]);
    (destruct (flb_tls_create_ok V Sts_tls); cbn [negb]; [| exact I]);
    (destruct (flb_sts_provider_create_ok V); [leak | exact I]).
Qed.

(** The whole of [flb_es_conf_create], for the objects that are never
    released. *)
Lemma flb_es_conf_create_unreleased ins c n host calls :
  flb_es_conf_create V aws ins = Conf_ctx c n host calls ->
  unreleased aws n calls
             (match fst (uri_fields ins) with
              | Some value => if flb_strdup_ok V value then 1 else 0
              | None => 0
              end)
             (match snd (uri_fields ins) with
              | Some value => if flb_strdup_ok V value then 1 else 0
              | None => 0
              end)
             (match flb_output_get_property ins "cloud_id" with
              | Some _ => 1
              | None => 0
              end).
Proof.
  unfold flb_es_conf_create.
  destruct (flb_calloc_ok V); cbn [negb]; [| discriminate].
  pose proof (conf_cloud_id_unreleased ins) as H1.
  destruct (conf_cloud_id V aws ins [Created Ctx]) as [[host0 calls1] | r1];
    cbn [conf_bind];
    [| destruct r1; [destruct H1 | discriminate | discriminate]].
  pose proof (conf_config_map_unreleased
                ins (flb_output_net_default V (B "127.0.0.1") 9200 host0)
                H1) as H2.
  destruct (conf_config_map V aws ins _ calls1) as [[[c0 n1] calls2] | r2];
    cbn [conf_bind];
    [| destruct r2; [destruct H2 | discriminate | discriminate]].
  pose proof (conf_upstream_unreleased
                (flb_output_net_default V (B "127.0.0.1") 9200 host0)
                H2) as H3.
  destruct (conf_upstream V aws n1 _ calls2) as [[n2 calls3] | r3];
    cbn [conf_bind];
    [| destruct r3; [destruct H3 | discriminate | discriminate]].
  pose proof (conf_index_type_unreleased (uri_fields ins) c0 H3) as H4.
  destruct (conf_index_type V (uri_fields ins) c0 calls3) as [c3 calls4].
  cbn [snd] in H4.
  pose proof (set_uri_unreleased (conf_uri V ins)
                                 (conf_buffer_size (buffer_size n2)) H4)
    as H5.
  pose proof (@conf_prefix_key_unreleased
                c3 (logstash_prefix_key c0) _
                (flb_output_net_default V (B "127.0.0.1") 9200 host0)
                calls4 _ _ _ H5) as H6.
  destruct (conf_prefix_key V aws c3 _ _ _ calls4) as [[[c5 n5] calls5] | r6];
    cbn [conf_bind];
    [| destruct r6; [destruct H6 | discriminate | discriminate]].
  pose proof (@conf_aws_unreleased
                ins n5 (flb_output_net_default V (B "127.0.0.1") 9200 host0)
                calls5 _ _ _ H6) as H7.
  destruct (conf_aws V aws ins n5 _ calls5) as [[n7 calls7] | r7];
    cbn [conf_bind];
    [| destruct r7; [destruct H7 | discriminate | discriminate]].
  intros [= <- <- <- <-]. exact H7.
Qed.

(** When the creation of the context fails, what has been created is
    released: in the calls of a run that returns the null pointer, the
    context, the upstream, the record accessor, the copies of the cloud
    credentials, the token list, the buffer of the prefix key, the two TLS
    contexts and the STS provider are each destroyed exactly as often as
    they were created. (The chain provider and the session name are not
    among them, nor are the cloud host and the copies of index and type,
    which no path releases.) *)
Theorem failed_creation_releases_what_it_made
        (ins : flb_output_instance) (host : option bytes * Z)
        (calls : list conf_call) :
  flb_es_conf_create V aws ins = Conf_null host calls ->
  forall o, released_on_failure o = true ->
            created o calls = destroyed o calls.
Proof.
  intros H. pose proof (flb_es_conf_create_in_order ins) as Hall.
  rewrite H in Hall. exact Hall.
Qed.

(** A context that was created is released by [cb_es_exit], once,
    except for three strings. For the context, the upstream, the record
    accessor, the credentials, the TLS contexts, the providers and the
    blocks used on the way, the calls of the creation followed by those
    of [cb_es_exit] destroy each exactly as often as they create it. The
    copy of the index and the copy of the type, made when the URI of the
    instance names them, and the cloud host, made when [cloud_id] is set,
    are created and destroyed by none of these calls: the plugin never
    releases them. [cb_es_exit] destroys no object twice, and it returns
    0. *)
Theorem created_context_is_released_once_on_exit
        (ins : flb_output_instance) (c : option flb_elasticsearch)
        (n : flb_elasticsearch_net) (host : option bytes * Z)
        (calls : list conf_call) :
  flb_es_conf_create V aws ins = Conf_ctx c n host calls ->
  (forall o, tracked o = true ->
             created o calls
             = destroyed o (calls ++ snd (cb_es_exit aws (Some n))))
  /\ (forall o, tracked o = false ->
                destroyed o (calls ++ snd (cb_es_exit aws (Some n))) = 0)
  /\ created Index_copy calls
     = match fst (uri_fields ins) with
       | Some value => if flb_strdup_ok V value then 1 else 0
       | None => 0
       end
  /\ created Type_copy calls
     = match snd (uri_fields ins) with
       | Some value => if flb_strdup_ok V value then 1 else 0
       | None => 0
       end
  /\ created Cloud_host calls
     = match flb_output_get_property ins "cloud_id" with
       | Some _ => 1
       | None => 0
       end
  /\ (forall o, destroyed o (snd (cb_es_exit aws (Some n))) <= 1)
  /\ fst (cb_es_exit aws (Some n)) = 0%Z.
Proof.
  intros H. pose proof (flb_es_conf_create_in_order ins) as Hall.
  rewrite H in Hall. destruct Hall as [Hacc Hone].
  destruct (flb_es_conf_create_unreleased _ H) as [Hi [Ht [Hh Hd]]].
  split; [| split; [| split; [| split; [| split; [| split]]]]];
    try assumption; try reflexivity.
  - intros o Ho. rewrite destroyed_app. exact (Hacc o Ho).
  - intros o Ho. rewrite destroyed_app. destruct (Hd o Ho) as [-> Hown].
    exact Hown.
Qed.

Lemma conf_aws_role_failure ins n host calls h calls' :
  in_order aws n calls -> before_aws calls ->
  u n = Some Upstream ->
  ra_prefix_key_object n = None
  \/ ra_prefix_key_object n = Some Ra_prefix_key ->
  aws_tls n = None -> aws_sts_tls n = None ->
  aws_provider n = None -> base_aws_provider n = None ->
  conf_aws V aws ins n host calls = Stop (Conf_null h calls') ->
  created Chain_provider calls' = 1 ->
  flb_output_get_property ins "aws_role_arn" <> None ->
  flb_sts_session_name_ok V = false \/ flb_tls_create_ok V Sts_tls = false ->
  destroyed Chain_provider calls' = 2
  /\ (flb_sts_session_name_ok V = true ->
      created Session_name calls' = 1 /\ destroyed Session_name calls' = 0).
Proof.
  intros Hin Hb Hu Hra H1 H2 H3 H4 Hstop Hc Hrole Hor.
  unfold conf_aws, conf_aws_role, destroy_and_return_null in Hstop.
  account_hyps.
  match goal with
  | H : forall o, tracked o = true -> _ |- _ =>
      pose proof (H Chain_provider eq_refl);
      pose proof (H Session_name eq_refl); clear H
  end.
  match goal with
  | H : forall o, owned _ _ o <= 1 |- _ => clear H
  end.
  destruct aws eqn:Haws; cbn [negb] in Hstop; [| discriminate Hstop].
  destruct (flb_output_get_property ins "aws_auth") as [tmp |];
    [| discriminate Hstop].
  destruct (strncasecmp_eq tmp (B "On") 2); cbn [negb] in Hstop;
    [| discriminate Hstop].
  destruct (flb_tls_create_ok V Aws_tls); cbn [negb] in Hstop;
    [| injection Hstop as <- <-; exfalso; destruct Hra; account_core].
  destruct (flb_output_get_property ins "aws_region") as [region |];
    [| injection Hstop as <- <-; exfalso; destruct Hra; account_core].
  destruct (flb_output_get_property ins "aws_role_arn") as [arn |];
    [| now elim Hrole].
  destruct (flb_output_get_property ins "aws_sts_endpoint") as [endpoint |];
    (destruct (flb_standard_chain_provider_create_ok V); cbn [negb] in Hstop;
     [| injection Hstop as <- <-; exfalso; destruct Hra; account_core]);
    (destruct (flb_sts_session_name_ok V) eqn:Hsession; cbn [negb] in Hstop;
     [| injection Hstop as <- <-;
        split; [destruct Hra; account_core | discriminate]]);
    (destruct (flb_tls_create_ok V Sts_tls) eqn:Htls; cbn [negb] in Hstop;
     [destruct Hor; discriminate
     | injection Hstop as <- <-;
       split; [destruct Hra; account_core
              | intros _; split; destruct Hra; account_core]]).
Qed.

(** The provider of a role that cannot be assumed is destroyed twice.
    When the chain provider has been created, [aws_role_arn] is set, and
    the session name or the TLS context of the STS provider cannot be
    made, the creation fails and its calls destroy the chain provider
    twice: [base_aws_provider] and [aws_provider] both point to it when
    [flb_es_conf_destroy] runs. In the second of the two cases the
    session name, which has been created, is not freed. *)
Theorem role_failure_destroys_the_provider_twice
        (ins : flb_output_instance) (host : option bytes * Z)
        (calls : list conf_call) :
  flb_es_conf_create V aws ins = Conf_null host calls ->
  created Chain_provider calls = 1 ->
  flb_output_get_property ins "aws_role_arn" <> None ->
  flb_sts_session_name_ok V = false \/ flb_tls_create_ok V Sts_tls = false ->
  destroyed Chain_provider calls = 2
  /\ (flb_sts_session_name_ok V = true ->
      created Session_name calls = 1 /\ destroyed Session_name calls = 0).
Proof.
  intros Hnull Hc Hrole Hor. unfold flb_es_conf_create in Hnull.
  destruct (flb_calloc_ok V); cbn [negb] in Hnull;
    [| injection Hnull as <- <-; discriminate Hc].
  pose proof (conf_cloud_id_in_order ins) as H1.
  destruct (conf_cloud_id V aws ins [Created Ctx]) as [[host0 calls1] | r1];
    cbn [conf_bind] in Hnull;
    [| subst r1; destruct H1 as [_ [H1 _]]; rewrite H1 in Hc; discriminate Hc].
  destruct H1 as [Hin1 Hb1].
  pose proof (conf_config_map_in_order
                ins (flb_output_net_default V (B "127.0.0.1") 9200 host0)
                Hin1 Hb1) as H2.
  destruct (conf_config_map V aws ins _ calls1) as [[[c0 n1] calls2] | r2];
    cbn [conf_bind] in Hnull;
    [| subst r2; destruct H2 as [_ [H2 _]]; rewrite H2 in Hc; discriminate Hc].
  destruct H2 as [Hin2 [Hb2 [Hu [Hra [Ht [Hs [Hp Hbp]]]]]]].
  pose proof (conf_upstream_in_order
                (flb_output_net_default V (B "127.0.0.1") 9200 host0)
                Hin2 Hb2 Hu Hra Ht Hs Hp Hbp) as H3.
  destruct (conf_upstream V aws n1 _ calls2) as [[n2 calls3] | r3];
    cbn [conf_bind] in Hnull;
    [| subst r3; destruct H3 as [_ [H3 _]]; rewrite H3 in Hc; discriminate Hc].
  destruct H3 as [Hin3 [Hb3 [Hu3 [Hra3 [Ht3 [Hs3 [Hp3 Hbp3]]]]]]].
  destruct (conf_index_type_in_order (uri_fields ins) c0 Hin3 Hb3)
    as [Hin4 Hb4].
  destruct (conf_index_type V (uri_fields ins) c0 calls3) as [c3 calls4].
  cbn [snd] in Hin4, Hb4.
  pose proof (set_uri_in_order (conf_uri V ins)
                               (conf_buffer_size (buffer_size n2)) Hin4)
    as Hin5.
  pose proof (@conf_prefix_key_in_order
                c3 (logstash_prefix_key c0)
                (set_uri (conf_uri V ins)
                         (set_buffer_size (conf_buffer_size (buffer_size n2)) n2))
                (flb_output_net_default V (B "127.0.0.1") 9200 host0)
                calls4 Hin5 Hb4 Hu3 Hra3 Ht3 Hs3 Hp3 Hbp3) as H6.
  destruct (conf_prefix_key V aws c3 _ _ _ calls4) as [[[c5 n5] calls5] | r6];
    cbn [conf_bind] in Hnull;
    [| subst r6; destruct H6 as [_ [H6 _]]; rewrite H6 in Hc; discriminate Hc].
  destruct H6 as [Hin6 [Hb6 [Hu6 [Hra6 [Ht6 [Hs6 [Hp6 Hbp6]]]]]]].
  destruct (conf_aws V aws ins n5 _ calls5) as [[n7 calls7] | r7] eqn:Haws7;
    cbn [conf_bind] in Hnull; [discriminate Hnull |].
  subst r7.
  exact (@conf_aws_role_failure ins n5 _ calls5 host calls Hin6 Hb6 Hu6 Hra6
                                Ht6 Hs6 Hp6 Hbp6 Haws7 Hc Hrole Hor).
Qed.

(** *** What the created context holds *)

(** A run that returns a context has gone through every part. *)
Lemma flb_es_conf_create_ctx ins c n host calls :
  flb_es_conf_create V aws ins = Conf_ctx c n host calls ->
  exists host0 calls1 c0 n1 calls2 n2 calls3 c5 n5 calls5,
    conf_cloud_id V aws ins [Created Ctx] = Continue (host0, calls1)
    /\ host = flb_output_net_default V (B "127.0.0.1") 9200 host0
    /\ conf_config_map V aws ins host calls1 = Continue (c0, n1, calls2)
    /\ conf_upstream V aws n1 host calls2 = Continue (n2, calls3)
    /\ conf_prefix_key
         V aws (fst (conf_index_type V (uri_fields ins) c0 calls3))
         (logstash_prefix_key c0)
         (set_uri (conf_uri V ins)
                  (set_buffer_size (conf_buffer_size (buffer_size n2)) n2))
         host (snd (conf_index_type V (uri_fields ins) c0 calls3))
       = Continue (c5, n5, calls5)
    /\ conf_aws V aws ins n5 host calls5 = Continue (n, calls)
    /\ c = match flb_output_get_property ins "id_format" with
           | Some tmp => option_map (set_id_format (Some tmp)) c5
           | None => c5
           end.
Proof.
  unfold flb_es_conf_create. intros H.
  destruct (flb_calloc_ok V); cbn [negb] in H; [| discriminate H].
  destruct (conf_cloud_id V aws ins [Created Ctx]) as [[host0 calls1] | r1]
    eqn:H1; cbn [conf_bind] in H.
  2: { exfalso. subst r1. unfold conf_cloud_id, destroy_and_return_null in H1.
       destruct (flb_output_get_property ins "cloud_id") as [tmp |];
         [destruct (extract_cloud_host V tmp) as [[s |] |] |]; discriminate H1. }
  destruct (conf_config_map V aws ins _ calls1) as [[[c0 n1] calls2] | r2] eqn:H2;
    cbn [conf_bind] in H.
  2: { exfalso. subst r2. unfold conf_config_map, destroy_and_return_null in H2.
       destruct (flb_output_config_map_set V) as [[c1 n1] |];
         [| discriminate H2].
       destruct (flb_output_get_property ins "cloud_auth") as [tmp |];
         [| discriminate H2].
       destruct (set_cloud_credentials V (mapped_net n1) tmp calls1)
         as [[n' calls'] |]; discriminate H2. }
  destruct (conf_upstream V aws n1 _ calls2) as [[n2 calls3] | r3] eqn:H3;
    cbn [conf_bind] in H.
  2: { exfalso. subst r3. unfold conf_upstream, destroy_and_return_null in H3.
       destruct (flb_upstream_create_ok V); discriminate H3. }
  destruct (conf_index_type V (uri_fields ins) c0 calls3) as [c3 calls4] eqn:H4.
  destruct (conf_prefix_key V aws c3 _ _ _ calls4) as [[[c5 n5] calls5] | r6] eqn:H6;
    cbn [conf_bind] in H.
  2: { exfalso. subst r6. unfold conf_prefix_key, destroy_and_return_null in H6.
       destruct (logstash_prefix_key c0) as [key |]; [| discriminate H6].
       destruct (Ascii.eqb (hd NUL key) dollar); cbn [conf_bind] in H6.
       - destruct (flb_ra_create_ok V (conf_ra_pattern key)); discriminate H6.
       - destruct (flb_malloc_ok V (length key + 2)); cbn [conf_bind] in H6;
           [| discriminate H6].
         destruct (flb_ra_create_ok V (conf_ra_pattern key)); discriminate H6. }
  destruct (conf_aws V aws ins n5 _ calls5) as [[n7 calls7] | r7] eqn:H7;
    cbn [conf_bind] in H.
  2: { exfalso. subst r7. unfold conf_aws, conf_aws_role, destroy_and_return_null in H7.
       revert H7.
       repeat match goal with
              | |- context [if ?b then _ else _] => destruct b
              | |- context [match ?x with Some _ => _ | None => _ end] =>
                  destruct x
              end; discriminate. }
  injection H as <- <- <- <-.
  exists host0, calls1, c0, n1, calls2, n2, calls3, c5, n5, calls5.
  rewrite ?H4. cbn [fst snd]. repeat split; try reflexivity; assumption.
Qed.

Lemma conf_upstream_fields n host calls n' calls' :
  conf_upstream V aws n host calls = Continue (n', calls') ->
  n' = set_u (Some Upstream) n.
Proof.
  unfold conf_upstream, destroy_and_return_null.
  destruct (flb_upstream_create_ok V); [| discriminate].
  intros H. now injection H as <- <-.
Qed.

Lemma conf_prefix_key_fields c key n host calls c' n' calls' :
  conf_prefix_key V aws c key n host calls = Continue (c', n', calls') ->
  (key = None /\ c' = c /\ n' = n)
  \/ (exists prefix_key,
         key = Some prefix_key
         /\ c' = option_map (set_ra_prefix_key (conf_ra_pattern prefix_key)) c
         /\ n' = set_ra_prefix_key_object (Some Ra_prefix_key) n).
Proof.
  unfold conf_prefix_key, destroy_and_return_null.
  destruct key as [prefix_key |].
  - intros H. right. exists prefix_key.
    destruct (Ascii.eqb (hd NUL prefix_key) dollar); cbn [conf_bind] in H.
    + destruct (flb_ra_create_ok V (conf_ra_pattern prefix_key));
        [| discriminate H].
      injection H as <- <- <-. now repeat split.
    + destruct (flb_malloc_ok V (length prefix_key + 2)); cbn [conf_bind] in H;
        [| discriminate H].
      destruct (flb_ra_create_ok V (conf_ra_pattern prefix_key));
        [| discriminate H].
      injection H as <- <- <-. now repeat split.
  - intros H. injection H as <- <- <-. left. now repeat split.
Qed.

(** What the part on AWS leaves alone, and what it sets. *)
Lemma conf_aws_fields ins n host calls n' calls' :
  conf_aws V aws ins n host calls = Continue (n', calls') ->
  uri n' = uri n /\ buffer_size n' = buffer_size n
  /\ http_user n' = http_user n /\ http_passwd n' = http_passwd n
  /\ cloud_user n' = cloud_user n /\ cloud_passwd n' = cloud_passwd n
  /\ u n' = u n /\ ra_prefix_key_object n' = ra_prefix_key_object n
  /\ (aws = false -> n' = n)
  /\ (aws = true ->
      has_aws_auth n'
      = match flb_output_get_property ins "aws_auth" with
        | Some tmp => strncasecmp_eq tmp (B "On") 2
        | None => false
        end
      /\ (has_aws_auth n' = true ->
          flb_output_get_property ins "aws_region" <> None
          /\ aws_region n' = flb_output_get_property ins "aws_region"
          /\ aws_tls n' = Some Aws_tls
          /\ (flb_output_get_property ins "aws_role_arn" = None ->
              aws_provider n' = Some Chain_provider)
          /\ (flb_output_get_property ins "aws_role_arn" <> None ->
              aws_provider n' = Some Sts_provider
              /\ base_aws_provider n' = Some Chain_provider
              /\ aws_sts_tls n' = Some Sts_tls))).
Proof.
  unfold conf_aws, conf_aws_role, destroy_and_return_null.
  destruct aws; cbn [negb].
  - destruct (flb_output_get_property ins "aws_auth") as [tmp |].
    + destruct (strncasecmp_eq tmp (B "On") 2); cbn [negb].
      * destruct (flb_tls_create_ok V Aws_tls); cbn [negb]; [| discriminate].
        destruct (flb_output_get_property ins "aws_region") as [region |];
          [| discriminate].
        destruct (flb_output_get_property ins "aws_sts_endpoint");
          (destruct (flb_standard_chain_provider_create_ok V); cbn [negb];
           [| discriminate]);
          (destruct (flb_output_get_property ins "aws_role_arn") as [arn |];
           [ destruct (flb_sts_session_name_ok V); cbn [negb]; [| discriminate];
             destruct (flb_tls_create_ok V Sts_tls); cbn [negb]; [| discriminate];
             destruct (flb_sts_provider_create_ok V); [| discriminate]
           | ]);
          intros H; injection H as <- <-; cbn;
          repeat split; try reflexivity; try discriminate; try congruence;
          intros; try congruence; repeat split; congruence.
      * intros H; injection H as <- <-; cbn.
        repeat split; try reflexivity; try discriminate.
    + intros H; injection H as <- <-; cbn.
      repeat split; try reflexivity; try discriminate.
  - intros H; injection H as <- <-.
    repeat split; try reflexivity; discriminate.
Qed.

Lemma conf_config_map_fields ins host calls c0 n1 calls' :
  conf_config_map V aws ins host calls = Continue (c0, n1, calls') ->
  exists c n,
    flb_output_config_map_set V = Some (c, n)
    /\ c0 = mapped_ctx c
    /\ buffer_size n1 = buffer_size n
    /\ http_user n1 = http_user n /\ http_passwd n1 = http_passwd n
    /\ ra_prefix_key_object n1 = None
    /\ match flb_output_get_property ins "cloud_auth" with
       | None => cloud_user n1 = None /\ cloud_passwd n1 = None
       | Some auth =>
           exists toks,
             flb_utils_split V auth ":" (-1) = Some toks
             /\ cloud_user n1
                = match toks with
                  | user :: _ =>
                      if flb_strdup_ok V user then Some user else None
                  | [] => None
                  end
             /\ cloud_passwd n1
                = match toks with
                  | _ :: passwd :: _ =>
                      if flb_strdup_ok V passwd then Some passwd else None
                  | _ => None
                  end
       end.
Proof.
  unfold conf_config_map, destroy_and_return_null.
  destruct (flb_output_config_map_set V) as [[c n] |]; [| discriminate].
  intros H. exists c, n. split; [reflexivity |].
  destruct (flb_output_get_property ins "cloud_auth") as [tmp |].
  - unfold set_cloud_credentials in H.
    destruct (flb_utils_split V tmp ":" (-1)) as [toks |]; [| discriminate H].
    rewrite cloud_credentials_loop_tokens in H.
    destruct toks as [| user [| passwd rest]];
      injection H as <- <- <-; cbn;
      (split; [reflexivity | split; [reflexivity | split; [reflexivity |
        split; [reflexivity | split; [reflexivity |
          eexists; repeat split; reflexivity]]]]]).
  - injection H as <- <- <-. now repeat split.
Qed.

Lemma conf_index_type_fields f c0 calls c3 :
  fst (conf_index_type V f c0 calls) = Some c3 ->
  index c3 = match fst f with Some value => value | None => index c0 end
  /\ type c3 = match snd f with Some value => value | None => type c0 end
  /\ set_index (index c0) (set_type (type c0) c3) = c0.
Proof.
  unfold conf_index_type. destruct f as [[i |] [t |]]; cbn [fst snd];
    repeat match goal with
           | |- context [flb_strdup_ok V ?x] => destruct (flb_strdup_ok V x)
           end;
    cbn [fst option_map]; intros H; try discriminate H;
    injection H as <-; destruct c0; repeat split.
Qed.

(** The second part of the context: the fields of a context that has been
    created. *)
Lemma flb_es_conf_create_net ins c n host calls :
  flb_es_conf_create V aws ins = Conf_ctx c n host calls ->
  exists c0 n0,
    flb_output_config_map_set V = Some (c0, n0)
    /\ uri n = conf_uri V ins
    /\ buffer_size n = conf_buffer_size (buffer_size n0)
    /\ http_user n = http_user n0 /\ http_passwd n = http_passwd n0
    /\ u n = Some Upstream
    /\ match flb_output_get_property ins "cloud_auth" with
       | None => cloud_user n = None /\ cloud_passwd n = None
       | Some auth =>
           exists toks,
             flb_utils_split V auth ":" (-1) = Some toks
             /\ cloud_user n
                = match toks with
                  | user :: _ =>
                      if flb_strdup_ok V user then Some user else None
                  | [] => None
                  end
             /\ cloud_passwd n
                = match toks with
                  | _ :: passwd :: _ =>
                      if flb_strdup_ok V passwd then Some passwd else None
                  | _ => None
                  end
       end.
Proof.
  intros H. apply flb_es_conf_create_ctx in H.
  destruct H as [host0 [calls1 [c0 [n1 [calls2 [n2 [calls3 [c5 [n5 [calls5 H]]]]]]]]]].
  destruct H as [_ [_ [H2 [H3 [H6 [H7 _]]]]]].
  apply conf_config_map_fields in H2.
  destruct H2 as [c1 [n0 [Hmap [_ [Hbuf [Hhu [Hhp [_ Hcloud]]]]]]]].
  apply conf_upstream_fields in H3. subst n2.
  apply conf_aws_fields in H7.
  destruct H7 as [Huri [Hb [Hu1 [Hp1 [Hcu [Hcp [Hu [_ _]]]]]]]].
  exists c1, n0. split; [exact Hmap |].
  apply conf_prefix_key_fields in H6.
  rewrite Huri, Hb, Hu1, Hp1, Hu.
  assert (Hsame : uri n5 = conf_uri V ins
                  /\ buffer_size n5 = conf_buffer_size (buffer_size n1)
                  /\ http_user n5 = http_user n1
                  /\ http_passwd n5 = http_passwd n1
                  /\ u n5 = Some Upstream
                  /\ cloud_user n5 = cloud_user n1
                  /\ cloud_passwd n5 = cloud_passwd n1).
  { destruct H6 as [[_ [_ ->]] | [key [_ [_ ->]]]]; now repeat split. }
  destruct Hsame as [-> [-> [-> [-> [-> [Hcu5 Hcp5]]]]]].
  rewrite Hbuf, Hhu, Hhp. repeat split.
  rewrite Hcu, Hcp, Hcu5, Hcp5. exact Hcloud.
Qed.

(** [strncasecmp (tmp, "On", 2) == 0] looks at two characters. *)
Lemma strncasecmp_on v :
  strncasecmp_eq v (B "On") 2 = true
  <-> tolower (hd NUL v) = "o"%char /\ tolower (hd NUL (tl v)) = "n"%char.
Proof.
  cbn [strncasecmp_eq B list_ascii_of_string hd tl].
  change (tolower "O") with "o"%char. change (tolower "n") with "n"%char.
  destruct (Ascii.eqb_spec (tolower (hd NUL v)) "o") as [Ho | Ho].
  - destruct (Ascii.eqb_spec (hd NUL v) NUL) as [Hz | Hz].
    + rewrite Hz in Ho. discriminate Ho.
    + destruct (Ascii.eqb_spec (tolower (hd NUL (tl v))) "n") as [Hn | Hn].
      * destruct (Ascii.eqb (hd NUL (tl v)) NUL); now split.
      * split; [discriminate | intros [_ H]; contradiction].
  - split; [discriminate | intros [H _]; contradiction].
Qed.

(** The request URI and the buffer limit of a created context. The URI
    is the path, [/_bulk], and the pipeline when there is one, cut to
    two bytes less than the array [uri] holds; a text that is too long
    is cut without an error. Whatever comes after leaves it as it is.
    The limit of the response buffer is that of the configuration, with
    0 in place of -1. *)
Theorem created_context_holds_the_bulk_uri
        (ins : flb_output_instance) (c : option flb_elasticsearch)
        (n : flb_elasticsearch_net) (host : option bytes * Z)
        (calls : list conf_call) :
  flb_es_conf_create V aws ins = Conf_ctx c n host calls ->
  uri n = firstn (sizeof_uri V - 2) (bulk_uri_format ins)
  /\ (length (bulk_uri_format ins) <= sizeof_uri V - 2 ->
      uri n = bulk_uri_format ins)
  /\ (sizeof_uri V - 2 <= length (bulk_uri_format ins) ->
      length (uri n) = sizeof_uri V - 2)
  /\ buffer_size n <> (-1)%Z
  /\ exists c0 n0,
      flb_output_config_map_set V = Some (c0, n0)
      /\ (buffer_size n0 = (-1)%Z -> buffer_size n = 0%Z)
      /\ (buffer_size n0 <> (-1)%Z -> buffer_size n = buffer_size n0).
Proof.
  intros H. apply flb_es_conf_create_net in H.
  destruct H as [c0 [n0 [Hmap [Huri [Hbuf _]]]]].
  assert (Hcut : uri n = firstn (sizeof_uri V - 2) (bulk_uri_format ins)).
  { rewrite Huri. unfold conf_uri, snprintf. cbn [fst].
    now replace (sizeof_uri V - 1 - 1) with (sizeof_uri V - 2) by lia. }
  split; [exact Hcut |].
  split; [intros Hlen; rewrite Hcut; now apply firstn_all2 |].
  split; [intros Hlen; rewrite Hcut, length_firstn; lia |].
  unfold conf_buffer_size in Hbuf.
  split.
  - rewrite Hbuf. destruct (Z.eqb_spec (buffer_size n0) (-1)); [discriminate | assumption].
  - exists c0, n0. split; [exact Hmap |]. rewrite Hbuf.
    destruct (Z.eqb_spec (buffer_size n0) (-1)); split; intros; congruence.
Qed.

(** The credentials of [cloud_auth] in a created context. Without the
    property both are null. With it, the user is a copy of the first
    part [flb_utils_split] returns and the password a copy of the second;
    further parts are ignored, a part that is missing leaves a null
    pointer, and so does a copy that is refused: none of these is an
    error. *)
Theorem cloud_auth_gives_the_first_two_tokens
        (ins : flb_output_instance) (c : option flb_elasticsearch)
        (n : flb_elasticsearch_net) (host : option bytes * Z)
        (calls : list conf_call) :
  flb_es_conf_create V aws ins = Conf_ctx c n host calls ->
  (flb_output_get_property ins "cloud_auth" = None ->
   cloud_user n = None /\ cloud_passwd n = None)
  /\ (forall auth,
        flb_output_get_property ins "cloud_auth" = Some auth ->
        exists toks,
          flb_utils_split V auth ":" (-1) = Some toks
          /\ cloud_user n
             = match nth_error toks 0 with
               | Some user => if flb_strdup_ok V user then Some user else None
               | None => None
               end
          /\ cloud_passwd n
             = match nth_error toks 1 with
               | Some passwd =>
                   if flb_strdup_ok V passwd then Some passwd else None
               | None => None
               end).
Proof.
  intros H. apply flb_es_conf_create_net in H.
  destruct H as [c0 [n0 [_ [_ [_ [_ [_ [_ Hcloud]]]]]]]].
  split.
  - intros Hnone. now rewrite Hnone in Hcloud.
  - intros auth Hauth. rewrite Hauth in Hcloud.
    destruct Hcloud as [toks [Hsplit [Hu Hp]]].
    exists toks. split; [exact Hsplit |].
    destruct toks as [| user [| passwd rest]]; now split.
Qed.

(** AWS authentication is enabled by a value of [aws_auth] whose first
    two characters are [on] in any case, and by nothing else: [true] or
    [yes] leave it disabled, whatever the configuration map has stored.
    A context created with it enabled has a region, a TLS instance, and
    a provider: the provider of the standard chain, or, with
    [aws_role_arn], the STS provider with the one of the standard chain
    as its base. *)
Theorem aws_auth_is_enabled_by_on_only
        (ins : flb_output_instance) (c : option flb_elasticsearch)
        (n : flb_elasticsearch_net) (host : option bytes * Z)
        (calls : list conf_call) :
  aws = true ->
  flb_es_conf_create V aws ins = Conf_ctx c n host calls ->
  (has_aws_auth n = true
   <-> exists v,
       flb_output_get_property ins "aws_auth" = Some v
       /\ tolower (hd NUL v) = "o"%char
       /\ tolower (hd NUL (tl v)) = "n"%char)
  /\ (has_aws_auth n = true ->
      flb_output_get_property ins "aws_region" <> None
      /\ aws_region n = flb_output_get_property ins "aws_region"
      /\ aws_tls n = Some Aws_tls
      /\ (flb_output_get_property ins "aws_role_arn" = None ->
          aws_provider n = Some Chain_provider)
      /\ (flb_output_get_property ins "aws_role_arn" <> None ->
          aws_provider n = Some Sts_provider
          /\ base_aws_provider n = Some Chain_provider
          /\ aws_sts_tls n = Some Sts_tls)).
Proof.
  intros Haws H. apply flb_es_conf_create_ctx in H.
  destruct H as [host0 [calls1 [c0 [n1 [calls2 [n2 [calls3 [c5 [n5 [calls5 H]]]]]]]]]].
  destruct H as [_ [_ [_ [_ [_ [H7 _]]]]]].
  apply conf_aws_fields in H7.
  destruct H7 as [_ [_ [_ [_ [_ [_ [_ [_ [_ H]]]]]]]]].
  destruct (H Haws) as [Hhas Hset]. split; [| exact Hset].
  rewrite Hhas.
  destruct (flb_output_get_property ins "aws_auth") as [v |].
  - rewrite strncasecmp_on. split.
    + intros Hon. now exists v.
    + intros [v' [Hv Hon]]. now injection Hv as ->.
  - split; [discriminate | intros [v [Hv _]]; discriminate Hv].
Qed.

(** The names a created context formats with. The index and the type are
    the first two fields of the URI of the instance when it has two or
    more, those of the configuration otherwise; the id format is the
    property [id_format]; and with a [logstash_prefix_key] the record
    accessor is made for the key itself when it starts with a dollar,
    for the key after a dollar otherwise. *)
Theorem created_context_formats_with_the_configured_names
        (ins : flb_output_instance) (ctx : flb_elasticsearch)
        (n : flb_elasticsearch_net) (host : option bytes * Z)
        (calls : list conf_call) :
  flb_es_conf_create V aws ins = Conf_ctx (Some ctx) n host calls ->
  exists c0 n0,
    flb_output_config_map_set V = Some (c0, n0)
    /\ index ctx = match fst (uri_fields ins) with
                   | Some value => value
                   | None => index c0
                   end
    /\ type ctx = match snd (uri_fields ins) with
                  | Some value => value
                  | None => type c0
                  end
    /\ id_format ctx = flb_output_get_property ins "id_format"
    /\ logstash_prefix_key ctx = logstash_prefix_key c0
    /\ match logstash_prefix_key c0 with
       | None => ra_prefix_key ctx = [] /\ ra_prefix_key_object n = None
       | Some key =>
           ra_prefix_key ctx
           = (if Ascii.eqb (hd NUL key) dollar then key else dollar :: key)
           /\ ra_prefix_key_object n = Some Ra_prefix_key
       end.
Proof.
  intros H. apply flb_es_conf_create_ctx in H.
  destruct H as [host0 [calls1 [c1 [n1 [calls2 [n2 [calls3 [c5 [n5 [calls5 H]]]]]]]]]].
  destruct H as [_ [_ [H2 [H3 [H6 [H7 Hc]]]]]].
  apply conf_config_map_fields in H2.
  destruct H2 as [c0 [n0 [Hmap [Hc1 [_ [_ [_ [Hra1 _]]]]]]]].
  exists c0, n0. split; [exact Hmap |].
  apply conf_upstream_fields in H3. subst n2.
  apply conf_aws_fields in H7.
  destruct H7 as [_ [_ [_ [_ [_ [_ [_ [Hra _]]]]]]]].
  destruct (fst (conf_index_type V (uri_fields ins) c1 calls3)) as [c3 |] eqn:H4.
  2: { apply conf_prefix_key_fields in H6.
       destruct H6 as [[_ [-> _]] | [key [_ [-> _]]]];
         destruct (flb_output_get_property ins "id_format"); discriminate Hc. }
  apply conf_index_type_fields in H4. destruct H4 as [Hi [Ht Hrest]].
  apply conf_prefix_key_fields in H6.
  rewrite Hra. subst c1.
  assert (Hkey : logstash_prefix_key (mapped_ctx c0) = logstash_prefix_key c0)
    by (destruct c0; reflexivity).
  assert (Hindex : index (mapped_ctx c0) = index c0) by (destruct c0; reflexivity).
  assert (Htype : type (mapped_ctx c0) = type c0) by (destruct c0; reflexivity).
  rewrite Hkey in H6. rewrite Hindex in Hi. rewrite Htype in Ht.
  assert (Hc3 : logstash_prefix_key c3 = logstash_prefix_key c0
                /\ ra_prefix_key c3 = [] /\ id_format c3 = None).
  { pose proof (f_equal logstash_prefix_key Hrest) as E1.
    pose proof (f_equal ra_prefix_key Hrest) as E2.
    pose proof (f_equal id_format Hrest) as E3.
    destruct c3, c0; cbn in E1, E2, E3 |- *. now repeat split. }
  destruct Hc3 as [Hk3 [Hr3 Hf3]].
  destruct H6 as [[Hnone [-> ->]] | [key [Hsome [-> ->]]]].
  - rewrite Hnone.
    destruct (flb_output_get_property ins "id_format") as [f |];
      cbn [option_map] in Hc; injection Hc as ->;
      destruct c3; cbn in *; subst; now repeat split.
  - rewrite Hsome.
    assert (Hpat : conf_ra_pattern key
                   = if Ascii.eqb (hd NUL key) dollar then key else dollar :: key).
    { destruct key as [| k key]; [reflexivity |]. cbn [conf_ra_pattern hd].
      reflexivity. }
    destruct (flb_output_get_property ins "id_format") as [f |];
      cbn [option_map] in Hc; injection Hc as ->;
      destruct c3; cbn [index type id_format logstash_prefix_key ra_prefix_key
                        set_id_format set_ra_prefix_key ra_prefix_key_object
                        set_ra_prefix_key_object net_of] in *; subst;
      now repeat split.
Qed.

End CreateFacts.

(* ------------------------------------------------------------------ *)
(** ** The statements at concrete inputs *)
(* ------------------------------------------------------------------ *)

Module Examples.
Import Reference.

(** C1 at four responses: a success, a partial failure, the empty payload
    and a success cut short. *)
Lemma error_check_verdict_witness :
  elasticsearch_error_check pack_json default_ctx (response payload_ok) = false
  /\ elasticsearch_error_check pack_json default_ctx (response payload_errors) = true
  /\ elasticsearch_error_check pack_json default_ctx (response []) = true
  /\ elasticsearch_error_check pack_json default_ctx (response payload_cut_ok) = false.
Proof.
  split; [| split; [| split]].
  - destruct (error_check_verdict pack_json default_ctx (response payload_ok)) as [_ H].
    destruct (H _ eq_refl) as [_ H1].
    destruct (H1 _ eq_refl) as [_ H2].
    destruct (H2 _ eq_refl) as [_ H3].
    destruct (H3 [(str "took", MSGPACK_OBJECT_POSITIVE_INTEGER 3)]
                 (MSGPACK_OBJECT_BOOLEAN false)
                 [(str "items", MSGPACK_OBJECT_ARRAY [])] eq_refl) as [_ H4].
    + intros k v [[= <- <-] | []]. discriminate.
    + apply (H4 false eq_refl). intros k v [[= <- <-] | []]. reflexivity.
  - destruct (error_check_verdict pack_json default_ctx (response payload_errors)) as [_ H].
    destruct (H _ eq_refl) as [_ H1].
    destruct (H1 _ eq_refl) as [_ H2].
    destruct (H2 _ eq_refl) as [_ H3].
    destruct (H3 [(str "took", MSGPACK_OBJECT_POSITIVE_INTEGER 3)]
                 (MSGPACK_OBJECT_BOOLEAN true)
                 [(str "items", MSGPACK_OBJECT_ARRAY [])] eq_refl) as [_ H4].
    + intros k v [[= <- <-] | []]. discriminate.
    + apply (H4 true eq_refl). intros k v [[= <- <-] | []]. reflexivity.
  - destruct (error_check_verdict pack_json default_ctx (response [])) as [H _].
    destruct (H eq_refl) as [H1 _]. exact (H1 eq_refl).
  - destruct (error_check_verdict pack_json default_ctx (response payload_cut_ok)) as [H _].
    destruct (H eq_refl) as [_ [H1 _]]. apply H1; [discriminate |].
    exists (B "{" ++ quoted (B "took") ++ B ":3,"),
           (B "{" ++ quoted (B "index") ++ B ":{").
    reflexivity.
Defined.

(** C1 as stated fails: the literal is searched in the payload as a C
    string. A payload that does not parse and holds the literal of a
    success behind a NUL byte contains the literal, and is taken for an
    error. *)
Lemma literal_behind_a_nul_goes_unseen :
  pack_json payload_behind_nul = None
  /\ payload_behind_nul <> []
  /\ contains payload_behind_nul errors_false_items
  /\ elasticsearch_error_check pack_json default_ctx
                               (response payload_behind_nul)
     = FLB_TRUE.
Proof.
  split; [reflexivity |]. split; [discriminate |]. split; [| reflexivity].
  exists [NUL], (B "]}"). reflexivity.
Qed.

(** C6 at the name [a.b.c]. *)
Lemma dot_replacement_witness :
  sanitize_key_name (configured false false false true false [] [] None None)
                    (B "a.b.c") = B "a_b_c"
  /\ length (sanitize_key_name
               (configured false false false true false [] [] None None)
               (B "a.b.c")) = 5
  /\ ~ In "."%char
         (sanitize_key_name (configured false false false true false [] [] None None)
                            (B "a.b.c")).
Proof.
  destruct (@dot_replacement_is_total_and_local
              (fun _ => true)
              (configured false false false true false [] [] None None)
              (B "a.b.c") eq_refl) as [Hlen [Hdot _]].
  split; [reflexivity | split; [exact Hlen | exact Hdot]].
Defined.

(** C7, amended, at a mapping with a nested map, an array, a binary key
    and an integer key. *)
Lemma sanitizer_witness :
  msgpack_unpack_next
    (snd (es_pack_map_content
            (fun _ => false)
            (configured false false false true false [] [] None None)
            (msgpack_pack_map msgpack_sbuffer_init 2)
            (MSGPACK_OBJECT_MAP
               [(str "a.b",
                 MSGPACK_OBJECT_MAP
                   [(MSGPACK_OBJECT_BIN (B "c.d"),
                     MSGPACK_OBJECT_ARRAY
                       [MSGPACK_OBJECT_POSITIVE_INTEGER 1;
                        MSGPACK_OBJECT_MAP [(str "e.f", MSGPACK_OBJECT_NIL)]])]);
                (MSGPACK_OBJECT_POSITIVE_INTEGER 7, str "v.w")])))
  = Some (MSGPACK_OBJECT_MAP
            [(str "a_b",
              MSGPACK_OBJECT_MAP
                [(str "c_d",
                  MSGPACK_OBJECT_ARRAY
                    [MSGPACK_OBJECT_POSITIVE_INTEGER 1;
                     MSGPACK_OBJECT_MAP [(str "e_f", MSGPACK_OBJECT_NIL)]])]);
             (str "", str "v.w")]).
Proof.
  destruct (@sanitizer_writes_the_sanitized_map
              (fun _ => false)
              (configured false false false true false [] [] None None)
              [(str "a.b",
                MSGPACK_OBJECT_MAP
                  [(MSGPACK_OBJECT_BIN (B "c.d"),
                    MSGPACK_OBJECT_ARRAY
                      [MSGPACK_OBJECT_POSITIVE_INTEGER 1;
                       MSGPACK_OBJECT_MAP [(str "e.f", MSGPACK_OBJECT_NIL)]])]);
               (MSGPACK_OBJECT_POSITIVE_INTEGER 7, str "v.w")]
              eq_refl) as [_ [H _]].
  exact H.
Defined.

(** C7 as stated fails: a key that is neither a string nor a binary is
    rewritten. The mapping with the integer key 1 comes out with the empty
    string as its key. *)
Lemma sanitizer_rewrites_an_integer_key :
  es_pack_map_content (fun _ => true) default_ctx
                      (msgpack_pack_map msgpack_sbuffer_init 1)
                      (MSGPACK_OBJECT_MAP
                         [(MSGPACK_OBJECT_POSITIVE_INTEGER 1,
                           MSGPACK_OBJECT_POSITIVE_INTEGER 2)])
  = (0%Z, object_items
            (MSGPACK_OBJECT_MAP [(str "", MSGPACK_OBJECT_POSITIVE_INTEGER 2)]))
  /\ type_of (MSGPACK_OBJECT_POSITIVE_INTEGER 1) = T_POSITIVE_INTEGER
  /\ MSGPACK_OBJECT_MAP [(str "", MSGPACK_OBJECT_POSITIVE_INTEGER 2)]
     <> MSGPACK_OBJECT_MAP [(MSGPACK_OBJECT_POSITIVE_INTEGER 1,
                             MSGPACK_OBJECT_POSITIVE_INTEGER 2)].
Proof. repeat split. discriminate. Qed.




(** C10, amended, at a batch of three malformed objects. *)
Lemma all_malformed_witness :
  elasticsearch_format reference default_ctx (B "tag") no_entry_values
    [MSGPACK_OBJECT_ARRAY [MSGPACK_OBJECT_POSITIVE_INTEGER 1];
     str "x";
     MSGPACK_OBJECT_ARRAY [MSGPACK_OBJECT_NIL; MSGPACK_OBJECT_NIL;
                           MSGPACK_OBJECT_NIL]]
  = Format_ok [] 0.
Proof.
  destruct (@all_malformed_batch_is_an_empty_success
              reference default_ctx (B "tag") no_entry_values
              [MSGPACK_OBJECT_POSITIVE_INTEGER 1]
              [str "x";
               MSGPACK_OBJECT_ARRAY [MSGPACK_OBJECT_NIL; MSGPACK_OBJECT_NIL;
                                     MSGPACK_OBJECT_NIL]]) as [_ H].
  - discriminate.
  - repeat constructor.
  - destruct (H eq_refl) as [_ [_ [_ Hconf]]]. apply Hconf.
    right. right. repeat split. vm_compute. lia.
Defined.

(** C10 as stated fails: a batch that is not empty and holds malformed
    objects only is refused when its first object is not an array, when
    its first object is an array without entries, and when the bulk
    buffer cannot be created; and with an id format the code that runs
    before the loop reads the entries of a map that no record has
    given. *)
Lemma malformed_batch_is_refused :
  elasticsearch_format reference default_ctx (B "tag") no_entry_values
                       [str "x"]
  = Format_error false
  /\ elasticsearch_format reference default_ctx (B "tag") no_entry_values
                          [MSGPACK_OBJECT_ARRAY []]
     = Format_error false
  /\ elasticsearch_format without_bulk_room default_ctx (B "tag")
                          no_entry_values
                          [MSGPACK_OBJECT_ARRAY
                             [MSGPACK_OBJECT_POSITIVE_INTEGER 1]]
     = Format_error false
  /\ elasticsearch_format reference id_format_ctx (B "tag") no_entry_values
                          [MSGPACK_OBJECT_ARRAY
                             [MSGPACK_OBJECT_POSITIVE_INTEGER 1]]
     = Format_undefined.
Proof. vm_compute. repeat split. Qed.

(** C8 at a record formatted with id generation: the action line
    carries the id made from the hash of the document buffer, the
    buffer whose JSON form is the document line. *)
Lemma hash_id_witness :
  elasticsearch_format
    reference
    (configured false true false false false (B "fluent-bit") [] None None)
    (B "tag") no_entry_values
    [record_at 1704153600 [(str "msg", str "hi")]]
  = Format_ok
      (ES_BULK_INDEX_FMT_ID (B "fluent-bit") (B "_doc")
                            (B "5030dafb-65c6-f091-7b5c-062790f21bbd")
       ++ document_line "2024-01-02T00:00:00.000Z" [(str "msg", str "hi")]
       ++ [newline])
      147
  /\ es_uuid_of reference
                (document_buffer "2024-01-02T00:00:00.000Z"
                                 [(str "msg", str "hi")])
     = B "5030dafb-65c6-f091-7b5c-062790f21bbd"
  /\ uuid_word (B "5030dafb-65c6-f091-7b5c-062790f21bbd") 0
     = hash_word (checksum (document_buffer "2024-01-02T00:00:00.000Z"
                                            [(str "msg", str "hi")]) 42) 0
  /\ uuid_word (B "5030dafb-65c6-f091-7b5c-062790f21bbd") 7
     = hash_word (checksum (document_buffer "2024-01-02T00:00:00.000Z"
                                            [(str "msg", str "hi")]) 42) 7
  /\ exists pairs,
      ES_BULK_INDEX_FMT_ID (B "fluent-bit") (B "_doc")
                           (B "5030dafb-65c6-f091-7b5c-062790f21bbd")
      ++ document_line "2024-01-02T00:00:00.000Z" [(str "msg", str "hi")]
      ++ [newline]
      = flat_map line_pair pairs
      /\ Forall (fun p =>
                   exists doc es_index,
                     raw_to_json doc = Some (snd p)
                     /\ action_bytes reference 165
                          (action_line
                             (configured false true false false false
                                         (B "fluent-bit") [] None None)
                             es_index
                             (Some (uuid_format (checksum doc 42))))
                        = Next (fst p))
                pairs.
Proof.
  destruct (@hash_id_is_a_uuid_of_the_document
              reference
              (configured false true false false false (B "fluent-bit") []
                          None None)
              (B "tag") eq_refl) as [_ [Hbatch [Hformat _]]].
  assert (Hrun : elasticsearch_format
                   reference
                   (configured false true false false false (B "fluent-bit")
                               [] None None)
                   (B "tag") no_entry_values
                   [record_at 1704153600 [(str "msg", str "hi")]]
                 = Format_ok
                     (ES_BULK_INDEX_FMT_ID
                        (B "fluent-bit") (B "_doc")
                        (B "5030dafb-65c6-f091-7b5c-062790f21bbd")
                      ++ document_line "2024-01-02T00:00:00.000Z"
                                       [(str "msg", str "hi")]
                      ++ [newline])
                     147)
    by (vm_compute; reflexivity).
  assert (Hid : es_uuid_of reference
                           (document_buffer "2024-01-02T00:00:00.000Z"
                                            [(str "msg", str "hi")])
                = B "5030dafb-65c6-f091-7b5c-062790f21bbd")
    by (vm_compute; reflexivity).
  destruct (Hformat (document_buffer "2024-01-02T00:00:00.000Z"
                                     [(str "msg", str "hi")]))
    as [_ [Hwords _]].
  split; [exact Hrun |]. split; [exact Hid |].
  split; [rewrite <- Hid; apply Hwords; lia |].
  split; [rewrite <- Hid; apply Hwords; lia |].
  destruct (Hbatch _ _ _ _ Hrun) as [pairs [Hout [_ Hall]]].
  exists pairs. split; [exact Hout | exact Hall].
Defined.

(** C4 at two records of June 2023 formatted on 2024-01-02 with the
    index pattern [logs-%Y.%m.%d]. *)
Lemma current_time_index_witness :
  exists pairs,
    fst (output_of (elasticsearch_format reference current_time_ctx (B "tag")
                                         no_entry_values records_of_2023))
    = flat_map line_pair pairs
    /\ length pairs = 2
    /\ Forall (fun p =>
                 exists size id,
                   action_bytes reference size
                                (action_line current_time_ctx
                                             (B "logs-2024.01.02") id)
                   = Next (fst p))
              pairs.
Proof.
  destruct (@current_time_index_names_every_action_line
              reference current_time_ctx (B "tag") no_entry_values
              records_of_2023
              (fst (output_of (elasticsearch_format
                                 reference current_time_ctx (B "tag")
                                 no_entry_values records_of_2023)))
              (snd (output_of (elasticsearch_format
                                 reference current_time_ctx (B "tag")
                                 no_entry_values records_of_2023)))
              eq_refl eq_refl)
    as [pairs [Hout [Hlen Hall]]].
  - vm_compute. reflexivity.
  - exists pairs. split; [exact Hout | split; [exact Hlen |]].
    apply Forall_forall. intros p Hp.
    rewrite Forall_forall in Hall. destruct (Hall p Hp) as [size [id [Hact _]]].
    exists size, id. exact Hact.
Defined.

(** What the formatter returns for these two records: both action lines
    name the index of 2024-01-02, the day of the wall clock. *)
Lemma current_time_index_output :
  elasticsearch_format reference current_time_ctx (B "tag") no_entry_values
                       records_of_2023
  = Format_ok
      (ES_BULK_INDEX_FMT (B "logs-2024.01.02") (B "_doc")
       ++ to_json (MSGPACK_OBJECT_MAP
                     [(str "@timestamp", str "2024-01-02T00:00:01.000Z");
                      (str "msg", str "one")]) ++ [newline]
       ++ ES_BULK_INDEX_FMT (B "logs-2024.01.02") (B "_doc")
       ++ to_json (MSGPACK_OBJECT_MAP
                     [(str "@timestamp", str "2024-01-02T00:00:01.000Z");
                      (str "msg", str "two")]) ++ [newline])
      216.
Proof. vm_compute. reflexivity. Qed.

(** C4 as stated fails: the name is not recomputed against the wall
    clock for each record. With an index pattern that shows the second,
    on a clock that advances by one second at every reading, the two
    action lines of a batch carry the name of the first reading, with id
    generation and without; a later reading gives another name. *)
Lemma index_name_is_of_the_first_clock_reading :
  elasticsearch_format reference (clock_ctx false) (B "tag") no_entry_values
                       records_of_2023
  = Format_ok
      (ES_BULK_INDEX_FMT (B "logs-00.00.00") (B "_doc")
       ++ document_line "2024-01-02T00:00:01.000Z" [(str "msg", str "one")]
       ++ [newline]
       ++ ES_BULK_INDEX_FMT (B "logs-00.00.00") (B "_doc")
       ++ document_line "2024-01-02T00:00:01.000Z" [(str "msg", str "two")]
       ++ [newline])
      212
  /\ elasticsearch_format reference (clock_ctx true) (B "tag")
                          no_entry_values records_of_2023
     = Format_ok
         (ES_BULK_INDEX_FMT_ID
            (B "logs-00.00.00") (B "_doc")
            (es_uuid_of reference
               (document_buffer "2024-01-02T00:00:00.000Z"
                                [(str "msg", str "one")]))
          ++ document_line "2024-01-02T00:00:00.000Z" [(str "msg", str "one")]
          ++ [newline]
          ++ ES_BULK_INDEX_FMT_ID
               (B "logs-00.00.00") (B "_doc")
               (es_uuid_of reference
                  (document_buffer "2024-01-02T00:00:00.000Z"
                                   [(str "msg", str "two")]))
          ++ document_line "2024-01-02T00:00:00.000Z" [(str "msg", str "two")]
          ++ [newline])
         302
  /\ wall_clock_index reference (clock_ctx false) = B "logs-00.00.00"
  /\ strftime reference (index (clock_ctx false))
              (gmtime_r reference (tv_sec (flb_time_get reference 1)))
     = B "logs-00.00.01"
  /\ strftime reference (index (clock_ctx false))
              (gmtime_r reference (tv_sec (flb_time_get reference 2)))
     = B "logs-00.00.02".
Proof.
  vm_compute. repeat split.
Qed.



(** The array [logstash_index] is not restored between records: after a
    record whose lookup gave the prefix [a], a record whose lookup gives
    nothing gets neither [logstash-2024.01.02] nor [a-2024.01.02] but what
    the earlier record left in front of the place of the dash. *)
Lemma logstash_prefix_left_by_an_earlier_record :
  elasticsearch_format
    reference
    (configured true false false false false (B "fluent-bit") (B "logstash")
                (Some (B "svc")) None)
    (B "tag") no_entry_values
    [record_at 1704153600 [(str "svc", str "a")];
     record_at 1704153600 [(str "msg", str "hi")]]
  = Format_ok
      (ES_BULK_INDEX_FMT (B "a-2024.01.02") (B "_doc")
       ++ to_json (MSGPACK_OBJECT_MAP
                     [(str "@timestamp", str "2024-01-02T00:00:00.000Z");
                      (str "svc", str "a")]) ++ [newline]
       ++ ES_BULK_INDEX_FMT (B "a-2024.0-2024.01.02") (B "_doc")
       ++ to_json (MSGPACK_OBJECT_MAP
                     [(str "@timestamp", str "2024-01-02T00:00:00.000Z");
                      (str "msg", str "hi")]) ++ [newline])
      214.
Proof. vm_compute. reflexivity. Qed.

(** C3 on the code. The id format is expanded once, before the loop, from
    the entries behind [map.via.map.ptr], which no record has been stored
    in yet. Granting that this memory already holds the entries of the
    record followed by an entry with a nil key, the scan looks at the
    entry after the one whose key it tests, so the first field is never
    compared and the placeholder for the field [id] of the record
    [{id: abc}] expands to nothing; with no such memory the behaviour is
    undefined. A field is also taken when its name is only a prefix of the
    placeholder, and every field taken is appended, not the first one
    alone. *)
Lemma id_format_misses_the_field :
  expand_id_format (B "$[id]") id_entries = Next []
  /\ elasticsearch_format
       reference
       (configured false false false false false (B "fluent-bit") []
                   None (Some (B "$[id]")))
       (B "tag") (entry_values_with id_entries)
       [record_at 1704153600 [(str "id", str "abc")]]
     = Format_ok
         (ES_BULK_INDEX_FMT_ID (B "fluent-bit") (B "_doc") []
          ++ to_json (MSGPACK_OBJECT_MAP
                        [(str "@timestamp", str "2024-01-02T00:00:00.000Z");
                         (str "id", str "abc")]) ++ [newline])
         111
  /\ elasticsearch_format
       reference
       (configured false false false false false (B "fluent-bit") []
                   None (Some (B "$[id]")))
       (B "tag") no_entry_values
       [record_at 1704153600 [(str "id", str "abc")]]
     = Format_undefined
  /\ expand_id_format (B "x-$[id]-$[identity]-y")
                      [(str "a", str "1"); (str "ID", str "abc");
                       (str "id", str "def");
                       (MSGPACK_OBJECT_NIL, MSGPACK_OBJECT_NIL)]
     = Next (B "x-abcdef-abcdef-y").
Proof. vm_compute. repeat split. Qed.

(** The result of a nested call of the sanitizer is dropped: when the heap
    block for a key of a nested map is refused, [es_pack_map_content]
    still returns 0 for the record, but the document buffer then lacks
    entries its map headers announce and cannot be read back, so the
    conversion to JSON fails and the batch fails through it. *)
Lemma nested_allocation_failure_is_dropped :
  fst (es_pack_map_content
         (flb_malloc starved) default_ctx
         (msgpack_pack_map msgpack_sbuffer_init 2)
         (MSGPACK_OBJECT_MAP
            [(str "a",
              MSGPACK_OBJECT_MAP
                [(MSGPACK_OBJECT_STR (repeat "k"%char 300),
                  MSGPACK_OBJECT_POSITIVE_INTEGER 1)]);
             (str "b", MSGPACK_OBJECT_POSITIVE_INTEGER 2)]))
  = 0%Z
  /\ msgpack_unpack_next
       (snd (es_pack_map_content
               (flb_malloc starved) default_ctx
               (msgpack_pack_map msgpack_sbuffer_init 2)
               (MSGPACK_OBJECT_MAP
                  [(str "a",
                    MSGPACK_OBJECT_MAP
                      [(MSGPACK_OBJECT_STR (repeat "k"%char 300),
                        MSGPACK_OBJECT_POSITIVE_INTEGER 1)]);
                   (str "b", MSGPACK_OBJECT_POSITIVE_INTEGER 2)])))
     = None
  /\ elasticsearch_format starved default_ctx (B "tag") no_entry_values
                          [nested_long_key_record]
     = Format_error false.
Proof. vm_compute. repeat split. Qed.

(** A map with a key of 300 bytes, nested in a record, on a platform
    that refuses every heap block: the nested call returns -1 and
    writes nothing behind the header, and the call for the record
    returns 0. *)
Lemma nested_failure_is_dropped_witness :
  es_pack_map_content
    (flb_malloc starved) default_ctx msgpack_sbuffer_init
    (MSGPACK_OBJECT_MAP [(MSGPACK_OBJECT_STR (repeat "k"%char 300),
                          MSGPACK_OBJECT_POSITIVE_INTEGER 1)])
  = ((-1)%Z, msgpack_sbuffer_init)
  /\ fst (es_pack_map_content
            (flb_malloc starved) default_ctx msgpack_sbuffer_init
            (MSGPACK_OBJECT_MAP
               [(str "a",
                 MSGPACK_OBJECT_MAP
                   [(MSGPACK_OBJECT_STR (repeat "k"%char 300),
                     MSGPACK_OBJECT_POSITIVE_INTEGER 1)])]))
     = 0%Z.
Proof.
  destruct (@nested_failure_is_dropped
              (flb_malloc starved) default_ctx []
              (MSGPACK_OBJECT_STR (repeat "k"%char 300))
              (MSGPACK_OBJECT_POSITIVE_INTEGER 1) [] eq_refl eq_refl)
    as [Hnested [_ [Hzero _]]].
  split.
  - exact (Hnested msgpack_sbuffer_init).
  - exact (Hzero msgpack_sbuffer_init (str "a") eq_refl).
Defined.

(** The static logstash prefix at two records, of 2024-01-02 and of
    2023-06-15. *)
Lemma logstash_static_prefix_witness :
  exists pairs json1 json2,
    elasticsearch_format reference logstash_ctx (B "tag") no_entry_values
                         [record_at 1704153600 [(str "msg", str "hi")];
                          record_at 1686787200 [(str "msg", str "ho")]]
    = Format_ok (flat_map line_pair pairs) 212
    /\ nth_error pairs 0
       = Some (ES_BULK_INDEX_FMT (B "app-2024.01.02") (B "_doc"), json1)
    /\ nth_error pairs 1
       = Some (ES_BULK_INDEX_FMT (B "app-2023.06.15") (B "_doc"), json2).
Proof.
  assert (Hrun : elasticsearch_format
                   reference logstash_ctx (B "tag") no_entry_values
                   [record_at 1704153600 [(str "msg", str "hi")];
                    record_at 1686787200 [(str "msg", str "ho")]]
                 = Format_ok
                     (fst (output_of
                             (elasticsearch_format
                                reference logstash_ctx (B "tag")
                                no_entry_values
                                [record_at 1704153600 [(str "msg", str "hi")];
                                 record_at 1686787200
                                           [(str "msg", str "ho")]])))
                     212)
    by (vm_compute; reflexivity).
  destruct (@logstash_static_prefix_names_every_action_line
              reference logstash_ctx (B "tag") no_entry_values _ _ _
              eq_refl eq_refl Hrun) as [pairs [Hout Hall]].
  destruct (Hall [] (record_at 1704153600 [(str "msg", str "hi")])
                 [record_at 1686787200 [(str "msg", str "ho")]]
                 eq_refl eq_refl)
    as [action1 [json1 [id1 [Hnth1 [Hid1 Hact1]]]]].
  destruct (Hall [record_at 1704153600 [(str "msg", str "hi")]]
                 (record_at 1686787200 [(str "msg", str "ho")]) []
                 eq_refl eq_refl)
    as [action2 [json2 [id2 [Hnth2 [Hid2 Hact2]]]]].
  rewrite (Hid1 eq_refl) in Hact1. rewrite (Hid2 eq_refl) in Hact2.
  vm_compute in Hact1. injection Hact1 as <-.
  vm_compute in Hact2. injection Hact2 as <-.
  exists pairs, json1, json2.
  split; [rewrite Hrun; now rewrite Hout |].
  split; [exact Hnth1 | exact Hnth2].
Defined.

(** The shared action line at two records with different [id] fields:
    both get the same action line. *)
Lemma pregenerated_action_line_witness :
  exists pairs,
    fst (output_of (elasticsearch_format
                      reference id_format_ctx (B "tag")
                      (entry_values_with id_entries) records_with_ids))
    = flat_map line_pair pairs
    /\ length pairs = 2
    /\ Forall (fun p => fst p
                        = ES_BULK_INDEX_FMT_ID (B "fluent-bit") (B "_doc") [])
              pairs.
Proof.
  destruct (@pregenerated_action_line_is_shared
              reference id_format_ctx (B "tag")
              (entry_values_with id_entries) records_with_ids
              (fst (output_of (elasticsearch_format
                                 reference id_format_ctx (B "tag")
                                 (entry_values_with id_entries) records_with_ids)))
              (snd (output_of (elasticsearch_format
                                 reference id_format_ctx (B "tag")
                                 (entry_values_with id_entries) records_with_ids)))
              eq_refl eq_refl)
    as [pairs [Hout [Hlen Hall]]].
  - vm_compute. reflexivity.
  - exists pairs. split; [exact Hout | split; [exact Hlen |]].
    specialize (Hall {| bulk_ptr := [] |}
                     (from_next (preamble reference id_format_ctx
                                          (entry_values_with id_entries)
                                          {| bulk_ptr := [] |}) no_state)
                     eq_refl).
    apply Forall_forall. intros p Hp. rewrite Forall_forall in Hall.
    specialize (Hall p Hp). remember (fst p) as action eqn:Haction.
    vm_compute in Hall. injection Hall as <-. reflexivity.
Defined.

(** A map with string keys at two depths, none with a dot, goes through
    the sanitizer as it is, dots in values included. *)
Lemma sanitizer_keeps_plain_string_keys_witness :
  es_pack_map_content
    (fun _ => true)
    (configured false false false true false [] [] None None)
    (msgpack_pack_map msgpack_sbuffer_init 2)
    (MSGPACK_OBJECT_MAP
       [(str "a", MSGPACK_OBJECT_MAP [(str "b", str "x.y")]);
        (str "c", MSGPACK_OBJECT_ARRAY [str "z"])])
  = (0%Z,
     msgpack_pack_object
       msgpack_sbuffer_init
       (MSGPACK_OBJECT_MAP
          [(str "a", MSGPACK_OBJECT_MAP [(str "b", str "x.y")]);
           (str "c", MSGPACK_OBJECT_ARRAY [str "z"])])).
Proof.
  exact (@sanitizer_keeps_plain_string_keys
           (fun _ => true)
           (configured false false false true false [] [] None None)
           [(str "a", MSGPACK_OBJECT_MAP [(str "b", str "x.y")]);
            (str "c", MSGPACK_OBJECT_ARRAY [str "z"])]
           eq_refl eq_refl msgpack_sbuffer_init).
Defined.

(** The sanitizer run on what it made of a map with dotted keys. *)
Lemma sanitizer_is_idempotent_witness :
  es_pack_map_content
    (fun _ => true)
    (configured false false false true false [] [] None None)
    msgpack_sbuffer_init
    (sanitized (configured false false false true false [] [] None None)
               (MSGPACK_OBJECT_MAP
                  [(str "a.b", MSGPACK_OBJECT_MAP [(str "c.d", str "x.y")])]))
  = es_pack_map_content
      (fun _ => true)
      (configured false false false true false [] [] None None)
      msgpack_sbuffer_init
      (MSGPACK_OBJECT_MAP
         [(str "a.b", MSGPACK_OBJECT_MAP [(str "c.d", str "x.y")])]).
Proof.
  exact (@sanitizer_is_idempotent
           (fun _ => true)
           (configured false false false true false [] [] None None)
           [(str "a.b", MSGPACK_OBJECT_MAP [(str "c.d", str "x.y")])]
           eq_refl msgpack_sbuffer_init).
Defined.


(** The time key of a record with 123456789 nanoseconds: milliseconds by
    default. *)
Lemma time_value_has_a_fixed_width_fraction_witness :
  exists digits,
    time_value reference default_ctx
               {| tv_sec := 1704153600; tv_nsec := 123456789 |}
    = Next (B "2024-01-02T00:00:00" ++ B "." ++ digits ++ B "Z")
    /\ length digits = 3
    /\ Forall is_decimal digits
    /\ decimal_value digits = 123%N.
Proof.
  exact (@time_value_has_a_fixed_width_fraction
           reference default_ctx
           {| tv_sec := 1704153600; tv_nsec := 123456789 |}
           eq_refl
           ltac:(vm_compute; lia)).
Defined.

(** The id format [static-id]. *)
Lemma id_format_without_placeholder_is_the_id_witness :
  expand_id_format (B "static-id") id_entries = Next (B "static-id").
Proof.
  exact (proj1 (@id_format_without_placeholder_is_the_id
                  reference
                  (configured false false false false false (B "fluent-bit") []
                              None (Some (B "static-id")))
                  (B "static-id") eq_refl eq_refl eq_refl eq_refl
                  ltac:(vm_compute; lia))
               id_entries).
Defined.

(** Lines of 20, of 165 and of 166 bytes against a header of 165. *)
Lemma action_line_must_fit_the_header_witness :
  action_bytes reference 165 (repeat "x"%char 19 ++ ["010"%char])
  = Next (repeat "x"%char 19 ++ ["010"%char])
  /\ action_bytes reference 165 (repeat "x"%char 164 ++ ["010"%char])
     = Next (repeat "x"%char 164 ++ [NUL])
  /\ action_bytes reference 165 (repeat "x"%char 165 ++ ["010"%char]) = Undefined.
Proof.
  split; [| split].
  - apply (@action_line_must_fit_the_header reference
             (repeat "x"%char 19 ++ ["010"%char]) ltac:(vm_compute; lia)).
    vm_compute. lia.
  - apply (@action_line_must_fit_the_header reference
             (repeat "x"%char 164 ++ ["010"%char]) ltac:(vm_compute; lia)).
    reflexivity.
  - apply (@action_line_must_fit_the_header reference
             (repeat "x"%char 165 ++ ["010"%char]) ltac:(vm_compute; lia)).
    vm_compute. lia.
Defined.

(** An empty chunk is an error that is not retried. *)
Lemma formatter_failure_is_an_error_without_retry_witness :
  cb_es_flush reference transport_ok pack_json true default_ctx
              (net_with None None None None false) (B "app")
              no_entry_values []
  = Flush_returns FLB_ERROR [Upstream_conn_release].
Proof.
  apply (@formatter_failure_is_an_error_without_retry
           reference transport_ok pack_json true default_ctx
           (net_with None None None None false) (B "app")
           no_entry_values [] eq_refl).
  left. reflexivity.
Defined.

(** A flush of two records that the server accepts. *)
Lemma flush_releases_what_it_takes_witness :
  exists calls,
    cb_es_flush reference transport_ok pack_json true default_ctx
                (net_with None None None None true) (B "app")
                no_entry_values records_of_2023
    = Flush_returns FLB_OK calls
    /\ count_calls is_conn_release calls = 1
    /\ count_calls is_http_client calls = 1
    /\ count_calls is_client_destroy calls = 1
    /\ count_calls is_free_pack calls = 1.
Proof.
  assert (H : cb_es_flush reference transport_ok pack_json true default_ctx
                          (net_with None None None None true) (B "app")
                          no_entry_values records_of_2023
              = Flush_returns FLB_OK _)
    by (vm_compute; reflexivity).
  eexists. split; [exact H |].
  destruct (@flush_releases_what_it_takes _ _ _ _ _ _ _ _ _ _ _ H)
    as [Hrel [Hcl [Hd [Hf _]]]].
  rewrite Hd, Hf, Hrel, Hcl. repeat split; vm_compute; reflexivity.
Defined.

(** A signed flush to a server that cannot be reached: the flush is
    retried and the signature left allocated. *)
Lemma signature_is_destroyed_only_on_success_witness :
  exists calls,
    cb_es_flush reference transport_down pack_json true default_ctx
                (net_with None None None None true) (B "app")
                no_entry_values records_of_2023
    = Flush_returns FLB_RETRY calls
    /\ count_calls is_signv4_do calls = 1
    /\ count_calls is_sds_destroy calls = 0.
Proof.
  assert (H : cb_es_flush reference transport_down pack_json true default_ctx
                          (net_with None None None None true) (B "app")
                          no_entry_values records_of_2023
              = Flush_returns FLB_RETRY _)
    by (vm_compute; reflexivity).
  eexists. split; [exact H |].
  destruct (@signature_is_destroyed_only_on_success _ _ _ _ _ _ _ _ _ _ _ H)
    as [_ [_ Hleak]].
  destruct (Hleak eq_refl eq_refl eq_refl) as [before [signature [_ Hcount]]].
  exact Hcount.
Defined.

(** A flush with both pairs of credentials: the request goes to the URI
    of the context with those of [http_user]. *)
Lemma sent_request_is_well_formed_witness :
  exists calls,
    cb_es_flush reference transport_ok pack_json false default_ctx
                (net_with (Some (B "elastic")) (Some (B "changeme"))
                          (Some (B "cloud")) (Some (B "secret")) false)
                (B "app") no_entry_values records_of_2023
    = Flush_returns FLB_OK calls
    /\ In (Http_add_header (B "Content-Type") (B "application/x-ndjson")) calls
    /\ count_calls is_user_agent calls = 1
    /\ In (Http_basic_auth (B "elastic") (B "changeme")) calls
    /\ ~ In (Http_basic_auth (B "cloud") (B "secret")) calls.
Proof.
  assert (H : cb_es_flush reference transport_ok pack_json false default_ctx
                          (net_with (Some (B "elastic")) (Some (B "changeme"))
                                    (Some (B "cloud")) (Some (B "secret")) false)
                          (B "app") no_entry_values records_of_2023
              = Flush_returns FLB_OK _)
    by (vm_compute; reflexivity).
  eexists. split; [exact H |].
  destruct (@sent_request_is_well_formed _ _ _ _ _ _ _ _ _ _ _ H)
    as [_ [Htype [Hagent Hauth]]].
  { cbn. do 6 right. left. reflexivity. }
  split; [exact Htype | split; [exact Hagent | split]].
  - apply Hauth. left. split; reflexivity.
  - intros Hin. apply Hauth in Hin.
    destruct Hin as [[Hu _] | [[Hu | Hp] _]]; discriminate.
Defined.

(** The cloud host of the reference cloud id. *)
Lemma cloud_host_of_a_cloud_id_witness :
  extract_cloud_host host cloud_id = Returns (Some (B "es01.example.us-east-1")).
Proof.
  apply (@cloud_host_of_a_cloud_id
           host (B "reference")
           (B "dXMtZWFzdC0xJGVzMDEuZXhhbXBsZSRrYjAxLmV4YW1wbGU=")
           (B "us-east-1") (B "es01.example") (B "$kb01.example")).
  - vm_compute. intuition discriminate.
  - vm_compute. intuition discriminate.
  - reflexivity.
  - vm_compute. lia.
  - discriminate.
  - discriminate.
  - vm_compute. intuition discriminate.
  - vm_compute. intuition discriminate.
  - vm_compute. intuition discriminate.
  - vm_compute. intuition discriminate.
  - right. reflexivity.
  - reflexivity.
Defined.

(** The shape of the cloud host of the reference cloud id. *)
Lemma cloud_host_is_well_formed_witness :
  exists region host_part,
    B "es01.example.us-east-1" = host_part ++ B "." ++ region
    /\ region <> [] /\ host_part <> []
    /\ ~ In dollar region /\ ~ In dollar host_part
    /\ ~ In NUL region /\ ~ In NUL host_part
    /\ length (B "es01.example.us-east-1") < 256.
Proof.
  exact (@cloud_host_is_well_formed host cloud_id
                                    (B "es01.example.us-east-1") eq_refl).
Defined.

(** A cloud id whose decoded text is 256 times the letter [a]: the
    decoder fills the array and [strtok] runs past its end. *)
Lemma extract_cloud_host_stays_in_its_arrays_witness :
  extract_cloud_host host (B "x:" ++ concat (repeat (B "YWFh") 85) ++ B "YQ==")
  = Undefined_behaviour.
Proof.
  destruct (@extract_cloud_host_stays_in_its_arrays
              host (B "x:" ++ concat (repeat (B "YWFh") 85) ++ B "YQ=="))
    as [_ H].
  apply (H (concat (repeat (B "YWFh") 85) ++ B "YQ==") (repeat "a"%char 256)).
  - vm_compute. reflexivity.
  - vm_compute. reflexivity.
  - reflexivity.
  - intros Hin. apply repeat_spec in Hin. discriminate Hin.
  - intros Hin. apply repeat_spec in Hin. discriminate Hin.
Defined.

(** The context created for [uri_instance] on the reference host, and
    its release: the copies of the index and of the type are made, and
    nothing destroys them. *)
Lemma created_context_is_released_once_on_exit_witness :
  exists c n h calls,
    flb_es_conf_create host true uri_instance = Conf_ctx c n h calls
    /\ (forall o, tracked o = true ->
                  created o calls
                  = destroyed o (calls ++ snd (cb_es_exit true (Some n))))
    /\ created Index_copy calls = 1
    /\ created Type_copy calls = 1
    /\ destroyed Index_copy (calls ++ snd (cb_es_exit true (Some n))) = 0
    /\ destroyed Type_copy (calls ++ snd (cb_es_exit true (Some n))) = 0
    /\ (forall o, destroyed o (snd (cb_es_exit true (Some n))) <= 1)
    /\ fst (cb_es_exit true (Some n)) = 0%Z.
Proof.
  assert (H : flb_es_conf_create host true uri_instance = Conf_ctx _ _ _ _)
    by (vm_compute; reflexivity).
  eexists _, _, _, _. split; [exact H |].
  destruct (@created_context_is_released_once_on_exit
              host true uri_instance _ _ _ _ H)
    as [Htracked [Hnever [Hi [Ht [_ [Honce Hret]]]]]].
  split; [exact Htracked |]. split; [exact Hi |]. split; [exact Ht |].
  split; [exact (Hnever Index_copy eq_refl) |].
  split; [exact (Hnever Type_copy eq_refl) |].
  split; [exact Honce | exact Hret].
Defined.

(** Its URI and the limit of its response buffer. *)
Lemma created_context_holds_the_bulk_uri_witness :
  exists c n h calls,
    flb_es_conf_create host true cloud_instance = Conf_ctx c n h calls
    /\ uri n = B "/es/_bulk/?pipeline=p1"
    /\ buffer_size n = 0%Z.
Proof.
  assert (H : flb_es_conf_create host true cloud_instance = Conf_ctx _ _ _ _)
    by (vm_compute; reflexivity).
  eexists _, _, _, _. split; [exact H |].
  destruct (@created_context_holds_the_bulk_uri
              host true cloud_instance _ _ _ _ H)
    as [_ [Huri [_ [_ [c0 [n0 [Hmap [Hbuf _]]]]]]]].
  split.
  - apply Huri. vm_compute. lia.
  - apply Hbuf. injection Hmap as _ <-. reflexivity.
Defined.

(** Its credentials: [elastic] and [secret], the third part ignored. *)
Lemma cloud_auth_gives_the_first_two_tokens_witness :
  exists c n h calls,
    flb_es_conf_create host true cloud_instance = Conf_ctx c n h calls
    /\ cloud_user n = Some (B "elastic")
    /\ cloud_passwd n = Some (B "secret").
Proof.
  assert (H : flb_es_conf_create host true cloud_instance = Conf_ctx _ _ _ _)
    by (vm_compute; reflexivity).
  eexists _, _, _, _. split; [exact H |].
  destruct (@cloud_auth_gives_the_first_two_tokens
              host true cloud_instance _ _ _ _ H) as [_ Hauth].
  destruct (Hauth (B "elastic:secret:more") eq_refl) as [toks [Hsplit [Hu Hp]]].
  injection Hsplit as <-. split; [exact Hu | exact Hp].
Defined.

(** AWS authentication is on for [aws_auth only] and off for
    [aws_auth true]. *)
Lemma aws_auth_is_enabled_by_on_only_witness :
  (exists c n h calls,
      flb_es_conf_create host true cloud_instance = Conf_ctx c n h calls
      /\ has_aws_auth n = true
      /\ aws_region n = Some (B "eu-west-1")
      /\ aws_provider n = Some Sts_provider
      /\ base_aws_provider n = Some Chain_provider)
  /\ (exists c n h calls,
         flb_es_conf_create host true uri_instance = Conf_ctx c n h calls
         /\ has_aws_auth n = false).
Proof.
  split.
  - assert (H : flb_es_conf_create host true cloud_instance = Conf_ctx _ _ _ _)
      by (vm_compute; reflexivity).
    eexists _, _, _, _. split; [exact H |].
    destruct (@aws_auth_is_enabled_by_on_only
                host true cloud_instance _ _ _ _ eq_refl H) as [[_ Hon] Hset].
    split; [reflexivity |].
    destruct (Hset eq_refl) as [_ [Hregion [_ [_ Hrole]]]].
    split; [exact Hregion |].
    destruct Hrole as [Hp [Hb _]]; [discriminate |]. split; [exact Hp | exact Hb].
  - assert (H : flb_es_conf_create host true uri_instance = Conf_ctx _ _ _ _)
      by (vm_compute; reflexivity).
    eexists _, _, _, _. split; [exact H |].
    destruct (@aws_auth_is_enabled_by_on_only
                host true uri_instance _ _ _ _ eq_refl H) as [[Honly _] _].
    match goal with
    | |- ?b = false => destruct b eqn:Hb; [| reflexivity]
    end.
    destruct (Honly eq_refl) as [v [Hv [Ho _]]].
    injection Hv as <-. discriminate Ho.
Defined.

(** The names of the context created for [uri_instance]. *)
Lemma created_context_formats_with_the_configured_names_witness :
  exists ctx n h calls,
    flb_es_conf_create host true uri_instance = Conf_ctx (Some ctx) n h calls
    /\ index ctx = B "logs" /\ type ctx = B "event"
    /\ id_format ctx = Some (B "$[id]").
Proof.
  assert (H : flb_es_conf_create host true uri_instance = Conf_ctx (Some _) _ _ _)
    by (vm_compute; reflexivity).
  eexists _, _, _, _. split; [exact H |].
  destruct (@created_context_formats_with_the_configured_names
              host true uri_instance _ _ _ _ H)
    as [c0 [n0 [_ [Hi [Ht [Hf _]]]]]].
  split; [exact Hi | split; [exact Ht | exact Hf]].
Defined.

(** On a host that refuses the TLS instance of STS, the creation fails
    and releases what it made. *)
Lemma failed_creation_releases_what_it_made_witness :
  exists h calls,
    flb_es_conf_create
      (host_with (fun o => negb (object_eqb o Sts_tls)) true None)
      true cloud_instance = Conf_null h calls
    /\ forall o, released_on_failure o = true ->
                 created o calls = destroyed o calls.
Proof.
  assert (H : flb_es_conf_create
                 (host_with (fun o => negb (object_eqb o Sts_tls)) true None)
                 true cloud_instance = Conf_null _ _)
    by (vm_compute; reflexivity).
  eexists _, _. split; [exact H |].
  exact (@failed_creation_releases_what_it_made _ true cloud_instance _ _ H).
Defined.

(** On that host the provider of the standard chain is destroyed twice
    and the session name not at all. *)
Lemma role_failure_destroys_the_provider_twice_witness :
  exists h calls,
    flb_es_conf_create
      (host_with (fun o => negb (object_eqb o Sts_tls)) true None)
      true cloud_instance = Conf_null h calls
    /\ created Chain_provider calls = 1
    /\ destroyed Chain_provider calls = 2
    /\ created Session_name calls = 1
    /\ destroyed Session_name calls = 0.
Proof.
  assert (H : flb_es_conf_create
                 (host_with (fun o => negb (object_eqb o Sts_tls)) true None)
                 true cloud_instance = Conf_null _ _)
    by (vm_compute; reflexivity).
  eexists _, _. split; [exact H |].
  destruct (@role_failure_destroys_the_provider_twice
              _ true cloud_instance _ _ H eq_refl)
    as [Htwice Hname].
  - discriminate.
  - right. reflexivity.
  - destruct (Hname eq_refl) as [Hc Hd].
    split; [reflexivity | split; [exact Htwice | split; [exact Hc | exact Hd]]].
Defined.

(** A signed flush that the server accepts. *)
Lemma aws_request_is_signed_before_it_is_sent_witness :
  exists calls head after,
    cb_es_flush reference transport_ok pack_json true default_ctx
                (net_with None None None None true) (B "app")
                no_entry_values records_of_2023
    = Flush_returns FLB_OK calls
    /\ calls = head ++ [Http_strip_port_from_host;
                        Http_add_header (B "User-Agent")
                                        (B "aws-fluent-bit-plugin");
                        Signv4_do (Some (B "us-east-1")) (B "es")
                                  (Some Chain_provider);
                        Http_client_debug; Http_do] ++ after
    /\ ~ In Http_do head.
Proof.
  assert (H : cb_es_flush reference transport_ok pack_json true default_ctx
                          (net_with None None None None true) (B "app")
                          no_entry_values records_of_2023
              = Flush_returns FLB_OK _)
    by (vm_compute; reflexivity).
  destruct (@aws_request_is_signed_before_it_is_sent
              reference transport_ok pack_json true default_ctx
              (net_with None None None None true) (B "app")
              no_entry_values records_of_2023 _ _ eq_refl eq_refl H)
    as [Hsent _].
  destruct Hsent as [head [after [signature [Hcalls [Hhead _]]]]].
  { cbn. do 7 right. left. reflexivity. }
  eexists _, head, after.
  split; [exact H | split; [exact Hcalls | exact Hhead]].
Defined.

End Examples.
